(* ===== verification/_CoqProject ===== *)
-Q . S2P
Prelude.v
Bfs.v
Status.v
EpisodeKey.v
Sql.v
CoreDb.v
Reservations.v
Mouth.v
Yard.v
YardReads.v
Resolver.v
Capacity.v
Reshuffle.v
GatedPlan.v
Splice.v
Junction.v
Admission.v
Fleet.v
OrderStore.v
BinManifest.v
UopApplier.v
Accumulator.v
Outbox.v
UopFlow.v
EdgeStore.v
EdgeCounts.v
Futility.v
Lifecycle.v
Waybill.v
QueueReason.v
Chapters.v
DigLock.v
LaneGate.v
LaneOrder.v
Prog.v
SourceFinder.v
Scanner.v
Compound.v
EdgeOrders.v
