(* ===== verification/Prelude.v ===== *)
(** * Shingo: the material-flow server and its edge stations

    Shingo moves bins of parts between storage lanes and production lines.
    [shingo-core] owns the orders, the bins, the nodes and the robots' fleet
    interface, in a PostgreSQL database; [shingo-edge] runs beside a line,
    mirrors the status of its orders and counts consumption; [protocol] is the
    vocabulary both share.  This library models the parts that decide what
    happens to an order, to a bin and to a count, and proves that they do it
    correctly.

    ** Parts, files and sources

    The vocabulary:
    - [Status], [Bfs]: protocol/status.go and protocol/types.go - the order
      statuses, their classifications, the transition table, the breadth-first
      forward-jump search, the SQL lists spliced from them.
    - [EpisodeKey]: protocol/episode_key.go - the demand episode keys.

    Core's database:
    - [Sql]: the [database/sql] discipline of every store function, as a state
      and error monad over abstract tables with a plan of driver faults.
    - [CoreDb]: the rows and columns of Core's tables that the modelled
      statements touch, with the schema constraints the code relies on.
    - [Reservations]: store/reservations/reservations.go.
    - [Mouth]: store/reservations/mouth.go, dig_exclusion.go and
      dispatch/binresolver/lane_lock.go - lane holds, dig locks, occupancy.
    - [OrderStore]: the status-writing operations of store/orders.go and
      store/orders/orders.go.
    - [Junction]: store/orders/order_bins.go and dispatch/splice_reindex.go.

    - [Prog]: programs of calls on an interface, their runs and what is known
      along a run; for the components below that only decide.

    The yard and what is planned in it:
    - [Yard], [YardReads]: store/lane_queries.go and the readers of store/nodes
      and store/bins it uses - groups, lanes, slots, who is buried, where a bin
      may be stored; and how a decision procedure reads them under faults.
    - [Resolver]: dispatch/binresolver - which bin serves a retrieve, which slot
      a store.
    - [Capacity]: dispatch/capacity.go - may an order go to its destination now.
    - [Reshuffle]: dispatch/reshuffle.go - what to dig out and where to park it.
    - [Admission]: dispatch/admission.go and bin_for_step.go - may this move
      happen now: whose dig, who is inside, can the bin be reached.
    - [LaneGate]: dispatch/lane_gate.go and the commit of fleet_handover.go -
      the lanes an order takes before it is sent, its presence in them, its exit.
    - [LaneOrder]: dispatch/lane_entry.go and the verdict of
      lane_gate_release.go - which of the robots waiting at a lane goes next.
    - [SourceFinder]: dispatch/binsource, source_finder.go and its types - which
      bin an order takes, from its node, its group, its loader's pool or the plant.
    - [Scanner]: fulfillment/scanner.go - the pass that carries each waiting
      order to the fleet or parks it with a reason.

    Plans and the fleet:
    - [GatedPlan]: the steps of a plan, its cuts at the waits, the fleet blocks
      (dispatch/complex.go, complex_steps.go and neighbours).
    - [Splice]: dispatch/lane_gate_dispatch.go - the waits inserted before
      marked lanes.
    - [Fleet]: fleet/fleet.go with fleet/simulator and fleet/seerrds/adapter.go.
    - [Waybill]: dispatch/fleet_handover.go and the appends of
      complex_release.go and lane_gate_dispatch.go.
    - [QueueReason]: dispatch/queue_reason.go - the sentence beside a waiting
      order.
    - [Chapters], [DigLock], [Compound]: dispatch/compound.go and
      dig_lock_release.go - the legs of a dig, when its lane is given up, and
      what becomes of the demand when it ends.

    Orders and counts in Core:
    - [Futility]: dispatch/futility.go.
    - [Lifecycle]: dispatch/lifecycle.go - the transition driver, the action
      map and every named transition, over [OrderStore] and [Futility].
    - [BinManifest]: service/bin_manifest.go with store/audit and the claim
      statements of store/bins and store/nodes - counts, generations, claims.
    - [UopApplier]: uop/applier.go - application of consumption reports.

    The Edge:
    - [EdgeOrders]: shingo-edge/orders - the mirror of order status, delivery
      seeds, boot reconciliation and operator actions, over a SQLite store.
    - [EdgeStore], [EdgeCounts]: shingo-edge/uop and store/lineside - ticks,
      holds, captures, lineside buckets.
    - [Accumulator]: shingo-edge/uop/accumulator.go - the concurrent sums the
      ticks are recorded in.
    - [Outbox]: protocol/outbox/drainer.go with both outbox tables.
    - [UopFlow]: the accumulator, the outbox and Core's applier composed.

    Components call one another as the sources do: [Lifecycle] calls
    [OrderStore], which releases through [Reservations]; [BinManifest] claims
    under [Reservations]; [UopApplier] clears through [BinManifest]; [Resolver],
    [Capacity], [Reshuffle] and [Splice] decide over the reads of [Yard];
    [Waybill] drives [Lifecycle] and a fleet given by the class [Fleet.Backend].
    Its laws say what an acknowledged call did and that no call touches another
    mission; of a call answered with an error they say nothing more, since the
    answer can be lost on the way.  The simulator, the adapter and a fleet that
    loses answers ([Fleet.Lossy]) satisfy them.  [Compound] cancels, queues and
    confirms through [Lifecycle] and wakes waiting lanes through the class
    [DigLock.LaneWakes], of which nothing is assumed; [LaneGate] asks [Admission]
    and then takes rows through [Mouth].  [SourceFinder] and [Scanner] are
    programs of calls on their interfaces ([Prog]), run against any answers - the
    theorems speak of the calls made and answers given in one run - and, where
    reservations matter, against Core's tables.  The yard's queries have tables of their own ([Yard.Yard]), with the
    columns they read; they change nothing.  [LaneGate.view] is the yard over
    Core's tables.

    ** How code becomes definitions

    A store function is a program of the monad [SQL]: each Begin, statement and
    Commit is one driver call, consuming one boolean of the connection's fault
    plan ([true]: the call fails and changes nothing).  A theorem about an
    arbitrary connection therefore covers every placement of driver errors; one
    about a healthy connection has an exhausted plan.  A transaction is one
    step on the tables, rolled back as a whole unless it commits; concurrent
    transactions are serial (the sources' row and advisory locks, compare-and-
    swap updates and unique indexes are modelled, anomalies of the isolation
    level are not).  Interleavings are sequences of operations; the accumulator's
    goroutines are a step relation with one step per atomic access.  Services
    with in-memory state are records passed along; notifications are appended to
    a trace.  What others write during a fleet call is a parameter of the call,
    and so is the order in which a Go map is ranged over.  Integers of 32-bit
    columns are checked against their range; identifiers, sequence numbers and
    clocks are [Z].  Time is read from the state ([clock_now] for the injected
    clock, [db_now] for SQL's NOW()).  Log lines are dropped, error texts are the
    constructors of an error type.  Rows with equal sort keys come in table
    order.

    Bounds: [Status.jump_fuel] bounds the breadth-first search and is proved
    sufficient for every pair of statuses; the parking search of [Reshuffle]
    recurses at most once into itself, which is proved to end it on every input;
    walks up a node's ancestors take the number of nodes as fuel.  Everything
    else is structural.

    ** What the theorems show

    - Orders: one terminal status, announced once, under any interleaving of
      callers with stale snapshots and any driver faults, as long as no raw
      MarkPending or completion repair is made on an ended order; every status write is
      an edge of the table from the stored status; terminalization releases
      every hold; stale compare-and-swaps write nothing.
    - Lanes: never two directions, never a stranger beside a dig; acquisition
      is all-or-nothing in ascending lock order; excavation claims survive.
      Admission says yes exactly when the questions the caller has not waived
      are answered well, and never by mistake when a read fails; an order is sent
      only into lanes it holds; entries that ask before they take never put two
      orders inside one lane.  Which robot at the mark may go is stated exactly,
      and so is when some store can: two origins can wedge one another.
    - Sourcing and sending: the pool serves the best eligible carrier; a finder's
      answer is true of what it read; the scanner asks the fleet only with slot,
      bin, lanes and claim in hand, and after a refused create asks for its claim
      and lanes back.
    - Reservations and claims: one winner per bin or slot; a bin is claimed
      only from under its pending reservation, atomically with the confirmation.
    - The yard: FIFO retrieval serves or digs for the oldest bin; a store never
      walls in a bin somebody is coming for; an order fails structurally only
      when no bin can ever serve it; the dropoff gate never guesses; a dig plan
      uncovers its target in an order robots can drive if no retired bin stands
      in front of it, parks where it harms nobody, and its search ends.
    - Plans: the segments handed out add up to the plan, with unique block ids;
      the splice only inserts, gates every entry into a marked lane when its
      reads succeed, and refuses nothing it can gate; the junction rows follow
      the steps they name.
    - The fleet: a release is one step of the plan and an acknowledged one has
      reached the robot; a lane holds the row of every robot the fleet
      acknowledged sending into it; a failed handover calls back the mission it
      was acknowledged.  What an error answer that hides a success leaves behind
      is stated beside them.
    - Digs: a superseded dig never counts against the one that follows; a dig
      that fails sends its demand back to the queue instead of failing it; a
      dissolved one re-plans; a cancel on a healthy connection ends every leg
      before any lane is woken; a lane is given up only
      when nothing of the dig is left in it, whatever read fails.
    - Counts: every reset starts exactly one new generation with its ledger
      row, boundary row and announcement; reports are applied at most once
      under any delivery and exactly once under retries; the Edge's ticks are
      counted once and captures conserve parts while its store answers; the
      accumulator neither loses nor invents a unit under any interleaving; the
      outbox keeps its messages, and orders them while no snapshot supersedes any
      and passes are fail-stop; and under those conditions, for the counts of one
      load other than capture reductions, a bin's count in Core is the Edge's.
    - The Edge mirror: follows Core across missed messages, never resurrects a
      finished order along the guarded paths, adopts Core's status at boot.
    - The vocabulary: the search equals reachability, terminal statuses absorb,
      no status is stuck or unreachable; episode keys parse back.

    Some statements record behaviour that contradicts the code's comments:
    [UopFlow.overtaken_count_lost], [EdgeCounts.failed_capture_half_booked],
    [Lifecycle.stale_skip_escapes_table],
    [EdgeOrders.rollback_for_retry_resurrects],
    [Splice.failed_read_opens_the_gate], [Capacity.full_gate_ignores_lanes],
    [Chapters.config_fault_masked], [DigLock.missing_claimant_is_unreadable],
    [Compound.failed_listing_confirms_demand], [Admission.later_pickup_not_asked],
    [Admission.unread_step_admitted], [LaneGate.refusal_gives_up_the_dug_lane],
    [LaneGate.unread_lane_not_recorded],
    [LaneGate.failed_rollback_keeps_the_seat], [LaneOrder.pair_in_front_wedges],
    [Reshuffle.retired_bin_stays_in_the_way],
    [Waybill.lost_append_empties_the_lane], [Waybill.lost_create_leaves_a_mission],
    [Waybill.failed_cancel_goes_unreported], [EdgeCounts.lost_clear_counts_twice],
    [SourceFinder.failed_lookup_leaves_the_group],
    [SourceFinder.unread_window_takes_a_partial] and
    [Scanner.refused_create_strands].

    ** Not modelled

    - HTTP handlers, templates, configuration, migrations, process start-up, the
      RDS client and poller, the Kafka transport and the routers: input, output
      and glue.
    - Read-only listings, telemetry and reports: nothing depends on them.
    - The resolution of complex steps, the allocator, the sending of a dig's
      legs, the release evaluator's re-binding and what a woken lane does: they compose operations
      modelled here ([Resolver], [Splice], [Waybill], [LaneGate], [LaneOrder])
      and are stated at those, not as one procedure.
    - The engines' wiring and sweeps: event handlers whose effects are the
      modelled operations; their timing is the interleaving the theorems range
      over.
    - Changeover planning, loaders and demand episodes on the Edge beyond the
      episode keys: a separate program over tables this library does not have.
    - Small protocol libraries (backoff, simulated clock, debug log, event bus,
      authentication): no part in what happens to an order, a bin or a count.
    *)

From stdpp Require Export base list strings gmap relations.
From Stdlib Require Export ZArith Lia Sorting.Permutation Sorting.Sorted.

(** ** Notations *)

Declare Scope shingo_scope.
Delimit Scope shingo_scope with shingo.
Open Scope shingo_scope.

(** Go's [==] on strings and on [int64] values. *)
Notation "a =s b" := (String.eqb a b) (at level 70, no associativity) : shingo_scope.
Notation "a <>s b" := (negb (String.eqb a b)) (at level 70, no associativity) : shingo_scope.
Notation "a =i b" := (Z.eqb a b) (at level 70, no associativity) : shingo_scope.

(** ** Automation *)

Create HintDb shingo.

(** Turn boolean tests of the code into the propositions they decide. *)
Ltac breflect :=
  repeat match goal with
  | H : andb _ _ = true |- _ => apply andb_true_iff in H; destruct H
  | H : orb _ _ = false |- _ => apply orb_false_iff in H; destruct H
  | H : negb _ = true |- _ => apply negb_true_iff in H
  | H : negb _ = false |- _ => apply negb_false_iff in H
  | H : String.eqb _ _ = true |- _ => apply String.eqb_eq in H
  | H : String.eqb _ _ = false |- _ => apply String.eqb_neq in H
  | H : Z.eqb _ _ = true |- _ => apply Z.eqb_eq in H
  | H : Z.eqb _ _ = false |- _ => apply Z.eqb_neq in H
  | H : Z.ltb _ _ = true |- _ => apply Z.ltb_lt in H
  | H : Z.ltb _ _ = false |- _ => apply Z.ltb_ge in H
  | H : Z.leb _ _ = true |- _ => apply Z.leb_le in H
  | H : Z.leb _ _ = false |- _ => apply Z.leb_gt in H
  end.

(** Split every [match] and [if] of the goal and of the hypotheses. *)
Ltac split_ifs :=
  repeat (case_match; simplify_eq/=); breflect.

(** ** Strings *)

Lemma eqb_spec_s (a b : string) : Bool.reflect (a = b) (a =s b).
Proof. destruct (a =s b) eqn:E; constructor; by breflect. Qed.

Lemma seqb_refl (a : string) : (a =s a) = true.
Proof. apply String.eqb_refl. Qed.

Lemma seqb_neq (a b : string) : a <> b -> (a =s b) = false.
Proof. apply String.eqb_neq. Qed.

#[export] Hint Resolve seqb_refl Z.eqb_refl : shingo.


(** [slices.Contains] on strings. *)
Definition contains (l : list string) (x : string) : bool :=
  existsb (fun y => y =s x) l.

Lemma contains_true (l : list string) (x : string) :
  contains l x = true <-> x ∈ l.
Proof.
  unfold contains. rewrite existsb_exists, list_elem_of_In. split.
  - intros (y & Hy & E). by breflect; subst.
  - intros H. exists x. split; [done|apply seqb_refl].
Qed.

Lemma contains_false (l : list string) (x : string) :
  contains l x = false <-> x ∉ l.
Proof. rewrite <- contains_true. destruct (contains l x); naive_solver. Qed.

(** [strings.Join]. *)
Fixpoint join (sep : string) (l : list string) : string :=
  match l with
  | [] => ""
  | [x] => x
  | x :: rest => x +:+ sep +:+ join sep rest
  end.

(** ** Go maps with string keys, as association lists *)

Fixpoint map_get {A} (m : list (string * A)) (k : string) : option A :=
  match m with
  | [] => None
  | (k', v) :: rest => if k' =s k then Some v else map_get rest k
  end.

Lemma map_get_in {A} (m : list (string * A)) k v :
  map_get m k = Some v -> (k, v) ∈ m.
Proof.
  induction m as [|[k' v'] m IH]; simpl; [done|].
  destruct (k' =s k) eqn:E; intros; simplify_eq; breflect; subst; set_solver.
Qed.

Lemma map_get_none {A} (m : list (string * A)) k :
  map_get m k = None <-> k ∉ m.*1.
Proof.
  induction m as [|[k' v'] m IH]; simpl; [set_solver|].
  rewrite not_elem_of_cons. destruct (k' =s k) eqn:E; breflect.
  - split; [done|]. intros [? _]; congruence.
  - rewrite IH. intuition congruence.
Qed.

(** ** Sorting (insertion sort, the reference for [sort.Strings] and
    [slices.Sort]) *)

Section Sorting.
Context {A : Type} (leb : A -> A -> bool).

Fixpoint insert_sorted (x : A) (l : list A) : list A :=
  match l with
  | [] => [x]
  | y :: ys => if leb x y then x :: y :: ys else y :: insert_sorted x ys
  end.

Fixpoint isort (l : list A) : list A :=
  match l with
  | [] => []
  | x :: xs => insert_sorted x (isort xs)
  end.

Lemma insert_sorted_perm x l : insert_sorted x l ≡ₚ x :: l.
Proof.
  induction l as [|y ys IH]; simpl; [done|].
  destruct (leb x y); [done|]. rewrite IH. apply Permutation_swap.
Qed.

Lemma isort_perm l : isort l ≡ₚ l.
Proof.
  induction l as [|x xs IH]; simpl; [done|]. by rewrite insert_sorted_perm, IH.
Qed.

Lemma elem_of_isort x l : x ∈ isort l <-> x ∈ l.
Proof. by rewrite isort_perm. Qed.

Hypothesis leb_total : forall a b, leb a b = false -> leb b a = true.

Lemma insert_sorted_sorted x l :
  Sorted (fun a b => leb a b = true) l ->
  Sorted (fun a b => leb a b = true) (insert_sorted x l).
Proof.
  induction 1 as [|y ys Hs IH Hd]; simpl; [by repeat constructor|].
  destruct (leb x y) eqn:E; [by repeat constructor|].
  constructor; [done|].
  destruct ys as [|z zs]; simpl in *; [constructor; auto|].
  destruct (leb x z); constructor; auto. by inversion Hd.
Qed.

Lemma isort_sorted l : Sorted (fun a b => leb a b = true) (isort l).
Proof. induction l; simpl; [constructor|]. by apply insert_sorted_sorted. Qed.
End Sorting.

(** ** Results of fallible code *)

Inductive outcome (E A : Type) :=
| Ok (a : A)
| Err (e : E).
Arguments Ok {E A} a.
Arguments Err {E A} e.

Definition is_ok {E A} (o : outcome E A) : bool :=
  match o with Ok _ => true | Err _ => false end.

(** ** List lemmas shared by the table models *)

Lemma existsb_true {A} (f : A -> bool) l :
  existsb f l = true <-> exists x, x ∈ l /\ f x = true.
Proof. rewrite existsb_exists. by setoid_rewrite list_elem_of_In. Qed.

Lemma existsb_false {A} (f : A -> bool) l :
  existsb f l = false <-> forall x, x ∈ l -> f x = false.
Proof.
  split.
  - intros H x Hx. destruct (f x) eqn:E; [|done].
    assert (existsb f l = true) by (apply existsb_true; eauto). congruence.
  - intros H. destruct (existsb f l) eqn:E; [|done].
    apply existsb_true in E as (x & Hx & E). rewrite H in E; done.
Qed.

Lemma forallb_true {A} (f : A -> bool) l :
  forallb f l = true <-> forall x, x ∈ l -> f x = true.
Proof. rewrite forallb_forall. by setoid_rewrite list_elem_of_In. Qed.

Lemma elem_of_lfilter {A} (f : A -> bool) l x :
  x ∈ List.filter f l <-> x ∈ l /\ f x = true.
Proof. by rewrite !list_elem_of_In, filter_In. Qed.

Lemma lfilter_all {A} (f : A -> bool) l :
  (forall x, x ∈ l -> f x = true) -> List.filter f l = l.
Proof.
  induction l as [|a l IH]; simpl; intros H; [done|].
  rewrite (H a) by set_solver. f_equal. apply IH. set_solver.
Qed.

Lemma lfilter_none {A} (f : A -> bool) l :
  (forall x, x ∈ l -> f x = false) -> List.filter f l = [].
Proof.
  induction l as [|a l IH]; simpl; intros H; [done|].
  rewrite (H a) by set_solver. apply IH. set_solver.
Qed.

Lemma lfilter_lfilter {A} (f g : A -> bool) l :
  List.filter f (List.filter g l) = List.filter (fun x => g x && f x) l.
Proof.
  induction l as [|a l IH]; simpl; [done|].
  destruct (g a); simpl; [|done]. destruct (f a); by rewrite IH.
Qed.

(** Pairwise properties of table rows. *)
Lemma FOP_filter {A} (R : A -> A -> Prop) (f : A -> bool) l :
  ForallOrdPairs R l -> ForallOrdPairs R (List.filter f l).
Proof.
  induction 1 as [|a l Ha H IH]; simpl; [constructor|].
  destruct (f a); [|done]. constructor; [|done].
  rewrite List.Forall_forall in *. intros x [Hx _]%filter_In. auto.
Qed.

Lemma FOP_snoc {A} (R : A -> A -> Prop) l x :
  ForallOrdPairs R l -> (forall y, y ∈ l -> R y x) -> ForallOrdPairs R (l ++ [x]).
Proof.
  induction 1 as [|a l Ha H IH]; simpl; intros Hx; [repeat constructor|].
  constructor; [|apply IH; set_solver].
  rewrite List.Forall_forall in *. intros y [Hy|[<-|[]]]%in_app_iff; [auto|].
  apply Hx. set_solver.
Qed.

Lemma FOP_map {A} (R : A -> A -> Prop) (g : A -> A) l :
  (forall x y, R x y -> R (g x) (g y)) ->
  ForallOrdPairs R l -> ForallOrdPairs R (map g l).
Proof.
  intros Hg. induction 1 as [|a l Ha H IH]; simpl; constructor; [|done].
  rewrite List.Forall_forall in *. intros y (z & <- & Hz)%in_map_iff. auto.
Qed.

Lemma FOP_elem {A} (R : A -> A -> Prop) l x y :
  ForallOrdPairs R l -> x ∈ l -> y ∈ l -> x = y \/ R x y \/ R y x.
Proof. intros. rewrite !list_elem_of_In in *. by eapply ForallOrdPairs_In. Qed.

(** ** Maps *)

Lemma alter_lookup_insert {A} (f : A -> A) (i : Z) (m : gmap Z A) x :
  m !! i = Some x -> alter f i m = <[i := f x]> m.
Proof.
  intros H. apply map_eq. intros j. destruct (decide (j = i)) as [->|Hne].
  - by rewrite lookup_alter_eq, lookup_insert_eq, H.
  - by rewrite lookup_alter_ne, lookup_insert_ne.
Qed.

(** ** Delivery at least once, in order *)

(** A stream delivered in order, any element again at any later time: the sender
    retries until it is acknowledged.  [seen] is what was delivered before. *)
Inductive redelivery {A} : list A -> list A -> list A -> Prop :=
| rd_done seen : redelivery seen [] []
| rd_next seen m stream msgs :
    redelivery (m :: seen) stream msgs -> redelivery seen (m :: stream) (m :: msgs)
| rd_again seen m stream msgs :
    m ∈ seen -> redelivery seen stream msgs -> redelivery seen stream (m :: msgs).

Lemma rd_snoc_next {A} (seen stream msgs : list A) x :
  redelivery seen stream msgs -> redelivery seen (stream ++ [x]) (msgs ++ [x]).
Proof. induction 1; cbn; by repeat constructor. Qed.

Lemma rd_snoc_again {A} (seen stream msgs : list A) x :
  x ∈ seen \/ x ∈ stream -> redelivery seen stream msgs -> redelivery seen stream (msgs ++ [x]).
Proof.
  intros Hx H. induction H as [seen|seen m stream msgs H IH|seen m stream msgs Hm H IH]; cbn.
  - apply rd_again; [set_solver|constructor].
  - apply rd_next, IH. set_solver.
  - apply rd_again; [done|]. by apply IH.
Qed.

Lemma rd_omap {A B} (f : A -> option B) (seen stream msgs : list A) :
  redelivery seen stream msgs -> redelivery (omap f seen) (omap f stream) (omap f msgs).
Proof.
  induction 1 as [seen|seen m stream msgs H IH|seen m stream msgs Hm H IH]; cbn in *.
  - constructor.
  - destruct (f m); [by constructor|done].
  - destruct (f m) eqn:E; [|done]. apply rd_again; [|done]. apply list_elem_of_omap. eauto.
Qed.

(** ** Keyed lists *)

Lemma keys_filter {A} (key : A -> Z) (p : A -> bool) l : NoDup (map key l) -> NoDup (map key (List.filter p l)).
Proof.
  induction l as [|a l IH]; [done|]. intros [Ha Hl]%NoDup_cons. cbn. destruct (p a); [|by apply IH]. cbn.
  constructor; [|by apply IH]. intros (b & E & [Hb _]%elem_of_lfilter)%list_elem_of_fmap. apply Ha, list_elem_of_fmap. by exists b.
Qed.

Lemma keys_inj {A} (key : A -> Z) l a b : NoDup (map key l) -> a ∈ l -> b ∈ l -> key a = key b -> a = b.
Proof.
  induction l as [|x l IH]; [by intros _ ?%elem_of_nil|]. intros [Hx Hl]%NoDup_cons.
  intros [->|Ha]%elem_of_cons [->|Hb]%elem_of_cons E; [done| | |by apply IH]; destruct Hx; apply list_elem_of_fmap; eauto.
Qed.

Lemma count_map {A B} (f : A -> B) (p : B -> bool) l : length (List.filter p (map f l)) = length (List.filter (fun a => p (f a)) l).
Proof. induction l as [|a l IH]; [done|]. cbn. destruct (p (f a)); cbn; by rewrite IH. Qed.

(** Two in a list without repeated keys: somebody else. *)
Lemma at_least_two {A} (key : A -> Z) (p : A -> bool) l a :
  NoDup (map key l) -> a ∈ l -> p a = true ->
  (2 <= length (List.filter p l))%nat <-> exists b, b ∈ l /\ p b = true /\ key b <> key a.
Proof.
  induction l as [|x l IH]; [by intros _ ?%elem_of_nil|]. intros [Hx Hl]%NoDup_cons. setoid_rewrite elem_of_cons.
  assert (Hk : forall b, b ∈ l -> key b <> key x).
  { intros b Hb E. apply Hx. apply list_elem_of_fmap. by exists b. }
  assert (Hone : (1 <= length (List.filter p l))%nat <-> exists b, b ∈ l /\ p b = true).
  { split.
    - destruct (List.filter p l) as [|b bs] eqn:E; [cbn; lia|]. intros _. exists b. apply elem_of_lfilter.
      rewrite E. left.
    - intros (b & Hb). apply elem_of_lfilter in Hb. destruct (List.filter p l); [by apply elem_of_nil in Hb|cbn; lia]. }
  intros [->|Ha] Hp; cbn.
  - rewrite Hp. cbn. split.
    + intros H. destruct (proj1 Hone) as (b & Hb & Hpb); [lia|]. eauto 7.
    + intros (b & [->|Hb] & Hpb & Hne); [done|]. enough (1 <= length (List.filter p l))%nat by lia. apply Hone. eauto.
  - destruct (p x) eqn:Epx; cbn.
    + split; [|intros _; enough (1 <= length (List.filter p l))%nat by lia; apply Hone; eauto].
      intros _. exists x. split_and!; [by left|done|]. intros E. by apply (Hk a Ha).
    + rewrite IH by done. split; [naive_solver|]. intros (b & [->|Hb] & Hpb & Hne); [congruence|eauto].
Qed.
