(* ===== verification/Bfs.v ===== *)
(** Breadth-first reachability over a finite successor table, the loop of
    [IsForwardJump] (protocol/types.go), with its correctness: enough fuel
    always gives an answer, [true] comes with a path and [false] excludes
    every path.  Status.v instantiates it with the transition table. *)

From S2P Require Import Prelude.

Section Bfs.
Context (succ : string -> list string) (to : string).

(** One legal step. *)
Definition edge (a b : string) : Prop := b ∈ succ a.

(** The inner [for _, next := range validTransitions[cur]] loop: [inl tt]
    when [to] is met, otherwise the extended [seen] and [queue]. *)
Fixpoint scan_next (nexts seen queue : list string)
    : unit + (list string * list string) :=
  match nexts with
  | [] => inr (seen, queue)
  | next :: rest =>
      if next =s to then inl ()
      else if contains seen next then scan_next rest seen queue
      else scan_next rest (next :: seen) (queue ++ [next])
  end.

(** The outer [for len(queue) > 0] loop; [None] is out of fuel. *)
Fixpoint bfs (fuel : nat) (seen queue : list string) : option bool :=
  match fuel with
  | O => None
  | S fuel' =>
      match queue with
      | [] => Some false
      | cur :: rest =>
          match scan_next (succ cur) seen rest with
          | inl _ => Some true
          | inr (seen', queue') => bfs fuel' seen' queue'
          end
      end
  end.

Lemma scan_next_found nexts seen queue :
  scan_next nexts seen queue = inl () -> to ∈ nexts.
Proof.
  revert seen queue. induction nexts as [|n ns IH]; simpl; [done|].
  intros seen queue. destruct (n =s to) eqn:E; breflect; [set_solver|].
  destruct (contains seen n); intros H; apply IH in H; set_solver.
Qed.

(** What a scan that does not meet [to] does to [seen] and [queue]. *)
Lemma scan_next_inr nexts seen queue seen' queue' :
  scan_next nexts seen queue = inr (seen', queue') ->
  to ∉ nexts /\
  exists new, seen' = reverse new ++ seen /\ queue' = queue ++ new /\
    (forall x, x ∈ new -> x ∈ nexts /\ x ∉ seen) /\
    (forall x, x ∈ nexts -> x ∈ seen') /\
    (NoDup seen -> NoDup seen').
Proof.
  revert seen queue. induction nexts as [|n ns IH]; simpl; intros seen queue H.
  - simplify_eq. split; [set_solver|]. exists []. simpl. rewrite app_nil_r.
    set_solver.
  - destruct (n =s to) eqn:E; [done|]. breflect.
    destruct (contains seen n) eqn:C; apply IH in H as [Ht (new & -> & -> & Hn & Hs & Hd)].
    + apply contains_true in C. split; [set_solver|]. exists new. set_solver.
    + apply contains_false in C. split; [set_solver|]. exists (n :: new).
      rewrite reverse_cons, <- !app_assoc. simpl. split_and!; try done.
      * set_solver.
      * intros x [->|Hx]%elem_of_cons; [set_solver|]. by apply Hs.
      * intros HN. apply Hd. by constructor.
Qed.

(** The loop invariant, relative to the starting status. *)
Record inv (from : string) (seen queue : list string) : Prop := {
  inv_from : from ∈ seen;
  inv_queue : forall x, x ∈ queue -> x ∈ seen;
  inv_reach : forall x, x ∈ seen -> rtc edge from x;
  inv_closed : forall x, x ∈ seen -> x ∈ queue \/
    (to ∉ succ x /\ forall y, y ∈ succ x -> y ∈ seen);
  inv_nodup : NoDup seen
}.

Lemma inv_init from : inv from [from] [from].
Proof.
  constructor; [set_solver|done| |set_solver|apply NoDup_singleton].
  intros x ->%list_elem_of_singleton. apply rtc_refl.
Qed.

Lemma inv_step from seen cur rest seen' queue' :
  inv from seen (cur :: rest) ->
  scan_next (succ cur) seen rest = inr (seen', queue') ->
  inv from seen' queue'.
Proof.
  intros [Hf Hq Hr Hc Hd] H.
  apply scan_next_inr in H as [Ht (new & -> & -> & Hn & Hs & Hd')].
  assert (Hcur : cur ∈ seen) by set_solver.
  constructor.
  - set_solver.
  - intros x. rewrite !elem_of_app, elem_of_reverse. set_solver.
  - intros x. rewrite elem_of_app, elem_of_reverse. intros [Hx|Hx]; [|auto].
    apply rtc_r with cur; [auto|]. apply Hn in Hx. unfold edge. tauto.
  - intros x. rewrite elem_of_app, elem_of_reverse.
    intros [Hx|Hx]; [left; set_solver|].
    destruct (Hc x Hx) as [[->|?]%elem_of_cons|[Hto Hcl]].
    + right. split; [done|apply Hs].
    + left; set_solver.
    + right. split; [done|]. intros y Hy. set_solver.
  - auto.
Qed.

Lemma bfs_true_path from fuel seen queue :
  inv from seen queue -> bfs fuel seen queue = Some true ->
  tc edge from to.
Proof.
  revert seen queue. induction fuel as [|n IH]; intros seen queue HI; simpl; [done|].
  destruct queue as [|cur rest]; [done|].
  destruct (scan_next (succ cur) seen rest) as [[]|[seen' queue']] eqn:E.
  - intros _. apply scan_next_found in E.
    apply tc_rtc_l with cur; [|by apply tc_once].
    apply HI. apply HI. set_solver.
  - apply IH. by eapply inv_step.
Qed.

(** A set closed under [succ] that never steps to [to] traps every path. *)
Lemma closed_no_path (seen : list string) from :
  from ∈ seen ->
  (forall x, x ∈ seen -> to ∉ succ x /\ forall y, y ∈ succ x -> y ∈ seen) ->
  ~ tc edge from to.
Proof.
  intros Hf Hc Ht.
  assert (G : forall a b, tc edge a b -> a ∈ seen -> b <> to).
  { induction 1 as [a b Hab|a b c Hab Hbc IH]; intros Ha.
    - destruct (Hc a Ha) as [Hto _]. intros ->. done.
    - apply IH. destruct (Hc a Ha) as [_ Hcl]. by apply Hcl. }
  by eapply G.
Qed.

Lemma bfs_false_no_path from fuel seen queue :
  inv from seen queue -> bfs fuel seen queue = Some false ->
  ~ tc edge from to.
Proof.
  revert seen queue. induction fuel as [|n IH]; intros seen queue HI; simpl; [done|].
  destruct queue as [|cur rest].
  - intros _. apply (closed_no_path seen); [apply HI|].
    intros x Hx. destruct (inv_closed _ _ _ HI x Hx) as [?|?]; [set_solver|done].
  - destruct (scan_next (succ cur) seen rest) as [[]|[seen' queue']] eqn:E; [done|].
    apply IH. by eapply inv_step.
Qed.

(** Fuel: every dequeued status was enqueued when it entered [seen], so the
    unseen part of the universe plus the queue bounds the iterations. *)
Lemma bfs_total (U : list string) from fuel seen queue :
  (forall x y, y ∈ succ x -> y ∈ U) ->
  inv from seen queue -> (forall x, x ∈ seen -> x ∈ U) ->
  length U + length queue < fuel + length seen ->
  exists b, bfs fuel seen queue = Some b.
Proof.
  intros HU. revert seen queue.
  induction fuel as [|n IH]; intros seen queue HI Hsub Hlen; simpl.
  - pose proof (submseteq_length seen U
      (NoDup_submseteq _ _ (inv_nodup _ _ _ HI) Hsub)). lia.
  - destruct queue as [|cur rest]; [eauto|].
    destruct (scan_next (succ cur) seen rest) as [[]|[seen' queue']] eqn:E; [eauto|].
    apply IH; [by eapply inv_step| |];
      apply scan_next_inr in E as [_ (new & -> & -> & Hn & _)].
    + intros x. rewrite elem_of_app, elem_of_reverse. intros [Hx|Hx]; [|auto].
      eapply HU. by apply Hn.
    + rewrite !length_app, length_reverse in *. simpl in Hlen. lia.
Qed.
End Bfs.
