(* ===== verification/Status.v ===== *)
(** The canonical order status machine shared by Core and Edge
    (protocol/status.go and the transition table of protocol/types.go): the
    vocabularies, the table and everything derived from it (terminality,
    terminal set, single steps, forward jumps), the intent predicates, the
    changeover-start classifier and the SQL list projectors.

    A [Status] is a Go string, so every definition is total over arbitrary
    strings, retired or unknown values included. *)

From S2P Require Import Prelude Bfs.

(** ** Vocabularies *)

Definition Status := string.

Definition StatusPending : Status := "pending".
Definition StatusSourcing : Status := "sourcing".
Definition StatusQueued : Status := "queued".
Definition StatusSubmitted : Status := "submitted".
Definition StatusDispatched : Status := "dispatched".
Definition StatusAcknowledged : Status := "acknowledged".
Definition StatusInTransit : Status := "in_transit".
Definition StatusDelivered : Status := "delivered".
Definition StatusConfirmed : Status := "confirmed".
Definition StatusStaged : Status := "staged".
Definition StatusFaulted : Status := "faulted".
Definition StatusFailed : Status := "failed".
Definition StatusCancelled : Status := "cancelled".
Definition StatusReshuffling : Status := "reshuffling".
Definition StatusSkipped : Status := "skipped".

Definition AllStatuses : list Status :=
  [ StatusPending; StatusSourcing; StatusQueued; StatusSubmitted;
    StatusDispatched; StatusAcknowledged; StatusInTransit; StatusStaged;
    StatusDelivered; StatusConfirmed; StatusFaulted; StatusFailed; StatusCancelled;
    StatusReshuffling; StatusSkipped ].

Definition QueueCode := string.

Definition AllQueueCodes : list QueueCode :=
  [ "waiting_for_material"; "waiting_for_slot"; "storage_rearranging";
    "waiting_for_partner"; "fleet_unavailable" ].

Definition ValidQueueCode (c : QueueCode) : bool :=
  if c =s "" then true else contains AllQueueCodes c.

Definition TermCode := string.

Definition AllTermCodes : list TermCode :=
  [ "no_source_bin"; "grace_timeout"; "no_payload"; "no_bin"; "no_storage";
    "no_shuffle_slot"; "missing_source"; "invalid_node"; "same_node"; "node_error";
    "claim_failed"; "lane_locked"; "read_failed"; "blocker_claimed";
    "reshuffle_error"; "structural"; "unknown_type"; "abandoned";
    "operator_cancelled"; "peer_terminal"; "not_needed" ].

Definition ValidTermCode (c : TermCode) : bool :=
  if c =s "" then true else contains AllTermCodes c.

(** What a reason concerns (order_history.ref). *)
Record TermRef := mkTermRef {
  ref_node : string;
  ref_payload : string;
  ref_peer : Z;
  ref_vendor_code : Z;
  ref_vendor_desc : string;
  ref_detail : string
}.

Definition emptyRef : TermRef := mkTermRef "" "" 0 0 "" "".

Definition TermRef_Empty (r : TermRef) : bool :=
  (ref_node r =s "") && (ref_payload r =s "") && (ref_peer r =i 0) &&
  (ref_vendor_code r =i 0) && (ref_vendor_desc r =s "") && (ref_detail r =s "").

(** ** The transition table *)

Definition validTransitions : list (Status * list Status) :=
  [ (StatusPending, [StatusSourcing; StatusSubmitted; StatusQueued; StatusReshuffling;
       StatusCancelled; StatusFailed; StatusSkipped]);
    (StatusSourcing, [StatusQueued; StatusSubmitted; StatusDispatched; StatusReshuffling;
       StatusCancelled; StatusFailed; StatusSkipped]);
    (StatusSubmitted, [StatusAcknowledged; StatusQueued; StatusCancelled; StatusFailed;
       StatusSkipped]);
    (StatusQueued, [StatusAcknowledged; StatusDispatched; StatusInTransit; StatusSourcing;
       StatusReshuffling; StatusCancelled; StatusFailed; StatusSkipped]);
    (StatusAcknowledged, [StatusDispatched; StatusInTransit; StatusSourcing;
       StatusCancelled; StatusFaulted; StatusFailed]);
    (StatusDispatched, [StatusInTransit; StatusDelivered; StatusSourcing;
       StatusCancelled; StatusFaulted; StatusFailed]);
    (StatusInTransit, [StatusDelivered; StatusStaged; StatusCancelled; StatusFaulted;
       StatusFailed]);
    (StatusStaged, [StatusInTransit; StatusDelivered; StatusCancelled; StatusFaulted;
       StatusFailed]);
    (StatusFaulted, [StatusInTransit; StatusDelivered; StatusFailed; StatusCancelled]);
    (StatusDelivered, [StatusConfirmed; StatusCancelled; StatusFailed]);
    (StatusReshuffling, [StatusConfirmed; StatusQueued; StatusCancelled; StatusFailed]) ].

Definition IsTerminal (s : Status) : bool :=
  match map_get validTransitions s with Some _ => false | None => true end.

(** The set a Go [map[Status]bool] collects, without its iteration order. *)
Fixpoint set_add_all (pred : Status -> bool) (l seen : list Status) : list Status :=
  match l with
  | [] => seen
  | to :: rest =>
      if pred to && negb (contains seen to) then set_add_all pred rest (seen ++ [to])
      else set_add_all pred rest seen
  end.

Definition TerminalStatuses : list Status :=
  let seen :=
    fold_left (fun seen allowed => set_add_all IsTerminal allowed.2 seen)
      validTransitions [] in
  isort String.leb seen.

Definition IsValidTransition (from to : Status) : bool :=
  match map_get validTransitions from with
  | None => false
  | Some allowed => contains allowed to
  end.

(** [validTransitions[cur]]: the nil slice on a lookup miss. *)
Definition successors (cur : Status) : list Status :=
  default [] (map_get validTransitions cur).

(** One iteration per status that can be enqueued, the start included, and one
    for the exit test: [IsForwardJump_fuel_enough]. *)
Definition jump_fuel : nat := S (S (length AllStatuses)).

Definition IsForwardJump (from to : Status) : bool :=
  if (from =s to) || IsValidTransition from to then false
  else default false (bfs successors to jump_fuel [from] [from]).

(** ** Intent predicates *)

Definition IsFailureTerminal (s : Status) : bool :=
  (s =s StatusCancelled) || (s =s StatusFailed).

Definition IsVendorActive (s : Status) : bool :=
  (s =s StatusDispatched) || (s =s StatusInTransit) || (s =s StatusStaged).

Definition IsVendorTracked (s : Status) : bool :=
  IsVendorActive s || (s =s StatusFaulted).

Definition IsPreDispatch (s : Status) : bool :=
  (s =s StatusPending) || (s =s StatusSourcing) || (s =s StatusQueued).

Definition IsAcquiring (s : Status) : bool :=
  (s =s StatusQueued) || (s =s StatusSourcing).

Definition IsRuntimeStuckCandidate (s : Status) : bool :=
  contains [StatusPending; StatusQueued; StatusSourcing; StatusSubmitted;
            StatusAcknowledged; StatusDispatched; StatusInTransit; StatusStaged] s.

Definition IsStuckSweepCandidate (s : Status) : bool :=
  (s =s StatusDispatched) || (s =s StatusStaged).

Definition IsOperatorVisible (s : Status) : bool :=
  (s <>s StatusConfirmed) && (s <>s StatusCancelled) && (s <>s StatusSkipped).

(** ** Changeover start *)

Inductive ChangeoverStartAction :=
| ChangeoverStartUnclassified
| ChangeoverStartCancel
| ChangeoverStartBlock
| ChangeoverStartPass.

#[export] Instance ChangeoverStartAction_eq_dec : EqDecision ChangeoverStartAction.
Proof. solve_decision. Defined.

Definition ChangeoverStartActionFor (s : Status) : ChangeoverStartAction :=
  if contains [StatusPending; StatusSubmitted; StatusAcknowledged; StatusSourcing;
               StatusQueued] s then ChangeoverStartCancel
  else if contains [StatusDispatched; StatusInTransit; StatusStaged; StatusFaulted] s
  then ChangeoverStartBlock
  else if contains [StatusDelivered; StatusReshuffling] s then ChangeoverStartPass
  else if contains [StatusConfirmed; StatusCancelled; StatusFailed; StatusSkipped] s
  then ChangeoverStartPass
  else ChangeoverStartUnclassified.

Definition BlocksChangeoverStart (s : Status) : bool :=
  bool_decide (ChangeoverStartActionFor s = ChangeoverStartBlock).

(** ** SQL projectors *)

Definition quote (s : Status) : string := "'" +:+ s +:+ "'".

Definition buildStatusSQLList (pred : Status -> bool) : string :=
  let parts := map quote (List.filter pred AllStatuses) in
  join "," (isort String.leb parts).

Definition TerminalStatusSQLList : string := buildStatusSQLList IsTerminal.
Definition NonTerminalStatusSQLList : string :=
  buildStatusSQLList (fun s => negb (IsTerminal s)).
Definition FailureTerminalStatusSQLList : string := buildStatusSQLList IsFailureTerminal.
Definition VendorActiveStatusSQLList : string := buildStatusSQLList IsVendorActive.
Definition VendorTrackedStatusSQLList : string := buildStatusSQLList IsVendorTracked.
Definition PreDispatchStatusSQLList : string := buildStatusSQLList IsPreDispatch.
Definition AcquiringStatusSQLList : string := buildStatusSQLList IsAcquiring.
Definition RuntimeStuckCandidateStatusSQLList : string :=
  buildStatusSQLList IsRuntimeStuckCandidate.
Definition StuckSweepStatusSQLList : string := buildStatusSQLList IsStuckSweepCandidate.
Definition OperatorVisibleStatusSQLList : string := buildStatusSQLList IsOperatorVisible.

Arguments IsTerminal : simpl never.
Arguments IsValidTransition : simpl never.
Arguments IsForwardJump : simpl never.
Arguments TerminalStatuses : simpl never.
Arguments AllStatuses : simpl never.
Arguments validTransitions : simpl never.
Arguments successors : simpl never.
Arguments jump_fuel : simpl never.
Arguments bfs : simpl never.

(** ** Shared lemmas: finite checks over the table and the vocabulary *)

Definition transition_edges : list (Status * Status) :=
  flat_map (fun '(f, allowed) => map (pair f) allowed) validTransitions.

Lemma valid_transition_edge f t :
  IsValidTransition f t = true <-> (f, t) ∈ transition_edges.
Proof.
  unfold IsValidTransition, transition_edges.
  rewrite list_elem_of_In, in_flat_map. split.
  - destruct (map_get validTransitions f) as [allowed|] eqn:E; [|done].
    intros H%contains_true. exists (f, allowed).
    split; [by apply list_elem_of_In, map_get_in|]. by apply in_map, list_elem_of_In.
  - intros ([f' allowed] & Hin & Ht).
    apply in_map_iff in Ht as (t' & Ht & Hin'). simplify_eq.
    apply list_elem_of_In in Hin'.
    assert (map_get validTransitions f = Some allowed) as ->; [|by apply contains_true].
    repeat (destruct Hin as [Hin|Hin]; [simplify_eq; reflexivity|]). done.
Qed.

(** A boolean property of every edge of the table, checked by computation. *)
Lemma edge_check (P : Status -> Status -> bool) :
  forallb (fun '(f, t) => P f t) transition_edges = true ->
  forall f t, IsValidTransition f t = true -> P f t = true.
Proof.
  intros H f t He%valid_transition_edge. rewrite forallb_forall in H.
  by apply (H (f, t)), list_elem_of_In.
Qed.

(** A boolean property of every defined status, checked by computation. *)
Lemma vocab_check (P : Status -> bool) :
  forallb P AllStatuses = true -> forall s, s ∈ AllStatuses -> P s = true.
Proof.
  intros H s Hs. rewrite forallb_forall in H. by apply H, list_elem_of_In.
Qed.

Lemma edge_is_valid f t : edge successors f t <-> IsValidTransition f t = true.
Proof.
  unfold edge, successors, IsValidTransition.
  destruct (map_get validTransitions f); simpl; [by rewrite contains_true|set_solver].
Qed.

Lemma valid_target_known f t : IsValidTransition f t = true -> t ∈ AllStatuses.
Proof.
  intros H. apply contains_true. revert f t H.
  apply (edge_check (fun _ t => contains AllStatuses t)). reflexivity.
Qed.

Lemma valid_source_live f t : IsValidTransition f t = true -> IsTerminal f = false.
Proof.
  unfold IsValidTransition, IsTerminal. by destruct (map_get validTransitions f).
Qed.

Lemma live_is_known s : IsTerminal s = false -> s ∈ AllStatuses.
Proof.
  unfold IsTerminal. destruct (map_get validTransitions s) eqn:E; [|done]. intros _.
  apply map_get_in, (list_elem_of_fmap_2 fst) in E.
  apply contains_true. simpl in E.
  repeat (apply elem_of_cons in E as [->|E]; [reflexivity|]). set_solver.
Qed.

(** A status the table cannot leave is trapped: terminality is absorbing along
    any path. *)
Lemma terminal_no_edge s t : IsTerminal s = true -> IsValidTransition s t = false.
Proof.
  intros H. destruct (IsValidTransition s t) eqn:E; [|done].
  apply valid_source_live in E. congruence.
Qed.

Lemma terminal_in_set s :
  s ∈ TerminalStatuses <-> IsTerminal s = true /\ s ∈ AllStatuses.
Proof.
  split.
  - intros H. change TerminalStatuses with
      [StatusCancelled; StatusConfirmed; StatusFailed; StatusSkipped] in H.
    repeat (apply elem_of_cons in H as [->|H]; [split; [reflexivity|]; by apply contains_true|]).
    set_solver.
  - intros [Ht Hs]. apply contains_true.
    pose proof (vocab_check (fun s => implb (IsTerminal s) (contains TerminalStatuses s))
      eq_refl s Hs) as Hi.
    cbv beta in Hi. by rewrite Ht in Hi.
Qed.

#[export] Hint Resolve terminal_no_edge valid_source_live valid_target_known : shingo.

(** ** Properties of the table *)

Lemma tc_first_edge (f t : Status) :
  tc (edge successors) f t -> IsTerminal f = false.
Proof.
  intros H. assert (exists u, edge successors f u) as [u Hu] by (destruct H; eauto).
  apply edge_is_valid in Hu. by apply valid_source_live in Hu.
Qed.

Lemma edge_known f t : edge successors f t -> t ∈ AllStatuses.
Proof. rewrite edge_is_valid. apply valid_target_known. Qed.

(** The loop of [IsForwardJump] always ends within [jump_fuel]. *)
Lemma IsForwardJump_fuel_enough (from to : Status) :
  exists b, bfs successors to jump_fuel [from] [from] = Some b.
Proof.
  apply (bfs_total successors to (from :: AllStatuses) from).
  - intros x y Hy. apply elem_of_cons; right. by apply (edge_known x).
  - apply inv_init.
  - set_solver.
  - unfold jump_fuel. simpl. lia.
Qed.

Lemma jump_bfs_path (from to : Status) :
  default false (bfs successors to jump_fuel [from] [from]) = true <->
  tc (edge successors) from to.
Proof.
  destruct (IsForwardJump_fuel_enough from to) as [[] Hb]; rewrite Hb; simpl; split; try done.
  - intros _. by eapply bfs_true_path; [apply inv_init|].
  - intros Ht. exfalso. by eapply bfs_false_no_path; [apply inv_init| |].
Qed.

Lemma path_classify (from to : Status) :
  from <> to ->
  tc (edge successors) from to <->
  IsValidTransition from to = true \/ IsForwardJump from to = true.
Proof.
  intros Hne. unfold IsForwardJump. rewrite (seqb_neq _ _ Hne). cbn [orb].
  destruct (IsValidTransition from to) eqn:E.
  - split; [by left|]. intros _. by apply tc_once, edge_is_valid.
  - rewrite jump_bfs_path. naive_solver.
Qed.

Lemma forward_jump_path (from to : Status) :
  IsForwardJump from to = true -> tc (edge successors) from to.
Proof.
  intros H. apply path_classify; [|by right]. intros ->.
  unfold IsForwardJump in H. by rewrite seqb_refl in H.
Qed.

Lemma forward_jump_live (from to : Status) :
  IsForwardJump from to = true -> IsTerminal from = false.
Proof. intros H%forward_jump_path. by eapply tc_first_edge. Qed.

(** ** Properties of the table *)

(** A terminal status is absorbing along every path: no sequence of legal
    transitions, of any length, leaves it, so neither a single step nor a
    forward jump off a terminal is ever accepted. *)
Theorem terminal_absorbing (s t : Status) :
  IsTerminal s = true ->
  ~ tc (edge successors) s t /\
  IsValidTransition s t = false /\ IsForwardJump s t = false.
Proof.
  intros H.
  assert (Hno : ~ tc (edge successors) s t) by (intros Ht%tc_first_edge; congruence).
  split_and!; [done|by apply terminal_no_edge|].
  destruct (IsForwardJump s t) eqn:E; [|done]. by apply forward_jump_path in E.
Qed.

(** [IsForwardJump] is exactly reachability without adjacency: it answers
    [true] iff the two statuses differ, no single transition joins them and
    some longer path of the table does.  The search always ends within its
    fuel, so the answer is never the out-of-fuel default. *)
Theorem IsForwardJump_spec (from to : Status) :
  (exists b, bfs successors to jump_fuel [from] [from] = Some b) /\
  (IsForwardJump from to = true <->
   from <> to /\ ~ edge successors from to /\ tc (edge successors) from to).
Proof.
  split; [apply IsForwardJump_fuel_enough|].
  unfold IsForwardJump. rewrite edge_is_valid.
  destruct (eqb_spec_s from to) as [->|Hne]; cbn [orb]; [naive_solver|].
  destruct (IsValidTransition from to); [naive_solver|].
  rewrite jump_bfs_path. naive_solver.
Qed.

(** No live order is stuck and no status is dead vocabulary: every
    non-terminal status may be cancelled and may be failed in one step, every
    edge of the table stays inside the vocabulary, and every defined status
    other than [pending] is reachable from [pending]. *)
Theorem table_live_and_connected (s : Status) :
  (IsTerminal s = false ->
     IsValidTransition s StatusCancelled = true /\
     IsValidTransition s StatusFailed = true) /\
  (forall t, IsValidTransition s t = true -> s ∈ AllStatuses /\ t ∈ AllStatuses) /\
  (s ∈ AllStatuses -> s = StatusPending \/ tc (edge successors) StatusPending s).
Proof.
  split_and!.
  - intros Hl. pose proof (vocab_check (fun s => IsTerminal s ||
      (IsValidTransition s StatusCancelled && IsValidTransition s StatusFailed))
      eq_refl s (live_is_known s Hl)) as Hc.
    cbv beta in Hc. rewrite Hl in Hc. simpl in Hc. by breflect.
  - intros t Ht. split; [|by eapply valid_target_known].
    by eapply live_is_known, valid_source_live.
  - intros Hs. destruct (eqb_spec_s s StatusPending) as [->|Hne]; [by left|right].
    apply path_classify; [congruence|].
    pose proof (vocab_check (fun s => (s =s StatusPending) ||
      (IsValidTransition StatusPending s || IsForwardJump StatusPending s))
      eq_refl s Hs) as Hc.
    cbv beta in Hc. rewrite (seqb_neq _ _ Hne) in Hc. simpl in Hc.
    by apply orb_true_iff in Hc.
Qed.

(** The changeover-start classifier partitions the vocabulary: every
    defined status is classified, the blocking statuses are exactly the
    vendor-tracked ones (a block is always something the poller can clear),
    every pre-dispatch status is cancelled, and nothing the fleet holds and
    nothing terminal is ever cancelled. *)
Theorem changeover_partition (s : Status) :
  s ∈ AllStatuses ->
  ChangeoverStartActionFor s <> ChangeoverStartUnclassified /\
  (BlocksChangeoverStart s = true <-> IsVendorTracked s = true) /\
  (IsPreDispatch s = true -> ChangeoverStartActionFor s = ChangeoverStartCancel) /\
  (ChangeoverStartActionFor s = ChangeoverStartCancel ->
     IsVendorTracked s = false /\ IsTerminal s = false) /\
  (IsTerminal s = true -> ChangeoverStartActionFor s = ChangeoverStartPass).
Proof.
  intros Hs. unfold AllStatuses in Hs.
  repeat (apply elem_of_cons in Hs as [->|Hs]; [by vm_compute; repeat split|]).
  by apply elem_of_nil in Hs.
Qed.

(** ** The SQL projectors *)

(** The statuses a projector splices: SQL's [status IN (list)]. *)
Definition status_in_projector (pred : Status -> bool) (s : Status) : bool :=
  contains (List.filter pred AllStatuses) s.

Lemma status_in_projector_spec pred s :
  status_in_projector pred s = true <-> s ∈ AllStatuses /\ pred s = true.
Proof.
  unfold status_in_projector. rewrite contains_true, list_elem_of_In, filter_In.
  by rewrite <- list_elem_of_In.
Qed.

(** A projector's string is the quoted, sorted, comma-joined form of exactly the
    statuses that satisfy its predicate. *)
Lemma buildStatusSQLList_parts pred :
  exists parts, buildStatusSQLList pred = join "," parts /\
    parts ≡ₚ map quote (List.filter pred AllStatuses).
Proof. eexists. split; [reflexivity|]. apply isort_perm. Qed.

(** The two spellings of "terminal" that persistence relies on agree: the
    set [TerminalStatuses] derives from the table (the compare-and-swap of
    TerminalizeOrder) and the set [TerminalStatusSQLList] splices (the
    reservation reaper) contain the same statuses, and the spliced lists are
    the documented ones.  Outside the vocabulary they part company: a retired
    status is terminal to the Go guard but in neither SQL set. *)
Theorem terminal_spellings_agree (s : Status) :
  (s ∈ TerminalStatuses <-> status_in_projector IsTerminal s = true) /\
  (s ∉ AllStatuses -> IsTerminal s = true /\ s ∉ TerminalStatuses) /\
  TerminalStatusSQLList = "'cancelled','confirmed','failed','skipped'" /\
  VendorTrackedStatusSQLList = "'dispatched','faulted','in_transit','staged'" /\
  PreDispatchStatusSQLList = "'pending','queued','sourcing'" /\
  AcquiringStatusSQLList = "'queued','sourcing'" /\
  StuckSweepStatusSQLList = "'dispatched','staged'".
Proof.
  split_and!; try reflexivity.
  - rewrite terminal_in_set, status_in_projector_spec. tauto.
  - intros Hn. split.
    + destruct (IsTerminal s) eqn:E; [done|]. by apply live_is_known in E.
    + rewrite terminal_in_set. tauto.
Qed.
