(* ===== verification/EpisodeKey.v ===== *)
(** Demand-episode keys (protocol/episode_key.go): the string both services
    compute for the place a demand is about, and the parser that reads it back.

    Core enforces "one open episode per place" with a unique index on this
    string, so two things matter: distinct places never share a key, and the
    parser recovers the place.  Text is ASCII here; [scan_d] is fmt.Sscanf with
    the format %d, which stops at the first character that is no digit. *)

From S2P Require Import Prelude.
From Stdlib Require Import Ascii DecimalString DecimalZ DecimalPos.

#[local] Arguments Ascii.eqb : simpl never.

(** ** Go's text primitives *)

(** strings.Split by one character. *)
Fixpoint split_on (sep : ascii) (s : string) : list string :=
  match s with
  | EmptyString => [EmptyString]
  | String a rest =>
      if Ascii.eqb a sep then EmptyString :: split_on sep rest
      else match split_on sep rest with
        | x :: xs => String a x :: xs
        | [] => [String a EmptyString]
        end
  end.

Fixpoint free_of (sep : ascii) (s : string) : bool :=
  match s with
  | EmptyString => true
  | String a rest => negb (Ascii.eqb a sep) && free_of sep rest
  end.

Definition is_digit (a : ascii) : bool :=
  let n := nat_of_ascii a in (48 <=? n)%nat && (n <=? 57)%nat.

(** Leading blanks are skipped; a newline is an error. *)
Fixpoint skip_space (s : string) : option string :=
  match s with
  | EmptyString => Some EmptyString
  | String a rest =>
      let n := nat_of_ascii a in
      if (n =? 10)%nat then None
      else if (n =? 32)%nat || (n =? 9)%nat || (n =? 11)%nat || (n =? 12)%nat || (n =? 13)%nat then skip_space rest
      else Some s
  end.

Fixpoint take_digits (s : string) : string :=
  match s with
  | EmptyString => EmptyString
  | String a rest => if is_digit a then String a (take_digits rest) else EmptyString
  end.

Definition minInt64 : Z := - 2 ^ 63.
Definition maxInt64 : Z := 2 ^ 63 - 1.
Definition int64_range (z : Z) : bool := (minInt64 <=? z)%Z && (z <=? maxInt64)%Z.

Definition digits_value (s : string) : option Z :=
  match s with
  | EmptyString => None
  | _ => (fun u => Z.of_uint u) <$> NilEmpty.uint_of_string s
  end.

Definition scan_d (s : string) : option Z :=
  match skip_space s with
  | None => None
  | Some s1 =>
      let '(neg, s2) :=
        match s1 with
        | String a rest =>
            if Ascii.eqb a "-" then (true, rest)
            else if Ascii.eqb a "+" then (false, rest) else (false, s1)
        | EmptyString => (false, s1)
        end in
      match digits_value (take_digits s2) with
      | None => None
      | Some v => let z := if neg then (- v)%Z else v in if int64_range z then Some z else None
      end
  end.

(** fmt.Sprintf of an int64 with the format %d. *)
Definition print_d (z : Z) : string := NilEmpty.string_of_int (Z.to_int z).

(** ** Keys *)

Definition EpisodeKindThreshold : string := "threshold".
Definition EpisodeKindCell : string := "cell".
Definition EpisodeKindChangeover : string := "changeover".
Definition EpisodeKindMaintain : string := "maintain".
Definition ClaimRoleConsume : string := "consume".
Definition ClaimRoleProduce : string := "produce".

Definition ThresholdEpisodeKey (coreNodeName payloadCode : string) : string :=
  join "|" ["thr"; coreNodeName; payloadCode].
Definition CellEpisodeKey (processID payloadCode role : string) : string :=
  "cell|" +:+ processID +:+ "|" +:+ payloadCode +:+ "|" +:+ role.
Definition ChangeoverEpisodeKey (station : string) (processChangeoverID : Z) : string :=
  "co|" +:+ station +:+ "|" +:+ print_d processChangeoverID.
Definition MaintainEpisodeKey (groupNodeName binTypeCode : string) : string :=
  join "|" ["mnt"; groupNodeName; binTypeCode].

Record ParsedEpisodeKey := mkParsed {
  pk_kind : string; pk_station : string; pk_payload : string; pk_role : string; pk_core : string;
  pk_process : string; pk_changeover : Z; pk_bintype : string }.

(** The reasons a key is refused. *)
Inductive KeyError := KeParts (want got : nat) | KeNoPlace | KeRole (r : string) | KeNoType | KeId | KePrefix (p : string).

Definition ParseEpisodeKey (key : string) : outcome KeyError ParsedEpisodeKey :=
  let parts := split_on "|" key in
  match parts with
  | [] => Err (KePrefix "")
  | kind :: _ =>
      if kind =s "thr" then
        match parts with
        | [_; node; payload] =>
            if node =s "" then Err KeNoPlace
            else Ok (mkParsed EpisodeKindThreshold "" payload "" node "" 0 "")
        | _ => Err (KeParts 3 (length parts))
        end
      else if kind =s "cell" then
        match parts with
        | [_; pid; payload; role] =>
            if pid =s "" then Err KeNoPlace
            else if (role <>s ClaimRoleConsume) && (role <>s ClaimRoleProduce) then Err (KeRole role)
            else Ok (mkParsed EpisodeKindCell "" payload role "" pid 0 "")
        | _ => Err (KeParts 4 (length parts))
        end
      else if kind =s "mnt" then
        match parts with
        | [_; group; bt] =>
            if group =s "" then Err KeNoPlace
            else if bt =s "" then Err KeNoType
            else Ok (mkParsed EpisodeKindMaintain "" "" "" group "" 0 bt)
        | _ => Err (KeParts 3 (length parts))
        end
      else if kind =s "co" then
        match parts with
        | [_; station; id] =>
            match scan_d id with
            | Some cid => Ok (mkParsed EpisodeKindChangeover station "" "" "" "" cid "")
            | None => Err KeId
            end
        | _ => Err (KeParts 3 (length parts))
        end
      else Err (KePrefix kind)
  end.

(** ** Splitting *)

Lemma split_nonempty sep s : exists x xs, split_on sep s = x :: xs.
Proof.
  induction s as [|a s (x & xs & IH)]; cbn; [eauto|]. rewrite IH. destruct (Ascii.eqb a sep); eauto.
Qed.

Lemma split_free sep s : free_of sep s = true -> split_on sep s = [s].
Proof.
  induction s as [|a s IH]; cbn; [done|]. intros [Ha Hs]%andb_prop. apply negb_true_iff in Ha. rewrite Ha.
  by rewrite IH.
Qed.

Lemma split_app sep s t :
  free_of sep s = true -> split_on sep (s +:+ String sep t) = s :: split_on sep t.
Proof.
  induction s as [|a s IH]; cbn [free_of].
  - intros _. change ("" +:+ String sep t) with (String sep t). cbn. by rewrite Ascii.eqb_refl.
  - intros [Ha Hs]%andb_prop. apply negb_true_iff in Ha.
    change (String a s +:+ String sep t) with (String a (s +:+ String sep t)). cbn. by rewrite Ha, IH.
Qed.

Lemma join_cons a x xs : join "|" (String a x :: xs) = String a (join "|" (x :: xs)).
Proof. by destruct xs. Qed.

(** Splitting loses nothing. *)
Lemma join_split s : join "|" (split_on "|" s) = s.
Proof.
  induction s as [|a s IH]; [done|]. cbn [split_on].
  destruct (split_nonempty "|" s) as (x & xs & E). rewrite E in *.
  destruct (Ascii.eqb_spec a "|") as [->|Hne].
  - change (join "|" ("" :: x :: xs)) with (String "|" (join "|" (x :: xs))). by rewrite IH.
  - by rewrite join_cons, IH.
Qed.

Lemma split_parts_free s : Forall (fun p => free_of "|" p = true) (split_on "|" s).
Proof.
  induction s as [|a s IH]; cbn; [by repeat constructor|].
  destruct (Ascii.eqb_spec a "|") as [->|Hne]; [by constructor|].
  destruct (split_on "|" s) as [|x xs]; [constructor; [|constructor]|inversion IH; subst; constructor; [|done]].
  all: cbn; by rewrite (proj2 (Ascii.eqb_neq a "|")) by done.
Qed.

(** ** Numbers *)

Lemma take_digits_uint u : take_digits (NilEmpty.string_of_uint u) = NilEmpty.string_of_uint u.
Proof. induction u as [|u IH|u IH|u IH|u IH|u IH|u IH|u IH|u IH|u IH|u IH]; cbn; by rewrite ?IH. Qed.

Lemma free_uint u : free_of "|" (NilEmpty.string_of_uint u) = true.
Proof. by induction u. Qed.

Lemma digits_uint u : u <> Decimal.Nil -> digits_value (take_digits (NilEmpty.string_of_uint u)) = Some (Z.of_uint u).
Proof.
  intros Hu. rewrite take_digits_uint. unfold digits_value. rewrite NilEmpty.usu. by destruct u.
Qed.

(** Digits follow no blank and no sign. *)
Lemma scan_digits u :
  u <> Decimal.Nil ->
  scan_d (NilEmpty.string_of_uint u) = if int64_range (Z.of_uint u) then Some (Z.of_uint u) else None.
Proof.
  intros Hu. pose proof (digits_uint u Hu) as Hd.
  assert (Hs : skip_space (NilEmpty.string_of_uint u) = Some (NilEmpty.string_of_uint u)) by by destruct u.
  unfold scan_d. rewrite Hs.
  assert (Hsign : match NilEmpty.string_of_uint u with
    | String a rest => if Ascii.eqb a "-" then (true, rest) else
        if Ascii.eqb a "+" then (false, rest) else (false, NilEmpty.string_of_uint u)
    | EmptyString => (false, NilEmpty.string_of_uint u) end = (false, NilEmpty.string_of_uint u)) by by destruct u.
  by rewrite Hsign, Hd.
Qed.

Lemma print_scan z : int64_range z = true -> scan_d (print_d z) = Some z.
Proof.
  intros Hr. unfold print_d. pose proof (DecimalZ.of_to z) as Hz.
  destruct z as [|p|p]; [done| |]; cbn [Z.to_int NilEmpty.string_of_int] in *; cbn [Z.of_int] in Hz.
  - rewrite scan_digits by apply DecimalPos.Unsigned.to_uint_nonnil. by rewrite Hz, Hr.
  - unfold scan_d. cbn [skip_space]. change (nat_of_ascii "-") with 45%nat. cbn [Nat.eqb orb].
    rewrite Ascii.eqb_refl, digits_uint by apply DecimalPos.Unsigned.to_uint_nonnil. by rewrite Hz, Hr.
Qed.

Lemma scan_in_range s z : scan_d s = Some z -> int64_range z = true.
Proof.
  unfold scan_d. destruct (skip_space s) as [s1|]; [|done]. case_match. destruct (digits_value _) as [v|]; [|done].
  destruct (int64_range _) eqn:E; [|done]. by intros [= <-].
Qed.

Lemma print_free z : free_of "|" (print_d z) = true.
Proof. unfold print_d. destruct (Z.to_int z); cbn; [apply free_uint|]. by rewrite free_uint. Qed.

(** ** Places *)

(** What an episode is about, and what makes it nameable: a place, a role the
    claims know, and no separator inside a component. *)
Inductive Place :=
| AtLoader (node payload : string)
| AtCell (process payload role : string)
| AtGroup (group binType : string)
| AtChangeover (station : string) (id : Z).

Definition place_key (p : Place) : string :=
  match p with
  | AtLoader n pc => ThresholdEpisodeKey n pc
  | AtCell pr pc r => CellEpisodeKey pr pc r
  | AtGroup g bt => MaintainEpisodeKey g bt
  | AtChangeover st id => ChangeoverEpisodeKey st id
  end.

Definition place_ok (p : Place) : bool :=
  match p with
  | AtLoader n pc => (n <>s "") && free_of "|" n && free_of "|" pc
  | AtCell pr pc r => (pr <>s "") && free_of "|" pr && free_of "|" pc &&
      ((r =s ClaimRoleConsume) || (r =s ClaimRoleProduce))
  | AtGroup g bt => (g <>s "") && (bt <>s "") && free_of "|" g && free_of "|" bt
  | AtChangeover st id => free_of "|" st && int64_range id
  end.

Definition place_of (p : Place) : ParsedEpisodeKey :=
  match p with
  | AtLoader n pc => mkParsed EpisodeKindThreshold "" pc "" n "" 0 ""
  | AtCell pr pc r => mkParsed EpisodeKindCell "" pc r "" pr 0 ""
  | AtGroup g bt => mkParsed EpisodeKindMaintain "" "" "" g "" 0 bt
  | AtChangeover st id => mkParsed EpisodeKindChangeover st "" "" "" "" id ""
  end.

Lemma place_of_inj p p' : place_of p = place_of p' -> p = p'.
Proof.
  unfold place_of, EpisodeKindThreshold, EpisodeKindCell, EpisodeKindMaintain, EpisodeKindChangeover.
  destruct p, p'; congruence.
Qed.

Lemma split_key p :
  place_ok p = true -> split_on "|" (place_key p) =
  match p with
  | AtLoader n pc => ["thr"; n; pc]
  | AtCell pr pc r => ["cell"; pr; pc; r]
  | AtGroup g bt => ["mnt"; g; bt]
  | AtChangeover st id => ["co"; st; print_d id]
  end.
Proof.
  destruct p as [n pc|pr pc r|g bt|st id]; cbn [place_ok place_key]; intros H; breflect.
  - change (ThresholdEpisodeKey n pc) with ("thr" +:+ String "|" (n +:+ String "|" pc)).
    by rewrite !split_app, split_free.
  - change (CellEpisodeKey pr pc r) with ("cell" +:+ String "|" (pr +:+ String "|" (pc +:+ String "|" r))).
    rewrite !split_app, split_free; try done. by destruct (orb_prop _ _ H0) as [->%String.eqb_eq| ->%String.eqb_eq].
  - change (MaintainEpisodeKey g bt) with ("mnt" +:+ String "|" (g +:+ String "|" bt)).
    by rewrite !split_app, split_free.
  - change (ChangeoverEpisodeKey st id) with ("co" +:+ String "|" (st +:+ String "|" (print_d id))).
    by rewrite !split_app, split_free by (done || apply print_free).
Qed.

Lemma parse_place p : place_ok p = true -> ParseEpisodeKey (place_key p) = Ok (place_of p).
Proof.
  intros Hok. unfold ParseEpisodeKey. rewrite split_key by done.
  destruct p as [n pc|pr pc r|g bt|st id]; cbn [place_ok] in Hok; breflect; cbn.
  - by rewrite seqb_neq.
  - rewrite seqb_neq by done. by destruct (orb_prop _ _ H0) as [->%String.eqb_eq| ->%String.eqb_eq].
  - by rewrite !seqb_neq.
  - by rewrite print_scan.
Qed.

(** A key the parser accepts reports a place, and is that place's key unless it
    is a changeover's. *)
Lemma parse_sound k r :
  ParseEpisodeKey k = Ok r ->
  exists p, place_ok p = true /\ place_of p = r /\ (pk_kind r <> EpisodeKindChangeover -> place_key p = k).
Proof.
  unfold ParseEpisodeKey. pose proof (join_split k) as Hk. pose proof (split_parts_free k) as Hf.
  destruct (split_on "|" k) as [|kind parts]; [done|].
  destruct (eqb_spec_s kind "thr") as [->|_]; [|destruct (eqb_spec_s kind "cell") as [->|_];
    [|destruct (eqb_spec_s kind "mnt") as [->|_]; [|destruct (eqb_spec_s kind "co") as [->|_]; [|done]]]].
  - destruct parts as [|a [|b [|]]]; try done. destruct (eqb_spec_s a "") as [|Ha]; [done|]. intros [= <-].
    exists (AtLoader a b). rewrite !Forall_cons in Hf. destruct Hf as (_ & Fa & Fb & _).
    cbn [place_ok]. by rewrite seqb_neq, Fa, Fb.
  - destruct parts as [|a [|b [|c [|]]]]; try done. destruct (eqb_spec_s a "") as [|Ha]; [done|].
    destruct (_ && _) eqn:Hr; [done|]. intros [= <-]. exists (AtCell a b c).
    rewrite !Forall_cons in Hf. destruct Hf as (_ & Fa & Fb & Fc & _). cbn [place_ok].
    rewrite seqb_neq, Fa, Fb by done. cbn [negb andb]. split; [|by split]. apply andb_false_iff in Hr.
    apply orb_true_iff. by rewrite !negb_false_iff in Hr.
  - destruct parts as [|a [|b [|]]]; try done. destruct (eqb_spec_s a "") as [|Ha]; [done|].
    destruct (eqb_spec_s b "") as [|Hb]; [done|]. intros [= <-]. exists (AtGroup a b).
    rewrite !Forall_cons in Hf. destruct Hf as (_ & Fa & Fb & _). cbn [place_ok]. by rewrite !seqb_neq, Fa, Fb.
  - destruct parts as [|a [|b [|]]]; try done. destruct (scan_d b) as [z|] eqn:Hz; [|done]. intros [= <-].
    exists (AtChangeover a z). rewrite !Forall_cons in Hf. destruct Hf as (_ & Fa & _). cbn [place_ok].
    by rewrite Fa, (scan_in_range _ _ Hz).
Qed.

(** C40. Keys and places are the same thing.  A place is nameable when its
    components hold no separator, its node, process, group and carrier type are not
    empty, its role is consume or produce and its changeover id is an int64.  Every
    nameable place is read back exactly from the key computed for it; two of them
    never share a key; and the parser accepts nothing else: whatever key it
    accepts, it reports a nameable place, and changeovers apart (whose id may be
    followed by other text) the key is the one computed for that place. *)
Theorem episode_key_roundtrip :
  (forall p, place_ok p = true -> ParseEpisodeKey (place_key p) = Ok (place_of p)) /\
  (forall p p', place_ok p = true -> place_ok p' = true -> place_key p = place_key p' -> p = p') /\
  (forall k r, ParseEpisodeKey k = Ok r ->
    exists p, place_ok p = true /\ place_of p = r /\ (pk_kind r <> EpisodeKindChangeover -> place_key p = k)).
Proof.
  split_and!; [exact parse_place| |exact parse_sound].
  intros p p' Hok Hok' Hk. apply place_of_inj. pose proof (parse_place p Hok) as H1.
  pose proof (parse_place p' Hok') as H2. rewrite Hk in H1. congruence.
Qed.

Lemma episode_key_roundtrip_witness :
  ParseEpisodeKey "cell|SNF2|PANEL-B|produce" = Ok (place_of (AtCell "SNF2" "PANEL-B" "produce")) /\
  ParseEpisodeKey (ChangeoverEpisodeKey "edge-1" (-7)) = Ok (place_of (AtChangeover "edge-1" (-7))).
Proof.
  split.
  - exact (proj1 episode_key_roundtrip (AtCell "SNF2" "PANEL-B" "produce") eq_refl).
  - exact (proj1 episode_key_roundtrip (AtChangeover "edge-1" (-7)) eq_refl).
Defined.

(** What the parser refuses. *)
Example keys_refused :
  ParseEpisodeKey "cell|SNF2|PANEL-B|supply" = Err (KeRole "supply") /\ ParseEpisodeKey "thr||PANEL-B" = Err KeNoPlace /\
  ParseEpisodeKey "mnt|G1|" = Err KeNoType /\ ParseEpisodeKey "co|edge-1|9223372036854775808" = Err KeId.
Proof. by vm_compute. Qed.

(** A changeover key has other spellings: whatever follows the digits is
    ignored, so a key no constructor builds is read as changeover 7. *)
Example changeover_key_trailing_text :
  ParseEpisodeKey "co|edge-1|7-old" = ParseEpisodeKey (ChangeoverEpisodeKey "edge-1" 7).
Proof. reflexivity. Qed.

(** A separator inside a component makes two places share a key. *)
Example separator_collision :
  place_key (AtCell "A|B" "C" "consume") = place_key (AtCell "A" "B|C" "consume").
Proof. reflexivity. Qed.
