(* ===== verification/Sql.v ===== *)
(** The [database/sql] protocol every store function follows, over an abstract
    table state [D]: statements that may fail at the driver, transactions with
    deferred rollback and an explicit commit, and early returns on error.

    A connection carries the tables and a plan of driver faults: one boolean is
    consumed by each [Begin], [Exec], [Query] and [Commit] ([true] = the call
    returns an error and changes nothing); an exhausted plan means no further
    faults.  Quantifying over connections therefore quantifies over every
    placement of driver errors.  A transaction is one atomic step on the
    tables: that is the row locks and advisory locks of the source. *)

From S2P Require Import Prelude.

Record Conn (D : Type) := mkConn { db : D; faults : list bool }.
Arguments mkConn {D} db faults.
Arguments db {D} c.
Arguments faults {D} c.

(** The error a failed driver call surfaces as. *)
Class DriverError (E : Type) := { driver_error : E }.

Section Monad.
Context {D E : Type} `{!DriverError E}.

Definition SQL (A : Type) : Type := Conn D -> outcome E A * Conn D.

Definition sret {A} (a : A) : SQL A := fun c => (Ok a, c).
Definition sfail {A} (e : E) : SQL A := fun c => (Err e, c).

(** [if err != nil { return err }] after each call. *)
Definition sbind {A B} (m : SQL A) (k : A -> SQL B) : SQL B := fun c =>
  match m c with
  | (Ok a, c') => k a c'
  | (Err e, c') => (Err e, c')
  end.

(** A call whose error the code logs and drops. *)
Definition slog {A} (m : SQL A) : SQL (option A) := fun c =>
  match m c with
  | (Ok a, c') => (Ok (Some a), c')
  | (Err _, c') => (Ok None, c')
  end.

(** One driver call: [f] gives the result and the new tables. *)
Definition stmt {A} (f : D -> A * D) : SQL A := fun c =>
  match faults c with
  | true :: fs => (Err driver_error, mkConn (db c) fs)
  | false :: fs => let '(a, d) := f (db c) in (Ok a, mkConn d fs)
  | [] => let '(a, d) := f (db c) in (Ok a, mkConn d [])
  end.

(** A driver call that the schema's constraints may refuse ([None]). *)
Definition stmt_checked {A} (f : D -> option (A * D)) : SQL A := fun c =>
  match faults c with
  | true :: fs => (Err driver_error, mkConn (db c) fs)
  | false :: fs =>
      match f (db c) with
      | Some (a, d) => (Ok a, mkConn d fs)
      | None => (Err driver_error, mkConn (db c) fs)
      end
  | [] =>
      match f (db c) with
      | Some (a, d) => (Ok a, mkConn d [])
      | None => (Err driver_error, mkConn (db c) [])
      end
  end.

Definition exec (f : D -> D) : SQL unit := stmt (fun d => ((), f d)).
Definition query {A} (f : D -> A) : SQL A := stmt (fun d => (f d, d)).

(** [tx, err := db.Begin(); defer tx.Rollback(); ...; tx.Commit()].  The body
    returns its result with whether it reached [Commit]; a body that returns
    without committing, or with an error, is rolled back, and so is a failed
    commit. *)
Definition tx {A} (body : SQL (A * bool)) : SQL A := fun c =>
  match exec id c with
  | (Err e, c0) => (Err e, c0)
  | (Ok _, c0) =>
      match body c0 with
      | (Err e, c1) => (Err e, mkConn (db c) (faults c1))
      | (Ok (a, false), c1) => (Ok a, mkConn (db c) (faults c1))
      | (Ok (a, true), c1) =>
          match exec id c1 with
          | (Err e, c2) => (Err e, mkConn (db c) (faults c2))
          | (Ok _, c2) => (Ok a, c2)
          end
      end
  end.

Definition commit {A} (a : A) : SQL (A * bool) := sret (a, true).
Definition rollback {A} (a : A) : SQL (A * bool) := sret (a, false).
End Monad.

Arguments SQL : clear implicits.

Declare Scope sql_scope.
Delimit Scope sql_scope with sql.
Notation "x <-- m ;; k" := (sbind m (fun x => k))
  (at level 100, m at next level, right associativity) : sql_scope.
Notation "m ;;; k" := (sbind m (fun _ => k))
  (at level 100, right associativity) : sql_scope.
Open Scope sql_scope.

(** ** Inversion of successful runs *)

Section Inversion.
Context {D E : Type} `{!DriverError E}.
Implicit Types c : Conn D.

Lemma stmt_ok {A} (f : D -> A * D) c a c' :
  stmt (E := E) f c = (Ok a, c') -> f (db c) = (a, db c').
Proof.
  unfold stmt. destruct (faults c) as [|[] ?]; destruct (f (db c)); naive_solver.
Qed.

Lemma stmt_err {A} (f : D -> A * D) c e c' :
  stmt (E := E) f c = (Err e, c') -> db c' = db c /\ e = driver_error.
Proof.
  unfold stmt. destruct (faults c) as [|[] ?]; destruct (f (db c)); naive_solver.
Qed.

Lemma stmt_checked_ok {A} (f : D -> option (A * D)) c a c' :
  stmt_checked (E := E) f c = (Ok a, c') -> f (db c) = Some (a, db c').
Proof.
  unfold stmt_checked.
  destruct (faults c) as [|[] ?]; destruct (f (db c)) as [[??]|]; naive_solver.
Qed.

Lemma stmt_checked_err {A} (f : D -> option (A * D)) c e c' :
  stmt_checked (E := E) f c = (Err e, c') -> db c' = db c /\ e = driver_error.
Proof.
  unfold stmt_checked.
  destruct (faults c) as [|[] ?]; destruct (f (db c)) as [[??]|]; naive_solver.
Qed.

Lemma exec_ok (f : D -> D) c u c' :
  exec (E := E) f c = (Ok u, c') -> db c' = f (db c).
Proof. unfold exec. intros H%stmt_ok. naive_solver. Qed.

Lemma query_ok {A} (f : D -> A) c a c' :
  query (E := E) f c = (Ok a, c') -> a = f (db c) /\ db c' = db c.
Proof. unfold query. intros H%stmt_ok. naive_solver. Qed.

Lemma sbind_ok {A B} (m : SQL D E A) (k : A -> SQL D E B) c b c' :
  sbind m k c = (Ok b, c') ->
  exists a c1, m c = (Ok a, c1) /\ k a c1 = (Ok b, c').
Proof. unfold sbind. destruct (m c) as [[a|e] c1]; naive_solver. Qed.

Lemma sbind_err {A B} (m : SQL D E A) (k : A -> SQL D E B) c e c' :
  sbind m k c = (Err e, c') ->
  m c = (Err e, c') \/
  exists a c1, m c = (Ok a, c1) /\ k a c1 = (Err e, c').
Proof. unfold sbind. destruct (m c) as [[a|e'] c1]; naive_solver. Qed.

Lemma tx_ok {A} (body : SQL D E (A * bool)) c a c' :
  tx body c = (Ok a, c') ->
  exists done c0 c1, db c0 = db c /\ body c0 = (Ok (a, done), c1) /\
    db c' = if done then db c1 else db c.
Proof.
  unfold tx. intros H.
  destruct (exec id c) as [[u|e] c0] eqn:E0; [|done]. apply exec_ok in E0.
  destruct (body c0) as [[[a' []]|e] c1] eqn:E1; [| |done].
  - destruct (exec id c1) as [[u'|e] c2] eqn:E2; simplify_eq. apply exec_ok in E2.
    by exists true, c0, c1.
  - simplify_eq. by exists false, c0, c1.
Qed.

(** On a healthy connection the body runs on one too. *)
Lemma tx_ok_healthy {A} (body : SQL D E (A * bool)) c a c' :
  tx body c = (Ok a, c') ->
  exists done c0 c1, db c0 = db c /\ (faults c = [] -> faults c0 = []) /\
    body c0 = (Ok (a, done), c1) /\ db c' = if done then db c1 else db c.
Proof.
  unfold tx. intros H.
  destruct (exec id c) as [[u|e] c0] eqn:E0; [|done].
  assert (Hf : faults c = [] -> faults c0 = []).
  { intros Hf. unfold exec, stmt in E0. rewrite Hf in E0. by injection E0 as _ <-. }
  apply exec_ok in E0. destruct (body c0) as [[[a' []]|e] c1] eqn:E1; [| |done].
  - destruct (exec id c1) as [[u'|e] c2] eqn:E2; simplify_eq. apply exec_ok in E2.
    by exists true, c0, c1.
  - simplify_eq. by exists false, c0, c1.
Qed.

(** A transaction that returns an error leaves the tables as it found them,
    wherever the error arose: a statement, an early return or the commit. *)
Lemma tx_err {A} (body : SQL D E (A * bool)) c e c' :
  tx body c = (Err e, c') -> db c' = db c.
Proof.
  unfold tx. intros H.
  destruct (exec id c) as [[u|e'] c0] eqn:E0;
    [|unfold exec in E0; apply stmt_err in E0; naive_solver].
  destruct (body c0) as [[[a' []]|e'] c1]; [|done|naive_solver].
  destruct (exec id c1) as [[u'|e''] c2] eqn:E2; naive_solver.
Qed.
End Inversion.

(** ** Table evolution

    [evolves R m]: whatever faults strike, running [m] moves the tables along
    [R].  For a preorder [R] the property composes through the monad, so a
    store operation's obligation reduces to one per statement. *)

Definition evolves {D E A} (R : D -> D -> Prop) (m : SQL D E A) : Prop :=
  forall c, R (db c) (db (m c).2).

Section Evolves.
Context {D E : Type} `{!DriverError E} (R : D -> D -> Prop) `{!PreOrder R}.

(** Single calls at a known table state. *)
Lemma exec_at (f : D -> D) c : R (db c) (f (db c)) -> R (db c) (db (exec (E := E) f c).2).
Proof.
  intros H. unfold exec, stmt. destruct (faults c) as [|[] ?]; simpl; done || reflexivity.
Qed.

Lemma stmt_at {A} (f : D -> A * D) c :
  R (db c) (f (db c)).2 -> R (db c) (db (stmt (E := E) f c).2).
Proof.
  intros H. unfold stmt.
  destruct (faults c) as [|[] ?]; destruct (f (db c)); simpl in *; done || reflexivity.
Qed.

Lemma stmt_checked_at {A} (f : D -> option (A * D)) c :
  (forall a d', f (db c) = Some (a, d') -> R (db c) d') ->
  R (db c) (db (stmt_checked (E := E) f c).2).
Proof.
  intros H. unfold stmt_checked. destruct (faults c) as [|[] ?]; simpl; [|reflexivity|];
    (destruct (f (db c)) as [[??]|] eqn:?; simpl; [by eapply H|reflexivity]).
Qed.

Lemma evolves_ret {A} (a : A) : evolves (E := E) R (sret a).
Proof. intros c. simpl. reflexivity. Qed.

Lemma evolves_fail {A} (e : E) : evolves R (sfail (A := A) e).
Proof. intros c. simpl. reflexivity. Qed.

Lemma evolves_stmt {A} (f : D -> A * D) :
  (forall d, R d (f d).2) -> evolves (E := E) R (stmt f).
Proof.
  intros H c. unfold stmt. specialize (H (db c)).
  destruct (faults c) as [|[] ?]; destruct (f (db c)); simpl in *; done || reflexivity.
Qed.

Lemma evolves_stmt_checked {A} (f : D -> option (A * D)) :
  (forall d a d', f d = Some (a, d') -> R d d') -> evolves (E := E) R (stmt_checked f).
Proof.
  intros H c. unfold stmt_checked. specialize (H (db c)).
  destruct (faults c) as [|[] ?]; simpl; [|reflexivity|];
    (destruct (f (db c)) as [[??]|] eqn:?; simpl; [by eapply H|reflexivity]).
Qed.

Lemma evolves_exec (f : D -> D) : (forall d, R d (f d)) -> evolves (E := E) R (exec f).
Proof. intros H. by apply evolves_stmt. Qed.

Lemma evolves_query {A} (f : D -> A) : evolves (E := E) R (query f).
Proof. apply evolves_stmt. intros d. simpl. reflexivity. Qed.

Lemma evolves_bind {A B} (m : SQL D E A) (k : A -> SQL D E B) :
  evolves R m -> (forall a, evolves R (k a)) -> evolves R (sbind m k).
Proof.
  intros Hm Hk c. unfold sbind. specialize (Hm c).
  destruct (m c) as [[a|e] c1]; simpl in *; [|done].
  etransitivity; [exact Hm|apply Hk].
Qed.

(** A query whose answer the continuation acts on: the tables have not moved
    in between. *)
Lemma evolves_query_bind {A B} (f : D -> A) (k : A -> SQL D E B) :
  (forall c, R (db c) (db (k (f (db c)) c).2)) -> evolves R (sbind (query f) k).
Proof.
  intros H c. unfold sbind, query, stmt.
  destruct (faults c) as [|[] fs]; simpl; [|reflexivity|].
  - specialize (H (mkConn (db c) [])). by simpl in H.
  - specialize (H (mkConn (db c) fs)). by simpl in H.
Qed.

Lemma evolves_log {A} (m : SQL D E A) : evolves R m -> evolves R (slog m).
Proof. intros Hm c. unfold slog. specialize (Hm c). by destruct (m c) as [[?|?] ?]. Qed.

Lemma evolves_tx {A} (body : SQL D E (A * bool)) : evolves R body -> evolves R (tx body).
Proof.
  intros Hb c. destruct (tx body c) as [[a|e] c'] eqn:E1; simpl.
  - apply tx_ok in E1 as (done & c0 & c1 & H0 & H1 & ->). specialize (Hb c0).
    rewrite H1, H0 in Hb. destruct done; [done|reflexivity].
  - apply tx_err in E1. rewrite E1. reflexivity.
Qed.
End Evolves.

Create HintDb sql.
#[export] Hint Resolve evolves_ret evolves_fail evolves_query evolves_exec evolves_stmt
  evolves_stmt_checked evolves_bind evolves_log evolves_tx : sql.

(** Decompose an [evolves] goal down to its statements. *)
Ltac evolve :=
  intros;
  repeat (first
    [ apply evolves_tx; [typeclasses eauto|]
    | apply evolves_bind; [typeclasses eauto| |intros ?]
    | apply evolves_log
    | apply evolves_query; typeclasses eauto
    | apply evolves_ret; typeclasses eauto
    | apply evolves_fail; typeclasses eauto
    | apply evolves_exec; [typeclasses eauto|]
    | apply evolves_stmt; [typeclasses eauto|]
    | apply evolves_stmt_checked; [typeclasses eauto|]
    | case_match ]).

(** ** Healthy connections

    [steady m]: on a connection without further faults, [m] leaves it so. *)

Definition steady {D E A} (m : SQL D E A) : Prop := forall c, faults c = [] -> faults (m c).2 = [].

Section Steady.
Context {D E : Type} `{!DriverError E}.

Lemma steady_ret {A} (a : A) : steady (sret (D := D) (E := E) a).
Proof. by intros c. Qed.
Lemma steady_fail {A} (e : E) : steady (sfail (D := D) (A := A) e).
Proof. by intros c. Qed.
Lemma steady_stmt {A} (f : D -> A * D) : steady (stmt (E := E) f).
Proof. intros c Hf. unfold stmt. rewrite Hf. by destruct (f (db c)). Qed.
Lemma steady_stmt_checked {A} (f : D -> option (A * D)) : steady (stmt_checked (E := E) f).
Proof. intros c Hf. unfold stmt_checked. rewrite Hf. by destruct (f (db c)) as [[]|]. Qed.
Lemma steady_bind {A B} (m : SQL D E A) (k : A -> SQL D E B) : steady m -> (forall a, steady (k a)) -> steady (sbind m k).
Proof.
  intros Hm Hk c Hf. unfold sbind. specialize (Hm c Hf). destruct (m c) as [[a|e] c1]; cbn in *; [by apply Hk|done].
Qed.
Lemma steady_log {A} (m : SQL D E A) : steady m -> steady (slog m).
Proof. intros Hm c Hf. unfold slog. specialize (Hm c Hf). by destruct (m c) as [[?|?] ?]. Qed.
Lemma steady_tx {A} (body : SQL D E (A * bool)) : steady body -> steady (tx body).
Proof.
  intros Hb c Hf. unfold tx. pose proof (steady_stmt (fun d : D => ((), Datatypes.id d)) c Hf) as H0. unfold exec.
  destruct (stmt _ c) as [[u|e] c0]; cbn in *; [|done]. specialize (Hb c0 H0).
  destruct (body c0) as [[[a []]|e] c1]; cbn in *; [|done..].
  pose proof (steady_stmt (fun d : D => ((), Datatypes.id d)) c1 Hb) as H1. by destruct (stmt _ c1) as [[u'|e] c2].
Qed.
End Steady.

Create HintDb steady.
#[export] Hint Resolve steady_ret steady_fail steady_stmt steady_stmt_checked steady_log : steady.

Ltac steadily :=
  intros;
  repeat (first
    [ apply steady_tx | apply steady_log | apply steady_ret | apply steady_fail
    | apply steady_stmt | apply steady_stmt_checked | solve [auto with steady nocore]
    | apply steady_bind; [|intros ?] | case_match ]).

(** Invariants as a preorder on table states. *)
Definition keeps {D} (P : D -> Prop) (d d' : D) : Prop := P d -> P d'.

#[export] Instance keeps_preorder {D} (P : D -> Prop) : PreOrder (keeps P).
Proof. split; unfold keeps; auto. Qed.

(** Unfold a successful run into its statements. *)
Ltac sql_inv H :=
  lazymatch type of H with
  | tx _ _ = (Ok _, _) =>
      let d := fresh "committed" in let c0 := fresh "c" in let c1 := fresh "c" in
      let E0 := fresh "Hdb" in let E1 := fresh "Hbody" in let E2 := fresh "Hdb" in
      apply tx_ok in H as (d & c0 & c1 & E0 & E1 & E2); sql_inv E1
  | sbind _ _ _ = (Ok _, _) =>
      let a := fresh "a" in let c1 := fresh "c" in
      let E1 := fresh "Hm" in let E2 := fresh "Hk" in
      apply sbind_ok in H as (a & c1 & E1 & E2); sql_inv E1; sql_inv E2
  | exec _ _ = (Ok _, _) => apply exec_ok in H
  | query _ _ = (Ok _, _) => let E := fresh "Hq" in apply query_ok in H as [E H]
  | stmt _ _ = (Ok _, _) => apply stmt_ok in H
  | stmt_checked _ _ = (Ok _, _) => apply stmt_checked_ok in H
  | sret _ _ = (Ok _, _) => unfold sret in H; simplify_eq
  | commit _ _ = (Ok _, _) => unfold commit, sret in H; simplify_eq
  | rollback _ _ = (Ok _, _) => unfold rollback, sret in H; simplify_eq
  | sfail _ _ = (Ok _, _) => discriminate H
  | _ => idtac
  end.
