(* ===== verification/CoreDb.v ===== *)
(** The Core tables the order lifecycle reads and writes, column by column as
    the store package's statements use them (shingo-core/store): [orders],
    [order_history], [bins], [nodes], [order_bins], [reservations], the bin
    count ledgers and the outbox, with the constraints of the schema that the
    code relies on as well-formedness.

    NULL and the empty string are one value in a text column that is written
    through [helpers.NullableText] and scanned through [sql.NullString]; columns
    the statements compare with NULL are options. *)

From S2P Require Import Prelude Status Sql.

(** ** Errors *)

Inductive error :=
| EDriver                                    (** a failed driver call *)
| ENoRows                                    (** sql.ErrNoRows *)
| EReservationConflict                       (** reservations.ErrReservationConflict *)
| EOtherMode (owner lane : Z)                (** one owner, two modes on one lane *)
| ERefusedTerminal (to : Status)             (** a raw write to a terminal status *)
| EClaimRefused                              (** a guarded claim matched no row *)
| ENegativeUOP                               (** a negative count override *)
| EInvalidDelta                              (** a delta that fails validation *)
| EDeltaSkipped                              (** uop.ErrInventoryDeltaSkipped *)
| ENoSuchBin (bin : Z)
| EPayloadMismatch (bin : Z)
| EUnknownNode
| EBucketReduction                           (** a reduction of a bucket that is not there *)
| EIllegalTransition (from to : Status)
| EConcurrentTransition (order : Z) (expected to : Status).

#[export] Instance core_driver_error : DriverError error := {| driver_error := EDriver |}.

#[export] Instance error_eq_dec : EqDecision error.
Proof. solve_decision. Defined.

(** ** Rows *)

Record Order := mkOrder {
  o_id : Z;
  o_uuid : string;
  o_station : string;
  o_status : Status;
  o_error_detail : string;
  o_vendor_id : string;
  o_process_node : string;
  o_delivery_node : string;
  o_payload : string;
  o_queue_reason : string;
  o_queue_code : string;
  o_queue_cause : string;
  o_wait_index : Z;
  o_completed_at : option Z;
  o_updated_at : Z
}.

Record Hist := mkHist {
  h_order : Z;
  h_status : Status;
  h_detail : string;
  h_code : option string;
  h_actor : option string;
  h_ref : option TermRef
}.

(** A manifest: part number and quantity per entry (the JSON document's content). *)
Definition Manifest : Type := list (string * Z).

Record Bin := mkBin {
  b_node : option Z;
  b_locked : bool;
  b_claimed_by : option Z;
  b_anomaly_at : option Z;
  b_payload : string;
  b_manifest : option Manifest;
  b_uop : Z;
  b_confirmed : bool;
  b_loaded_at : option Z;
  b_epoch : Z;
  b_type : option Z
}.

Record Node := mkNode {
  n_name : string;
  n_claimed_by : option Z
}.

Inductive Kind := KindBin | KindSlot | KindMouth | KindOccupancy.
Inductive RState := StatePending | StateConfirmed.
Inductive Mode := ModeInbound | ModeOutbound | ModeDig.

#[export] Instance Kind_eq_dec : EqDecision Kind.
Proof. solve_decision. Defined.
#[export] Instance RState_eq_dec : EqDecision RState.
Proof. solve_decision. Defined.
#[export] Instance Mode_eq_dec : EqDecision Mode.
Proof. solve_decision. Defined.

Record Resv := mkResv {
  r_order : Z;
  r_kind : Kind;
  r_bin : option Z;
  r_node : option Z;
  r_state : RState;
  r_by : string;
  r_mode : option Mode
}.

#[export] Instance Resv_eq_dec : EqDecision Resv.
Proof. solve_decision. Defined.

(** The JSON document of a ledger row (detail or metadata). *)
Inductive Detail :=
| DunnageDetail (from to : string)
| LoadedAtDetail (loaded_at : Z)
| OverrideDetail (kind part : string) (auto operator : Z)
| StaleDetail (wire_epoch bin_epoch seq delta : Z)
| MismatchDetail (wire_payload bin_payload : string) (seq delta : Z)
| BoundDetail (old_payload : string) (seq : Z)
| ReboundDetail (old_payload : string) (inventory seq delta : Z)
| DeltaDetail (reason : string) (delta seq wire_epoch bin_epoch : Z).

(** bin_uop_ledger: one row per change of a bin's count. *)
Record Ledger := mkLedger {
  lg_bin : Z;
  lg_before : option Z;
  lg_after : Z;
  lg_op : string;
  lg_source : string;
  lg_order : option Z;
  lg_payload : string;
  lg_actor : string;
  lg_node : option Z;
  lg_loader : option Z;
  lg_detail : option Detail;
  lg_at : Z
}.

(** bin_uop_exception: the permanent ledger of epoch boundaries, dropped deltas
    and negative crossings. *)
Record Exc := mkExc {
  ex_kind : string;
  ex_bin : Z;
  ex_payload : string;
  ex_actor : string;
  ex_seq : option Z;
  ex_before : option Z;
  ex_after : option Z;
  ex_op : string;
  ex_detail : option Detail;
  ex_at : Z;
  ex_deepest : option Z;
  ex_recovered : option Z
}.

(** An outbox row about a bin's generation: protocol.UOPAdjustment, which
    carries a count, or protocol.BinEpochRefresh, which has none. *)
Record OutMsg := mkOutMsg {
  om_topic : string;
  om_subject : string;
  om_bin : Z;
  om_node : string;
  om_remaining : option Z;
  om_epoch : Z;
  om_actor : string
}.

(** audit_log. *)
Record AuditRow := mkAudit {
  au_entity : string; au_id : Z; au_action : string; au_new : string; au_actor : string }.

(** lineside_buckets, keyed by (core_node_name, pair_key, style_id, part_number). *)
Record Bucket := mkBucket { bk_station : string; bk_qty : Z; bk_payload : string }.
Definition BucketKey : Type := string * string * Z * string.

(** inventory_delta_dedup's key: (station, scope_kind, scope_key, epoch). *)
Definition DedupKey : Type := string * string * string * Z.

(** ** Tables.  [clock_now] is [clock.Now()] and [db_now] is SQL's [NOW()];
    reservations, history and the ledgers are in insertion (id) order;
    [loader_homes] pairs position_node_id with loader_id; [bin_types] maps ids
    to codes; [templates] maps a payload code to its UOP capacity and manifest
    items. *)
Record CoreDB := mkCoreDB {
  orders : gmap Z Order;
  history : list Hist;
  bins : gmap Z Bin;
  nodes : gmap Z Node;
  order_bins : list (Z * Z);
  reservations : list Resv;
  ledger : list Ledger;
  exceptions : list Exc;
  outbox : list OutMsg;
  audit_log : list AuditRow;
  loader_homes : list (Z * Z);
  bin_types : gmap Z string;
  templates : gmap string (Z * Manifest);
  dedup : gmap DedupKey Z;
  buckets : gmap BucketKey Bucket;
  clock_now : Z;
  db_now : Z
}.

Definition CoreSQL (A : Type) : Type := SQL CoreDB error A.

(** Column updates. *)
Definition set_orders (f : gmap Z Order -> gmap Z Order) (d : CoreDB) : CoreDB :=
  mkCoreDB (f (orders d)) (history d) (bins d) (nodes d) (order_bins d) (reservations d)
    (ledger d) (exceptions d) (outbox d) (audit_log d) (loader_homes d)
    (bin_types d) (templates d) (dedup d) (buckets d) (clock_now d) (db_now d).
Definition set_history (f : list Hist -> list Hist) (d : CoreDB) : CoreDB :=
  mkCoreDB (orders d) (f (history d)) (bins d) (nodes d) (order_bins d) (reservations d)
    (ledger d) (exceptions d) (outbox d) (audit_log d) (loader_homes d)
    (bin_types d) (templates d) (dedup d) (buckets d) (clock_now d) (db_now d).
Definition set_bins (f : gmap Z Bin -> gmap Z Bin) (d : CoreDB) : CoreDB :=
  mkCoreDB (orders d) (history d) (f (bins d)) (nodes d) (order_bins d) (reservations d)
    (ledger d) (exceptions d) (outbox d) (audit_log d) (loader_homes d)
    (bin_types d) (templates d) (dedup d) (buckets d) (clock_now d) (db_now d).
Definition set_nodes (f : gmap Z Node -> gmap Z Node) (d : CoreDB) : CoreDB :=
  mkCoreDB (orders d) (history d) (bins d) (f (nodes d)) (order_bins d) (reservations d)
    (ledger d) (exceptions d) (outbox d) (audit_log d) (loader_homes d)
    (bin_types d) (templates d) (dedup d) (buckets d) (clock_now d) (db_now d).
Definition set_order_bins (f : list (Z * Z) -> list (Z * Z)) (d : CoreDB) : CoreDB :=
  mkCoreDB (orders d) (history d) (bins d) (nodes d) (f (order_bins d)) (reservations d)
    (ledger d) (exceptions d) (outbox d) (audit_log d) (loader_homes d)
    (bin_types d) (templates d) (dedup d) (buckets d) (clock_now d) (db_now d).
Definition set_reservations (f : list Resv -> list Resv) (d : CoreDB) : CoreDB :=
  mkCoreDB (orders d) (history d) (bins d) (nodes d) (order_bins d) (f (reservations d))
    (ledger d) (exceptions d) (outbox d) (audit_log d) (loader_homes d)
    (bin_types d) (templates d) (dedup d) (buckets d) (clock_now d) (db_now d).
Definition set_ledger (f : list Ledger -> list Ledger) (d : CoreDB) : CoreDB :=
  mkCoreDB (orders d) (history d) (bins d) (nodes d) (order_bins d) (reservations d)
    (f (ledger d)) (exceptions d) (outbox d) (audit_log d) (loader_homes d)
    (bin_types d) (templates d) (dedup d) (buckets d) (clock_now d) (db_now d).
Definition set_exceptions (f : list Exc -> list Exc) (d : CoreDB) : CoreDB :=
  mkCoreDB (orders d) (history d) (bins d) (nodes d) (order_bins d) (reservations d)
    (ledger d) (f (exceptions d)) (outbox d) (audit_log d) (loader_homes d)
    (bin_types d) (templates d) (dedup d) (buckets d) (clock_now d) (db_now d).
Definition set_outbox (f : list OutMsg -> list OutMsg) (d : CoreDB) : CoreDB :=
  mkCoreDB (orders d) (history d) (bins d) (nodes d) (order_bins d) (reservations d)
    (ledger d) (exceptions d) (f (outbox d)) (audit_log d) (loader_homes d)
    (bin_types d) (templates d) (dedup d) (buckets d) (clock_now d) (db_now d).
Definition set_audit_log (f : list AuditRow -> list AuditRow) (d : CoreDB) : CoreDB :=
  mkCoreDB (orders d) (history d) (bins d) (nodes d) (order_bins d) (reservations d)
    (ledger d) (exceptions d) (outbox d) (f (audit_log d)) (loader_homes d)
    (bin_types d) (templates d) (dedup d) (buckets d) (clock_now d) (db_now d).

Definition set_dedup (f : gmap DedupKey Z -> gmap DedupKey Z) (d : CoreDB) : CoreDB :=
  mkCoreDB (orders d) (history d) (bins d) (nodes d) (order_bins d) (reservations d)
    (ledger d) (exceptions d) (outbox d) (audit_log d) (loader_homes d)
    (bin_types d) (templates d) (f (dedup d)) (buckets d) (clock_now d) (db_now d).
Definition set_buckets (f : gmap BucketKey Bucket -> gmap BucketKey Bucket) (d : CoreDB) : CoreDB :=
  mkCoreDB (orders d) (history d) (bins d) (nodes d) (order_bins d) (reservations d)
    (ledger d) (exceptions d) (outbox d) (audit_log d) (loader_homes d)
    (bin_types d) (templates d) (dedup d) (f (buckets d)) (clock_now d) (db_now d).

Definition with_status (s : Status) (err : string) (now : Z) (o : Order) : Order :=
  mkOrder (o_id o) (o_uuid o) (o_station o) s err (o_vendor_id o)
    (o_process_node o) (o_delivery_node o) (o_payload o) (o_queue_reason o)
    (o_queue_code o) (o_queue_cause o) (o_wait_index o) (o_completed_at o) now.
Definition with_queue (reason code cause : string) (now : Z) (o : Order) : Order :=
  mkOrder (o_id o) (o_uuid o) (o_station o) (o_status o) (o_error_detail o)
    (o_vendor_id o) (o_process_node o) (o_delivery_node o) (o_payload o)
    reason code cause (o_wait_index o) (o_completed_at o) now.
Definition with_completed (now : Z) (o : Order) : Order :=
  mkOrder (o_id o) (o_uuid o) (o_station o) (o_status o) (o_error_detail o)
    (o_vendor_id o) (o_process_node o) (o_delivery_node o) (o_payload o)
    (o_queue_reason o) (o_queue_code o) (o_queue_cause o) (o_wait_index o) (Some now) now.

Definition set_bin_claim (c : option Z) (b : Bin) : Bin :=
  mkBin (b_node b) (b_locked b) c (b_anomaly_at b) (b_payload b) (b_manifest b)
    (b_uop b) (b_confirmed b) (b_loaded_at b) (b_epoch b) (b_type b).
Definition set_bin_anomaly (a : option Z) (b : Bin) : Bin :=
  mkBin (b_node b) (b_locked b) (b_claimed_by b) a (b_payload b) (b_manifest b)
    (b_uop b) (b_confirmed b) (b_loaded_at b) (b_epoch b) (b_type b).
Definition set_bin_load (payload : string) (manifest : option Manifest) (uop : Z)
    (confirmed : bool) (loaded : option Z) (b : Bin) : Bin :=
  mkBin (b_node b) (b_locked b) (b_claimed_by b) (b_anomaly_at b) payload manifest
    uop confirmed loaded (b_epoch b) (b_type b).
Definition set_bin_epoch (e : Z) (b : Bin) : Bin :=
  mkBin (b_node b) (b_locked b) (b_claimed_by b) (b_anomaly_at b) (b_payload b) (b_manifest b)
    (b_uop b) (b_confirmed b) (b_loaded_at b) e (b_type b).
Definition set_bin_type (t : option Z) (b : Bin) : Bin :=
  mkBin (b_node b) (b_locked b) (b_claimed_by b) (b_anomaly_at b) (b_payload b) (b_manifest b)
    (b_uop b) (b_confirmed b) (b_loaded_at b) (b_epoch b) t.
Definition set_node_claim (c : option Z) (n : Node) : Node :=
  mkNode (n_name n) c.

(** SQL's [claimed_by=$1]: false on NULL. *)
Definition claimed_is (c : option Z) (o : Z) : bool :=
  match c with Some x => x =i o | None => false end.

Lemma claimed_is_true c o : claimed_is c o = true <-> c = Some o.
Proof. destruct c as [x|]; simpl; [|done]. rewrite Z.eqb_eq. naive_solver. Qed.

(** ** Schema constraints *)

(** reservations_kind_target_check. *)
Definition kind_target_ok (r : Resv) : bool :=
  match r_kind r with
  | KindBin => bool_decide (is_Some (r_bin r)) && bool_decide (r_node r = None)
  | _ => bool_decide (is_Some (r_node r)) && bool_decide (r_bin r = None)
  end.

(** The foreign keys of [reservations]: order, bin and node rows exist. *)
Definition fk_ok (d : CoreDB) (r : Resv) : bool :=
  bool_decide (is_Some (orders d !! r_order r)) &&
  match r_bin r with None => true | Some b => bool_decide (is_Some (bins d !! b)) end &&
  match r_node r with None => true | Some n => bool_decide (is_Some (nodes d !! n)) end.

(** Do two rows collide on uq_reservations_bin_active or
    uq_reservations_slot_active?  Both states are active. *)
Definition collides (r r' : Resv) : bool :=
  match r_kind r, r_kind r' with
  | KindBin, KindBin => bool_decide (r_bin r = r_bin r')
  | KindSlot, KindSlot => bool_decide (r_node r = r_node r')
  | _, _ => false
  end.

(** What the schema guarantees of the reservations table. *)
Record resv_wf (d : CoreDB) : Prop := {
  wf_target : forall r, r ∈ reservations d -> kind_target_ok r = true;
  wf_fk : forall r, r ∈ reservations d -> fk_ok d r = true;
  wf_unique : ForallOrdPairs (fun r r' => collides r r' = false) (reservations d)
}.

Lemma collides_sym r r' : collides r r' = collides r' r.
Proof.
  unfold collides. destruct (r_kind r), (r_kind r'); try done;
    apply bool_decide_ext; naive_solver.
Qed.

(** A statement that keeps a subset of the reservations and the key columns of
    the referenced tables keeps the schema's guarantees. *)
Lemma resv_wf_subset (f : Resv -> bool) d :
  resv_wf d -> resv_wf (set_reservations (List.filter f) d).
Proof.
  intros [Ht Hf Hu]. constructor; simpl.
  - intros r [Hr _]%elem_of_lfilter. auto.
  - intros r [Hr _]%elem_of_lfilter. by apply Hf.
  - by apply FOP_filter.
Qed.

(** ** SQL's NULLIF(x, '') *)
Definition nullif (x : string) : option string := if x =s "" then None else Some x.

(** ** A small plant: two live orders, a finished one, a bin in a slot, a bin on
    a robot, an empty slot, two lanes. *)
Definition demo_order (id : Z) (st : Status) : Order :=
  mkOrder id "uuid" "ST1" st "" "" "ALN_001" "LINE_1" "P1" "" "" "" 0 None 0.

Definition demo_bin (node : Z) (claim : option Z) : Bin :=
  mkBin (Some node) false claim None "P1" (Some [("P1", 40%Z)]) 40 true None 3 None.

Definition demo_db : CoreDB :=
  mkCoreDB
    (list_to_map [(1%Z, demo_order 1 StatusQueued); (2%Z, demo_order 2 StatusDispatched);
                  (3%Z, demo_order 3 StatusCancelled)])
    [] (list_to_map [(10%Z, demo_bin 20 None); (11%Z, demo_bin 21 (Some 2%Z))])
    (list_to_map [(20%Z, mkNode "SLOT_A" None); (21%Z, mkNode "_TRANSIT" None);
                  (22%Z, mkNode "SLOT_B" None); (30%Z, mkNode "LANE_1" None);
                  (31%Z, mkNode "LANE_2" None)])
    [] [] [] [] [] [] [] ∅ ∅ ∅ ∅ 100 200.

Lemma demo_wf : resv_wf demo_db.
Proof. by constructor; [intros r H%elem_of_nil|intros r H%elem_of_nil|constructor]. Qed.
