(* ===== verification/Reservations.v ===== *)
(** Bin and slot reservations (shingo-core/store/reservations/reservations.go):
    Acquire, Confirm, Release and their variants, and the owner-liveness
    reaper.  Exclusivity rests on the two partial unique indexes, FKs on the
    schema; both are in [acquire]'s statement. *)

From S2P Require Import Prelude Status Sql CoreDb.

(** ** Operations *)

Record Ref := mkRef { ref_kind : Kind; ref_id : Z }.

Definition BinRef (binID : Z) : Ref := mkRef KindBin binID.
Definition SlotRef (nodeID : Z) : Ref := mkRef KindSlot nodeID.

(** The row [acquire] inserts: the target column is routed by the kind. *)
Definition pending_row (orderID : Z) (ref : Ref) (reservedBy : string) : Resv :=
  mkResv orderID (ref_kind ref)
    (if bool_decide (ref_kind ref = KindBin) then Some (ref_id ref) else None)
    (if bool_decide (ref_kind ref = KindBin) then None else Some (ref_id ref))
    StatePending reservedBy None.

(** INSERT ... ON CONFLICT DO NOTHING: rows affected and the new table; a
    foreign-key violation is an error. *)
Definition insert_on_conflict_nothing (row : Resv) (d : CoreDB) : option (nat * CoreDB) :=
  if existsb (collides row) (reservations d) then Some (0, d)
  else if fk_ok d row then Some (1, set_reservations (fun l => l ++ [row]) d)
  else None.

Definition acquire (orderID : Z) (ref : Ref) (reservedBy : string) : CoreSQL unit :=
  n <-- stmt_checked (insert_on_conflict_nothing (pending_row orderID ref reservedBy)) ;;
  if (n =? 0)%nat then sfail EReservationConflict else sret ().

Definition Acquire (orderID binID : Z) (by_ : string) : CoreSQL unit :=
  acquire orderID (BinRef binID) by_.
Definition AcquireSlot (orderID nodeID : Z) (by_ : string) : CoreSQL unit :=
  acquire orderID (SlotRef nodeID) by_.

(** order_id=$1 AND resource_kind=$2 AND COALESCE(bin_id, node_id)=$3. *)
Definition coalesce (a b : option Z) : option Z :=
  match a with Some x => Some x | None => b end.

Definition matches (orderID : Z) (ref : Ref) (r : Resv) : bool :=
  (r_order r =i orderID) && bool_decide (r_kind r = ref_kind ref) &&
  claimed_is (coalesce (r_bin r) (r_node r)) (ref_id ref).

Definition set_confirmed (r : Resv) : Resv :=
  mkResv (r_order r) (r_kind r) (r_bin r) (r_node r) StateConfirmed (r_by r) (r_mode r).

Definition confirm (orderID : Z) (ref : Ref) : CoreSQL unit :=
  exec (set_reservations (map (fun r =>
    if matches orderID ref r && bool_decide (r_state r = StatePending)
    then set_confirmed r else r))).

Definition Confirm (orderID binID : Z) : CoreSQL unit := confirm orderID (BinRef binID).
Definition ConfirmSlot (orderID nodeID : Z) : CoreSQL unit := confirm orderID (SlotRef nodeID).

Definition delete_where (p : Resv -> bool) : CoreDB -> CoreDB :=
  set_reservations (List.filter (fun r => negb (p r))).

Definition release (orderID : Z) (ref : Ref) : CoreSQL unit :=
  exec (delete_where (matches orderID ref)).

Definition Release (orderID binID : Z) : CoreSQL unit := release orderID (BinRef binID).
Definition ReleaseSlot (orderID nodeID : Z) : CoreSQL unit := release orderID (SlotRef nodeID).

Definition ReleaseByOrder (orderID : Z) : CoreSQL unit :=
  exec (delete_where (fun r => r_order r =i orderID)).

Definition ReleaseByBin (binID : Z) : CoreSQL unit :=
  exec (delete_where (fun r => claimed_is (r_bin r) binID)).

Definition ReleaseByNode (nodeID : Z) : CoreSQL unit :=
  exec (delete_where (fun r => claimed_is (r_node r) nodeID)).

Definition ListByOrder (orderID : Z) : CoreSQL (list Resv) :=
  query (fun d => List.filter (fun r => r_order r =i orderID) (reservations d)).

(** order_id IN (SELECT id FROM orders WHERE status IN (terminals)). *)
Definition owner_terminal (d : CoreDB) (r : Resv) : bool :=
  match orders d !! r_order r with
  | Some o => status_in_projector IsTerminal (o_status o)
  | None => false
  end.

(** order_id NOT IN (SELECT id FROM orders). *)
Definition owner_gone (d : CoreDB) (r : Resv) : bool :=
  match orders d !! r_order r with Some _ => false | None => true end.

Definition ReapOrphaned : CoreSQL nat :=
  stmt (fun d =>
    let dead r := owner_terminal d r || owner_gone d r in
    (length (List.filter dead (reservations d)), delete_where dead d)).

(** ** Well-formedness is preserved by every operation *)

Lemma pending_row_target orderID ref by_ :
  kind_target_ok (pending_row orderID ref by_) = true.
Proof. unfold kind_target_ok, pending_row. by destruct ref as [[] ?]. Qed.

Lemma resv_wf_insert row d n d' :
  kind_target_ok row = true -> resv_wf d ->
  insert_on_conflict_nothing row d = Some (n, d') -> resv_wf d'.
Proof.
  unfold insert_on_conflict_nothing. intros Hk [Ht Hf Hu] H.
  destruct (existsb _ _) eqn:E; [by simplify_eq|].
  destruct (fk_ok d row) eqn:F; [|done]. simplify_eq.
  rewrite existsb_false in E. constructor; simpl.
  - intros r [Hr| ->%list_elem_of_singleton]%elem_of_app; auto.
  - intros r [Hr| ->%list_elem_of_singleton]%elem_of_app; [by apply Hf|done].
  - apply FOP_snoc; [done|]. intros y Hy. rewrite collides_sym. by apply E.
Qed.

Lemma resv_wf_confirm orderID ref d :
  resv_wf d -> resv_wf (set_reservations (map (fun r =>
    if matches orderID ref r && bool_decide (r_state r = StatePending)
    then set_confirmed r else r)) d).
Proof.
  set (g := fun r => _). intros [Ht Hf Hu]. constructor; simpl.
  - intros r (r0 & -> & Hr)%list_elem_of_fmap. specialize (Ht r0 Hr).
    unfold g. by case_match.
  - intros r (r0 & -> & Hr)%list_elem_of_fmap. specialize (Hf r0 Hr).
    unfold g. by case_match.
  - apply FOP_map; [|done]. intros x y. unfold g. by do 2 case_match.
Qed.

Lemma acquire_wf orderID ref by_ : evolves (keeps resv_wf) (acquire orderID ref by_).
Proof.
  unfold acquire. evolve. intros d n d' Hi Hwf.
  eapply resv_wf_insert; [apply pending_row_target|done|done].
Qed.

Lemma confirm_wf orderID ref : evolves (keeps resv_wf) (confirm orderID ref).
Proof. unfold confirm. evolve. intros d Hwf. by apply resv_wf_confirm. Qed.

Lemma delete_where_wf p d : resv_wf d -> resv_wf (delete_where p d).
Proof. apply resv_wf_subset. Qed.

Lemma reap_wf : evolves (keeps resv_wf) ReapOrphaned.
Proof. unfold ReapOrphaned. evolve. intros d Hwf. by apply resv_wf_subset. Qed.

#[export] Hint Resolve acquire_wf confirm_wf delete_where_wf reap_wf : shingo.

(** ** Exclusivity *)

(** The rows held on one resource. *)
Definition on_ref (ref : Ref) (r : Resv) : bool :=
  bool_decide (r_kind r = ref_kind ref) &&
  claimed_is (coalesce (r_bin r) (r_node r)) (ref_id ref).

Definition holders (ref : Ref) (d : CoreDB) : list Resv :=
  List.filter (on_ref ref) (reservations d).

(** Bins and slots: the kinds the unique indexes cover. *)
Definition indexed (ref : Ref) : bool :=
  match ref_kind ref with KindBin | KindSlot => true | _ => false end.

Lemma matches_on_ref o ref r :
  matches o ref r = (r_order r =i o) && on_ref ref r.
Proof. unfold matches, on_ref. by rewrite andb_assoc. Qed.

(** A row's resource id: the column its kind routes to. *)
Definition key (r : Resv) : option Z :=
  match r_kind r with KindBin => r_bin r | _ => r_node r end.

Lemma kind_target_key r :
  kind_target_ok r = true -> coalesce (r_bin r) (r_node r) = key r /\ is_Some (key r).
Proof.
  unfold kind_target_ok, key. intros H.
  destruct (r_kind r); apply andb_true_iff in H as [H1%bool_decide_eq_true H2%bool_decide_eq_true];
    rewrite ?H2; destruct H1 as [x Hx]; rewrite Hx; simpl; eauto.
Qed.

Lemma on_ref_spec ref r :
  kind_target_ok r = true ->
  on_ref ref r = true <-> r_kind r = ref_kind ref /\ key r = Some (ref_id ref).
Proof.
  intros [Hk _]%kind_target_key. unfold on_ref.
  by rewrite Hk, andb_true_iff, bool_decide_eq_true, claimed_is_true.
Qed.

Lemma collides_spec r r' :
  collides r r' = true <->
  r_kind r = r_kind r' /\ key r = key r' /\ (r_kind r = KindBin \/ r_kind r = KindSlot).
Proof.
  unfold collides, key.
  destruct (r_kind r), (r_kind r'); rewrite ?bool_decide_eq_true; naive_solver.
Qed.

Lemma indexed_spec ref :
  indexed ref = true <-> ref_kind ref = KindBin \/ ref_kind ref = KindSlot.
Proof. unfold indexed. destruct (ref_kind ref); naive_solver. Qed.

Lemma pending_row_key o ref by_ :
  key (pending_row o ref by_) = Some (ref_id ref) /\
  r_kind (pending_row o ref by_) = ref_kind ref.
Proof. by destruct ref as [[] ?]. Qed.

Lemma collides_pending o ref by_ r :
  indexed ref = true -> kind_target_ok r = true ->
  collides (pending_row o ref by_) r = on_ref ref r.
Proof.
  intros Hi%indexed_spec Hk. apply Bool.eq_iff_eq_true.
  rewrite collides_spec, on_ref_spec by done.
  destruct (pending_row_key o ref by_) as [-> ->]. naive_solver.
Qed.

Lemma pending_on_ref o ref by_ : on_ref ref (pending_row o ref by_) = true.
Proof.
  unfold on_ref, pending_row. destruct ref as [[] i]; simpl; by rewrite Z.eqb_refl.
Qed.

Lemma conflict_iff_held o ref by_ d :
  indexed ref = true -> resv_wf d ->
  existsb (collides (pending_row o ref by_)) (reservations d) = false <->
  holders ref d = [].
Proof.
  intros Hi [Ht _ _]. unfold holders. rewrite existsb_false. split.
  - intros H. apply lfilter_none. intros r Hr. rewrite <- (collides_pending o ref by_); auto.
  - intros H r Hr. rewrite collides_pending by auto.
    destruct (on_ref ref r) eqn:E; [|done].
    assert (r ∈ List.filter (on_ref ref) (reservations d)) by (by apply elem_of_lfilter).
    rewrite H in *. set_solver.
Qed.

(** At most one row per indexed resource. *)
Lemma holders_at_most_one ref d :
  indexed ref = true -> resv_wf d -> length (holders ref d) <= 1.
Proof.
  intros Hi [Ht _ Hu]. unfold holders.
  apply (FOP_filter _ (on_ref ref)) in Hu.
  assert (Hall : forall r, r ∈ List.filter (on_ref ref) (reservations d) ->
    kind_target_ok r = true /\ on_ref ref r = true)
    by (intros r [??]%elem_of_lfilter; auto).
  destruct (List.filter (on_ref ref) (reservations d)) as [|a [|b l]]; simpl; [lia..|].
  exfalso. inversion Hu as [|? ? Hab]; subst. inversion Hab as [|? ? Hc]; subst.
  destruct (Hall a) as [Ka Oa]; [set_solver|]. destruct (Hall b) as [Kb Ob]; [set_solver|].
  apply on_ref_spec in Oa as [? ?], Ob as [? ?]; [|done..].
  apply indexed_spec in Hi.
  assert (collides a b = true) by (apply collides_spec; split_and!; congruence || naive_solver).
  congruence.
Qed.

Lemma acquire_ok o ref by_ c c' :
  acquire o ref by_ c = (Ok (), c') ->
  existsb (collides (pending_row o ref by_)) (reservations (db c)) = false /\
  db c' = set_reservations (fun l => l ++ [pending_row o ref by_]) (db c).
Proof.
  unfold acquire. intros H. sql_inv H. unfold insert_on_conflict_nothing in Hm.
  destruct (existsb _ _); [injection Hm as <- _; discriminate Hk|].
  destruct (fk_ok _ _); [|done]. injection Hm as <- Hm. simpl in Hk. sql_inv Hk. done.
Qed.

(** A held resource refuses every acquire, whoever asks, and nothing changes. *)
Lemma acquire_held o ref by_ c :
  indexed ref = true -> resv_wf (db c) -> holders ref (db c) <> [] ->
  (acquire o ref by_ c).1 <> Ok () /\ db (acquire o ref by_ c).2 = db c /\
  (faults c = [] -> (acquire o ref by_ c).1 = Err EReservationConflict).
Proof.
  intros Hi Hwf Hh.
  assert (Hc : existsb (collides (pending_row o ref by_)) (reservations (db c)) = true).
  { destruct (existsb _ _) eqn:E; [done|]. by apply conflict_iff_held in E. }
  unfold acquire, sbind, stmt_checked, insert_on_conflict_nothing. rewrite Hc.
  by destruct (faults c) as [|[] fs].
Qed.

Lemma holders_snoc o ref by_ d :
  holders ref (set_reservations (fun l => l ++ [pending_row o ref by_]) d) =
  holders ref d ++ [pending_row o ref by_].
Proof.
  unfold holders. simpl. rewrite List.filter_app. simpl. by rewrite pending_on_ref.
Qed.

Lemma holders_release o ref d :
  holders ref (delete_where (matches o ref) d) =
  List.filter (fun r => negb (r_order r =i o)) (holders ref d).
Proof.
  unfold holders, delete_where. simpl. rewrite !lfilter_lfilter.
  apply List.filter_ext. intros r. rewrite matches_on_ref.
  by destruct (on_ref ref r), (r_order r =i o).
Qed.

(** Acquire has exactly one winner.  When an acquire on a bin or a slot
    returns success, the resource's only row is the winner's pending row, and
    from then on every acquire of that resource - by another order or by the
    winner itself - is refused and leaves the tables unchanged (with a healthy
    connection the refusal is ErrReservationConflict). *)
Theorem acquire_exactly_one_winner (o : Z) (ref : Ref) (by_ : string) (c c' : Conn CoreDB) :
  indexed ref = true -> resv_wf (db c) ->
  acquire o ref by_ c = (Ok (), c') ->
  holders ref (db c') = [pending_row o ref by_] /\
  forall o2 by2,
    (acquire o2 ref by2 c').1 <> Ok () /\ db (acquire o2 ref by2 c').2 = db c' /\
    (faults c' = [] -> (acquire o2 ref by2 c').1 = Err EReservationConflict).
Proof.
  intros Hi Hwf H.
  assert (Hwf' : resv_wf (db c')).
  { pose proof (acquire_wf o ref by_ c) as Hk. rewrite H in Hk. by apply Hk. }
  apply acquire_ok in H as [He Hd]. apply conflict_iff_held in He; [|done..].
  assert (Hh : holders ref (db c') = [pending_row o ref by_]) by
    (by rewrite Hd, holders_snoc, He).
  split; [done|]. intros o2 by2. apply acquire_held; [done..|]. by rewrite Hh.
Qed.

(** A release by the holder frees the resource: afterwards it has no row at
    all, and any order that exists can acquire it.  A release aimed by an order
    that does not hold the resource leaves its row alone. *)
Theorem release_hands_over (o o2 : Z) (ref : Ref) (by2 : string) (c c1 : Conn CoreDB) :
  indexed ref = true -> resv_wf (db c) ->
  release o ref c = (Ok (), c1) ->
  (forall r, holders ref (db c) = [r] -> r_order r <> o -> holders ref (db c1) = [r]) /\
  ((forall r, r ∈ holders ref (db c) -> r_order r = o) ->
   holders ref (db c1) = [] /\
   (faults c1 = [] -> fk_ok (db c1) (pending_row o2 ref by2) = true ->
    exists c2, acquire o2 ref by2 c1 = (Ok (), c2) /\
      holders ref (db c2) = [pending_row o2 ref by2])).
Proof.
  unfold release. intros Hi Hwf H. apply exec_ok in H.
  assert (Hh : holders ref (db c1) = List.filter (fun r => negb (r_order r =i o))
    (holders ref (db c))) by (by rewrite H, holders_release).
  split.
  - intros r Hr Hne. rewrite Hh, Hr. simpl. by rewrite (proj2 (Z.eqb_neq _ _) Hne).
  - intros Ho. assert (He : holders ref (db c1) = []).
    { rewrite Hh. apply lfilter_none. intros r Hr. rewrite (Ho r Hr), Z.eqb_refl. done. }
    split; [done|]. intros Hf Hfk.
    assert (Hwf1 : resv_wf (db c1)) by (rewrite H; by apply delete_where_wf).
    unfold acquire, sbind, stmt_checked, insert_on_conflict_nothing. rewrite Hf.
    rewrite (proj2 (conflict_iff_held o2 ref by2 (db c1) Hi Hwf1) He), Hfk. simpl.
    eexists. split; [reflexivity|]. simpl. by rewrite holders_snoc, He.
Qed.

(** The reaper reclaims exactly the dead owners' holds: a successful run
    keeps, in order, precisely the rows whose order is not terminal, and
    reports how many it removed; a live order's hold is never touched.  Under
    the foreign key the "order no longer exists" leg selects nothing. *)
Theorem reap_exactly_dead_owners (c c' : Conn CoreDB) (n : nat) :
  resv_wf (db c) -> ReapOrphaned c = (Ok n, c') ->
  reservations (db c') =
    List.filter (fun r => negb (owner_terminal (db c) r)) (reservations (db c)) /\
  n + length (reservations (db c')) = length (reservations (db c)) /\
  orders (db c') = orders (db c) /\
  (forall r, r ∈ reservations (db c) -> owner_gone (db c) r = false).
Proof.
  intros Hwf H. unfold ReapOrphaned in H. apply stmt_ok in H.
  assert (Hg : forall r, r ∈ reservations (db c) -> owner_gone (db c) r = false).
  { intros r Hr. pose proof (wf_fk _ Hwf r Hr) as Hf. unfold fk_ok in Hf. breflect.
    apply bool_decide_eq_true in H0 as [x Hx]. unfold owner_gone. by rewrite Hx. }
  injection H as Hn Hd. rewrite <- Hd, <- Hn. unfold delete_where. simpl. split_and!.
  - apply List.filter_ext_in. intros r Hr%list_elem_of_In. by rewrite (Hg r Hr), orb_false_r.
  - apply List.filter_length.
  - done.
  - done.
Qed.

