(* ===== verification/Mouth.v ===== *)
(** Lane-mouth holds and lane occupancy
    (shingo-core/store/reservations/mouth.go), the dig-exclusion predicate
    (dig_exclusion.go) and the LaneLock wrapper over them
    (shingo-core/dispatch/binresolver/lane_lock.go).

    Mouth rows have no unique index: coherence of a lane is the admission rule
    [admitMouth], run under the lane's advisory lock, so each acquisition is one
    atomic step. *)

From S2P Require Import Prelude Status Sql CoreDb Reservations.

(** ** Who is asking *)

Record DigAsker := mkAsker { da_order : Z; da_lane_owner : Z }.

Definition Anyone : DigAsker := mkAsker 0 0.

Definition AskerFor (orderID laneOwner : Z) : DigAsker :=
  mkAsker orderID (if laneOwner =i 0 then orderID else laneOwner).

Definition Owns (a : DigAsker) (orderID : Z) : bool :=
  if orderID =i 0 then false
  else (orderID =i da_order a) || (orderID =i da_lane_owner a).

Definition ExcludedBy (a : DigAsker) (digOwner : Z) : bool :=
  if digOwner =i 0 then false else negb (Owns a digOwner).

(** The SQL rendering: owner <> $asker AND owner <> $laneOwner. *)
Definition DigExclusionSQL (owner : Z) (a : DigAsker) : bool :=
  negb (owner =i da_order a) && negb (owner =i da_lane_owner a).

(** ** Tags *)

Definition ByExcavation : string := "lanelock".
Definition BySourceLock : string := "lanegate".
Definition ByDigHandoff : string := "dighandoff".

Definition IsExcavation (reservedBy : string) : bool := reservedBy =s ByExcavation.

(** ** Reads *)

Record MouthHold := mkHold { mh_order : Z; mh_mode : option Mode; mh_by : string }.

Definition mouth_on (lane : Z) (r : Resv) : bool :=
  bool_decide (r_kind r = KindMouth) && claimed_is (r_node r) lane.

Definition to_hold (r : Resv) : MouthHold := mkHold (r_order r) (r_mode r) (r_by r).

(** SELECT ... ORDER BY order_id. *)
Definition activeMouthRows (lane : Z) (d : CoreDB) : list MouthHold :=
  isort (fun a b => Z.leb (mh_order a) (mh_order b))
    (map to_hold (List.filter (mouth_on lane) (reservations d))).

(** ** Admission *)

Inductive mouthVerdict := admitFresh | admitIdempotent | admitUpgrade | admitConflict.

Definition is_mode (m : option Mode) (mode : Mode) : bool := bool_decide (m = Some mode).

(** The loop over the holders: [None] is the early return on a foreign
    conflict, otherwise (ownerHolds, ownerHoldsOtherMode). *)
Fixpoint admit_loop (hs : list MouthHold) (owner : Z) (mode : Mode) (ben : DigAsker)
    (ownerHolds : bool) (other : option Mode) : option (bool * option Mode) :=
  match hs with
  | [] => Some (ownerHolds, other)
  | h :: rest =>
      if mh_order h =i owner then
        if is_mode (mh_mode h) mode then admit_loop rest owner mode ben true other
        else admit_loop rest owner mode ben ownerHolds (mh_mode h)
      else if Owns ben (mh_order h) then admit_loop rest owner mode ben ownerHolds other
      else if bool_decide (mode = ModeDig) || is_mode (mh_mode h) ModeDig
              || negb (is_mode (mh_mode h) mode)
      then None
      else admit_loop rest owner mode ben ownerHolds other
  end.

Definition admitMouth (hs : list MouthHold) (lane owner : Z) (mode : Mode) (ben : DigAsker)
    : outcome error mouthVerdict :=
  match admit_loop hs owner mode ben false None with
  | None => Ok admitConflict
  | Some (ownerHolds, Some _) =>
      if bool_decide (mode = ModeDig) && Owns ben owner then Ok admitUpgrade
      else Err (EOtherMode owner lane)
  | Some (true, None) => Ok admitIdempotent
  | Some (false, None) => Ok admitFresh
  end.

(** ** Writes *)

Definition owner_mouth (owner lane : Z) (r : Resv) : bool :=
  (r_order r =i owner) && mouth_on lane r.

Definition set_tag (by_ : string) (r : Resv) : Resv :=
  mkResv (r_order r) (r_kind r) (r_bin r) (r_node r) (r_state r) by_ (r_mode r).
Definition set_mode_tag (mode : Mode) (by_ : string) (r : Resv) : Resv :=
  mkResv (r_order r) (r_kind r) (r_bin r) (r_node r) (r_state r) by_ (Some mode).

Definition update_where (p : Resv -> bool) (g : Resv -> Resv) : CoreDB -> CoreDB :=
  set_reservations (map (fun r => if p r then g r else r)).

Definition mouth_row (owner lane : Z) (by_ : string) (mode : Mode) : Resv :=
  mkResv owner KindMouth None (Some lane) StateConfirmed by_ (Some mode).

(** A plain INSERT: only the foreign keys can refuse it. *)
Definition insert_row (row : Resv) (d : CoreDB) : option (unit * CoreDB) :=
  if fk_ok d row then Some ((), set_reservations (fun l => l ++ [row]) d) else None.

(** slices.Sort then slices.Compact on int64s. *)
Fixpoint compact (l : list Z) : list Z :=
  match l with
  | x :: ((y :: _) as rest) => if x =i y then compact rest else x :: compact rest
  | _ => l
  end.

Definition sortedUniqueLanes (ids : list Z) : list Z := compact (isort Z.leb ids).

(** One iteration of the acquire loop: advisory lock, admission, write. *)
Definition acquire_lane (owner : Z) (mode : Mode) (ben : DigAsker) (by_ : string) (lane : Z)
    : CoreSQL unit :=
  exec id ;;;
  hs <-- query (activeMouthRows lane) ;;
  match admitMouth hs lane owner mode ben with
  | Err e => sfail e
  | Ok admitIdempotent =>
      if IsExcavation by_ then
        exec (update_where (fun r => owner_mouth owner lane r && (r_by r <>s by_)) (set_tag by_))
      else sret ()
  | Ok admitConflict => sfail EReservationConflict
  | Ok admitUpgrade => exec (update_where (owner_mouth owner lane) (set_mode_tag mode by_))
  | Ok admitFresh => stmt_checked (insert_row (mouth_row owner lane by_ mode))
  end.

Fixpoint acquire_each (owner : Z) (mode : Mode) (ben : DigAsker) (by_ : string)
    (lanes : list Z) : CoreSQL unit :=
  match lanes with
  | [] => sret ()
  | lane :: rest => acquire_lane owner mode ben by_ lane ;;; acquire_each owner mode ben by_ rest
  end.

Definition AcquireLanesFor (owner : Z) (mode : Mode) (ben : DigAsker) (by_ : string)
    (laneIDs : list Z) : CoreSQL unit :=
  match sortedUniqueLanes laneIDs with
  | [] => sret ()
  | lanes => tx (acquire_each owner mode ben by_ lanes ;;; commit ())
  end.

Definition AcquireLanes (owner : Z) (mode : Mode) (by_ : string) (laneIDs : list Z)
    : CoreSQL unit :=
  AcquireLanesFor owner mode Anyone by_ laneIDs.

Definition DigAdmissible (lane : Z) (ben : DigAsker) : CoreSQL bool :=
  hs <-- query (activeMouthRows lane) ;;
  sret (forallb (fun h => Owns ben (mh_order h)) hs).

Definition ReleaseLane (owner lane : Z) : CoreSQL unit :=
  exec (delete_where (owner_mouth owner lane)).

Definition ReleaseLaneHandoff (owner lane : Z) : CoreSQL unit :=
  exec (delete_where (fun r => owner_mouth owner lane r && negb (is_mode (r_mode r) ModeDig))).

(** Every mouth row of an order, whatever the lane. *)
Definition any_mouth (owner : Z) (r : Resv) : bool :=
  (r_order r =i owner) && bool_decide (r_kind r = KindMouth).

(** SELECT node_id: the lane of a mouth row. *)
Definition lane_of (r : Resv) : Z := default 0%Z (r_node r).

Definition ReleaseLanesByOwner (owner : Z) : CoreSQL (list Z) :=
  stmt (fun d => (map lane_of (List.filter (any_mouth owner) (reservations d)),
                  delete_where (any_mouth owner) d)).

Definition LanesHeldByOwner (owner : Z) : CoreSQL (list Z) :=
  query (fun d => map lane_of (List.filter (any_mouth owner) (reservations d))).

Definition ListDigHolds : CoreSQL (list (Z * Z)) :=
  query (fun d =>
    isort (fun a b => Z.leb a.1 b.1)
      (map (fun r => (lane_of r, r_order r))
        (List.filter (fun r => bool_decide (r_kind r = KindMouth) && is_mode (r_mode r) ModeDig)
          (reservations d)))).

(** The row [HandOffLaneToPicker] looks for first among the holders. *)
Definition find_holder (owner : Z) (hs : list MouthHold) : option MouthHold :=
  List.find (fun h => mh_order h =i owner) hs.

Definition HandOffLaneToPicker (lane digOwner picker : Z) (by_ : string) : CoreSQL bool :=
  tx (exec id ;;;
      n <-- stmt (fun d =>
        let p r := owner_mouth digOwner lane r && is_mode (r_mode r) ModeDig in
        (length (List.filter p (reservations d)), delete_where p d)) ;;
      if (n =? 0)%nat then rollback false
      else
        hs <-- query (activeMouthRows lane) ;;
        match find_holder picker hs with
        | Some h => if is_mode (mh_mode h) ModeOutbound then commit true else commit false
        | None =>
            stmt_checked (insert_row (mouth_row picker lane by_ ModeOutbound)) ;;;
            commit true
        end).

(** ** Occupancy: who is inside the lane *)

Definition occupies (owner node : Z) (r : Resv) : bool :=
  (r_order r =i owner) && bool_decide (r_kind r = KindOccupancy) && claimed_is (r_node r) node.

Definition occupancy_row (owner node : Z) : Resv :=
  mkResv owner KindOccupancy None (Some node) StateConfirmed "lane-occupancy" None.

(** INSERT ... WHERE NOT EXISTS: did this call insert? *)
Definition AcquireOccupancy (owner node : Z) : CoreSQL bool :=
  stmt_checked (fun d =>
    if existsb (occupies owner node) (reservations d) then Some (false, d)
    else if fk_ok d (occupancy_row owner node)
    then Some (true, set_reservations (fun l => l ++ [occupancy_row owner node]) d)
    else None).

Definition ReleaseOccupancy (owner node : Z) : CoreSQL unit :=
  exec (delete_where (occupies owner node)).

Definition ReleaseAllOccupancy (owner : Z) : CoreSQL unit :=
  exec (delete_where (fun r => (r_order r =i owner) && bool_decide (r_kind r = KindOccupancy))).

Definition ReleaseOccupancyForLane (owner lane : Z) : CoreSQL unit :=
  exec (delete_where (occupies owner lane)).

Definition OccupantsOf (node : Z) : CoreSQL (list Z) :=
  query (fun d => isort Z.leb (map r_order
    (List.filter (fun r => bool_decide (r_kind r = KindOccupancy) && claimed_is (r_node r) node)
      (reservations d)))).

(** ** Dig reads *)

Definition dig_owner_in (p : MouthHold -> bool) (hs : list MouthHold) : Z :=
  match List.find p hs with Some h => mh_order h | None => 0%Z end.

Definition ExcavationOwner (lane : Z) : CoreSQL Z :=
  hs <-- query (activeMouthRows lane) ;;
  sret (dig_owner_in (fun h => is_mode (mh_mode h) ModeDig && IsExcavation (mh_by h)) hs).

(** ... AND mode='dig' ORDER BY order_id LIMIT 1; 0 when there is no row. *)
Definition DigHoldOwner (lane : Z) : CoreSQL Z :=
  query (fun d => dig_owner_in (fun h => is_mode (mh_mode h) ModeDig) (activeMouthRows lane d)).

(** ** LaneLock: the dispositions over those reads and writes *)

Definition TryLockFor (lane order : Z) (ben : DigAsker) (c : Conn CoreDB) : bool * Conn CoreDB :=
  match AcquireLanesFor order ModeDig ben ByExcavation [lane] c with
  | (Ok _, c') => (true, c')
  | (Err _, c') => (false, c')
  end.

Definition TryLock (lane order : Z) (c : Conn CoreDB) : bool * Conn CoreDB :=
  TryLockFor lane order Anyone c.

Definition Unlock (lane order : Z) (c : Conn CoreDB) : Conn CoreDB := (ReleaseLane order lane c).2.

Definition UnlockByOwner (order : Z) (c : Conn CoreDB) : list Z * Conn CoreDB :=
  match ReleaseLanesByOwner order c with
  | (Ok freed, c') => (freed, c')
  | (Err _, c') => ([], c')
  end.

Definition LanesHeldBy (order : Z) (c : Conn CoreDB) : list Z * Conn CoreDB :=
  match LanesHeldByOwner order c with
  | (Ok held, c') => (held, c')
  | (Err _, c') => ([], c')
  end.

Definition IsLocked (lane : Z) (c : Conn CoreDB) : bool * Conn CoreDB :=
  match DigHoldOwner lane c with
  | (Ok owner, c') => (negb (owner =i 0), c')
  | (Err _, c') => (true, c')
  end.

Definition CanTakeFor (lane : Z) (ben : DigAsker) (c : Conn CoreDB) : bool * Conn CoreDB :=
  match DigAdmissible lane ben c with
  | (Ok ok, c') => (ok, c')
  | (Err _, c') => (false, c')
  end.

Definition CanTake (lane : Z) (c : Conn CoreDB) : bool * Conn CoreDB := CanTakeFor lane Anyone c.

Definition LockedBy (lane : Z) (c : Conn CoreDB) : Z * Conn CoreDB :=
  match DigHoldOwner lane c with
  | (Ok owner, c') => (owner, c')
  | (Err _, c') => (0%Z, c')
  end.

(** ** Coherence of a lane *)

(** Two mouth rows on one lane. *)
Definition same_lane (r r' : Resv) : bool :=
  bool_decide (r_kind r = KindMouth) && bool_decide (r_kind r' = KindMouth) &&
  bool_decide (r_node r = r_node r').

(** One owner seated twice on one lane: the incoherent state admission refuses. *)
Definition double_seat (r r' : Resv) : bool := same_lane r r' && (r_order r =i r_order r').

(** Two owners on one lane who may not share it. *)
Definition clash (r r' : Resv) : bool :=
  same_lane r r' && negb (r_order r =i r_order r') &&
  (negb (bool_decide (r_mode r = r_mode r')) || is_mode (r_mode r) ModeDig).

(** Every mouth row carries a mode and no owner is seated twice. *)
Record mouth_wf (d : CoreDB) : Prop := {
  mw_mode : forall r, r ∈ reservations d -> r_kind r = KindMouth -> is_Some (r_mode r);
  mw_seat : ForallOrdPairs (fun r r' => double_seat r r' = false) (reservations d)
}.

(** In addition the owners of one lane are compatible: all inbound, all
    outbound, or one dig alone. *)
Record lane_exclusive (d : CoreDB) : Prop := {
  le_wf : mouth_wf d;
  le_clash : ForallOrdPairs (fun r r' => clash r r' = false) (reservations d)
}.

Lemma mouth_on_true lane r :
  mouth_on lane r = true <-> r_kind r = KindMouth /\ r_node r = Some lane.
Proof. unfold mouth_on. by rewrite andb_true_iff, bool_decide_eq_true, claimed_is_true. Qed.

Lemma owner_mouth_true owner lane r :
  owner_mouth owner lane r = true <->
  r_order r = owner /\ r_kind r = KindMouth /\ r_node r = Some lane.
Proof. unfold owner_mouth. by rewrite andb_true_iff, Z.eqb_eq, mouth_on_true. Qed.

Lemma same_lane_true r r' :
  same_lane r r' = true <->
  r_kind r = KindMouth /\ r_kind r' = KindMouth /\ r_node r = r_node r'.
Proof. unfold same_lane. rewrite !andb_true_iff, !bool_decide_eq_true. tauto. Qed.

Lemma active_elem h lane d :
  h ∈ activeMouthRows lane d <->
  exists r, r ∈ reservations d /\ mouth_on lane r = true /\ h = to_hold r.
Proof.
  unfold activeMouthRows. rewrite elem_of_isort, list_elem_of_fmap.
  setoid_rewrite elem_of_lfilter. naive_solver.
Qed.

Lemma is_mode_true m mode : is_mode m mode = true <-> m = Some mode.
Proof. apply bool_decide_eq_true. Qed.

(** ** Admission, characterised *)

Definition foreign_conflict (owner : Z) (mode : Mode) (ben : DigAsker) (h : MouthHold) : bool :=
  negb (mh_order h =i owner) && negb (Owns ben (mh_order h)) &&
  (bool_decide (mode = ModeDig) || is_mode (mh_mode h) ModeDig || negb (is_mode (mh_mode h) mode)).

Lemma admit_loop_none hs owner mode ben oh other :
  admit_loop hs owner mode ben oh other = None <->
  existsb (foreign_conflict owner mode ben) hs = true.
Proof.
  revert oh other. induction hs as [|h hs IH]; intros oh other; simpl; [done|].
  unfold foreign_conflict at 1.
  destruct (mh_order h =i owner); simpl; [destruct (is_mode _ _); apply IH|].
  destruct (Owns ben (mh_order h)); simpl; [apply IH|].
  destruct (_ || _ || _); simpl; [done|]. apply IH.
Qed.

Lemma admit_loop_some hs owner mode ben oh other oh' other' :
  admit_loop hs owner mode ben oh other = Some (oh', other') ->
  (forall h, h ∈ hs -> is_Some (mh_mode h)) ->
  (forall h, h ∈ hs -> foreign_conflict owner mode ben h = false) /\
  (oh' = true <-> oh = true \/ exists h, h ∈ hs /\ mh_order h = owner /\ mh_mode h = Some mode) /\
  (other' = None <-> other = None /\
    forall h, h ∈ hs -> mh_order h = owner -> mh_mode h = Some mode).
Proof.
  intros H Hm.
  assert (Hn : existsb (foreign_conflict owner mode ben) hs = false).
  { apply not_true_is_false. intros E%(admit_loop_none _ _ _ _ oh other). congruence. }
  rewrite existsb_false in Hn. split; [done|]. clear Hn. revert oh other H.
  induction hs as [|h hs IH]; intros oh other; simpl.
  - intros ?; simplify_eq. set_solver.
  - assert (Hh : is_Some (mh_mode h)) by (apply Hm; set_solver).
    specialize (IH ltac:(intros; apply Hm; set_solver)).
    setoid_rewrite elem_of_cons.
    destruct (mh_order h =i owner) eqn:E; breflect.
    + destruct (is_mode (mh_mode h) mode) eqn:M; intros H; apply IH in H as [H1 H2];
        clear IH Hm.
      * apply is_mode_true in M. naive_solver.
      * assert (mh_mode h <> Some mode) by (intros ?%is_mode_true; congruence).
        destruct Hh as [m Hh]. rewrite H1, H2, Hh. naive_solver.
    + destruct (Owns ben _); [|destruct (_ || _ || _); [done|]];
        intros H; apply IH in H as [H1 H2]; clear IH Hm Hh; naive_solver.
Qed.

(** The modes of a coherent lane's holders are set. *)
Lemma active_moded lane d h :
  mouth_wf d -> h ∈ activeMouthRows lane d -> is_Some (mh_mode h).
Proof.
  intros Hw (r & Hr & Hm & ->)%active_elem. apply mouth_on_true in Hm as [Hk _].
  by apply (mw_mode _ Hw).
Qed.

Lemma admitMouth_ok lane owner mode ben d v :
  mouth_wf d -> admitMouth (activeMouthRows lane d) lane owner mode ben = Ok v ->
  v = admitConflict \/
  (forall h, h ∈ activeMouthRows lane d -> foreign_conflict owner mode ben h = false) /\
  match v with
  | admitFresh => forall h, h ∈ activeMouthRows lane d -> mh_order h <> owner
  | admitIdempotent =>
      (exists h, h ∈ activeMouthRows lane d /\ mh_order h = owner) /\
      forall h, h ∈ activeMouthRows lane d -> mh_order h = owner -> mh_mode h = Some mode
  | admitUpgrade =>
      (exists h, h ∈ activeMouthRows lane d /\ mh_order h = owner /\ mh_mode h <> Some mode) /\
      mode = ModeDig /\ Owns ben owner = true
  | admitConflict => False
  end.
Proof.
  intros Hw H. unfold admitMouth in H.
  destruct (admit_loop _ _ _ _ _ _) as [[oh other]|] eqn:E; [|simplify_eq; by left].
  right. apply admit_loop_some in E as (Hf & Hoh & Hot); [|intros; by eapply active_moded].
  destruct other as [m|].
  - destruct (bool_decide _ && _) eqn:B; [|by destruct oh].
    assert (v = admitUpgrade) as -> by (destruct oh; congruence).
    apply andb_true_iff in B as [Hd%bool_decide_eq_true Hown]. split_and!; try done.
    destruct (decide (Exists (fun h => mh_order h = owner /\ mh_mode h <> Some mode)
      (activeMouthRows lane d))) as [(h & ? & ? & ?)%Exists_exists|Hne]; [eauto|]. exfalso.
    assert (Some m = None); [|done]. apply Hot. split; [done|]. intros h Hh Ho.
    destruct (decide (mh_mode h = Some mode)); [done|].
    exfalso. apply Hne, Exists_exists. eauto.
  - destruct (proj1 Hot eq_refl) as [_ Hall]. destruct oh; simplify_eq.
    + split; [done|]. split; [|done]. destruct (proj1 Hoh eq_refl) as [?|(h & ? & ? & ?)]; eauto. done.
    + split; [done|]. intros h Hh Ho. assert (false = true) by (apply Hoh; right; eauto). done.
Qed.

(** ** Effects of the statements on coherence *)

(** Row filters and row updates that keep the owner, kind and lane columns. *)
Definition key_preserving (g : Resv -> Resv) : Prop :=
  forall r, r_order (g r) = r_order r /\ r_kind (g r) = r_kind r /\ r_node (g r) = r_node r.

Lemma same_lane_keep g r r' : key_preserving g -> same_lane (g r) (g r') = same_lane r r'.
Proof.
  intros Hg. unfold same_lane. destruct (Hg r) as (_ & -> & ->), (Hg r') as (_ & -> & ->). done.
Qed.

Lemma double_seat_keep g r r' : key_preserving g -> double_seat (g r) (g r') = double_seat r r'.
Proof.
  intros Hg. unfold double_seat. rewrite same_lane_keep by done.
  by destruct (Hg r) as (-> & _), (Hg r') as (-> & _).
Qed.

Lemma mouth_wf_filter f d : mouth_wf d -> mouth_wf (set_reservations (List.filter f) d).
Proof.
  intros [Hm Hs]. constructor; simpl; [|by apply FOP_filter].
  intros r [Hr _]%elem_of_lfilter. auto.
Qed.

Lemma lane_exclusive_filter f d :
  lane_exclusive d -> lane_exclusive (set_reservations (List.filter f) d).
Proof.
  intros [Hw Hc]. constructor; [by apply mouth_wf_filter|]. by apply FOP_filter.
Qed.

Lemma mouth_wf_map g d :
  key_preserving g -> (forall r, is_Some (r_mode r) -> is_Some (r_mode (g r))) ->
  mouth_wf d -> mouth_wf (set_reservations (map g) d).
Proof.
  intros Hg Hmo [Hm Hs]. constructor; simpl.
  - intros r (r0 & -> & Hr)%list_elem_of_fmap Hk. apply Hmo, Hm; [done|].
    by rewrite <- (proj1 (proj2 (Hg r0))).
  - apply FOP_map; [|done]. intros x y. by rewrite double_seat_keep.
Qed.

Lemma lane_exclusive_map g d :
  key_preserving g -> (forall r, r_mode (g r) = r_mode r) ->
  lane_exclusive d -> lane_exclusive (set_reservations (map g) d).
Proof.
  intros Hg Hmo [Hw Hc]. constructor.
  - apply mouth_wf_map; [done| |done]. intros r. by rewrite Hmo.
  - apply FOP_map; [|done]. intros x y. unfold clash.
    rewrite same_lane_keep, !Hmo by done.
    by destruct (Hg x) as (-> & _), (Hg y) as (-> & _).
Qed.

(** A new row that is no mouth row disturbs no lane. *)
Lemma lane_exclusive_snoc_other row d :
  r_kind row <> KindMouth -> lane_exclusive d ->
  lane_exclusive (set_reservations (fun l => l ++ [row]) d).
Proof.
  intros Hk [[Hm Hs] Hc].
  assert (Hn : forall y, same_lane y row = false).
  { intros y. apply not_true_is_false. intros (_ & ? & _)%same_lane_true. done. }
  constructor; [constructor|]; simpl.
  - intros r [Hr| ->%list_elem_of_singleton]%elem_of_app; [auto|done].
  - apply FOP_snoc; [done|]. intros y _. unfold double_seat. by rewrite Hn.
  - apply FOP_snoc; [done|]. intros y _. unfold clash. by rewrite Hn.
Qed.

Lemma key_preserving_if (p : Resv -> bool) (g : Resv -> Resv) :
  key_preserving g -> key_preserving (fun r => if p r then g r else r).
Proof. intros Hg r. destruct (p r); [apply Hg|done]. Qed.

Lemma set_tag_keeps by_ : key_preserving (set_tag by_).
Proof. by intros r. Qed.

Lemma set_mode_tag_keeps mode by_ : key_preserving (set_mode_tag mode by_).
Proof. by intros r. Qed.

#[export] Hint Resolve mouth_wf_filter lane_exclusive_filter lane_exclusive_snoc_other
  key_preserving_if set_tag_keeps set_mode_tag_keeps : shingo.

(** A fresh mouth row for an owner not seated on the lane. *)
Lemma mouth_wf_fresh owner lane by_ mode d :
  (forall h, h ∈ activeMouthRows lane d -> mh_order h <> owner) ->
  mouth_wf d -> mouth_wf (set_reservations (fun l => l ++ [mouth_row owner lane by_ mode]) d).
Proof.
  intros Hno [Hm Hs]. constructor; simpl.
  - intros r [Hr| ->%list_elem_of_singleton]%elem_of_app Hk; [auto|]. simpl. eauto.
  - apply FOP_snoc; [done|]. intros y Hy. apply not_true_is_false. unfold double_seat.
    intros [(Hk & _ & Hn)%same_lane_true Ho%Z.eqb_eq]%andb_true_iff. simpl in Hn, Ho.
    apply (Hno (to_hold y)); [|done]. apply active_elem. exists y.
    split_and!; [done|by apply mouth_on_true|done].
Qed.

(** ... and whose mode every holder shares. *)
Lemma lane_exclusive_fresh owner lane by_ mode d :
  (forall h, h ∈ activeMouthRows lane d -> mh_order h <> owner) ->
  (forall h, h ∈ activeMouthRows lane d -> mh_mode h = Some mode /\ mode <> ModeDig) ->
  lane_exclusive d ->
  lane_exclusive (set_reservations (fun l => l ++ [mouth_row owner lane by_ mode]) d).
Proof.
  intros Hno Hsh [Hw Hc]. constructor; [by apply mouth_wf_fresh|]. simpl.
  apply FOP_snoc; [done|]. intros y Hy. apply not_true_is_false. unfold clash.
  intros [[(Hk & _ & Hn)%same_lane_true _]%andb_true_iff Hm]%andb_true_iff. simpl in Hn.
  destruct (Hsh (to_hold y)) as [Hy1 Hy2].
  { apply active_elem. exists y. split_and!; [done|by apply mouth_on_true|done]. }
  simpl in Hy1, Hm. rewrite Hy1, bool_decide_eq_true_2 in Hm by done. simpl in Hm.
  apply is_mode_true in Hm. congruence.
Qed.

Lemma Owns_Anyone o : Owns Anyone o = false.
Proof. unfold Owns. simpl. by destruct (o =i 0). Qed.

(** Admission on behalf of nobody admits only compatible sharing. *)
Lemma foreign_conflict_anyone owner mode h :
  foreign_conflict owner mode Anyone h = false -> mh_order h <> owner ->
  mh_mode h = Some mode /\ mode <> ModeDig.
Proof.
  unfold foreign_conflict. rewrite Owns_Anyone. intros H Hne.
  rewrite (proj2 (Z.eqb_neq _ _) Hne) in H. simpl in H. breflect.
  apply is_mode_true in H0. apply bool_decide_eq_false in H. done.
Qed.

(** ** Acquisition *)

(** One iteration, by verdict: a relation that holds of each verdict's write
    holds of the iteration. *)
Lemma acquire_lane_evolves (P : CoreDB -> Prop) owner mode ben by_ lane :
  (forall d, P d -> mouth_wf d) ->
  (forall d, P d ->
     (forall h, h ∈ activeMouthRows lane d -> foreign_conflict owner mode ben h = false) ->
     (forall h, h ∈ activeMouthRows lane d -> mh_order h <> owner) ->
     P (set_reservations (fun l => l ++ [mouth_row owner lane by_ mode]) d)) ->
  (forall d, P d -> IsExcavation by_ = true -> P (update_where
     (fun r => owner_mouth owner lane r && (r_by r <>s by_)) (set_tag by_) d)) ->
  (forall d h, P d -> h ∈ activeMouthRows lane d -> mh_order h = owner ->
     mh_mode h <> Some mode -> mode = ModeDig -> Owns ben owner = true ->
     P (update_where (owner_mouth owner lane) (set_mode_tag mode by_) d)) ->
  evolves (keeps P) (acquire_lane owner mode ben by_ lane).
Proof.
  intros HP Hfresh Htag Hup. unfold acquire_lane.
  apply evolves_bind; [typeclasses eauto| |intros _].
  { apply evolves_exec; [typeclasses eauto|]. intros d. by cbn. }
  apply evolves_query_bind; [typeclasses eauto|]. intros c.
  destruct (admitMouth _ _ _ _ _) as [v|e] eqn:Ha; [|done].
  destruct v; [| | |done].
  - apply stmt_checked_at; [typeclasses eauto|]. intros [] d' Hi Hd.
    apply admitMouth_ok in Ha as [?|[Hf Hno]]; [done| |by apply HP].
    unfold insert_row in Hi. destruct (fk_ok _ _); [|done]. simplify_eq. by apply Hfresh.
  - destruct (IsExcavation by_) eqn:Hx; [|done]. apply exec_at; [typeclasses eauto|].
    intros Hd. by apply Htag.
  - apply exec_at; [typeclasses eauto|]. intros Hd.
    apply admitMouth_ok in Ha as [?|(_ & (h & ? & ? & ?) & Hm & Ho)]; [done| |by apply HP].
    by apply (Hup _ h).
Qed.

Lemma acquire_lane_wf owner mode ben by_ lane :
  evolves (keeps mouth_wf) (acquire_lane owner mode ben by_ lane).
Proof.
  apply acquire_lane_evolves; [done| | |].
  - intros d Hw _ Hno. by apply mouth_wf_fresh.
  - intros d Hw _. apply mouth_wf_map; [auto with shingo| |done]. intros r. by case_match.
  - intros d h Hw _ _ _ _ _. apply mouth_wf_map; [auto with shingo| |done].
    intros r. case_match; [simpl; eauto|done].
Qed.

Lemma acquire_lane_exclusive owner mode by_ lane :
  evolves (keeps lane_exclusive) (acquire_lane owner mode Anyone by_ lane).
Proof.
  apply acquire_lane_evolves.
  - intros d. apply le_wf.
  - intros d Hd Hf Hno. apply lane_exclusive_fresh; [done| |done].
    intros h Hh. eapply foreign_conflict_anyone; eauto.
  - intros d Hd _. apply lane_exclusive_map; [auto with shingo| |done]. intros r. by case_match.
  - intros d h _ _ _ _ _. by rewrite Owns_Anyone.
Qed.

Lemma acquire_each_evolves (R : CoreDB -> CoreDB -> Prop) `{!PreOrder R} owner mode ben by_ lanes :
  (forall lane, evolves R (acquire_lane owner mode ben by_ lane)) ->
  evolves R (acquire_each owner mode ben by_ lanes).
Proof.
  intros H. induction lanes as [|lane rest IH]; simpl; [by apply evolves_ret|].
  by apply evolves_bind.
Qed.

Lemma AcquireLanesFor_evolves (R : CoreDB -> CoreDB -> Prop) `{!PreOrder R} owner mode ben by_ lanes :
  (forall lane, evolves R (acquire_lane owner mode ben by_ lane)) ->
  evolves R (AcquireLanesFor owner mode ben by_ lanes).
Proof.
  intros H. unfold AcquireLanesFor, commit.
  destruct (sortedUniqueLanes lanes) as [|l ls]; [by apply evolves_ret|].
  apply evolves_tx; [done|]. apply evolves_bind; [done|by apply acquire_each_evolves|].
  intros _. by apply evolves_ret.
Qed.

(** ** Interleavings of lane operations *)

(** Every statement that touches reservation rows, from any caller. *)
Inductive LaneOp :=
| OpAcquireLanes (owner : Z) (mode : Mode) (by_ : string) (lanes : list Z)
| OpReleaseLane (owner lane : Z)
| OpReleaseLaneHandoff (owner lane : Z)
| OpReleaseLanesByOwner (owner : Z)
| OpHandOff (lane digOwner picker : Z) (by_ : string)
| OpAcquireOccupancy (owner node : Z)
| OpReleaseOccupancy (owner node : Z)
| OpReleaseAllOccupancy (owner : Z)
| OpAcquire (order : Z) (ref : Ref) (by_ : string)
| OpConfirm (order : Z) (ref : Ref)
| OpRelease (order : Z) (ref : Ref)
| OpReleaseByOrder (order : Z)
| OpReap.

(** [acquire] is only ever called on a bin or a slot reference. *)
Definition op_ok (op : LaneOp) : bool :=
  match op with OpAcquire _ ref _ => indexed ref | _ => true end.

Definition forget {A} (m : CoreSQL A) (c : Conn CoreDB) : Conn CoreDB := (m c).2.

Definition run_op (op : LaneOp) : Conn CoreDB -> Conn CoreDB :=
  match op with
  | OpAcquireLanes o m b ls => forget (AcquireLanes o m b ls)
  | OpReleaseLane o l => forget (ReleaseLane o l)
  | OpReleaseLaneHandoff o l => forget (ReleaseLaneHandoff o l)
  | OpReleaseLanesByOwner o => forget (ReleaseLanesByOwner o)
  | OpHandOff l d p b => forget (HandOffLaneToPicker l d p b)
  | OpAcquireOccupancy o n => forget (AcquireOccupancy o n)
  | OpReleaseOccupancy o n => forget (ReleaseOccupancy o n)
  | OpReleaseAllOccupancy o => forget (ReleaseAllOccupancy o)
  | OpAcquire o r b => forget (acquire o r b)
  | OpConfirm o r => forget (confirm o r)
  | OpRelease o r => forget (release o r)
  | OpReleaseByOrder o => forget (ReleaseByOrder o)
  | OpReap => forget ReapOrphaned
  end.

(** A dig is alone on its lane. *)
Lemma dig_alone d r r' :
  lane_exclusive d -> r ∈ reservations d -> r' ∈ reservations d ->
  r_kind r = KindMouth -> r_kind r' = KindMouth -> r_node r = r_node r' ->
  r_mode r = Some ModeDig -> r' = r.
Proof.
  intros [[_ Hs] Hc] Hr Hr' Hk Hk' Hn Hm.
  assert (Hl : same_lane r r' = true) by (by apply same_lane_true).
  assert (Hl' : same_lane r' r = true) by (by apply same_lane_true).
  destruct (FOP_elem _ _ r r' Hs Hr Hr') as [->|Hseat]; [done|].
  destruct (FOP_elem _ _ r r' Hc Hr Hr') as [->|Hcl]; [done|].
  exfalso. unfold double_seat, clash in *. rewrite Hl, Hl', Hm in *. simpl in *.
  rewrite (Z.eqb_sym (r_order r') (r_order r)) in *.
  destruct (r_order r =i r_order r'); simpl in *; [by destruct Hseat|].
  destruct Hcl as [H|H]; [by rewrite orb_true_r in H|].
  apply orb_false_iff in H as [H1 H2].
  apply negb_false_iff, bool_decide_eq_true in H1. rewrite H1 in H2.
  done.
Qed.

Definition dig_row_of (digOwner lane : Z) (r : Resv) : bool :=
  owner_mouth digOwner lane r && is_mode (r_mode r) ModeDig.

Lemma dig_row_of_true o lane r :
  dig_row_of o lane r = true <->
  r_order r = o /\ r_kind r = KindMouth /\ r_node r = Some lane /\ r_mode r = Some ModeDig.
Proof. unfold dig_row_of. rewrite andb_true_iff, owner_mouth_true, is_mode_true. tauto. Qed.

(** Dropping the dig of an exclusive lane leaves the lane empty. *)
Lemma drop_dig_empties lane o d :
  lane_exclusive d -> List.filter (dig_row_of o lane) (reservations d) <> [] ->
  activeMouthRows lane (delete_where (dig_row_of o lane) d) = [].
Proof.
  intros He Hne.
  destruct (List.filter (dig_row_of o lane) (reservations d)) as [|r l] eqn:E; [done|].
  assert (Hr : r ∈ List.filter (dig_row_of o lane) (reservations d)) by (rewrite E; set_solver).
  apply elem_of_lfilter in Hr as [Hr Hd]. pose proof Hd as Hd'.
  apply dig_row_of_true in Hd' as (Ho & Hk & Hn & Hm).
  destruct (activeMouthRows _ _) as [|h hs] eqn:Ea; [done|]. exfalso.
  assert (Hh : h ∈ activeMouthRows lane (delete_where (dig_row_of o lane) d))
    by (rewrite Ea; set_solver).
  apply active_elem in Hh as (r' & Hr' & [Hk' Hn']%mouth_on_true & _).
  apply elem_of_lfilter in Hr' as [Hr' Hkeep].
  assert (r' = r) as -> by (eapply dig_alone; eauto; congruence).
  by rewrite Hd in Hkeep.
Qed.

Lemma HandOff_exclusive lane digOwner picker by_ :
  evolves (keeps lane_exclusive) (HandOffLaneToPicker lane digOwner picker by_).
Proof.
  unfold HandOffLaneToPicker. apply evolves_tx; [typeclasses eauto|].
  apply evolves_bind; [typeclasses eauto| |intros _].
  { apply evolves_exec; [typeclasses eauto|]. intros d. by cbn. }
  intros c He. unfold sbind at 1. destruct (stmt _ c) as [[n|e] c1] eqn:E1; simpl.
  2:{ apply stmt_err in E1 as [-> _]. done. }
  apply stmt_ok in E1. injection E1 as <- Hd1.
  change (fun r => owner_mouth digOwner lane r && is_mode (r_mode r) ModeDig)
    with (dig_row_of digOwner lane) in *.
  destruct (Nat.eqb_spec (length (List.filter (dig_row_of digOwner lane)
    (reservations (db c)))) 0) as [Hz|Hz]; simpl.
  { rewrite <- Hd1. by apply lane_exclusive_filter. }
  assert (Hemp : activeMouthRows lane (db c1) = []).
  { rewrite <- Hd1. apply drop_dig_empties; [done|]. intros Hnil. by rewrite Hnil in Hz. }
  assert (He1 : lane_exclusive (db c1)) by (rewrite <- Hd1; by apply lane_exclusive_filter).
  revert He1. change (keeps lane_exclusive (db c1) (db (sbind (query (activeMouthRows lane))
    (fun hs => match find_holder picker hs with
     | Some h => if is_mode (mh_mode h) ModeOutbound then commit true else commit false
     | None => stmt_checked (insert_row (mouth_row picker lane by_ ModeOutbound)) ;;;
               commit true
     end) c1).2)).
  unfold sbind at 1. destruct (query _ c1) as [[hs|e] c2] eqn:E2; simpl.
  2:{ apply stmt_err in E2 as [-> _]. by intros ?. }
  apply query_ok in E2 as [-> Hd2]. rewrite Hemp. simpl. unfold sbind. intros He1.
  destruct (stmt_checked _ c2) as [[[]|e] c3] eqn:E3; simpl.
  2:{ apply stmt_checked_err in E3 as [-> _]. by rewrite Hd2. }
  apply stmt_checked_ok in E3. unfold insert_row in E3. destruct (fk_ok _ _); [|done].
  injection E3 as <-. rewrite Hd2. apply lane_exclusive_fresh; [| |done];
    rewrite Hemp; set_solver.
Qed.

Lemma acquire_exclusive order ref by_ :
  indexed ref = true -> evolves (keeps lane_exclusive) (acquire order ref by_).
Proof.
  intros Hi. unfold acquire. evolve. intros d n d' H He.
  unfold insert_on_conflict_nothing in H. destruct (existsb _ _); [by injection H as _ <-|].
  destruct (fk_ok _ _); [|done]. injection H as _ <-.
  apply lane_exclusive_snoc_other; [|done]. destruct (pending_row_key order ref by_) as [_ ->].
  apply indexed_spec in Hi as [-> | ->]; done.
Qed.

Lemma confirm_exclusive order ref : evolves (keeps lane_exclusive) (confirm order ref).
Proof.
  unfold confirm. evolve. intros d He. apply lane_exclusive_map; [| |done];
    intros r; by destruct (matches order ref r && _).
Qed.

Lemma delete_exclusive p : evolves (E := error) (keeps lane_exclusive) (exec (delete_where p)).
Proof. evolve. intros d. exact (lane_exclusive_filter _ d). Qed.

Lemma run_op_exclusive op c :
  op_ok op = true -> lane_exclusive (db c) -> lane_exclusive (db (run_op op c)).
Proof.
  intros Hok. revert c. destruct op; cbn [run_op]; unfold forget;
    match goal with
    | |- forall c, _ -> lane_exclusive (db (@?m c).2) =>
        enough (evolves (keeps lane_exclusive) m) by assumption
    end.
  - apply AcquireLanesFor_evolves; [typeclasses eauto|]. apply acquire_lane_exclusive.
  - apply delete_exclusive.
  - apply delete_exclusive.
  - apply evolves_stmt; [typeclasses eauto|]. intros d. exact (lane_exclusive_filter _ d).
  - apply HandOff_exclusive.
  - apply evolves_stmt_checked; [typeclasses eauto|]. intros d a d' H He.
    destruct (existsb _ _); [by simplify_eq|]. destruct (fk_ok _ _); [|done].
    injection H as _ <-. by apply lane_exclusive_snoc_other.
  - apply delete_exclusive.
  - apply delete_exclusive.
  - by apply acquire_exclusive.
  - apply confirm_exclusive.
  - apply delete_exclusive.
  - apply delete_exclusive.
  - apply evolves_stmt; [typeclasses eauto|]. intros d. exact (lane_exclusive_filter _ d).
Qed.

(** ** Properties *)

Definition run_ops (ops : list LaneOp) (c : Conn CoreDB) : Conn CoreDB :=
  fold_left (fun c op => run_op op c) ops c.

Lemma exclusive_observed d lane h h' :
  lane_exclusive d -> h ∈ activeMouthRows lane d -> h' ∈ activeMouthRows lane d ->
  mh_order h <> mh_order h' -> mh_mode h = mh_mode h' /\ mh_mode h <> Some ModeDig.
Proof.
  intros He (r & Hr & [Hk Hn]%mouth_on_true & ->)%active_elem
    (r' & Hr' & [Hk' Hn']%mouth_on_true & ->)%active_elem Hne. simpl in *.
  assert (Hnd : forall a b, a ∈ reservations d -> b ∈ reservations d ->
    r_kind a = KindMouth -> r_kind b = KindMouth -> r_node a = r_node b ->
    r_order a <> r_order b -> r_mode a <> Some ModeDig).
  { intros a b ????? Ho Hd. by rewrite (dig_alone d a b) in Ho. }
  split; [|apply (Hnd r r'); auto; congruence].
  destruct (FOP_elem _ _ r r' (le_clash _ He) Hr Hr') as [->|Hc]; [done|].
  assert (same_lane r r' = true /\ same_lane r' r = true) as [S1 S2]
    by (split; apply same_lane_true; split_and!; congruence).
  unfold clash in Hc. rewrite S1, S2, (Z.eqb_sym (r_order r') (r_order r)),
    (proj2 (Z.eqb_neq _ _) Hne) in Hc. simpl in Hc.
  destruct Hc as [[Hc _]%orb_false_iff|[Hc _]%orb_false_iff];
    apply negb_false_iff, bool_decide_eq_true in Hc; congruence.
Qed.

Lemma demo_exclusive : lane_exclusive demo_db.
Proof. by repeat constructor; intros r H%elem_of_nil. Qed.

Lemma demo_dig_exclusive : lane_exclusive (db (TryLock 30 1 (mkConn demo_db [])).2).
Proof.
  exact (run_op_exclusive (OpAcquireLanes 1 ModeDig ByExcavation [30]%Z) (mkConn demo_db [])
    eq_refl demo_exclusive).
Qed.

(** C6. Lane mutual exclusion under every interleaving.  From a coherent table,
    any sequence of lane, occupancy, bin and slot operations by any callers
    (lane acquisitions without a beneficiary: a rescue dig shares its lane with
    the order it rescues on purpose), with driver faults anywhere, keeps every
    lane coherent: no order is seated
    twice on a lane, and two orders on one lane hold it in the same direction
    and never while a dig holds it. *)
Theorem lane_mutual_exclusion (ops : list LaneOp) (c : Conn CoreDB) :
  lane_exclusive (db c) -> forallb op_ok ops = true ->
  let d := db (run_ops ops c) in
  lane_exclusive d /\
  forall lane h h', h ∈ activeMouthRows lane d -> h' ∈ activeMouthRows lane d ->
    mh_order h <> mh_order h' -> mh_mode h = mh_mode h' /\ mh_mode h <> Some ModeDig.
Proof.
  intros He Hok. assert (lane_exclusive (db (run_ops ops c))) as He'.
  { revert c He. unfold run_ops. induction ops as [|op ops IH]; intros c He; simpl in *; [done|].
    apply andb_true_iff in Hok as [??]. apply IH; [done|]. by apply run_op_exclusive. }
  split; [done|]. intros lane h h'. by apply exclusive_observed.
Qed.

Lemma lane_mutual_exclusion_witness :
  lane_exclusive (db (run_ops
    [OpAcquireLanes 1 ModeInbound BySourceLock [30; 31]%Z;
     OpAcquireLanes 2 ModeInbound BySourceLock [30]%Z;
     OpAcquireLanes 2 ModeDig ByExcavation [31]%Z] (mkConn demo_db []))).
Proof. apply lane_mutual_exclusion; [apply demo_exclusive|reflexivity]. Defined.

(** ** What a successful acquisition gives *)

Definition holds (owner : Z) (mode : Mode) (lane : Z) (d : CoreDB) : Prop :=
  exists r, r ∈ reservations d /\ owner_mouth owner lane r = true /\ r_mode r = Some mode.

Lemma holds_map owner mode lane g d :
  key_preserving g -> (forall r, r_mode r = Some mode -> r_mode (g r) = Some mode) ->
  holds owner mode lane d -> holds owner mode lane (set_reservations (map g) d).
Proof.
  intros Hg Hm (r & Hr & Ho & Hmo). exists (g r). simpl. split_and!.
  - by apply list_elem_of_fmap_2.
  - apply owner_mouth_true in Ho. apply owner_mouth_true.
    by destruct (Hg r) as (-> & -> & ->).
  - auto.
Qed.

Lemma holds_snoc owner mode lane row d :
  holds owner mode lane d -> holds owner mode lane (set_reservations (fun l => l ++ [row]) d).
Proof. intros (r & Hr & ?). exists r. simpl. set_solver. Qed.

(** Acquiring further lanes never costs the owner one it holds. *)
Lemma acquire_lane_keeps_holds owner mode ben by_ lane lane0 :
  evolves (keeps (fun d => mouth_wf d /\ holds owner mode lane0 d))
    (acquire_lane owner mode ben by_ lane).
Proof.
  apply acquire_lane_evolves.
  - by intros d [Hw _].
  - intros d [Hw Hh] _ Hno. split; [by apply mouth_wf_fresh|by apply holds_snoc].
  - intros d [Hw Hh] _. split.
    + apply mouth_wf_map; [auto with shingo| |done]. intros r. by case_match.
    + apply holds_map; [auto with shingo| |done]. intros r. by case_match.
  - intros d h [Hw Hh] _ _ _ _ _. split.
    + apply mouth_wf_map; [auto with shingo| |done]. intros r. case_match; [simpl; eauto|done].
    + apply holds_map; [auto with shingo| |done]. intros r. by case_match.
Qed.

Lemma acquire_lane_ok owner mode ben by_ lane c c' :
  mouth_wf (db c) -> acquire_lane owner mode ben by_ lane c = (Ok (), c') ->
  holds owner mode lane (db c') /\
  (forall h, h ∈ activeMouthRows lane (db c) -> foreign_conflict owner mode ben h = false).
Proof.
  unfold acquire_lane. intros Hw H.
  apply sbind_ok in H as ([] & c1 & H1%exec_ok & H). simpl in H1.
  apply sbind_ok in H as (hs & c2 & [-> H2]%query_ok & H). rewrite H1 in *.
  destruct (admitMouth _ _ _ _ _) as [v|e] eqn:Ha; [|done].
  apply admitMouth_ok in Ha as [->|[Hf Hv]]; [done| |done]. split; [|done].
  destruct v; [| | |done].
  - apply stmt_checked_ok in H. unfold insert_row in H. destruct (fk_ok _ _); [|done].
    injection H as <-. exists (mouth_row owner lane by_ mode). simpl. split_and!; [set_solver| |done].
    by apply owner_mouth_true.
  - destruct Hv as [(h & Hh & Ho) Hmode]. pose proof (Hmode h Hh Ho) as Hm.
    apply active_elem in Hh as (r & Hr & Hon & ->).
    assert (Hold : holds owner mode lane (db c2)).
    { exists r. rewrite H2. split_and!; [done| |done]. apply owner_mouth_true.
      apply mouth_on_true in Hon as [??]. done. }
    destruct (IsExcavation by_); [apply exec_ok in H|sql_inv H; done]. rewrite H.
    apply holds_map; [auto with shingo| |done]. intros r'. by case_match.
  - destruct Hv as [(h & Hh & Ho & _) _]. apply active_elem in Hh as (r & Hr & Hon & ->).
    apply exec_ok in H. rewrite H, H2. exists (set_mode_tag mode by_ r). simpl. split_and!; [|..|done].
    + apply list_elem_of_fmap. exists r. split; [|done].
      assert (owner_mouth owner lane r = true) as ->; [|done].
      apply owner_mouth_true. apply mouth_on_true in Hon as [??]. done.
    + apply owner_mouth_true. apply mouth_on_true in Hon as [??]. done.
Qed.

Lemma acquire_each_ok owner mode ben by_ lanes c c' :
  mouth_wf (db c) -> acquire_each owner mode ben by_ lanes c = (Ok (), c') ->
  mouth_wf (db c') /\ forall lane, lane ∈ lanes -> holds owner mode lane (db c').
Proof.
  revert c. induction lanes as [|l ls IH]; simpl; intros c Hw H.
  - sql_inv H. split; [done|]. set_solver.
  - apply sbind_ok in H as ([] & c1 & H1 & H2).
    pose proof (acquire_lane_wf owner mode ben by_ l c Hw) as Hw1.
    rewrite H1 in Hw1. simpl in Hw1.
    apply acquire_lane_ok in H1 as [Hh _]; [|done].
    pose proof (acquire_each_evolves (keeps (fun d => mouth_wf d /\ holds owner mode l d))
      owner mode ben by_ ls (fun _ => acquire_lane_keeps_holds _ _ _ _ _ _) c1 (conj Hw1 Hh)) as Hk.
    rewrite H2 in Hk. simpl in Hk.
    apply IH in H2 as [Hw2 Hl]; [|done]. split; [done|].
    intros lane [->|Hin]%elem_of_cons; [apply Hk|auto].
Qed.

Lemma compact_elem x l : x ∈ compact l <-> x ∈ l.
Proof.
  induction l as [|a [|b l] IH]; [done|done|].
  change (compact (a :: b :: l)) with
    (if a =i b then compact (b :: l) else a :: compact (b :: l)).
  destruct (a =i b) eqn:E; breflect; set_solver.
Qed.

Lemma sortedUniqueLanes_elem x l : x ∈ sortedUniqueLanes l <-> x ∈ l.
Proof. unfold sortedUniqueLanes. by rewrite compact_elem, elem_of_isort. Qed.

Lemma compact_sorted l :
  Sorted (fun a b => Z.leb a b = true) l ->
  Sorted Z.lt (compact l) /\ head (compact l) = head l.
Proof.
  induction 1 as [|a l Hs [IH1 IH2] Hd]; [by split; [constructor|]|].
  destruct l as [|b l]; [by repeat constructor|].
  change (compact (a :: b :: l)) with
    (if a =i b then compact (b :: l) else a :: compact (b :: l)).
  destruct (a =i b) eqn:E; breflect; [by subst; split|]. split; [|done].
  constructor; [done|]. destruct (compact (b :: l)) as [|x xs]; [constructor|].
  simpl in IH2. simplify_eq. constructor. inversion Hd; subst. breflect. lia.
Qed.

(** AcquireLanes is all-or-nothing and its lock order is deadlock-free: the
    lanes are locked in strictly ascending id order; on success the owner holds
    every requested lane in the requested mode, seated once on each; on any
    error - a conflict on one lane, a driver fault, a failed commit - the
    tables are exactly as before. *)
Theorem acquire_lanes_all_or_nothing (owner : Z) (mode : Mode) (ben : DigAsker) (by_ : string)
    (laneIDs : list Z) (c : Conn CoreDB) :
  mouth_wf (db c) ->
  let '(res, c') := AcquireLanesFor owner mode ben by_ laneIDs c in
  Sorted Z.lt (sortedUniqueLanes laneIDs) /\
  match res with
  | Ok _ => mouth_wf (db c') /\ forall lane, lane ∈ laneIDs -> holds owner mode lane (db c')
  | Err _ => db c' = db c
  end.
Proof.
  intros Hw. destruct (AcquireLanesFor _ _ _ _ _ c) as [res c'] eqn:H. split.
  { apply compact_sorted, isort_sorted. intros a b. rewrite Z.leb_le, Z.leb_gt. lia. }
  unfold AcquireLanesFor in H. pose proof (fun x => proj2 (sortedUniqueLanes_elem x laneIDs)) as Hin.
  destruct (sortedUniqueLanes laneIDs) as [|l ls]; [sql_inv H; injection H as <- <-; set_solver|].
  destruct res as [[]|e]; [|by apply tx_err in H].
  apply tx_ok in H as (committed & c0 & c1 & H0 & H1 & H2).
  apply sbind_ok in H1 as ([] & c2 & H1 & H3). unfold commit, sret in H3. injection H3 as <- <-.
  rewrite H2. apply acquire_each_ok in H1 as [??]; [|by rewrite H0]. split; [done|]. auto.
Qed.

Lemma acquire_lanes_singleton owner mode ben by_ lane :
  AcquireLanesFor owner mode ben by_ [lane] =
  tx ((acquire_lane owner mode ben by_ lane ;;; sret ()) ;;; commit ()).
Proof. reflexivity. Qed.

(** Admission of a dig whose lane is free of foreign rows never fails. *)
Lemma admit_dig_free lane order ben d :
  mouth_wf d -> (forall h, h ∈ activeMouthRows lane d -> Owns ben (mh_order h) = true) ->
  exists v, admitMouth (activeMouthRows lane d) lane order ModeDig ben = Ok v /\
    v <> admitConflict.
Proof.
  intros Hw Hall. unfold admitMouth.
  destruct (admit_loop _ _ _ _ _ _) as [[oh other]|] eqn:E.
  - destruct other as [m|]; [|destruct oh; eauto].
    apply admit_loop_some in E as (_ & _ & Hot); [|intros; by eapply active_moded].
    destruct (Owns ben order) eqn:Ho; [rewrite bool_decide_eq_true_2 by done; destruct oh; eauto|].
    exfalso. assert (Some m = None); [|done]. apply Hot. split; [done|].
    intros h Hh Heq. apply Hall in Hh. congruence.
  - apply admit_loop_none, existsb_true in E as (h & Hh & Hc). apply Hall in Hh.
    unfold foreign_conflict in Hc. rewrite Hh in Hc. by rewrite andb_false_r in Hc.
Qed.

Lemma acquire_lane_healthy owner mode ben by_ lane d v :
  admitMouth (activeMouthRows lane d) lane owner mode ben = Ok v -> v <> admitConflict ->
  fk_ok d (mouth_row owner lane by_ mode) = true ->
  exists d', acquire_lane owner mode ben by_ lane (mkConn d []) = (Ok (), mkConn d' []).
Proof.
  intros Ha Hv Hfk. unfold acquire_lane, sbind, exec, query, stmt, stmt_checked, insert_row, sret.
  simpl. rewrite Ha. destruct v; simpl; rewrite ?Hfk; simpl; try destruct (IsExcavation by_);
    simpl; eauto; done.
Qed.

(** A rescue dig excludes everybody but the order it rescues.  When
    TryLockFor succeeds the lane holds the excavation's dig row, and every row
    that was on it belonged to that order or to the beneficiary; and the cheap
    pre-check is sound: when CanTakeFor says yes, TryLockFor on a healthy
    connection takes the lane for any order that exists. *)
Theorem rescue_dig_exclusive (lane order : Z) (ben : DigAsker) (c : Conn CoreDB) :
  mouth_wf (db c) ->
  (forall c', TryLockFor lane order ben c = (true, c') ->
     holds order ModeDig lane (db c') /\
     forall h, h ∈ activeMouthRows lane (db c) ->
       mh_order h = order \/ Owns ben (mh_order h) = true) /\
  (faults c = [] -> (CanTakeFor lane ben c).1 = true ->
   fk_ok (db c) (mouth_row order lane ByExcavation ModeDig) = true ->
   (TryLockFor lane order ben c).1 = true).
Proof.
  intros Hw. unfold TryLockFor. rewrite acquire_lanes_singleton. split.
  - intros c' H. destruct (tx _ c) as [[[]|e] c1] eqn:E; [|done]. injection H as <-.
    apply tx_ok in E as (committed & c0 & c2 & H0 & H1 & H2).
    apply sbind_ok in H1 as ([] & c3 & H1 & H3). unfold commit, sret in H3. injection H3 as <- <-.
    apply sbind_ok in H1 as ([] & c4 & H1 & H4). unfold sret in H4. injection H4 as <-.
    apply acquire_lane_ok in H1 as [Hh Hf]; [|by rewrite H0]. rewrite H2. split; [done|].
    intros h Hin. rewrite <- H0 in Hin. specialize (Hf h Hin). unfold foreign_conflict in Hf.
    destruct (mh_order h =i order) eqn:Eo; breflect; [by left|].
    right. destruct (Owns ben (mh_order h)); [done|]. by rewrite bool_decide_eq_true_2 in Hf.
  - intros Hf Hc Hfk. destruct c as [d fs]. simpl in *. subst fs.
    assert (Hall : forall h, h ∈ activeMouthRows lane d -> Owns ben (mh_order h) = true)
      by (by apply forallb_true).
    destruct (admit_dig_free lane order ben d Hw Hall) as (v & Hv & Hne).
    destruct (acquire_lane_healthy order ModeDig ben ByExcavation lane d v Hv Hne Hfk) as [d' Hd'].
    unfold tx, sbind, commit, exec, stmt, sret. simpl. by rewrite Hd'.
Qed.

(** ** The dig claim's lifetime *)

(** An excavation row of [owner] on [lane]. *)
Definition excavating (owner lane : Z) (d : CoreDB) : Prop :=
  exists r, r ∈ reservations d /\ dig_row_of owner lane r = true /\ IsExcavation (r_by r) = true.

Lemma excavating_snoc owner lane row d :
  excavating owner lane d -> excavating owner lane (set_reservations (fun l => l ++ [row]) d).
Proof. intros (r & Hr & ?). exists r. simpl. set_solver. Qed.

Lemma excavating_map owner lane g d :
  key_preserving g ->
  (forall r, r ∈ reservations d -> dig_row_of owner lane r = true -> IsExcavation (r_by r) = true ->
     r_mode (g r) = Some ModeDig /\ IsExcavation (r_by (g r)) = true) ->
  excavating owner lane d -> excavating owner lane (set_reservations (map g) d).
Proof.
  intros Hg Hk (r & Hr & Hd & Hx). destruct (Hk r Hr Hd Hx) as [Hm Hb].
  exists (g r). simpl. split_and!; [by apply list_elem_of_fmap_2| |done].
  apply dig_row_of_true in Hd as (? & ? & ? & _). apply dig_row_of_true.
  by destruct (Hg r) as (-> & -> & ->).
Qed.

(** Under coherence an owner that must be upgraded holds no dig row there. *)
Lemma upgrade_misses_dig lane owner d h :
  mouth_wf d -> h ∈ activeMouthRows lane d -> mh_order h = owner -> mh_mode h <> Some ModeDig ->
  forall r, r ∈ reservations d -> owner_mouth owner lane r = true -> r_mode r <> Some ModeDig.
Proof.
  intros Hw (r0 & Hr0 & [Hk Hn]%mouth_on_true & ->)%active_elem Ho Hm r Hr Hor.
  simpl in *. apply owner_mouth_true in Hor as (Ho' & Hk' & Hn').
  destruct (FOP_elem _ _ r0 r (mw_seat _ Hw) Hr0 Hr) as [->|Hs]; [done|].
  assert (double_seat r0 r = true /\ double_seat r r0 = true) as [S1 S2].
  { unfold double_seat. split; apply andb_true_iff; split;
      try (apply same_lane_true; split_and!; congruence); apply Z.eqb_eq; congruence. }
  destruct Hs; congruence.
Qed.

Lemma acquire_lane_keeps_excavation owner mode ben by_ lane o0 lane0 :
  evolves (keeps (fun d => mouth_wf d /\ excavating o0 lane0 d))
    (acquire_lane owner mode ben by_ lane).
Proof.
  apply acquire_lane_evolves.
  - by intros d [Hw _].
  - intros d [Hw Hx] _ Hno. split; [by apply mouth_wf_fresh|by apply excavating_snoc].
  - intros d [Hw Hx] Hb. split.
    + apply mouth_wf_map; [auto with shingo| |done]. intros r. by case_match.
    + apply excavating_map; [auto with shingo| |done].
      intros r Hr (_ & _ & _ & Hm)%dig_row_of_true Hxr. by case_match.
  - intros d h [Hw Hx] Hh Ho Hm -> _. split.
    + apply mouth_wf_map; [auto with shingo| |done]. intros r. case_match; [simpl; eauto|done].
    + apply excavating_map; [auto with shingo| |done].
      intros r Hr (_ & _ & _ & Hmd)%dig_row_of_true Hxr.
      destruct (owner_mouth owner lane r) eqn:E; [|done].
      exfalso. revert Hmd. by eapply upgrade_misses_dig.
Qed.

(** An excavation's claim outlives everything but its own release.  On a
    coherent table, neither an acquisition by any order (including a later
    gate acquisition by the digging order itself, which cannot talk the tag
    back down) nor a per-block handoff by any owner drops an excavation's dig
    row or renames it, whatever driver faults strike. *)
Theorem excavation_claim_durable (o lane : Z) (c : Conn CoreDB) :
  mouth_wf (db c) -> excavating o lane (db c) ->
  (forall owner mode ben by_ lanes,
     excavating o lane (db (AcquireLanesFor owner mode ben by_ lanes c).2)) /\
  (forall owner l, excavating o lane (db (ReleaseLaneHandoff owner l c).2)).
Proof.
  intros Hw Hx. split.
  - intros owner mode ben by_ lanes.
    apply (AcquireLanesFor_evolves (keeps (fun d => mouth_wf d /\ excavating o lane d))
      owner mode ben by_ lanes (fun _ => acquire_lane_keeps_excavation _ _ _ _ _ _ _)).
    done.
  - intros owner l. revert Hx.
    apply (exec_at (keeps (excavating o lane))). intros (r & Hr & Hd & Hxr).
    exists r. split_and!; [|done|done]. apply elem_of_lfilter. split; [done|].
    apply dig_row_of_true in Hd as (_ & _ & _ & Hm). rewrite Hm.
    by rewrite andb_false_r.
Qed.

Lemma activeMouthRows_nil lane d :
  activeMouthRows lane d = [] -> List.filter (mouth_on lane) (reservations d) = [].
Proof.
  unfold activeMouthRows. intros H. destruct (List.filter _ _) as [|r l]; [done|].
  apply (f_equal length) in H. by rewrite (Permutation_length (isort_perm _ _)) in H.
Qed.

(** The dig hand-off gives the exposed bin to its collector.  On a coherent
    table where the excavation holds the lane, a hand-off that reports success
    leaves exactly one row on the lane: the picker's, outbound - so no drop and
    no other dig can be admitted in front of the bin; a hand-off that reports
    nothing moved, or an error, leaves the tables unchanged. *)
Theorem hand_off_exposes_bin (lane digOwner picker : Z) (by_ : string) (c : Conn CoreDB) :
  lane_exclusive (db c) ->
  let '(res, c') := HandOffLaneToPicker lane digOwner picker by_ c in
  match res with
  | Ok true =>
      activeMouthRows lane (db c') = [mkHold picker (Some ModeOutbound) by_] /\
      lane_exclusive (db c')
  | Ok false => db c' = db c
  | Err _ => db c' = db c
  end.
Proof.
  intros He. pose proof (HandOff_exclusive lane digOwner picker by_ c He) as Hpost.
  destruct (HandOffLaneToPicker _ _ _ _ c) as [res c'] eqn:H. simpl in Hpost.
  destruct res as [b|e]; [|unfold HandOffLaneToPicker in H; by apply tx_err in H].
  unfold HandOffLaneToPicker in H.
  apply tx_ok in H as (committed & c0 & c1 & H0 & H1 & H2).
  apply sbind_ok in H1 as ([] & c2 & H1%exec_ok & H). simpl in H1.
  apply sbind_ok in H as (n & c3 & H3%stmt_ok & H). injection H3 as Hn Hd3.
  rewrite H1, H0 in Hn, Hd3.
  change (fun r => owner_mouth digOwner lane r && is_mode (r_mode r) ModeDig)
    with (dig_row_of digOwner lane) in *.
  destruct (Nat.eqb_spec n 0) as [Hz|Hz].
  { unfold rollback, sret in H. by injection H as <- <- <-. }
  assert (Hemp : activeMouthRows lane (db c3) = []).
  { rewrite <- Hd3. apply drop_dig_empties; [done|]. intros Hnil%(f_equal length).
    apply Hz. rewrite <- Hn. exact Hnil. }
  apply sbind_ok in H as (hs & c4 & [-> H4]%query_ok & H). rewrite Hemp in H. simpl in H.
  apply sbind_ok in H as ([] & c5 & H5%stmt_checked_ok & H).
  unfold commit, sret in H. injection H as <- <- <-. split; [|done].
  unfold insert_row in H5. destruct (fk_ok _ _); [|done]. injection H5 as H5.
  rewrite H2, <- H5, H4. unfold activeMouthRows. simpl.
  pose proof (activeMouthRows_nil _ _ Hemp) as Hf.
  rewrite List.filter_app, Hf. simpl. unfold mouth_on. simpl. by rewrite Z.eqb_refl.
Qed.

(** One spelling of the dig-lock question: for a real owner the Go predicate
    and its SQL rendering agree, the only orders a dig does not shut out are
    its own holder and the compound it serves, and an anonymous question is
    shut out by every dig. *)
Theorem dig_exclusion_one_spelling (a : DigAsker) (digOwner : Z) :
  digOwner <> 0%Z ->
  ExcludedBy a digOwner = DigExclusionSQL digOwner a /\
  (ExcludedBy a digOwner = false <-> digOwner = da_order a \/ digOwner = da_lane_owner a) /\
  ExcludedBy Anyone digOwner = true.
Proof.
  intros Hne. unfold ExcludedBy, DigExclusionSQL. rewrite Owns_Anyone.
  unfold Owns. rewrite (proj2 (Z.eqb_neq _ _) Hne).
  rewrite negb_orb. split_and!; [done| |done].
  rewrite andb_false_iff, !negb_false_iff, !Z.eqb_eq. done.
Qed.
