(* ===== verification/Yard.v ===== *)
(** The storage yard as Core's queries see it: node groups, single-file lanes
    whose slots are ordered by depth from the mouth, the bins standing in them
    and the holds on both (store/lane_queries.go, store/nodes/lanes.go,
    store/internal/helpers/lane_reachability.go and the small readers they use).

    These are reads: a [YardSQL] call never changes the yard, but any of its
    statements may fail.  The tables here carry the columns these statements
    read; [move_bin] is what a robot does to them.  Rows with
    equal sort keys come in table order. *)

From S2P Require Import Prelude Status Sql CoreDb Mouth.

(** ** Tables *)

Record YNode := mkYNode {
  yn_id : Z; yn_name : string; yn_synthetic : bool; yn_enabled : bool; yn_depth : option Z;
  yn_class : string; yn_parent : option Z; yn_claimed : option Z }.

Record YBin := mkYBin {
  yb_id : Z; yb_node : option Z; yb_status : string; yb_claimed : option Z; yb_locked : bool;
  yb_confirmed : bool; yb_payload : string; yb_type : string; yb_loaded : option Z; yb_created : Z }.

Record YOrder := mkYOrder {
  yo_id : Z; yo_status : Status; yo_source : string; yo_delivery : string; yo_bin : option Z;
  yo_parent : option Z }.

Record MaintainLevel := mkLevel { ml_group : Z; ml_type : Z; ml_code : string; ml_want : Z }.

Record Yard := mkYard {
  y_nodes : list YNode;
  y_bins : list YBin;
  y_orders : list YOrder;
  y_resv : list Resv;
  y_props : gmap (Z * string) string;
  y_payloads : list (Z * string);
  y_types : list (Z * Z);
  y_levels : list MaintainLevel }.

#[export] Instance YNode_eq_dec : EqDecision YNode.
Proof. solve_decision. Defined.
#[export] Instance YBin_eq_dec : EqDecision YBin.
Proof. solve_decision. Defined.

Inductive YardError := YeDriver | YeNoRows | YeNoSlot | YeLaneClosedByClaim | YeNoBin.
#[export] Instance yard_driver_error : DriverError YardError := { driver_error := YeDriver }.

Notation YardSQL := (SQL Yard YardError).

Definition NodeClassLANE : string := "LANE".
Definition NodeClassNGRP : string := "NGRP".

(** ** Geometry *)

Definition at_node (n : Z) (b : YBin) : bool := claimed_is (yb_node b) n.

Definition occupied (y : Yard) (n : YNode) : bool := existsb (at_node (yn_id n)) (y_bins y).

(** helpers.ShallowerInSameLane: a NULL parent or depth compares with nothing. *)
Definition ShallowerInSameLane (shallow deep : YNode) : bool :=
  match yn_parent shallow, yn_parent deep, yn_depth shallow, yn_depth deep with
  | Some p, Some p', Some d, Some d' => (p =i p') && negb (yn_id shallow =i yn_id deep) && (d <? d')%Z
  | _, _, _, _ => false
  end.

Definition LaneBlockerPredicate (y : Yard) (blocker target : YNode) : bool :=
  occupied y blocker && ShallowerInSameLane blocker target.

Definition BuriedSQL (y : Yard) (target : YNode) : bool :=
  existsb (fun b => LaneBlockerPredicate y b target) (y_nodes y).
Definition ReachableSQL (y : Yard) (target : YNode) : bool := negb (BuriedSQL y target).

Definition live (o : YOrder) : bool := negb (contains TerminalStatuses (yo_status o)).

(** Does the order come for the bin standing at [held]?  By its claim, or by the
    bin and the source it names. *)
Definition coming_for (held : YNode) (b : YBin) (o : YOrder) : bool :=
  claimed_is (yb_claimed b) (yo_id o) || (claimed_is (yo_bin o) (yb_id b) && (yo_source o =s yn_name held)).

(** A slot nobody has filled yet and somebody other than [owner] is coming to
    fill. *)
Definition spoken_for (y : Yard) (owner : Z) (n : YNode) : bool :=
  negb (occupied y n) &&
  ((match yn_claimed n with Some o => negb (o =i owner) | None => false end)
   || existsb (fun r => claimed_is (r_node r) (yn_id n) && bool_decide (r_kind r = KindSlot)
        && negb (r_order r =i owner)) (y_resv y)
   || existsb (fun o => (yo_delivery o =s yn_name n) && live o && negb (yo_id o =i owner)) (y_orders y)).

Definition EntombsASpokenForSlotSQL (y : Yard) (candidate : YNode) (owner : Z) : bool :=
  existsb (fun n => ShallowerInSameLane candidate n && spoken_for y owner n) (y_nodes y).

(** ** Small readers *)

Definition depth0 (n : YNode) : Z := default 0%Z (yn_depth n).

Definition child_of (parent : Z) (n : YNode) : bool := claimed_is (yn_parent n) parent.

Definition node_by_id (y : Yard) (id : Z) : option YNode := List.find (fun n => yn_id n =i id) (y_nodes y).

Definition GetNode (id : Z) : YardSQL YNode :=
  r <-- query (fun y => node_by_id y id) ;;
  match r with Some n => sret n | None => sfail YeNoRows end.

Definition ListChildNodes (parent : Z) : YardSQL (list YNode) :=
  query (fun y => isort (fun a b => String.leb (yn_name a) (yn_name b)) (List.filter (child_of parent) (y_nodes y))).

Definition dig_held (asker : DigAsker) (y : Yard) (n : YNode) : bool :=
  existsb (fun r => mouth_on (yn_id n) r && is_mode (r_mode r) ModeDig && DigExclusionSQL (r_order r) asker)
    (y_resv y).

Definition unlocked_children (y : Yard) (parent : Z) (asker : DigAsker) : list YNode :=
  isort (fun a b => String.leb (yn_name a) (yn_name b))
    (List.filter (fun n => child_of parent n && negb (dig_held asker y n)) (y_nodes y)).

Definition ListChildNodesUnlocked (parent : Z) (asker : DigAsker) : YardSQL (list YNode) :=
  query (fun y => unlocked_children y parent asker).

Definition lane_slots (y : Yard) (lane : Z) : list YNode :=
  isort (fun a b => (depth0 a <=? depth0 b)%Z) (List.filter (child_of lane) (y_nodes y)).

Definition ListLaneSlots (lane : Z) : YardSQL (list YNode) := query (fun y => lane_slots y lane).

Definition GetSlotDepth (id : Z) : YardSQL Z :=
  n <-- GetNode id ;; sret (depth0 n).

Definition retired (b : YBin) : bool := yb_status b =s "retired".

Definition bins_at (y : Yard) (n : Z) : list YBin :=
  isort (fun a b => (yb_id b <=? yb_id a)%Z) (List.filter (fun b => at_node n b && negb (retired b)) (y_bins y)).

Definition ListBinsByNode (n : Z) : YardSQL (list YBin) := query (fun y => bins_at y n).
Definition CountBinsByNode (n : Z) : YardSQL nat :=
  query (fun y => length (List.filter (fun b => at_node n b && negb (retired b)) (y_bins y))).

Definition CountActiveOrdersByDeliveryNode (name : string) : YardSQL nat :=
  query (fun y => length (List.filter (fun o => (yo_delivery o =s name) && live o) (y_orders y))).
Definition CountInFlightOrdersByDeliveryNodeExcluding (name : string) (ex : Z) : YardSQL nat :=
  query (fun y => length (List.filter (fun o => (yo_delivery o =s name) && live o
    && (yo_status o <>s StatusQueued) && negb (yo_id o =i ex)) (y_orders y))).

(** A failed property read is logged and reads as unset. *)
Definition GetNodeProperty (id : Z) (key : string) : YardSQL string :=
  r <-- slog (query (fun y => default "" (y_props y !! (id, key)))) ;; sret (default "" r).

Definition in_front (y : Yard) (t : YNode) : list YNode :=
  isort (fun a b => (depth0 a <=? depth0 b)%Z) (List.filter (fun n => LaneBlockerPredicate y n t) (y_nodes y)).

Definition BlockersInFrontOf (slot : Z) : YardSQL (list YNode) :=
  s <-- GetNode slot ;;
  match yn_parent s, yn_depth s with
  | Some _, Some _ => query (fun y => match node_by_id y slot with Some t => in_front y t | None => [] end)
  | _, _ => sret []
  end.

Definition IsSlotAccessible (slot : Z) : YardSQL bool :=
  bs <-- BlockersInFrontOf slot ;; sret (length bs =? 0)%nat.

Definition LaneForNode (id : Z) : YardSQL (option YNode) :=
  n <-- GetNode id ;;
  match yn_parent n with
  | None => sret None
  | Some p => pn <-- GetNode p ;; sret (if yn_class pn =s NodeClassLANE then Some pn else None)
  end.

(** ** The store-slot selector *)

Definition slot_reserved (y : Yard) (ex : Z) (n : YNode) : bool :=
  existsb (fun r => claimed_is (r_node r) (yn_id n) && bool_decide (r_kind r = KindSlot)
    && negb (r_order r =i ex)) (y_resv y).
Definition slot_targeted (y : Yard) (ex : Z) (n : YNode) : bool :=
  existsb (fun o => (yo_delivery o =s yn_name n) && live o && negb (yo_id o =i ex)) (y_orders y).

(** A store at [n] would wall in a bin an order other than [ex] is coming for. *)
Definition buries_claimed (y : Yard) (ex : Z) (n : YNode) : bool :=
  existsb (fun held => ShallowerInSameLane n held &&
    existsb (fun b => at_node (yn_id held) b &&
      existsb (fun o => coming_for held b o && negb (yo_id o =i ex) && live o) (y_orders y)) (y_bins y))
    (y_nodes y).

Definition store_candidate (y : Yard) (lane ex : Z) (guard : bool) (n : YNode) : bool :=
  child_of lane n && negb (yn_synthetic n)
  && (match yn_claimed n with None => true | Some o => o =i ex end)
  && negb (occupied y n) && negb (slot_reserved y ex n) && negb (slot_targeted y ex n)
  && ReachableSQL y n && (if guard then negb (buries_claimed y ex n) else true).

(** ORDER BY depth DESC LIMIT 1. *)
Definition deepest (l : list YNode) : option YNode :=
  head (isort (fun a b => (depth0 b <=? depth0 a)%Z) l).

Definition findStoreSlot (lane ex : Z) (guard : bool) : YardSQL YNode :=
  r <-- query (fun y => deepest (List.filter (store_candidate y lane ex guard) (y_nodes y))) ;;
  match r with Some n => sret n | None => sfail YeNoSlot end.

(** A failed statement of the selector reads as "no empty slot". *)
Definition FindStoreSlotInLaneExcluding (lane ex : Z) : YardSQL YNode := fun c =>
  match findStoreSlot lane ex true c with
  | (Ok n, c1) => (Ok n, c1)
  | (Err _, c1) =>
      match findStoreSlot lane ex false c1 with
      | (Ok _, c2) => (Err YeLaneClosedByClaim, c2)
      | (Err _, c2) => (Err YeNoSlot, c2)
      end
  end.

Definition FindStoreSlotInLane (lane : Z) : YardSQL YNode := FindStoreSlotInLaneExcluding lane 0.

(** ** Bins in lanes *)

Definition Sourceable (b : YBin) : bool := (yb_status b =s "available") || (yb_status b =s "staged").

Definition isBinAvailableForRetrieve (b : YBin) (payload : string) : bool :=
  bool_decide (yb_claimed b = None) && negb (yb_locked b) && yb_confirmed b
  && Sourceable b && (yb_status b <>s "staged")
  && ((payload =s "") || (yb_payload b =s payload)).

Definition pending_on (y : Yard) (b : YBin) : bool :=
  existsb (fun r => claimed_is (r_bin r) (yb_id b) && bool_decide (r_state r = StatePending)) (y_resv y).

(** The bins of a lane joined with their slots. *)
Definition lane_bins (y : Yard) (lane : Z) : list (YBin * YNode) :=
  flat_map (fun n => map (fun b => (b, n)) (List.filter (at_node (yn_id n)) (y_bins y)))
    (List.filter (fun n => child_of lane n && negb (yn_synthetic n)) (y_nodes y)).

Definition by_depth (l : list (YBin * YNode)) : option (YBin * YNode) :=
  head (isort (fun a b => (depth0 a.2 <=? depth0 b.2)%Z) l).

Definition binTimestamp (b : YBin) : Z := match yb_loaded b with Some t => t | None => yb_created b end.

Definition by_age (l : list (YBin * YNode)) : option (YBin * YNode) :=
  head (isort (fun a b => (binTimestamp a.1 <=? binTimestamp b.1)%Z) l).

Definition FindSourceBinInLane (lane : Z) (payload : string) : YardSQL YBin :=
  r <-- query (fun y => by_depth (List.filter (fun bn => isBinAvailableForRetrieve bn.1 payload
    && negb (pending_on y bn.1) && ReachableSQL y bn.2) (lane_bins y lane))) ;;
  match r with Some (b, _) => sret b | None => sfail YeNoBin end.

Definition buried_bins (y : Yard) (lane : Z) (payload : string) : list (YBin * YNode) :=
  List.filter (fun bn => isBinAvailableForRetrieve bn.1 payload && BuriedSQL y bn.2) (lane_bins y lane).

Definition with_slot (r : option (YBin * YNode)) : YardSQL (YBin * YNode) :=
  match r with
  | None => sfail YeNoBin
  | Some (b, _) => s <-- GetNode (default 0%Z (yb_node b)) ;; sret (b, s)
  end.

Definition FindOldestBuriedBin (lane : Z) (payload : string) : YardSQL (YBin * YNode) :=
  r <-- query (fun y => by_age (buried_bins y lane payload)) ;; with_slot r.
Definition FindBuriedBin (lane : Z) (payload : string) : YardSQL (YBin * YNode) :=
  r <-- query (fun y => by_depth (buried_bins y lane payload)) ;; with_slot r.

Definition CountBinsInLane (lane : Z) : YardSQL nat :=
  query (fun y => length (List.filter (fun b => existsb (fun n => child_of lane n && at_node (yn_id n) b) (y_nodes y))
    (y_bins y))).

(** ** Group-wide exclusions *)

Definition in_group (y : Yard) (group : Z) (n : YNode) : bool :=
  existsb (fun lane => child_of group lane && claimed_is (yn_parent n) (yn_id lane)) (y_nodes y).

Definition robot_inside (y : Yard) (group lane : Z) : bool :=
  existsb (fun r => bool_decide (r_kind r = KindOccupancy) && claimed_is (r_node r) lane) (y_resv y)
  && existsb (fun n => (yn_id n =i lane) && child_of group n) (y_nodes y).

Definition LanesOccupiedInGroup (group : Z) : YardSQL (Z -> bool) := query (fun y => robot_inside y group).

(** A reachable bin some top-level order is coming to collect. *)
Definition collected (y : Yard) (held : YNode) : bool :=
  existsb (fun b => at_node (yn_id held) b && negb (retired b) &&
    existsb (fun o => coming_for held b o && bool_decide (yo_parent o = None) && live o) (y_orders y)) (y_bins y)
  && ReachableSQL y held.

Definition walls_collected (y : Yard) (n : YNode) : bool :=
  existsb (fun held => ShallowerInSameLane n held && collected y held) (y_nodes y).

(** A slot of the group with the property, by its id. *)
Definition group_slot (y : Yard) (group : Z) (P : YNode -> bool) (id : Z) : bool :=
  existsb (fun n => (yn_id n =i id) && in_group y group n && P n) (y_nodes y).

Definition SlotsBlockedByHardClaims (group : Z) : YardSQL (Z -> bool) :=
  query (fun y => group_slot y group (walls_collected y)).

Definition SlotsThatWouldEntombASpokenForSlot (group : Z) : YardSQL (Z -> bool) :=
  query (fun y => group_slot y group (fun n => EntombsASpokenForSlotSQL y n 0)).

Definition mouth_rows (y : Yard) (lane : Z) : list MouthHold :=
  isort (fun a b => Z.leb (mh_order a) (mh_order b)) (map to_hold (List.filter (mouth_on lane) (y_resv y))).

Definition LaneAcceptsInbound (lane : Z) : YardSQL bool :=
  hs <-- query (fun y => mouth_rows y lane) ;; sret (forallb (fun h => is_mode (mh_mode h) ModeInbound) hs).

(** ** Configuration *)

(** The node and its ancestors, nearest first; the walk is as long as the node
    table, which an acyclic parentage does not exceed. *)
Fixpoint ancestors_from (fuel : nat) (y : Yard) (id : Z) : list Z :=
  match fuel with
  | O => []
  | S k => match node_by_id y id with
      | None => []
      | Some n => id :: match yn_parent n with Some p => ancestors_from k y p | None => [] end
      end
  end.

Definition ancestors (y : Yard) (id : Z) : list Z := ancestors_from (S (length (y_nodes y))) y id.

Definition assigned {A} (l : list (Z * A)) (id : Z) : list A := map snd (List.filter (fun p => p.1 =i id) l).

Fixpoint nearest {A} (l : list (Z * A)) (ids : list Z) : list A :=
  match ids with
  | [] => []
  | id :: rest => match assigned l id with [] => nearest l rest | vs => vs end
  end.

Definition GetEffectivePayloads (id : Z) : YardSQL (list string) :=
  query (fun y => nearest (y_payloads y) (ancestors y id)).

Definition GetEffectiveBinTypes (id : Z) : YardSQL (list Z) :=
  mode <-- GetNodeProperty id "bin_type_mode" ;;
  if mode =s "all" then sret []
  else if mode =s "specific" then query (fun y => assigned (y_types y) id)
  else query (fun y => nearest (y_types y) (ancestors y id)).

Definition ListMaintainLevels (group : Z) : YardSQL (list MaintainLevel) :=
  query (fun y => isort (fun a b => String.leb (ml_code a) (ml_code b))
    (List.filter (fun l => ml_group l =i group) (y_levels y))).

(** An unclaimed empty carrier of the type standing at an enabled physical node
    of the group's subtree. *)
Definition empty_of_type (y : Yard) (code : string) (group : Z) (b : YBin) : bool :=
  Sourceable b && (yb_status b <>s "staged") && bool_decide (yb_claimed b = None) && negb (yb_locked b)
  && (yb_payload b =s "") && negb (pending_on y b) && (yb_type b =s code)
  && existsb (fun n => at_node (yn_id n) b && yn_enabled n && negb (yn_synthetic n)
       && existsb (Z.eqb group) (tail (ancestors y (yn_id n)))) (y_nodes y).

Definition CountEmptyBinsOfTypeInGroup (code : string) (group : Z) : YardSQL nat :=
  if code =s "" then sret 0%nat
  else query (fun y => length (List.filter (empty_of_type y code group) (y_bins y))).

(** ** What a robot does *)

Definition with_node (dest : option Z) (b : YBin) : YBin :=
  mkYBin (yb_id b) dest (yb_status b) (yb_claimed b) (yb_locked b) (yb_confirmed b) (yb_payload b) (yb_type b)
    (yb_loaded b) (yb_created b).

(** A bin is set down at a node, or lifted ([None]). *)
Definition move_bin (b : Z) (dest : option Z) (y : Yard) : Yard :=
  mkYard (y_nodes y) (map (fun x => if yb_id x =i b then with_node dest x else x) (y_bins y)) (y_orders y)
    (y_resv y) (y_props y) (y_payloads y) (y_types y) (y_levels y).

(** ** Facts about geometry *)

Lemma shallower_spec s d :
  ShallowerInSameLane s d = true <->
  exists p ds dd, yn_parent s = Some p /\ yn_parent d = Some p /\ yn_id s <> yn_id d /\
    yn_depth s = Some ds /\ yn_depth d = Some dd /\ (ds < dd)%Z.
Proof.
  unfold ShallowerInSameLane.
  destruct (yn_parent s) as [p|], (yn_parent d) as [p'|], (yn_depth s) as [ds|], (yn_depth d) as [dd|];
    try (split; [done|intros (? & ? & ? & ? & ? & ? & ? & ? & ?); congruence]).
  rewrite !andb_true_iff, negb_true_iff, Z.eqb_eq, Z.eqb_neq, Z.ltb_lt. split.
  - intros [[-> Hi] Hd]. by exists p', ds, dd.
  - intros (q & a & b & [= <-] & [= ->] & Hi & [= <-] & [= <-] & Hd). done.
Qed.

Lemma shallower_depth s d : ShallowerInSameLane s d = true -> (depth0 s < depth0 d)%Z.
Proof. intros (p & a & b & _ & _ & _ & E1 & E2 & H)%shallower_spec. unfold depth0. by rewrite E1, E2. Qed.

Lemma shallower_parent s d : ShallowerInSameLane s d = true -> yn_parent s = yn_parent d.
Proof. intros (p & a & b & E1 & E2 & _)%shallower_spec. congruence. Qed.

Lemma occupied_spec y n : occupied y n = true <-> exists b, b ∈ y_bins y /\ yb_node b = Some (yn_id n).
Proof.
  unfold occupied. rewrite existsb_true. unfold at_node. setoid_rewrite claimed_is_true. done.
Qed.

Lemma reachable_spec y t :
  ReachableSQL y t = true <->
  forall n, n ∈ y_nodes y -> occupied y n = true -> ShallowerInSameLane n t = false.
Proof.
  unfold ReachableSQL, BuriedSQL. rewrite negb_true_iff, existsb_false. unfold LaneBlockerPredicate. split.
  - intros H n Hn Ho. specialize (H n Hn). by rewrite Ho in H.
  - intros H n Hn. destruct (occupied y n) eqn:E; [|done]. by rewrite (H n Hn E).
Qed.

Lemma move_nodes b dest y : y_nodes (move_bin b dest y) = y_nodes y.
Proof. done. Qed.

(** A node that is occupied after a move was occupied before, or is the
    destination. *)
Lemma occupied_move b dest y n :
  occupied (move_bin b dest y) n = true -> occupied y n = true \/ dest = Some (yn_id n).
Proof.
  rewrite !occupied_spec. intros (x' & Hx & E). apply list_elem_of_fmap in Hx as (x & -> & Hx).
  destruct (yb_id x =i b); [by right|left; eauto].
Qed.

Lemma reachable_move b dest y t :
  ReachableSQL y t = true ->
  (forall n, n ∈ y_nodes y -> dest = Some (yn_id n) -> ShallowerInSameLane n t = false) ->
  ReachableSQL (move_bin b dest y) t = true.
Proof.
  intros H Hd. apply reachable_spec. rewrite move_nodes. intros n Hn [Ho|Ho]%occupied_move; [|auto].
  rewrite reachable_spec in H. auto.
Qed.

(** ** The selector *)

Lemma head_isort_min {A} (leb : A -> A -> bool) (l : list A) x :
  (forall a b, leb a b = false -> leb b a = true) -> (forall a b c, leb a b = true -> leb b c = true -> leb a c = true) ->
  (forall a, leb a a = true) ->
  head (isort leb l) = Some x -> x ∈ l /\ forall z, z ∈ l -> leb x z = true.
Proof.
  intros Htot Htr Hrefl H. pose proof (isort_perm leb l) as Hp. pose proof (isort_sorted leb Htot l) as Hs.
  destruct (isort leb l) as [|a rest]; [done|]. injection H as ->. split.
  - rewrite <- Hp. set_solver.
  - intros z Hz. rewrite <- Hp in Hz. apply elem_of_cons in Hz as [->|Hz]; [done|].
    apply Sorted_StronglySorted in Hs; [|intros a b c; apply Htr].
    inversion Hs as [|? ? _ Hall]; subst. rewrite Forall_forall in Hall. auto.
Qed.

Lemma head_isort_key {A} (key : A -> Z) (l : list A) x :
  head (isort (fun a b => (key a <=? key b)%Z) l) = Some x -> x ∈ l /\ forall z, z ∈ l -> (key x <= key z)%Z.
Proof.
  intros H. apply head_isort_min in H as [H1 H2].
  - split; [done|]. intros z Hz. by apply Z.leb_le, H2.
  - intros a b Hab%Z.leb_gt. apply Z.leb_le. lia.
  - intros a b c Ha%Z.leb_le Hb%Z.leb_le. apply Z.leb_le. lia.
  - intros a. by apply Z.leb_le.
Qed.

Lemma head_isort_none {A} (leb : A -> A -> bool) (l : list A) : head (isort leb l) = None -> l = [].
Proof.
  intros H. pose proof (isort_perm leb l) as Hp. destruct (isort leb l); [|done]. by apply Permutation_nil_l in Hp.
Qed.

Lemma deepest_spec l n : deepest l = Some n -> n ∈ l /\ forall m, m ∈ l -> (depth0 m <= depth0 n)%Z.
Proof.
  intros H. apply head_isort_min in H as [H1 H2].
  - split; [done|]. intros m Hm. by apply Z.leb_le, H2.
  - intros a b Hab. apply Z.leb_gt in Hab. apply Z.leb_le. lia.
  - intros a b c H1%Z.leb_le H2%Z.leb_le. apply Z.leb_le. lia.
  - intros a. by apply Z.leb_le.
Qed.

Lemma findStoreSlot_ok lane ex guard c n c' :
  findStoreSlot lane ex guard c = (Ok n, c') ->
  n ∈ y_nodes (db c) /\ store_candidate (db c) lane ex guard n = true /\ db c' = db c /\
  forall m, m ∈ y_nodes (db c) -> store_candidate (db c) lane ex guard m = true -> (depth0 m <= depth0 n)%Z.
Proof.
  unfold findStoreSlot. intros H. sql_inv H. subst. destruct (deepest _) as [x|] eqn:E; sql_inv Hk. simplify_eq.
  apply deepest_spec in E as [[Hn Hc]%elem_of_lfilter Hmax].
  split_and!; try done. intros m Hm' Hcm. apply Hmax. by apply elem_of_lfilter.
Qed.

Lemma FindStoreSlot_ok lane ex c n c' :
  FindStoreSlotInLaneExcluding lane ex c = (Ok n, c') -> findStoreSlot lane ex true c = (Ok n, c').
Proof.
  unfold FindStoreSlotInLaneExcluding. destruct (findStoreSlot lane ex true c) as [[?|?] c1]; [done|].
  by destruct (findStoreSlot lane ex false c1) as [[?|?] ?].
Qed.

Record store_spot (y : Yard) (lane ex : Z) (n : YNode) : Prop := {
  ss_lane : yn_parent n = Some lane;
  ss_empty : occupied y n = false;
  ss_reach : ReachableSQL y n = true;
  ss_claim : yn_claimed n = None \/ yn_claimed n = Some ex;
  ss_resv : slot_reserved y ex n = false;
  ss_aim : slot_targeted y ex n = false;
  ss_clear : buries_claimed y ex n = false }.

Lemma store_candidate_spot y lane ex n : store_candidate y lane ex true n = true -> store_spot y lane ex n.
Proof.
  unfold store_candidate. rewrite !andb_true_iff, !negb_true_iff.
  intros [[[[[[[H1 _] H2] H3] H4] H5] H6] H7]. split; try done.
  - by apply claimed_is_true.
  - destruct (yn_claimed n); [right; f_equal; by apply Z.eqb_eq|by left].
Qed.

Lemma id_inj y a b :
  NoDup (map yn_id (y_nodes y)) -> a ∈ y_nodes y -> b ∈ y_nodes y -> yn_id a = yn_id b -> a = b.
Proof. apply keys_inj. Qed.

Lemma node_by_id_in y n : NoDup (map yn_id (y_nodes y)) -> n ∈ y_nodes y -> node_by_id y (yn_id n) = Some n.
Proof.
  intros Hid Hn. unfold node_by_id. destruct (List.find _ (y_nodes y)) as [m|] eqn:E.
  - apply find_some in E as [Hm E%Z.eqb_eq]. f_equal. apply (id_inj y); [done| |done|done]. by apply list_elem_of_In.
  - eapply find_none in E; [|by apply list_elem_of_In]. by rewrite Z.eqb_refl in E.
Qed.

(** Without a lane or a depth nothing is in front. *)
Lemma in_front_nil y t : yn_parent t = None \/ yn_depth t = None -> in_front y t = [].
Proof.
  intros H. unfold in_front.
  assert (E : List.filter (fun n => LaneBlockerPredicate y n t) (y_nodes y) = []); [|by rewrite E].
  induction (y_nodes y) as [|n l IH]; [done|]. cbn. unfold LaneBlockerPredicate at 1.
  assert (Es : ShallowerInSameLane n t = false).
  { destruct (ShallowerInSameLane n t) eqn:Es; [|done]. apply shallower_spec in Es. naive_solver. }
  by rewrite Es, andb_false_r.
Qed.

Lemma BlockersInFrontOf_ok n c l c' :
  NoDup (map yn_id (y_nodes (db c))) -> n ∈ y_nodes (db c) ->
  BlockersInFrontOf (yn_id n) c = (Ok l, c') -> l = in_front (db c) n /\ db c' = db c.
Proof.
  intros Hid Hn H. pose proof (node_by_id_in _ n Hid Hn) as E. unfold BlockersInFrontOf in H.
  apply sbind_ok in H as (s & c1 & H1 & H2). unfold GetNode in H1. apply sbind_ok in H1 as (r & c2 & Hq & H1).
  apply query_ok in Hq as [-> Hd]. rewrite E in H1. injection H1 as <- <-.
  destruct (yn_parent n) eqn:Ep, (yn_depth n) eqn:Ed;
    try (injection H2 as <- <-; split; [by rewrite in_front_nil; auto|done]).
  apply query_ok in H2 as [-> Hd']. rewrite Hd in *. rewrite E. split; [done|congruence].
Qed.

Lemma not_buries y ex n held b o :
  buries_claimed y ex n = false -> held ∈ y_nodes y -> b ∈ y_bins y -> yb_node b = Some (yn_id held) ->
  o ∈ y_orders y -> coming_for held b o = true -> yo_id o <> ex -> live o = true ->
  ShallowerInSameLane n held = false.
Proof.
  intros Hb Hh Hbin Hat Ho Hc Hne Hl. destruct (ShallowerInSameLane n held) eqn:E; [|done].
  assert (Ht : buries_claimed y ex n = true); [|congruence].
  apply existsb_true. exists held. split; [done|]. rewrite E. apply existsb_true. exists b. split; [done|].
  unfold at_node. rewrite (proj2 (claimed_is_true (yb_node b) (yn_id held))) by done. apply existsb_true. exists o. split; [done|].
  by rewrite Hc, Hl, (proj2 (Z.eqb_neq _ _)).
Qed.

(** C17. A store can always be carried out and never walls anyone in.  A slot the
    selector hands to order [ex], whatever statements fail, is an empty slot of
    the lane that nobody else has claimed, reserved or is driving to, with a
    clear way from the mouth, and the deepest such slot; and once a bin stands
    there, every bin another live order is coming for - by claim, or by the bin
    and slot it names - is as reachable as it was. *)
Theorem store_never_walls_in lane ex c n c' :
  FindStoreSlotInLaneExcluding lane ex c = (Ok n, c') ->
  store_spot (db c) lane ex n /\
  (forall m, m ∈ y_nodes (db c) -> store_candidate (db c) lane ex true m = true -> (depth0 m <= depth0 n)%Z) /\
  (NoDup (map yn_id (y_nodes (db c))) -> forall bin held b o,
    held ∈ y_nodes (db c) -> b ∈ y_bins (db c) -> yb_node b = Some (yn_id held) -> o ∈ y_orders (db c) ->
    coming_for held b o = true -> yo_id o <> ex -> live o = true ->
    ReachableSQL (db c) held = true -> ReachableSQL (move_bin bin (Some (yn_id n)) (db c)) held = true).
Proof.
  intros (Hn & Hc & _ & Hmax)%FindStoreSlot_ok%findStoreSlot_ok. pose proof (store_candidate_spot _ _ _ _ Hc) as Hs.
  split; [done|]. split; [done|]. intros Hid bin held b o Hh Hb Hat Ho Hcf Hne Hl Hr.
  apply reachable_move; [done|]. intros m Hm [= E].
  assert (m = n) as -> by by apply (id_inj (db c)).
  by eapply not_buries; [apply Hs|..].
Qed.

(** ** Lanes without holes *)

(** Every empty slot of the lane has a clear way from the mouth. *)
Definition packed (lane : Z) (y : Yard) : Prop :=
  forall n, n ∈ y_nodes y -> yn_parent n = Some lane -> yn_synthetic n = false -> occupied y n = false ->
    ReachableSQL y n = true.

(** One robot's move at a lane: a bin from elsewhere is stored at the slot the
    selector names while no other order has a hold in the lane, or a reachable
    bin is taken out. *)
Inductive lane_move (lane : Z) : Yard -> Yard -> Prop :=
| lm_store y b ex n fs c' :
    FindStoreSlotInLaneExcluding lane ex (mkConn y fs) = (Ok n, c') ->
    (forall m, m ∈ y_nodes y -> yn_parent m = Some lane -> yn_synthetic m = false -> occupied y m = false ->
      ReachableSQL y m = true -> store_candidate y lane ex true m = true) ->
    (forall m, m ∈ y_nodes y -> yn_parent m = Some lane -> forall x, x ∈ y_bins y -> yb_id x = b ->
      yb_node x <> Some (yn_id m)) ->
    lane_move lane y (move_bin b (Some (yn_id n)) y)
| lm_take y b n dest :
    n ∈ y_nodes y -> yn_parent n = Some lane -> ReachableSQL y n = true ->
    (forall x, x ∈ y_bins y -> yb_id x = b -> yb_node x = Some (yn_id n)) ->
    (forall m, m ∈ y_nodes y -> yn_parent m = Some lane -> dest <> Some (yn_id m)) ->
    lane_move lane y (move_bin b dest y).

(** A slot empty after a move was empty before, or the bin stood there. *)
Lemma empty_move b dest y n :
  occupied (move_bin b dest y) n = false -> occupied y n = true ->
  exists x, x ∈ y_bins y /\ yb_id x = b /\ yb_node x = Some (yn_id n).
Proof.
  intros H0 (x & Hx & E)%occupied_spec. destruct (Z.eqb_spec (yb_id x) b) as [Hb|Hb]; [eauto|].
  assert (Ht : occupied (move_bin b dest y) n = true); [|congruence].
  apply occupied_spec. exists x. split; [|done]. apply list_elem_of_fmap. exists x. split; [|done].
  by rewrite (proj2 (Z.eqb_neq _ _)).
Qed.

Lemma move_keeps_packed lane y y' :
  NoDup (map yn_id (y_nodes y)) -> lane_move lane y y' -> packed lane y -> packed lane y' /\ y_nodes y' = y_nodes y.
Proof.
  intros Hid Hm Hp. destruct Hm as [y b ex n fs c' Hsel Hfree Hfrom|y b n dest Hn Hl Hr Hat Hdest]; split; try done.
  - apply FindStoreSlot_ok, findStoreSlot_ok in Hsel as (Hn & Hc & _ & Hmax). cbn in Hn, Hc, Hmax.
    intros e He Hel Hes Heo. rewrite move_nodes in He.
    assert (Hemp : occupied y e = false).
    { destruct (occupied y e) eqn:E; [|done]. destruct (empty_move _ _ _ _ Heo E) as (x & Hx & Hb & Hxn).
      destruct (Hfrom e He Hel x Hx Hb Hxn). }
    pose proof (Hp e He Hel Hes Hemp) as Hre. apply reachable_move; [done|]. intros m Hm' [= E].
    assert (m = n) as -> by by apply (id_inj y).
    destruct (ShallowerInSameLane n e) eqn:Es; [|done]. apply shallower_depth in Es.
    specialize (Hmax e He (Hfree e He Hel Hes Hemp Hre)). lia.
  - intros e He Hel Hes Heo. rewrite move_nodes in He. apply reachable_move.
    + destruct (occupied y e) eqn:E; [|by apply Hp]. destruct (empty_move _ _ _ _ Heo E) as (x & Hx & Hb & Hxn).
      assert (e = n) as ->; [|done]. apply (id_inj y); try done. specialize (Hat x Hx Hb). congruence.
    + intros m Hm' E. destruct (ShallowerInSameLane m e) eqn:Es; [|done].
      apply shallower_parent in Es. destruct (Hdest m Hm'); congruence.
Qed.

(** Lanes stay packed from the back.  Start from a lane in which every empty
    slot can be reached; after any number of stores at the slots the selector
    names (each while no other order has a hold in the lane) and removals of
    reachable bins, every empty slot can still be reached: no hole is ever
    enclosed behind a bin. *)
Theorem lane_stays_packed lane y y' :
  NoDup (map yn_id (y_nodes y)) -> packed lane y -> rtc (lane_move lane) y y' -> packed lane y'.
Proof.
  intros Hid Hp Hr. assert (H : packed lane y' /\ y_nodes y' = y_nodes y); [|tauto].
  induction Hr as [y|y1 y2 y3 Hm _ IH]; [done|].
  destruct (move_keeps_packed lane y1 y2 Hid Hm Hp) as [Hp2 E]. destruct IH as [H1 H2]; [by rewrite E|done|].
  split; [done|congruence].
Qed.

(** ** A small yard *)

Definition yslot (id : Z) (name : string) (lane d : Z) : YNode := mkYNode id name false true (Some d) "" (Some lane) None.
Definition ylane (id : Z) (name : string) (group : Z) : YNode :=
  mkYNode id name true true None NodeClassLANE (Some group) None.
Definition ybin (id node : Z) (payload : string) (loaded : Z) : YBin :=
  mkYBin id (Some node) "available" None false true payload "T1" (Some loaded) 0.

(** A group with two lanes and a floor position: in L1 an older "B" stands in
    front of an "A"; in L2 order 7 is coming for the "A" at the back. *)
Definition demo_yard : Yard :=
  mkYard
    [mkYNode 1 "G" true true None NodeClassNGRP None None; ylane 10 "L1" 1; yslot 11 "S11" 10 1;
     yslot 12 "S12" 10 2; yslot 13 "S13" 10 3; ylane 20 "L2" 1; yslot 21 "S21" 20 1; yslot 22 "S22" 20 2;
     mkYNode 30 "P1" false true None "" (Some 1%Z) None]
    [ybin 100 13 "A" 5; ybin 101 12 "B" 3; ybin 102 22 "A" 9]
    [mkYOrder 7 StatusSourcing "S22" "LINE" (Some 102%Z) None] [] ∅ [] [] [].

(** Go through the rows of a concrete table; find a row in one. *)
Ltac each_row H :=
  cbn in H; repeat (apply elem_of_cons in H as [->|H]); [..|by apply elem_of_nil in H].
Ltac in_row := apply list_elem_of_In; cbn; repeat (first [left; reflexivity|right]).

Lemma demo_yard_ids : NoDup (map yn_id (y_nodes demo_yard)).
Proof. cbn. repeat (apply NoDup_cons; split; [set_solver|]). apply NoDup_nil_2. Qed.

Lemma store_never_walls_in_witness :
  FindStoreSlotInLaneExcluding 10 0 (mkConn demo_yard []) = (Ok (yslot 11 "S11" 10 1), mkConn demo_yard []) /\
  store_spot demo_yard 10 0 (yslot 11 "S11" 10 1) /\
  ReachableSQL (move_bin 200 (Some 11%Z) demo_yard) (yslot 22 "S22" 20 2) = true /\
  FindStoreSlotInLaneExcluding 20 0 (mkConn demo_yard []) = (Err YeLaneClosedByClaim, mkConn demo_yard []).
Proof.
  assert (E : FindStoreSlotInLaneExcluding 10 0 (mkConn demo_yard []) =
    (Ok (yslot 11 "S11" 10 1), mkConn demo_yard [])) by reflexivity.
  destruct (store_never_walls_in 10 0 (mkConn demo_yard []) _ _ E) as (H1 & _ & H3).
  split; [exact E|]. split; [exact H1|]. split; [|reflexivity].
  apply (H3 demo_yard_ids 200%Z (yslot 22 "S22" 20 2) (ybin 102 22 "A" 9)
    (mkYOrder 7 StatusSourcing "S22" "LINE" (Some 102%Z) None));
    [in_row|in_row|reflexivity|in_row|reflexivity|done|reflexivity|reflexivity].
Defined.

