(* ===== verification/YardReads.v ===== *)
(** Reading the yard: the calls a decision procedure makes over Yard.v's queries
    and what can be said of them under faults.

    [ask] is a call whose error the caller handles itself: [None] is the error
    branch.  [reads] says a procedure leaves the tables alone, [quiet] that it
    always comes back with an answer, [answers] and [runs] give the answer's
    postcondition, with a proposition [h] that says whether every statement on
    the connection succeeds. *)

From S2P Require Import Prelude Status Sql CoreDb Mouth Yard.

Definition calm (y : Yard) : Conn Yard := mkConn y [].

Section Ask.
Context {E : Type}.

Definition ask {A} (m : YardSQL A) : SQL Yard E (option A) := fun c =>
  match m c with
  | (Ok a, c') => (Ok (Some a), c')
  | (Err _, c') => (Ok None, c')
  end.

Lemma ask_query {A} (f : Yard -> A) y : ask (query f) (calm y) = (Ok (Some (f y)), calm y).
Proof. done. Qed.

Lemma sbind_step {A B} (m : SQL Yard E A) (k : A -> SQL Yard E B) c a c' :
  m c = (Ok a, c') -> sbind m k c = k a c'.
Proof. intros H. unfold sbind. by rewrite H. Qed.

Lemma ask_read {A} (f : Yard -> A) c :
  exists r c', ask (query f) c = (Ok r, c') /\ db c' = db c /\ (r = None \/ r = Some (f (db c))).
Proof. unfold ask, query, stmt. destruct (faults c) as [|[] fs]; eexists _, _; (split; [reflexivity|]); auto. Qed.

(** ** Reads under faults *)

(** A read leaves the tables alone and does not use up faults it is not given. *)
Definition reads {A} (m : SQL Yard E A) : Prop :=
  forall c, db (m c).2 = db c /\ (faults c = [] -> faults (m c).2 = []).

(** A read whose failures are all handled. *)
Definition quiet {A} (m : SQL Yard E A) : Prop := forall c, exists a c', m c = (Ok a, c').

Lemma reads_query `{!DriverError E} {A} (f : Yard -> A) : reads (query f).
Proof. intros c. unfold query, stmt. by destruct (faults c) as [|[] fs]. Qed.
Lemma reads_ret {A} (a : A) : reads (sret a).
Proof. done. Qed.
Lemma reads_fail {A} (e : E) : reads (sfail (A := A) e).
Proof. done. Qed.
Lemma reads_bind {A B} (m : SQL Yard E A) (k : A -> SQL Yard E B) :
  reads m -> (forall a, reads (k a)) -> reads (sbind m k).
Proof.
  intros Hm Hk c. unfold sbind. specialize (Hm c). destruct (m c) as [[a|e] c1]; cbn in *; [|done].
  destruct Hm as [H1 H2], (Hk a c1) as [H3 H4]. split; [congruence|auto].
Qed.
Lemma reads_log {A} (m : SQL Yard E A) : reads m -> reads (slog m).
Proof. intros Hm c. unfold slog. specialize (Hm c). by destruct (m c) as [[?|?] ?]. Qed.
Lemma quiet_ask {A} (m : YardSQL A) : quiet (ask m).
Proof. intros c. unfold ask. destruct (m c) as [[?|?] ?]; eauto. Qed.
Lemma quiet_ret {A} (a : A) : quiet (sret a).
Proof. intros c. by eexists _, _. Qed.
Lemma quiet_bind {A B} (m : SQL Yard E A) (k : A -> SQL Yard E B) : quiet m -> (forall a, quiet (k a)) -> quiet (sbind m k).
Proof. intros Hm Hk c. unfold sbind. destruct (Hm c) as (a & c1 & ->). apply Hk. Qed.

Lemma quiet_step {A} (m : SQL Yard E A) c :
  reads m /\ quiet m -> exists a c1, m c = (Ok a, c1) /\ db c1 = db c /\ (faults c = [] -> faults c1 = []).
Proof. intros [H1 H2]. destruct (H2 c) as (a & c1 & E1). specialize (H1 c). rewrite E1 in H1. exists a, c1. tauto. Qed.
End Ask.

Lemma reads_ask {E A} (m : YardSQL A) : reads m -> reads (ask (E := E) m).
Proof. intros Hm c. unfold ask. specialize (Hm c). by destruct (m c) as [[?|?] ?]. Qed.

Create HintDb reads.
#[export] Hint Resolve reads_query reads_ret reads_fail reads_bind reads_log reads_ask quiet_ask quiet_ret quiet_bind : reads.

Ltac reading :=
  repeat (first [ apply reads_query | apply reads_ret | apply reads_fail | apply reads_ask | apply reads_log
    | apply quiet_ask | apply quiet_ret | solve [auto with reads nocore]
    | apply reads_bind; [|intros ?] | apply quiet_bind; [|intros ?] | case_match ]).

Lemma reads_findStoreSlot lane ex : reads (FindStoreSlotInLaneExcluding lane ex).
Proof.
  assert (H : forall guard, reads (findStoreSlot lane ex guard)) by (intros; unfold findStoreSlot; reading).
  intros c. unfold FindStoreSlotInLaneExcluding. pose proof (H true c) as H1.
  destruct (findStoreSlot lane ex true c) as [[n|e] c1]; cbn in *; [done|].
  pose proof (H false c1) as H2. destruct (findStoreSlot lane ex false c1) as [[n|e'] c2]; cbn in *;
    destruct H1, H2; (split; [congruence|auto]).
Qed.

Lemma reads_GetNode id : reads (GetNode id).
Proof. unfold GetNode. reading. Qed.
Lemma reads_with_slot r : reads (with_slot r).
Proof. unfold with_slot. destruct r as [[b n]|]; reading. Qed.
#[export] Hint Resolve reads_with_slot : reads.
Lemma reads_types id : reads (GetEffectiveBinTypes id).
Proof. unfold GetEffectiveBinTypes, GetNodeProperty. reading. Qed.
Lemma reads_source lane payload : reads (FindSourceBinInLane lane payload).
Proof. unfold FindSourceBinInLane. reading. Qed.
Lemma reads_oldest lane payload : reads (FindOldestBuriedBin lane payload).
Proof. unfold FindOldestBuriedBin. reading. Qed.
Lemma reads_buried lane payload : reads (FindBuriedBin lane payload).
Proof. unfold FindBuriedBin. reading. Qed.
#[export] Hint Resolve reads_findStoreSlot reads_GetNode reads_types reads_source reads_oldest reads_buried : reads.

(** [m] is answered on every connection and its answer satisfies [Q]; [h] says
    the connection is healthy. *)
Definition answers {E A} (h : Prop) (y : Yard) (m : SQL Yard E A) (Q : A -> Prop) : Prop :=
  forall c, db c = y -> (h -> faults c = []) ->
    exists a c', m c = (Ok a, c') /\ db c' = y /\ (h -> faults c' = []) /\ Q a.

Section Answers.
Context {E : Type} (h : Prop) (y : Yard).

Lemma answers_ret {A} (a : A) (Q : A -> Prop) : Q a -> answers h y (sret (E := E) a) Q.
Proof. intros H c Hd Hf. by exists a, c. Qed.

Lemma answers_bind {A B} (m : SQL Yard E A) (k : A -> SQL Yard E B) (P : A -> Prop) (Q : B -> Prop) :
  answers h y m P -> (forall a, P a -> answers h y (k a) Q) -> answers h y (sbind m k) Q.
Proof.
  intros Hm Hk c Hd Hf. destruct (Hm c Hd Hf) as (a & c1 & E1 & Hd1 & Hf1 & Ha).
  rewrite (sbind_step _ _ _ _ _ E1). by apply (Hk a Ha).
Qed.

Lemma answers_weaken {A} (m : SQL Yard E A) (P Q : A -> Prop) : answers h y m P -> (forall a, P a -> Q a) -> answers h y m Q.
Proof. intros Hm HPQ c Hd Hf. destruct (Hm c Hd Hf) as (a & c1 & ? & ? & ? & ?). exists a, c1. auto. Qed.

(** A query's answer: right, or missing on a connection that failed. *)
Lemma answers_query {A} (f : Yard -> A) : answers h y (ask (E := E) (query f)) (fun r => (h -> r = Some (f y)) /\ (r = None \/ r = Some (f y))).
Proof.
  intros c Hd Hf. unfold ask, query, stmt. destruct (faults c) as [|[] fs] eqn:Ef; eexists _, _; (split; [reflexivity|]);
    rewrite ?Hd; split_and!; auto; intros Hh; specialize (Hf Hh); done.
Qed.

Lemma answers_any {A} (m : SQL Yard E A) : reads m /\ quiet m -> answers h y m (fun _ => True).
Proof. intros H c Hd Hf. destruct (quiet_step m c H) as (a & c1 & E1 & Hd1 & Hf1). exists a, c1. split_and!; auto; congruence. Qed.

Lemma answers_ask_any {A} (m : YardSQL A) : reads m -> answers h y (ask (E := E) m) (fun _ => True).
Proof. intros H. apply answers_any. split; [by apply reads_ask|apply quiet_ask]. Qed.


(** The general form: the outcome, error or not, satisfies [Post]. *)
Definition runs {A} (m : SQL Yard E A) (Post : outcome E A -> Prop) : Prop :=
  forall c, db c = y -> (h -> faults c = []) ->
    exists o c', m c = (o, c') /\ db c' = y /\ (h -> faults c' = []) /\ Post o.

Lemma runs_ret {A} (a : A) (Q : outcome E A -> Prop) : Q (Ok a) -> runs (sret a) Q.
Proof. intros H c Hd Hf. by exists (Ok a), c. Qed.
Lemma runs_fail {A} (e : E) (Q : outcome E A -> Prop) : Q (Err e) -> runs (sfail e) Q.
Proof. intros H c Hd Hf. by exists (Err e), c. Qed.

Lemma runs_answers {A B} (m : SQL Yard E A) (k : A -> SQL Yard E B) (P : A -> Prop) (Q : outcome E B -> Prop) :
  answers h y m P -> (forall a, P a -> runs (k a) Q) -> runs (sbind m k) Q.
Proof.
  intros Hm Hk c Hd Hf. destruct (Hm c Hd Hf) as (a & c1 & E1 & Hd1 & Hf1 & Ha).
  rewrite (sbind_step _ _ _ _ _ E1). by apply (Hk a Ha).
Qed.

Lemma runs_bind {A B} (m : SQL Yard E A) (k : A -> SQL Yard E B) (P : outcome E A -> Prop) (Q : outcome E B -> Prop) :
  runs m P -> (forall a, P (Ok a) -> runs (k a) Q) -> (forall e, P (Err e) -> Q (Err e)) -> runs (sbind m k) Q.
Proof.
  intros Hm Hk He c Hd Hf. destruct (Hm c Hd Hf) as ([a|e] & c1 & E1 & Hd1 & Hf1 & Ha).
  - rewrite (sbind_step _ _ _ _ _ E1). by apply (Hk a Ha).
  - exists (Err e), c1. unfold sbind. rewrite E1. auto.
Qed.

Lemma runs_weaken {A} (m : SQL Yard E A) (P Q : outcome E A -> Prop) : runs m P -> (forall o, P o -> Q o) -> runs m Q.
Proof. intros Hm HPQ c Hd Hf. destruct (Hm c Hd Hf) as (o & c1 & ? & ? & ? & ?). exists o, c1. auto. Qed.
End Answers.
