(* ===== verification/Resolver.v ===== *)
(** Which bin to fetch and which slot to fill: the node-group resolver
    (dispatch/binresolver/group_resolver.go, resolver.go, helpers.go) over the
    yard's queries.

    The resolver handles every read error itself and only logs which one it was. *)

From S2P Require Import Prelude Status Sql CoreDb Mouth Yard YardReads.

Record ResolveResult := mkRes { rr_node : option YNode; rr_bin : option YBin }.

Inductive ResolveError :=
| ReChildren
| ReNoChildren
| ReBuried (bin : YBin) (slot : YNode) (lane : Z)
| ReStructural (reason : string)
| ReNoBin
| ReNoSlot
| ReLevel
| ReNoneEnabled.

Definition RSQL (A : Type) : Type := SQL Yard ResolveError A.

(** ** Retrieval *)

(** What a scan has so far. *)
Definition Best : Type := option (YBin * option YNode).

(** A strict improvement: nothing yet, or older. *)
Definition older (b : YBin) (best : Best) : bool :=
  match best with None => true | Some (b', _) => (binTimestamp b <? binTimestamp b')%Z end.

Record retrieveStrategy := mkStrategy {
  rs_first : bool;
  rs_skip : bool;
  rs_check : option (list YNode -> string -> RSQL (option (YBin * YNode * Z)));
  rs_trigger : YBin -> Best -> bool }.

Fixpoint checkOldestBuried_from (best : option (YBin * YNode * Z)) (children : list YNode) (payload : string)
    : RSQL (option (YBin * YNode * Z)) :=
  match children with
  | [] => sret best
  | child :: rest =>
      if negb (yn_enabled child) || (yn_class child <>s NodeClassLANE) then checkOldestBuried_from best rest payload
      else
        r <-- ask (FindOldestBuriedBin (yn_id child) payload) ;;
        checkOldestBuried_from
          match r with
          | None => best
          | Some (b, s) => match best with
              | None => Some (b, s, yn_id child)
              | Some (b', _, _) => if (binTimestamp b <? binTimestamp b')%Z then Some (b, s, yn_id child) else best
              end
          end rest payload
  end.

Definition checkOldestBuried : list YNode -> string -> RSQL (option (YBin * YNode * Z)) :=
  checkOldestBuried_from None.

Fixpoint checkShallowestBuried (children : list YNode) (payload : string) : RSQL (option (YBin * YNode * Z)) :=
  match children with
  | [] => sret None
  | child :: rest =>
      if negb (yn_enabled child) || (yn_class child <>s NodeClassLANE) then checkShallowestBuried rest payload
      else
        r <-- ask (FindBuriedBin (yn_id child) payload) ;;
        match r with Some (b, s) => sret (Some (b, s, yn_id child)) | None => checkShallowestBuried rest payload end
  end.

Definition RetrieveFIFO : string := "FIFO".
Definition RetrieveCOST : string := "COST".
Definition RetrieveFAVL : string := "FAVL".

(** An unknown name is the zero strategy: the oldest accessible bin, never a
    dig. *)
Definition retrieveStrategies (algo : string) : retrieveStrategy :=
  if algo =s RetrieveFIFO then mkStrategy false false (Some checkOldestBuried) (fun b best => older b best)
  else if algo =s RetrieveCOST then
    mkStrategy false true (Some checkShallowestBuried) (fun _ best => bool_decide (best = None))
  else if algo =s RetrieveFAVL then mkStrategy true false None (fun _ _ => false)
  else mkStrategy false false None (fun _ _ => false).

(** The bins of a floor position. *)
Fixpoint scan_bins (bs : list YBin) (child : YNode) (payload : string) (first : bool) (best : Best)
    : ResolveResult + Best :=
  match bs with
  | [] => inr best
  | b :: rest =>
      if negb (isBinAvailableForRetrieve b payload) then scan_bins rest child payload first best
      else if first then inl (mkRes (Some child) (Some b))
      else scan_bins rest child payload first (if older b best then Some (b, Some child) else best)
  end.

Fixpoint scan_children (children : list YNode) (payload : string) (first : bool) (best : Best)
    : RSQL (ResolveResult + Best) :=
  match children with
  | [] => sret (inr best)
  | child :: rest =>
      if negb (yn_enabled child) then scan_children rest payload first best
      else if yn_class child =s NodeClassLANE then
        r <-- ask (FindSourceBinInLane (yn_id child) payload) ;;
        match r with
        | None => scan_children rest payload first best
        | Some b =>
            if first then
              slot <-- ask (GetNode (default 0%Z (yb_node b))) ;; sret (inl (mkRes slot (Some b)))
            else if older b best then
              slot <-- ask (GetNode (default 0%Z (yb_node b))) ;; scan_children rest payload first (Some (b, slot))
            else scan_children rest payload first best
        end
      else if negb (yn_synthetic child) then
        r <-- ask (ListBinsByNode (yn_id child)) ;;
        match r with
        | None => scan_children rest payload first best
        | Some bs => match scan_bins bs child payload first best with
            | inl res => sret (inl res)
            | inr best' => scan_children rest payload first best'
            end
        end
      else scan_children rest payload first best
  end.

(** Is some enabled child capable of the payload?  [None]: a read failed. *)
Fixpoint any_capable (children : list YNode) (payload : string) : RSQL (option bool) :=
  match children with
  | [] => sret (Some false)
  | child :: rest =>
      if negb (yn_enabled child) then any_capable rest payload
      else
        r <-- ask (GetEffectivePayloads (yn_id child)) ;;
        match r with
        | None => sret None
        | Some [] => sret (Some true)
        | Some ps => if contains ps payload then sret (Some true) else any_capable rest payload
        end
  end.

Definition classifyEmptyGroup (group : YNode) (payload : string) : RSQL ResolveError :=
  r <-- ask (ListChildNodes (yn_id group)) ;;
  match r with
  | None => sret ReNoBin
  | Some children =>
      if negb (existsb yn_enabled children) then sret (ReStructural "group has no enabled child nodes")
      else if payload =s "" then sret ReNoBin
      else
        cap <-- any_capable children payload ;;
        sret match cap with
          | Some false => ReStructural "no child node accepts this payload type"
          | _ => ReNoBin
          end
  end.

Definition scanForBestBin (group : YNode) (payload : string) (s : retrieveStrategy) (asker : DigAsker)
    : RSQL ResolveResult :=
  r <-- ask (ListChildNodesUnlocked (yn_id group) asker) ;;
  match r with
  | None => sfail ReChildren
  | Some children =>
      out <-- scan_children children payload (rs_first s) None ;;
      match out with
      | inl res => sret res
      | inr best =>
          buried <-- match rs_check s with
            | Some check => if rs_skip s && negb (bool_decide (best = None)) then sret None else check children payload
            | None => sret None
            end ;;
          match buried with
          | Some (b, slot, lane) => if rs_trigger s b best then sfail (ReBuried b slot lane) else
              match best with
              | Some (bin, node) => sret (mkRes node (Some bin))
              | None => e <-- classifyEmptyGroup group payload ;; sfail e
              end
          | None => match best with
              | Some (bin, node) => sret (mkRes node (Some bin))
              | None => e <-- classifyEmptyGroup group payload ;; sfail e
              end
          end
      end
  end.

(** A property read that fails reads as unset. *)
Definition prop (id : Z) (key : string) : RSQL string :=
  r <-- ask (GetNodeProperty id key) ;; sret (default "" r).

Definition getGroupAlgorithm (group : Z) (key defaultVal : string) : RSQL string :=
  off <-- prop group "asrs_enabled" ;;
  if off =s "off" then sret defaultVal
  else v <-- prop group key ;; sret (if v =s "" then defaultVal else v).

Definition ResolveRetrieve (group : YNode) (payload : string) (asker : DigAsker) : RSQL ResolveResult :=
  algo <-- getGroupAlgorithm (yn_id group) "retrieve_algorithm" RetrieveFIFO ;;
  scanForBestBin group payload (retrieveStrategies algo) asker.

(** ** Storage *)

Definition StoreLKND : string := "LKND".
Definition StoreDPTH : string := "DPTH".
Definition PropResolveAround : string := "resolve_around".

Record storageCandidate := mkCand {
  sc_node : YNode; sc_match : bool; sc_count : nat; sc_depth : Z; sc_compat : bool }.

Definition candidateBetter (c best : storageCandidate) : bool :=
  if negb (Bool.eqb (sc_match c) (sc_match best)) then sc_match c
  else if negb (sc_depth c =i sc_depth best) then (sc_depth best <? sc_depth c)%Z
  else if negb (Bool.eqb (sc_compat c) (sc_compat best)) then sc_compat c
  else (sc_count c <? sc_count best)%nat.

Definition bestStorageCandidate (cs : list storageCandidate) : option YNode :=
  match cs with
  | [] => None
  | c :: rest => Some (sc_node (fold_left (fun best c => if candidateBetter c best then c else best) rest c))
  end.

Definition binTypeAllowed (node binType : Z) : RSQL bool :=
  r <-- ask (GetEffectiveBinTypes node) ;;
  sret match r with None => true | Some [] => true | Some bts => existsb (Z.eqb binType) bts end.

Definition type_ok (node : Z) (binType : option Z) : RSQL bool :=
  match binType with None => sret true | Some bt => binTypeAllowed node bt end.

(** A failed read of the lane's payloads reads as no restriction. *)
Definition payload_ok (lane : Z) (payload : string) : RSQL bool :=
  if payload =s "" then sret true
  else r <-- ask (GetEffectivePayloads lane) ;;
    sret match r with None => true | Some [] => true | Some ps => contains ps payload end.

Definition holds_payload (payload : string) (bs : list YBin) : bool := existsb (fun b => yb_payload b =s payload) bs.

Fixpoint lane_match (slots : list YNode) (payload : string) : RSQL bool :=
  match slots with
  | [] => sret false
  | s :: rest =>
      r <-- ask (ListBinsByNode (yn_id s)) ;;
      if holds_payload payload (default [] r) then sret true else lane_match rest payload
  end.

Definition lane_candidate (child : YNode) (payload : string) (binType : option Z) (resolveAround : bool)
    : RSQL (option storageCandidate) :=
  pok <-- payload_ok (yn_id child) payload ;;
  if negb pok then sret None
  else
    tok <-- type_ok (yn_id child) binType ;;
    if negb tok then sret None
    else
      s <-- ask (FindStoreSlotInLane (yn_id child)) ;;
      match s with
      | None => sret None
      | Some slot =>
          count <-- ask (CountBinsInLane (yn_id child)) ;;
          slots <-- ask (ListLaneSlots (yn_id child)) ;;
          m <-- (if payload =s "" then sret false else lane_match (default [] slots) payload) ;;
          compat <-- (if resolveAround then r <-- ask (LaneAcceptsInbound (yn_id child)) ;; sret (default true r)
                      else sret false) ;;
          sret (Some (mkCand slot m (default 0%nat count) (depth0 child) compat))
      end.

(** A floor position: free when it is unclaimed, empty and nobody is on the way;
    a failed count of the orders on the way reads as none. *)
Definition floor_free (child : YNode) : RSQL (option nat) :=
  match yn_claimed child with
  | Some _ => sret None
  | None =>
      c <-- ask (CountBinsByNode (yn_id child)) ;;
      match c with
      | None => sret None
      | Some count =>
          i <-- ask (CountActiveOrdersByDeliveryNode (yn_name child)) ;;
          sret (if (1 <=? count + default 0%nat i)%nat then None else Some count)
      end
  end.

Definition floor_candidate (child : YNode) (payload : string) (binType : option Z) : RSQL (option storageCandidate) :=
  f <-- floor_free child ;;
  match f with
  | None => sret None
  | Some count =>
      tok <-- type_ok (yn_id child) binType ;;
      if negb tok then sret None
      else
        m <-- (if payload =s "" then sret false
               else r <-- ask (ListBinsByNode (yn_id child)) ;; sret (holds_payload payload (default [] r))) ;;
        sret (Some (mkCand child m count (depth0 child) false))
  end.

Fixpoint gather (children : list YNode) (payload : string) (binType : option Z) (around : bool)
    (acc : list storageCandidate) : RSQL (list storageCandidate) :=
  match children with
  | [] => sret acc
  | child :: rest =>
      if negb (yn_enabled child) then gather rest payload binType around acc
      else if yn_class child =s NodeClassLANE then
        r <-- lane_candidate child payload binType around ;;
        gather rest payload binType around (acc ++ option_list r)
      else if negb (yn_synthetic child) then
        r <-- floor_candidate child payload binType ;;
        gather rest payload binType around (acc ++ option_list r)
      else gather rest payload binType around acc
  end.

Definition resolveStoreLKND (group : YNode) (payload : string) (binType : option Z) (asker : DigAsker)
    : RSQL ResolveResult :=
  r <-- ask (ListChildNodesUnlocked (yn_id group) asker) ;;
  match r with
  | None => sfail ReChildren
  | Some children =>
      p <-- prop (yn_id group) PropResolveAround ;;
      cs <-- gather children payload binType (p =s "on") [] ;;
      match bestStorageCandidate cs with
      | Some n => sret (mkRes (Some n) None)
      | None => sfail ReNoSlot
      end
  end.

Fixpoint first_lane (children : list YNode) (payload : string) (binType : option Z) : RSQL (option YNode) :=
  match children with
  | [] => sret None
  | child :: rest =>
      if negb (yn_enabled child) || (yn_class child <>s NodeClassLANE) then first_lane rest payload binType
      else
        pok <-- payload_ok (yn_id child) payload ;;
        if negb pok then first_lane rest payload binType
        else
          tok <-- type_ok (yn_id child) binType ;;
          if negb tok then first_lane rest payload binType
          else
            s <-- ask (FindStoreSlotInLane (yn_id child)) ;;
            match s with Some slot => sret (Some slot) | None => first_lane rest payload binType end
  end.

Fixpoint first_floor (children : list YNode) (binType : option Z) : RSQL (option YNode) :=
  match children with
  | [] => sret None
  | child :: rest =>
      if negb (yn_enabled child) || yn_synthetic child then first_floor rest binType
      else match yn_claimed child with
        | Some _ => first_floor rest binType
        | None =>
            tok <-- type_ok (yn_id child) binType ;;
            if negb tok then first_floor rest binType
            else
              f <-- floor_free child ;;
              match f with Some _ => sret (Some child) | None => first_floor rest binType end
        end
  end.

Definition resolveStoreDPTH (group : YNode) (payload : string) (binType : option Z) (asker : DigAsker)
    : RSQL ResolveResult :=
  r <-- ask (ListChildNodesUnlocked (yn_id group) asker) ;;
  match r with
  | None => sfail ReChildren
  | Some children =>
      l <-- first_lane children payload binType ;;
      match l with
      | Some n => sret (mkRes (Some n) None)
      | None =>
          f <-- first_floor children binType ;;
          match f with Some n => sret (mkRes (Some n) None) | None => sfail ReNoSlot end
      end
  end.

Fixpoint sum_levels (ls : list MaintainLevel) (group want held : Z) : RSQL (Z * Z) :=
  match ls with
  | [] => sret (want, held)
  | l :: rest =>
      n <-- ask (CountEmptyBinsOfTypeInGroup (ml_code l) group) ;;
      match n with
      | None => sfail ReLevel
      | Some n => sum_levels rest group (want + ml_want l) (held + Z.of_nat n)
      end
  end.

Definition atDeclaredLevel (group : YNode) (binType : option Z) : RSQL bool :=
  r <-- ask (ListMaintainLevels (yn_id group)) ;;
  match r with
  | None => sfail ReLevel
  | Some [] => sret false
  | Some levels =>
      match binType with
      | Some bt =>
          match List.find (fun l => ml_type l =i bt) levels with
          | None => sret false
          | Some l =>
              n <-- ask (CountEmptyBinsOfTypeInGroup (ml_code l) (yn_id group)) ;;
              match n with None => sfail ReLevel | Some held => sret (ml_want l <=? Z.of_nat held)%Z end
          end
      | None =>
          wh <-- sum_levels levels (yn_id group) 0 0 ;; sret (wh.1 <=? wh.2)%Z
      end
  end.

Definition ResolveStore (group : YNode) (payload : string) (binType : option Z) (asker : DigAsker)
    : RSQL ResolveResult :=
  full <-- atDeclaredLevel group binType ;;
  if full then sfail ReNoSlot
  else
    algo <-- getGroupAlgorithm (yn_id group) "store_algorithm" StoreLKND ;;
    if algo =s StoreDPTH then resolveStoreDPTH group payload binType asker
    else resolveStoreLKND group payload binType asker.

(** ** Any synthetic node *)

Inductive ResolveMode := ResolveModeRetrieve | ResolveModeStore | ResolveModeOther.

Fixpoint resolveRetrieve (children : list YNode) (payload : string) : RSQL YNode :=
  match children with
  | [] => sfail ReNoBin
  | child :: rest =>
      if negb (yn_enabled child) then resolveRetrieve rest payload
      else
        r <-- ask (ListBinsByNode (yn_id child)) ;;
        if existsb (fun b => isBinAvailableForRetrieve b payload) (default [] r) then sret child
        else resolveRetrieve rest payload
  end.

Fixpoint gather_plain (children : list YNode) (payload : string) (acc : list storageCandidate)
    : RSQL (list storageCandidate) :=
  match children with
  | [] => sret acc
  | child :: rest =>
      if negb (yn_enabled child) || yn_synthetic child then gather_plain rest payload acc
      else
        c <-- ask (CountBinsByNode (yn_id child)) ;;
        match c with
        | None => gather_plain rest payload acc
        | Some count =>
            i <-- ask (CountActiveOrdersByDeliveryNode (yn_name child)) ;;
            if (1 <=? count + default 0%nat i)%nat then gather_plain rest payload acc
            else
              m <-- (if payload =s "" then sret false
                     else r <-- ask (ListBinsByNode (yn_id child)) ;; sret (holds_payload payload (default [] r))) ;;
              gather_plain rest payload (acc ++ [mkCand child m count 0 false])
        end
  end.

Definition resolveStore (children : list YNode) (payload : string) : RSQL YNode :=
  cs <-- gather_plain children payload [] ;;
  match bestStorageCandidate cs with Some n => sret n | None => sfail ReNoSlot end.

Definition Resolve (node : YNode) (mode : ResolveMode) (payload : string) (binType : option Z) (asker : DigAsker)
    : RSQL ResolveResult :=
  r <-- ask (ListChildNodes (yn_id node)) ;;
  match r with
  | None => sfail ReChildren
  | Some [] => sfail ReNoChildren
  | Some children =>
      match mode, yn_class node =s NodeClassNGRP with
      | ResolveModeRetrieve, true => ResolveRetrieve node payload asker
      | ResolveModeStore, true => ResolveStore node payload binType asker
      | ResolveModeRetrieve, false => n <-- resolveRetrieve children payload ;; sret (mkRes (Some n) None)
      | ResolveModeStore, false => n <-- resolveStore children payload ;; sret (mkRes (Some n) None)
      | ResolveModeOther, _ => match List.find yn_enabled children with
          | Some n => sret (mkRes (Some n) None)
          | None => sfail ReNoneEnabled
          end
      end
  end.

(** Why a bin at a concrete node cannot be picked. *)
Inductive Unavailable := UnClaimed (o : Z) | UnReserved | UnLocked | UnStatus (s : string) | UnPayload (have want : string).

Definition BinUnavailableReason (pending : bool) (b : YBin) (payload : string) : option Unavailable :=
  match yb_claimed b with
  | Some o => Some (UnClaimed o)
  | None =>
      if pending then Some UnReserved
      else if yb_locked b then Some UnLocked
      else if negb (Sourceable b) then Some (UnStatus (yb_status b))
      else if (payload <>s "") && (yb_payload b <>s "") && (yb_payload b <>s payload)
        then Some (UnPayload (yb_payload b) payload)
      else None
  end.

(** ** What retrieval promises *)

(** Bins a robot can fetch from the child now: at a floor position, or with a
    clear way from the lane's mouth and nobody's hold pending. *)
Definition in_reach (y : Yard) (payload : string) (child : YNode) (b : YBin) : Prop :=
  yn_enabled child = true /\ isBinAvailableForRetrieve b payload = true /\
  ((yn_class child = NodeClassLANE /\ pending_on y b = false /\
    exists n, (b, n) ∈ lane_bins y (yn_id child) /\ ReachableSQL y n = true) \/
   (yn_class child <> NodeClassLANE /\ yn_synthetic child = false /\ b ∈ bins_at y (yn_id child))).

(** Bins of a lane that stand behind others. *)
Definition walled_in (y : Yard) (payload : string) (child : YNode) (b : YBin) : Prop :=
  yn_enabled child = true /\ yn_class child = NodeClassLANE /\
  exists n, (b, n) ∈ buried_bins y (yn_id child) payload.

Definition some_child (P : YNode -> YBin -> Prop) (children : list YNode) (b : YBin) : Prop :=
  exists child, child ∈ children /\ P child b.

(** The oldest bin of a population, or that it is empty. *)
Definition oldest_of (P : YBin -> Prop) (best : option YBin) : Prop :=
  match best with
  | None => forall b, ~ P b
  | Some b => P b /\ forall b', P b' -> (binTimestamp b <= binTimestamp b')%Z
  end.

(** Geometry the plant keeps: node ids name one row each, every slot of a lane
    has its own depth and holds at most one bin. *)
Record lanes_wf (y : Yard) : Prop := {
  lw_ids : NoDup (map yn_id (y_nodes y));
  lw_depth : forall lane n, lane ∈ y_nodes y -> yn_class lane = NodeClassLANE -> n ∈ y_nodes y ->
    yn_parent n = Some (yn_id lane) -> is_Some (yn_depth n);
  lw_distinct : forall lane n m, lane ∈ y_nodes y -> yn_class lane = NodeClassLANE -> n ∈ y_nodes y ->
    m ∈ y_nodes y -> yn_parent n = Some (yn_id lane) -> yn_parent m = Some (yn_id lane) ->
    yn_depth n = yn_depth m -> n = m;
  lw_single : forall lane n b b', lane ∈ y_nodes y -> yn_class lane = NodeClassLANE -> n ∈ y_nodes y ->
    yn_parent n = Some (yn_id lane) -> b ∈ y_bins y -> b' ∈ y_bins y ->
    yb_node b = Some (yn_id n) -> yb_node b' = Some (yn_id n) -> b = b' }.

(** [oldest_of] respects equivalent populations. *)
#[export] Instance oldest_of_proper : Proper (pointwise_relation YBin iff ==> eq ==> iff) oldest_of.
Proof. intros P Q H o ? <-. destruct o as [b|]; cbn; setoid_rewrite (H _); done. Qed.

(** One more bin offered to a scan. *)
Definition keep_older (found : option YBin) (best : option YBin) : option YBin :=
  match found, best with
  | None, _ => best
  | Some b, None => Some b
  | Some b, Some b' => if (binTimestamp b <? binTimestamp b')%Z then Some b else best
  end.

Lemma keep_older_oldest P Q found best :
  oldest_of P best -> oldest_of Q found -> oldest_of (fun b => P b \/ Q b) (keep_older found best).
Proof.
  destruct found as [f|], best as [b|]; cbn; try naive_solver.
  intros [H1 H2] [H3 H4]. destruct (Z.ltb_spec (binTimestamp f) (binTimestamp b)); (split; [tauto|]);
    intros x [Hx|Hx]; first [specialize (H2 x Hx)|specialize (H4 x Hx)]; lia.
Qed.

Lemma some_child_cons P child rest b :
  some_child P (child :: rest) b <-> P child b \/ some_child P rest b.
Proof. unfold some_child. setoid_rewrite elem_of_cons. naive_solver. Qed.

(** ** Lane facts *)

Lemma lane_bins_spec y lane b n :
  (b, n) ∈ lane_bins y lane <->
  n ∈ y_nodes y /\ yn_parent n = Some lane /\ yn_synthetic n = false /\ b ∈ y_bins y /\ yb_node b = Some (yn_id n).
Proof.
  unfold lane_bins. rewrite list_elem_of_In, in_flat_map. setoid_rewrite in_map_iff. split.
  - intros (m & Hm & x & [= -> ->] & Hx). apply list_elem_of_In, elem_of_lfilter in Hm as [Hm H].
    apply list_elem_of_In, elem_of_lfilter in Hx as [Hx Hat%claimed_is_true].
    apply andb_true_iff in H as [H1%claimed_is_true H2%negb_true_iff]. done.
  - intros (Hn & Hp & Hs & Hb & Hat). exists n. split; [|exists b; split; [done|]];
      apply list_elem_of_In, elem_of_lfilter; (split; [done|]).
    + unfold child_of. by rewrite Hs, (proj2 (claimed_is_true _ _) Hp).
    + by apply claimed_is_true.
Qed.

Lemma lane_bin_occupied y lane b n : (b, n) ∈ lane_bins y lane -> occupied y n = true.
Proof. intros (_ & _ & _ & Hb & Hat)%lane_bins_spec. apply occupied_spec. eauto. Qed.

(** A lane has at most one bin with a clear way out. *)
Lemma front_bin_unique y lane b n b' n' :
  lanes_wf y -> lane ∈ y_nodes y -> yn_class lane = NodeClassLANE ->
  (b, n) ∈ lane_bins y (yn_id lane) -> (b', n') ∈ lane_bins y (yn_id lane) ->
  ReachableSQL y n = true -> ReachableSQL y n' = true -> b = b'.
Proof.
  intros Hw Hl Hc H H' Hr Hr'. pose proof (lane_bin_occupied _ _ _ _ H) as Ho.
  pose proof (lane_bin_occupied _ _ _ _ H') as Ho'.
  apply lane_bins_spec in H as (Hn & Hp & _ & Hb & Hat), H' as (Hn' & Hp' & _ & Hb' & Hat').
  destruct (lw_depth y Hw lane n Hl Hc Hn Hp) as [d Hd], (lw_depth y Hw lane n' Hl Hc Hn' Hp') as [d' Hd'].
  rewrite reachable_spec in Hr, Hr'. specialize (Hr n' Hn' Ho'). specialize (Hr' n Hn Ho).
  assert (Hnn : n = n').
  { destruct (Z.lt_trichotomy d d') as [Hlt|[->|Hlt]].
    - destruct (not_false_iff_true (ShallowerInSameLane n n')) as [_ []]; [|done].
      apply shallower_spec. exists (yn_id lane), d, d'. split_and!; try done.
      intros E. apply (id_inj y n n' (lw_ids y Hw)) in E as ->; try done. simplify_eq. lia.
    - eapply (lw_distinct y Hw lane); try done. congruence.
    - destruct (not_false_iff_true (ShallowerInSameLane n' n)) as [_ []]; [|done].
      apply shallower_spec. exists (yn_id lane), d', d. split_and!; try done.
      intros E. apply (id_inj y n' n (lw_ids y Hw)) in E as ->; try done. simplify_eq. lia. }
  subst n'. by apply (lw_single y Hw lane n b b').
Qed.

(** ** Healthy reads *)

Lemma by_depth_spec l p : by_depth l = Some p -> p ∈ l /\ forall q, q ∈ l -> (depth0 p.2 <= depth0 q.2)%Z.
Proof. apply (head_isort_key (fun p => depth0 p.2)). Qed.

Lemma by_age_spec l p : by_age l = Some p -> p ∈ l /\ forall q, q ∈ l -> (binTimestamp p.1 <= binTimestamp q.1)%Z.
Proof. apply (head_isort_key (fun p => binTimestamp p.1)). Qed.

Lemma GetNode_calm y lane b n :
  lanes_wf y -> (b, n) ∈ lane_bins y lane -> GetNode (default 0%Z (yb_node b)) (calm y) = (Ok n, calm y).
Proof.
  intros Hw (Hn & _ & _ & _ & ->)%lane_bins_spec. unfold GetNode, sbind. cbn.
  by rewrite (node_by_id_in y n (lw_ids y Hw) Hn).
Qed.

(** The lane's one accessible bin. *)
Lemma source_calm y payload lane :
  lanes_wf y -> lane ∈ y_nodes y -> yn_class lane = NodeClassLANE -> yn_enabled lane = true ->
  exists r, ask (E := ResolveError) (FindSourceBinInLane (yn_id lane) payload) (calm y) = (Ok r, calm y) /\
    oldest_of (in_reach y payload lane) r /\
    (forall b, r = Some b -> exists n, (b, n) ∈ lane_bins y (yn_id lane)).
Proof.
  intros Hw Hl Hc He. unfold ask, FindSourceBinInLane, sbind, calm. cbn.
  destruct (by_depth _) as [[b n]|] eqn:E; cbn; eexists; (split; [reflexivity|]).
  - apply by_depth_spec in E as [[Hb Hok]%elem_of_lfilter _]. cbn in Hok.
    apply andb_true_iff in Hok as [[Ha Hpd%negb_true_iff]%andb_true_iff Hr].
    split; [split|naive_solver].
    + split_and!; try done. left. eauto.
    + intros b' (_ & _ & [(_ & _ & n' & Hb' & Hr')|(Hc' & _)]); [|done].
      by rewrite (front_bin_unique y lane b n b' n').
  - split; [|done]. intros b (_ & Ha & [(_ & Hpd & n & Hb & Hr)|(Hc' & _)]); [|done].
    apply head_isort_none in E. assert (Hin : (b, n) ∈ @nil (YBin * YNode)); [|set_solver].
    rewrite <- E. apply elem_of_lfilter. split; [done|]. cbn. by rewrite Ha, Hpd, Hr.
Qed.

Lemma scan_bins_calm child payload P bs best :
  oldest_of P (fst <$> best) ->
  exists best', scan_bins bs child payload false best = inr best' /\
    oldest_of (fun b => P b \/ (b ∈ bs /\ isBinAvailableForRetrieve b payload = true)) (fst <$> best') /\
    (best' = best \/ exists b, best' = Some (b, Some child) /\ b ∈ bs).
Proof.
  revert P best. induction bs as [|b bs IH]; intros P best H; cbn.
  - exists best. split; [done|]. split; [|by left]. eapply oldest_of_proper; [|reflexivity|exact H].
    intros x. set_solver.
  - destruct (isBinAvailableForRetrieve b payload) eqn:Ea; cbn.
    + set (best1 := if older b best then Some (b, Some child) else best).
      assert (Hk : fst <$> best1 = keep_older (Some b) (fst <$> best)).
      { unfold best1, older. destruct best as [[b' s]|]; cbn; [|done]. by destruct (_ <? _)%Z. }
      destruct (IH (fun x => P x \/ x = b) best1) as (best' & E & Ho & Hs).
      { rewrite Hk. apply (keep_older_oldest P (fun x => x = b)); [done|]. cbn. split; [done|]. by intros ? ->. }
      exists best'. split; [done|]. split.
      * eapply oldest_of_proper; [|reflexivity|exact Ho]. intros x. set_solver.
      * destruct Hs as [->|(x & -> & Hx)]; [|set_solver]. unfold best1. destruct (older b best); set_solver.
    + destruct (IH P best H) as (best' & E & Ho & Hs). exists best'. split; [done|]. split; [|set_solver].
      eapply oldest_of_proper; [|reflexivity|exact Ho]. intros x. split; [|set_solver].
      intros [?|[[->|?]%elem_of_cons ?]]; [by left|congruence|by right].
Qed.

(** What a scan holds: the oldest of the population so far, and where it
    stands. *)
Definition scanned (y : Yard) (P : YBin -> Prop) (best : Best) : Prop :=
  oldest_of P (fst <$> best) /\
  forall b s, best = Some (b, s) -> exists n, s = Some n /\ n ∈ y_nodes y /\ yb_node b = Some (yn_id n).

Lemma scanned_skip y P Q best :
  scanned y P best -> (forall b, ~ Q b) -> scanned y (fun b => P b \/ Q b) best.
Proof. intros [H1 H2] Hq. split; [|done]. eapply oldest_of_proper; [|reflexivity|exact H1]. intros x. naive_solver. Qed.

Lemma bins_at_spec y id b : b ∈ bins_at y id -> b ∈ y_bins y /\ yb_node b = Some id.
Proof.
  unfold bins_at. rewrite isort_perm. intros [Hb [Hat _]%andb_true_iff]%elem_of_lfilter. by apply claimed_is_true in Hat.
Qed.

Lemma scan_calm y payload children :
  lanes_wf y -> (forall c, c ∈ children -> c ∈ y_nodes y) -> forall P best, scanned y P best ->
  exists best', scan_children children payload false best (calm y) = (Ok (inr best'), calm y) /\
    scanned y (fun b => P b \/ some_child (in_reach y payload) children b) best'.
Proof.
  intros Hw. induction children as [|child rest IH]; intros Hc P best Hb.
  { exists best. split; [done|]. apply scanned_skip; [done|]. intros b (c & Hin & _). set_solver. }
  assert (Hstep : forall best1, scanned y (fun b => P b \/ in_reach y payload child b) best1 ->
    exists best', scan_children rest payload false best1 (calm y) = (Ok (inr best'), calm y) /\
      scanned y (fun b => P b \/ some_child (in_reach y payload) (child :: rest) b) best').
  { intros best1 H1. destruct (IH ltac:(set_solver) _ best1 H1) as (best' & E & Ho & Hs).
    exists best'. split; [done|]. split; [|done]. eapply oldest_of_proper; [|reflexivity|exact Ho].
    intros b. rewrite some_child_cons. tauto. }
  cbn [scan_children]. destruct (yn_enabled child) eqn:Een; cbn [negb].
  2: { apply Hstep, scanned_skip; [done|]. intros b (He & _). congruence. }
  destruct (eqb_spec_s (yn_class child) NodeClassLANE) as [Hl|Hl].
  - destruct (source_calm y payload child Hw (Hc child ltac:(set_solver)) Hl Een) as (r & E & Ho & Hin).
    rewrite (sbind_step _ _ _ _ _ E). destruct r as [b|]; cbn [oldest_of] in Ho; [|by apply Hstep, scanned_skip].
    destruct (Hin b eq_refl) as (n & Hbn). destruct Hb as [Hb1 Hb2].
    pose proof (keep_older_oldest _ _ (Some b) _ Hb1 Ho) as Hk.
    destruct (older b best) eqn:Eo.
    + unfold sbind at 1, ask at 1. rewrite (GetNode_calm y _ b n Hw Hbn). apply Hstep. split.
      * assert (Hkk : keep_older (Some b) (fst <$> best) = Some b) by (destruct best as [[b' s]|]; cbn in *; by rewrite ?Eo).
        by rewrite Hkk in Hk.
      * intros ? ? [= <- <-]. apply lane_bins_spec in Hbn as (Hn & _ & _ & _ & Hat). eauto.
    + apply Hstep. split; [|done]. destruct best as [[b' s]|]; cbn in *; [|done]. by rewrite Eo in Hk.
  - destruct (yn_synthetic child) eqn:Es; cbn [negb].
    { apply Hstep, scanned_skip; [done|]. intros b (_ & _ & [(? & _)|(_ & ? & _)]); congruence. }
    destruct Hb as [Hb1 Hb2].
    destruct (scan_bins_calm child payload P (bins_at y (yn_id child)) best Hb1) as (best1 & E1 & Ho & Hs).
    unfold ListBinsByNode at 1. rewrite (sbind_step _ _ _ _ _ (ask_query _ _)), E1. apply Hstep. split.
    + eapply oldest_of_proper; [|reflexivity|exact Ho]. intros b. unfold in_reach. naive_solver.
    + intros b s Hbs. destruct Hs as [->|(x & -> & Hx)]; [by apply Hb2|]. simplify_eq.
      apply bins_at_spec in Hx as [_ Hat]. exists child. split_and!; [done|set_solver|done].
Qed.

(** ** Buried bins *)

Lemma buried_calm (pick : list (YBin * YNode) -> option (YBin * YNode)) y payload lane :
  lanes_wf y -> (forall l p, pick l = Some p -> p ∈ l) ->
  ask (E := ResolveError) (r <-- query (fun y => pick (buried_bins y lane payload)) ;; with_slot r) (calm y) =
  (Ok (pick (buried_bins y lane payload)), calm y).
Proof.
  intros Hw Hp. unfold ask, sbind at 1. cbn [query stmt faults calm db].
  destruct (pick (buried_bins y lane payload)) as [[b n]|] eqn:E; [|done]. cbn [with_slot].
  apply Hp, elem_of_lfilter in E as [E _]. unfold sbind. change (mkConn y []) with (calm y). by rewrite (GetNode_calm y lane b n Hw E).
Qed.

Lemma FindOldestBuried_calm y payload lane : lanes_wf y ->
  ask (E := ResolveError) (FindOldestBuriedBin lane payload) (calm y) = (Ok (by_age (buried_bins y lane payload)), calm y).
Proof. intros Hw. apply (buried_calm by_age); [done|]. intros l p H. by apply by_age_spec. Qed.

Lemma FindBuried_calm y payload lane : lanes_wf y ->
  ask (E := ResolveError) (FindBuriedBin lane payload) (calm y) = (Ok (by_depth (buried_bins y lane payload)), calm y).
Proof. intros Hw. apply (buried_calm by_depth); [done|]. intros l p H. by apply by_depth_spec. Qed.

Lemma by_age_none l : by_age l = None -> l = [].
Proof. apply head_isort_none. Qed.
Lemma by_depth_none l : by_depth l = None -> l = [].
Proof. apply head_isort_none. Qed.

Lemma oldest_buried y payload child :
  yn_enabled child = true -> yn_class child = NodeClassLANE ->
  oldest_of (walled_in y payload child) (fst <$> by_age (buried_bins y (yn_id child) payload)).
Proof.
  intros He Hl. destruct (by_age _) as [[b n]|] eqn:E; cbn.
  - apply by_age_spec in E as [Hin Hmin]. split; [by split_and!; eauto|]. intros b' (_ & _ & n' & Hb'). exact (Hmin _ Hb').
  - apply by_age_none in E. intros b (_ & _ & n & Hb). rewrite E in Hb. set_solver.
Qed.

(** A buried bin with its slot and lane, as the checks report it. *)
Definition dig_target (y : Yard) (payload : string) (children : list YNode) (t : YBin * YNode * Z) : Prop :=
  let '(b, slot, lane) := t in (b, slot) ∈ buried_bins y lane payload /\
  exists child, child ∈ children /\ yn_enabled child = true /\ yn_class child = NodeClassLANE /\ yn_id child = lane.

Lemma dig_target_mono y payload cs cs' t : cs ⊆ cs' -> dig_target y payload cs t -> dig_target y payload cs' t.
Proof. destruct t as [[b s] l]. intros H [H1 (c & H2 & H3)]. split; [done|]. exists c. eauto. Qed.

Lemma not_lane y payload child b :
  negb (yn_enabled child) || (yn_class child <>s NodeClassLANE) = true -> ~ walled_in y payload child b.
Proof. intros H (He & Hl & _). by rewrite He, Hl, seqb_refl in H. Qed.

Lemma is_lane child :
  negb (yn_enabled child) || (yn_class child <>s NodeClassLANE) = false ->
  yn_enabled child = true /\ yn_class child = NodeClassLANE.
Proof.
  rewrite orb_false_iff, !negb_false_iff. intros [H1 H2]. split; [done|]. by destruct (eqb_spec_s (yn_class child) NodeClassLANE).
Qed.

Lemma checkOldest_calm y payload all children :
  lanes_wf y -> children ⊆ all -> forall P best,
  oldest_of P (fst ∘ fst <$> best) -> (forall t, best = Some t -> dig_target y payload all t) ->
  exists best', checkOldestBuried_from best children payload (calm y) = (Ok best', calm y) /\
    oldest_of (fun b => P b \/ some_child (walled_in y payload) children b) (fst ∘ fst <$> best') /\
    (forall t, best' = Some t -> dig_target y payload all t).
Proof.
  intros Hw. induction children as [|child rest IH]; intros Hsub P best Hb Ht.
  { exists best. split_and!; [done| |done]. eapply oldest_of_proper; [|reflexivity|exact Hb].
    intros b. unfold some_child. set_solver. }
  assert (Hstep : forall best1, oldest_of (fun b => P b \/ walled_in y payload child b) (fst ∘ fst <$> best1) ->
    (forall t, best1 = Some t -> dig_target y payload all t) ->
    exists best', checkOldestBuried_from best1 rest payload (calm y) = (Ok best', calm y) /\
      oldest_of (fun b => P b \/ some_child (walled_in y payload) (child :: rest) b) (fst ∘ fst <$> best') /\
      (forall t, best' = Some t -> dig_target y payload all t)).
  { intros best1 H1 H2. destruct (IH ltac:(set_solver) _ best1 H1 H2) as (best' & E & Ho & Hs).
    exists best'. split_and!; [done| |done]. eapply oldest_of_proper; [|reflexivity|exact Ho].
    intros b. rewrite some_child_cons. tauto. }
  cbn [checkOldestBuried_from]. destruct (negb (yn_enabled child) || _) eqn:El.
  { apply Hstep; [|done]. eapply oldest_of_proper; [|reflexivity|exact Hb].
    intros b. pose proof (not_lane y payload child b El). tauto. }
  apply is_lane in El as [He Hl].
  rewrite (sbind_step _ _ _ _ _ (FindOldestBuried_calm y payload _ Hw)).
  pose proof (keep_older_oldest _ _ _ _ Hb (oldest_buried y payload child He Hl)) as Hk.
  destruct (by_age _) as [[b n]|] eqn:E; cbn in Hk; [|by apply Hstep].
  assert (Hd : dig_target y payload all (b, n, yn_id child)).
  { split; [by apply by_age_spec in E as []|]. exists child. set_solver. }
  apply Hstep; destruct best as [[[b' s'] l']|]; cbn in *; try destruct (_ <? _)%Z; cbn in *; naive_solver.
Qed.

Lemma checkShallowest_calm y payload children :
  lanes_wf y ->
  exists r, checkShallowestBuried children payload (calm y) = (Ok r, calm y) /\
    match r with
    | None => forall b, ~ some_child (walled_in y payload) children b
    | Some (b, slot, lane) => dig_target y payload children (b, slot, lane) /\
        forall b' slot', (b', slot') ∈ buried_bins y lane payload -> (depth0 slot <= depth0 slot')%Z
    end.
Proof.
  intros Hw. induction children as [|child rest (r & E & Hr)].
  { exists None. split; [done|]. intros b (c & Hc & _). set_solver. }
  assert (Hskip : (forall b, ~ walled_in y payload child b) ->
    exists r, checkShallowestBuried rest payload (calm y) = (Ok r, calm y) /\
    match r with
    | None => forall b, ~ some_child (walled_in y payload) (child :: rest) b
    | Some (b, slot, lane) => dig_target y payload (child :: rest) (b, slot, lane) /\
        forall b' slot', (b', slot') ∈ buried_bins y lane payload -> (depth0 slot <= depth0 slot')%Z
    end).
  { intros Hn. exists r. split; [done|]. destruct r as [[[b s] l]|].
    - destruct Hr as [Hd Hmin]. split; [|done]. eapply dig_target_mono; [|exact Hd]. set_solver.
    - intros b. rewrite some_child_cons. intros [H|H]; [by apply (Hn b)|by apply (Hr b)]. }
  cbn [checkShallowestBuried]. destruct (negb (yn_enabled child) || _) eqn:El.
  { apply Hskip. intros b. by apply not_lane. }
  apply is_lane in El as [He Hl]. rewrite (sbind_step _ _ _ _ _ (FindBuried_calm y payload _ Hw)).
  destruct (by_depth _) as [[b n]|] eqn:Ed.
  - eexists. split; [reflexivity|]. apply by_depth_spec in Ed as [Hin Hmin].
    split; [split; [done|exists child; set_solver]|]. intros b' s' H. exact (Hmin _ H).
  - apply Hskip. apply by_depth_none in Ed. intros b (_ & _ & n & H). rewrite Ed in H. set_solver.
Qed.

(** ** The retrieval algorithms *)

Lemma unlocked_sub y parent asker c : c ∈ unlocked_children y parent asker -> c ∈ y_nodes y.
Proof. unfold unlocked_children. rewrite isort_perm. by intros [? _]%elem_of_lfilter. Qed.

(** After the scan: the accessible bins have been weighed and the buried ones
    not yet looked at. *)
Lemma scanForBestBin_calm y group payload s asker :
  lanes_wf y -> rs_first s = false ->
  exists best, scanned y (some_child (in_reach y payload) (unlocked_children y (yn_id group) asker)) best /\
    scanForBestBin group payload s asker (calm y) =
    (buried <-- match rs_check s with
       | Some check => if rs_skip s && negb (bool_decide (best = None)) then sret None
                       else check (unlocked_children y (yn_id group) asker) payload
       | None => sret None
       end ;;
     match buried with
     | Some (b, slot, lane) => if rs_trigger s b best then sfail (ReBuried b slot lane) else
         match best with
         | Some (bin, node) => sret (mkRes node (Some bin))
         | None => e <-- classifyEmptyGroup group payload ;; sfail e
         end
     | None => match best with
         | Some (bin, node) => sret (mkRes node (Some bin))
         | None => e <-- classifyEmptyGroup group payload ;; sfail e
         end
     end) (calm y).
Proof.
  intros Hw Hf.
  destruct (scan_calm y payload (unlocked_children y (yn_id group) asker) Hw (unlocked_sub y _ asker)
    (fun _ => False) None) as (best & E & Ho & Hs).
  { split; [by intros b []|done]. }
  exists best. split.
  { split; [|done]. eapply oldest_of_proper; [|reflexivity|exact Ho]. intros b. tauto. }
  unfold scanForBestBin, ListChildNodesUnlocked. rewrite (sbind_step _ _ _ _ _ (ask_query _ _)), Hf.
  by rewrite (sbind_step _ _ _ _ _ E).
Qed.

(** What the group's configuration says about the payload, for good: no enabled
    child, or none whose assignment admits it. *)
Definition hopeless (y : Yard) (group : YNode) (payload : string) : Prop :=
  forall child, child ∈ y_nodes y -> yn_parent child = Some (yn_id group) -> yn_enabled child = true ->
    payload <> "" /\ nearest (y_payloads y) (ancestors y (yn_id child)) <> [] /\
    payload ∉ nearest (y_payloads y) (ancestors y (yn_id child)).

Lemma any_capable_spec children payload c :
  exists r c', any_capable children payload c = (Ok r, c') /\ db c' = db c /\
    (r = Some false -> forall child, child ∈ children -> yn_enabled child = true ->
      nearest (y_payloads (db c)) (ancestors (db c) (yn_id child)) <> [] /\
      payload ∉ nearest (y_payloads (db c)) (ancestors (db c) (yn_id child))).
Proof.
  revert c. induction children as [|child rest IH]; intros c; cbn [any_capable].
  { eexists _, _. split_and!; [done|done|]. intros _ ? ?. set_solver. }
  destruct (yn_enabled child) eqn:He; cbn [negb].
  2: { destruct (IH c) as (r & c' & E & Hd & H). exists r, c'. split_and!; [done|done|].
       intros Hr k [->|Hk]%elem_of_cons Hen; [congruence|auto]. }
  destruct (ask_read (E := ResolveError) (fun y => nearest (y_payloads y) (ancestors y (yn_id child))) c) as (r & c1 & E1 & Hd1 & Hr).
  unfold GetEffectivePayloads. rewrite (sbind_step _ _ _ _ _ E1).
  destruct Hr as [->| ->]; [eexists _, _; by split_and!|].
  destruct (nearest _ _) as [|p ps] eqn:En; [eexists _, _; by split_and!|].
  destruct (contains (p :: ps) payload) eqn:Ec; [eexists _, _; by split_and!|].
  destruct (IH c1) as (r & c' & E & Hd & H). exists r, c'. rewrite Hd1 in *. split_and!; [done|done|].
  intros Hr k [->|Hk]%elem_of_cons Hen; [|auto]. rewrite En. split; [done|by apply contains_false].
Qed.

Lemma classify_spec group payload c :
  exists e c', classifyEmptyGroup group payload c = (Ok e, c') /\
    (e = ReNoBin \/ (exists r, e = ReStructural r) /\ hopeless (db c) group payload).
Proof.
  unfold classifyEmptyGroup, ListChildNodes.
  destruct (ask_read (E := ResolveError) (fun y => isort (fun a b => String.leb (yn_name a) (yn_name b))
    (List.filter (child_of (yn_id group)) (y_nodes y))) c) as (r & c1 & E1 & Hd1 & Hr).
  rewrite (sbind_step _ _ _ _ _ E1). destruct Hr as [->| ->]; [eexists _, _; split; [reflexivity|by left]|].
  set (kids := isort _ _).
  assert (Hkids : forall child, child ∈ y_nodes (db c) -> yn_parent child = Some (yn_id group) -> child ∈ kids).
  { intros k Hk Hp. unfold kids. rewrite isort_perm. apply elem_of_lfilter. split; [done|by apply claimed_is_true]. }
  destruct (existsb yn_enabled kids) eqn:Ee; cbn [negb].
  2: { eexists _, _. split; [reflexivity|]. right. split; [eauto|]. intros k Hk Hp He.
       rewrite existsb_false in Ee. rewrite (Ee k) in He; [done|auto]. }
  destruct (eqb_spec_s payload "") as [->|Hne]; [eexists _, _; split; [reflexivity|by left]|].
  destruct (any_capable_spec kids payload c1) as (r & c2 & E2 & Hd2 & H).
  rewrite (sbind_step _ _ _ _ _ E2). eexists _, _. split; [reflexivity|].
  destruct r as [[]|]; [by left| |by left]. right. split; [eauto|]. intros k Hk Hp He. rewrite <- Hd1.
  split; [done|]. apply H; [done| |done]. by apply Hkids.
Qed.

(** A scan with nothing in hand reports the group as it is configured. *)
Lemma classified group payload c out c' :
  (e <-- classifyEmptyGroup group payload ;; sfail (A := ResolveResult) e) c = (out, c') ->
  out = Err ReNoBin \/ (exists r, out = Err (ReStructural r)) /\ hopeless (db c) group payload.
Proof.
  intros H. destruct (classify_spec group payload c) as (e & c1 & E & He).
  rewrite (sbind_step _ _ _ _ _ E) in H. unfold sfail in H. simplify_eq. naive_solver.
Qed.

(** C16. Strict FIFO.  In a group on the FIFO rule, with every read answered and
    lanes whose slots have their own depths and hold one bin each, the resolver
    serves the oldest bin of the requested payload in the whole group.  If it
    returns a bin, that bin can be fetched now, stands at the node returned, and
    no other bin of the open lanes and floor positions is older, within reach or
    buried.  If it asks for a dig, it names the oldest buried bin with its slot
    and lane, and every bin within reach is strictly younger.  If it does
    neither, the group's open children hold no such bin at all. *)
Theorem fifo_serves_oldest y group payload asker out c' :
  lanes_wf y ->
  getGroupAlgorithm (yn_id group) "retrieve_algorithm" RetrieveFIFO (calm y) = (Ok RetrieveFIFO, calm y) ->
  ResolveRetrieve group payload asker (calm y) = (out, c') ->
  let kids := unlocked_children y (yn_id group) asker in
  let near := some_child (in_reach y payload) kids in
  let deep := some_child (walled_in y payload) kids in
  match out with
  | Ok res => exists b n, res = mkRes (Some n) (Some b) /\ n ∈ y_nodes y /\ yb_node b = Some (yn_id n) /\ near b /\
      forall b', near b' \/ deep b' -> (binTimestamp b <= binTimestamp b')%Z
  | Err (ReBuried b slot lane) => dig_target y payload kids (b, slot, lane) /\
      (forall b', deep b' -> (binTimestamp b <= binTimestamp b')%Z) /\
      (forall b', near b' -> (binTimestamp b < binTimestamp b')%Z)
  | Err _ => forall b, ~ near b /\ ~ deep b
  end.
Proof.
  intros Hw Halgo H kids near deep. unfold ResolveRetrieve in H. rewrite (sbind_step _ _ _ _ _ Halgo) in H.
  destruct (scanForBestBin_calm y group payload (retrieveStrategies RetrieveFIFO) asker Hw eq_refl)
    as (best & [Ho Hs] & E). rewrite E in H. clear E.
  destruct (checkOldest_calm y payload kids kids Hw ltac:(done) (fun _ => False) None) as (r & E & Hr & Ht);
    [by intros b []|done|].
  cbn [rs_check rs_skip rs_trigger retrieveStrategies RetrieveFIFO String.eqb Ascii.eqb Bool.eqb andb] in H.
  assert (Hd : oldest_of deep (fst ∘ fst <$> r)).
  { eapply oldest_of_proper; [|reflexivity|exact Hr]. intros b. unfold deep. tauto. } clear Hr.
  change (retrieveStrategies RetrieveFIFO) with
    (mkStrategy false false (Some checkOldestBuried) (fun b best => older b best)) in H.
  cbn [rs_check rs_skip rs_trigger andb] in H. unfold checkOldestBuried in H. rewrite (sbind_step _ _ _ _ _ E) in H.
  destruct r as [[[b slot] lane]|], best as [[bin node]|]; cbn in Ho, Hd.
  - unfold older in H. destruct Ho as [Ho1 Ho2], Hd as [Hd1 Hd2].
    destruct (Z.ltb_spec (binTimestamp b) (binTimestamp bin)) as [Hlt|Hge]; injection H as <- <-.
    + split_and!; [by apply Ht|done|]. intros b' Hb'. specialize (Ho2 b' Hb'). lia.
    + destruct (Hs bin node eq_refl) as (n & -> & Hn & Hat). exists bin, n. split_and!; try done.
      intros b' [Hb'|Hb']; [auto|]. specialize (Hd2 b' Hb'). lia.
  - injection H as <- <-. split_and!; [by apply Ht|apply Hd|]. intros b' Hb'. destruct (Ho b' Hb').
  - injection H as <- <-. destruct (Hs bin node eq_refl) as (n & -> & Hn & Hat). exists bin, n.
    destruct Ho as [Ho1 Ho2]. split_and!; try done. intros b' [Hb'|Hb']; [auto|]. destruct (Hd b' Hb').
  - apply classified in H as [->|[(x & ->) _]]; intros b; (split; [apply Ho|apply Hd]).
Qed.

(** COST digs only when it must.  Same setting, COST rule: a bin the resolver
    returns is the oldest within reach; it asks for a dig only when nothing is
    within reach, and then for the shallowest buried bin of the lane it names;
    otherwise the open children hold no such bin. *)
Theorem cost_digs_last y group payload asker out c' :
  lanes_wf y ->
  getGroupAlgorithm (yn_id group) "retrieve_algorithm" RetrieveFIFO (calm y) = (Ok RetrieveCOST, calm y) ->
  ResolveRetrieve group payload asker (calm y) = (out, c') ->
  let kids := unlocked_children y (yn_id group) asker in
  let near := some_child (in_reach y payload) kids in
  let deep := some_child (walled_in y payload) kids in
  match out with
  | Ok res => exists b n, res = mkRes (Some n) (Some b) /\ n ∈ y_nodes y /\ yb_node b = Some (yn_id n) /\ near b /\
      forall b', near b' -> (binTimestamp b <= binTimestamp b')%Z
  | Err (ReBuried b slot lane) => dig_target y payload kids (b, slot, lane) /\
      (forall b' slot', (b', slot') ∈ buried_bins y lane payload -> (depth0 slot <= depth0 slot')%Z) /\
      (forall b', ~ near b')
  | Err _ => forall b, ~ near b /\ ~ deep b
  end.
Proof.
  intros Hw Halgo H kids near deep. unfold ResolveRetrieve in H. rewrite (sbind_step _ _ _ _ _ Halgo) in H.
  destruct (scanForBestBin_calm y group payload (retrieveStrategies RetrieveCOST) asker Hw eq_refl)
    as (best & [Ho Hs] & E). rewrite E in H. clear E.
  change (retrieveStrategies RetrieveCOST) with
    (mkStrategy false true (Some checkShallowestBuried) (fun _ best => bool_decide (best = None))) in H.
  cbn [rs_check rs_skip rs_trigger andb] in H.
  destruct best as [[bin node]|]; cbn in Ho.
  - rewrite bool_decide_eq_false_2 in H by done. cbn in H. injection H as <- <-.
    destruct (Hs bin node eq_refl) as (n & -> & Hn & Hat). destruct Ho. exists bin, n. by split_and!.
  - rewrite bool_decide_eq_true_2 in H by done. cbn [negb] in H.
    destruct (checkShallowest_calm y payload kids Hw) as (r & E & Hr). rewrite (sbind_step _ _ _ _ _ E) in H.
    destruct r as [[[b slot] lane]|].
    + injection H as <- <-. destruct Hr. by split_and!.
    + apply classified in H as [->|[(x & ->) _]]; intros b; (split; [apply Ho|apply Hr]).
Qed.

Lemma reads_scan children payload first best :
  reads (scan_children children payload first best) /\ quiet (scan_children children payload first best).
Proof.
  revert best. induction children as [|c cs IH]; intros best; cbn [scan_children]; [split; reading|].
  assert (H1 : forall b, reads (scan_children cs payload first b)) by apply IH.
  assert (H2 : forall b, quiet (scan_children cs payload first b)) by apply IH. clear IH.
  unfold ListBinsByNode. split; reading.
Qed.

Lemma reads_checkOldest best children payload :
  reads (checkOldestBuried_from best children payload) /\ quiet (checkOldestBuried_from best children payload).
Proof.
  revert best. induction children as [|c cs IH]; intros best; cbn [checkOldestBuried_from]; [split; reading|].
  assert (H1 : forall b, reads (checkOldestBuried_from b cs payload)) by apply IH.
  assert (H2 : forall b, quiet (checkOldestBuried_from b cs payload)) by apply IH. clear IH.
  split; case_match; reading.
Qed.

Lemma reads_checkShallowest children payload :
  reads (checkShallowestBuried children payload) /\ quiet (checkShallowestBuried children payload).
Proof. induction children as [|c cs [H1 H2]]; cbn [checkShallowestBuried]; split; reading. Qed.

Lemma reads_algorithm group key d : reads (getGroupAlgorithm group key d) /\ quiet (getGroupAlgorithm group key d).
Proof. unfold getGroupAlgorithm, prop, GetNodeProperty. split; reading. Qed.

Lemma reads_check algo children payload best :
  let m := match rs_check (retrieveStrategies algo) with
    | Some check => if rs_skip (retrieveStrategies algo) && negb (bool_decide (best = (None : Best))) then sret None
                    else check children payload
    | None => sret None
    end in reads m /\ quiet m.
Proof.
  unfold retrieveStrategies. repeat case_match; cbn [rs_check rs_skip] in *; simplify_eq;
    try apply reads_checkShallowest; try apply reads_checkOldest; split; reading.
Qed.

(** A resolution is called hopeless only when it is.  Whatever statements
    fail and whichever algorithm the group runs, a structural error - the one
    that ends the order instead of queueing it - is returned only if no enabled
    child of the group could ever hold the payload, lanes closed by a dig
    included: the group has no enabled child, or each one has a payload
    assignment that leaves this payload out. *)
Theorem structural_only_when_hopeless group payload asker c r c' :
  ResolveRetrieve group payload asker c = (Err (ReStructural r), c') -> hopeless (db c) group payload.
Proof.
  unfold ResolveRetrieve, scanForBestBin. intros H.
  destruct (quiet_step _ c (reads_algorithm (yn_id group) "retrieve_algorithm" RetrieveFIFO)) as (algo & c1 & E1 & <- & _).
  rewrite (sbind_step _ _ _ _ _ E1) in H. unfold ListChildNodesUnlocked in H.
  destruct (ask_read (E := ResolveError) (fun y => unlocked_children y (yn_id group) asker) c1) as (kids & c2 & E2 & <- & _).
  rewrite (sbind_step _ _ _ _ _ E2) in H. destruct kids as [kids|]; [|done].
  destruct (quiet_step _ c2 (reads_scan kids payload (rs_first (retrieveStrategies algo)) None)) as (out & c3 & E3 & <- & _).
  rewrite (sbind_step _ _ _ _ _ E3) in H. destruct out as [res|best]; [done|].
  destruct (quiet_step _ c3 (reads_check algo kids payload best)) as (bur & c4 & E4 & <- & _).
  rewrite (sbind_step _ _ _ _ _ E4) in H.
  destruct bur as [[[b slot] lane]|]; [destruct (rs_trigger _ _ _); [done|]|];
    (destruct best as [[bin node]|]; [done|]); by apply classified in H as [?|[_ ?]].
Qed.

(** ** What storage promises *)

(** The empties the group declares against those it holds: per declaration when
    the type is known, in total when it is not. *)
Definition held_of (y : Yard) (group : Z) (l : MaintainLevel) : Z :=
  Z.of_nat (if ml_code l =s "" then 0%nat else length (List.filter (empty_of_type y (ml_code l) group) (y_bins y))).

Definition levels_of (y : Yard) (group : Z) : list MaintainLevel :=
  isort (fun a b => String.leb (ml_code a) (ml_code b)) (List.filter (fun l => ml_group l =i group) (y_levels y)).

Definition sum_by (f : MaintainLevel -> Z) (ls : list MaintainLevel) : Z := foldr (fun l n => (f l + n)%Z) 0%Z ls.

Definition level_met (y : Yard) (group : Z) (binType : option Z) : bool :=
  match levels_of y group with
  | [] => false
  | levels => match binType with
      | Some bt => match List.find (fun l => ml_type l =i bt) levels with
          | None => false
          | Some l => (ml_want l <=? held_of y group l)%Z
          end
      | None => (sum_by ml_want levels <=? sum_by (held_of y group) levels)%Z
      end
  end.

Lemma count_level c code group n c' :
  ask (E := ResolveError) (CountEmptyBinsOfTypeInGroup code group) c = (Ok (Some n), c') ->
  db c' = db c /\ forall l, ml_code l = code -> Z.of_nat n = held_of (db c) group l.
Proof.
  unfold ask, CountEmptyBinsOfTypeInGroup, held_of. destruct (code =s "") eqn:Ec.
  - cbn. intros [= <- <-]. split; [done|]. intros l ->. by rewrite Ec.
  - destruct (query _ c) as [[m|e] c1] eqn:E; intros [= <- <-]. apply query_ok in E as [-> Hd].
    split; [done|]. intros l ->. by rewrite Ec.
Qed.

Lemma sum_levels_ok ls group c want held wh c' :
  sum_levels ls group want held c = (Ok wh, c') ->
  wh = ((want + sum_by ml_want ls)%Z, (held + sum_by (held_of (db c) group) ls)%Z) /\ db c' = db c.
Proof.
  revert want held c. induction ls as [|l ls IH]; intros want held c H; cbn in *.
  - injection H as <- <-. by rewrite !Z.add_0_r.
  - unfold sbind in H at 1. destruct (ask _ c) as [[[n|]|e] c1] eqn:E; [|done|done].
    apply count_level in E as [Hd Hn]. specialize (Hn l eq_refl). apply IH in H as [-> Hd']. rewrite Hd in *.
    split; [|done]. by rewrite Hn, !Z.add_assoc.
Qed.

Lemma atDeclaredLevel_ok group binType c b c' :
  atDeclaredLevel group binType c = (Ok b, c') -> b = level_met (db c) (yn_id group) binType /\ db c' = db c.
Proof.
  unfold atDeclaredLevel, ListMaintainLevels, level_met. intros H.
  destruct (ask_read (E := ResolveError) (fun y => levels_of y (yn_id group)) c) as (r & c1 & E1 & Hd1 & Hr).
  unfold levels_of at 1 in E1. rewrite (sbind_step _ _ _ _ _ E1) in H. destruct Hr as [->| ->]; [done|].
  destruct (levels_of (db c) (yn_id group)) as [|l0 ls0]; [by injection H as <- <-|]. revert H.
  generalize (l0 :: ls0). intros ls H. destruct binType as [bt|].
  - destruct (List.find _ _) as [l|] eqn:Ef; [|by injection H as <- <-].
    unfold sbind in H. destruct (ask _ c1) as [[[n|]|e] c2] eqn:E; [|done|done].
    apply count_level in E as [Hd Hn]. injection H as <- <-. rewrite (Hn l eq_refl), Hd1. split; [done|congruence].
  - unfold sbind in H. destruct (sum_levels _ _ _ _ c1) as [[wh|e] c2] eqn:E; [|done].
    apply sum_levels_ok in E as [-> Hd]. injection H as <- <-. rewrite Hd1. split; [done|congruence].
Qed.

(** The node's effective bin types, and what admits a payload or a type. *)
Definition eff_types (y : Yard) (id : Z) : list Z :=
  let mode := default "" (y_props y !! (id, "bin_type_mode")) in
  if mode =s "all" then []
  else if mode =s "specific" then assigned (y_types y) id else nearest (y_types y) (ancestors y id).

Definition takes_payload (y : Yard) (id : Z) (payload : string) : Prop :=
  payload = "" \/ nearest (y_payloads y) (ancestors y id) = [] \/ payload ∈ nearest (y_payloads y) (ancestors y id).
Definition takes_type (y : Yard) (id : Z) (binType : option Z) : Prop :=
  forall bt, binType = Some bt -> eff_types y id = [] \/ bt ∈ eff_types y id.

(** A place the resolver may hand out.  [h]: every read was answered. *)
Definition fit_spot (h : Prop) (y : Yard) (payload : string) (binType : option Z) (kids : list YNode) (n : YNode) : Prop :=
  exists child, child ∈ kids /\ yn_enabled child = true /\ (h -> takes_type y (yn_id child) binType) /\
    ((yn_class child = NodeClassLANE /\ store_spot y (yn_id child) 0 n /\
      (h -> takes_payload y (yn_id child) payload)) \/
     (n = child /\ yn_synthetic n = false /\ yn_claimed n = None /\ bins_at y (yn_id n) = [] /\
      (h -> forall o, o ∈ y_orders y -> live o = true -> yo_delivery o <> yn_name n))).

Section Answers.
Context (h : Prop) (y : Yard).

Lemma answers_payload lane payload :
  answers h y (payload_ok lane payload) (fun b => b = true -> h -> takes_payload y lane payload).
Proof.
  unfold payload_ok, takes_payload. destruct (eqb_spec_s payload "") as [->|Hne]; [apply answers_ret; auto|].
  eapply answers_bind; [apply answers_query|]. intros r [Hr _]. apply answers_ret. intros Hb Hh. rewrite (Hr Hh) in Hb.
  destruct (nearest _ _) as [|p ps]; [auto|]. right. right. by apply contains_true.
Qed.

Lemma answers_types node : answers h y (ask (E := ResolveError) (GetEffectiveBinTypes node)) (fun r => h -> r = Some (eff_types y node)).
Proof.
  intros c Hd Hf. destruct (quiet_step (ask (E := ResolveError) (GetEffectiveBinTypes node)) c) as (r & c1 & E & Hd1 & Hf1).
  { split; [apply reads_ask, reads_types|apply quiet_ask]. }
  exists r, c1. split_and!; [done|congruence|auto|]. intros Hh. specialize (Hf Hh). revert E.
  destruct c as [d fs]; cbn in *; subst. unfold ask, GetEffectiveBinTypes, GetNodeProperty, eff_types, sbind, slog. cbn.
  destruct (_ =s "all"); [by intros [= <- _]|]. by destruct (_ =s "specific"); intros [= <- _].
Qed.

Lemma answers_type_ok node binType :
  answers h y (type_ok node binType) (fun b => b = true -> h -> takes_type y node binType).
Proof.
  unfold type_ok, takes_type. destruct binType as [bt|]; [|by apply answers_ret].
  unfold binTypeAllowed. eapply answers_bind; [apply answers_types|]. intros r Hr. apply answers_ret.
  intros Hb Hh bt' [= <-]. rewrite (Hr Hh) in Hb. destruct (eff_types y node) as [|t ts]; [by left|right].
  apply existsb_true in Hb as (x & Hx & ->%Z.eqb_eq). done.
Qed.

Lemma answers_store_slot lane :
  answers h y (ask (E := ResolveError) (FindStoreSlotInLane lane)) (fun r => forall n, r = Some n -> store_spot y lane 0 n).
Proof.
  intros c Hd Hf. destruct (quiet_step (ask (E := ResolveError) (FindStoreSlotInLane lane)) c) as (r & c1 & E & Hd1 & Hf1).
  { split; [apply reads_ask, reads_findStoreSlot|apply quiet_ask]. }
  exists r, c1. split_and!; [done|congruence|auto|]. intros n ->. unfold ask in E.
  destruct (FindStoreSlotInLane lane c) as [[m|e] c2] eqn:Es; simplify_eq.
  apply FindStoreSlot_ok, findStoreSlot_ok in Es as (_ & Hc & _). by apply store_candidate_spot.
Qed.

Lemma answers_floor child :
  answers h y (floor_free child) (fun r => forall n, r = Some n ->
    yn_claimed child = None /\ bins_at y (yn_id child) = [] /\
    (h -> forall o, o ∈ y_orders y -> live o = true -> yo_delivery o <> yn_name child)).
Proof.
  unfold floor_free. destruct (yn_claimed child); [by apply answers_ret|].
  eapply answers_bind; [apply answers_query|]. intros r [_ [->| ->]]; [by apply answers_ret|].
  eapply answers_bind; [apply answers_query|]. intros i [Hi _]. apply answers_ret. intros n Hn.
  destruct (Nat.leb_spec 1 (length (List.filter (fun b => at_node (yn_id child) b && negb (retired b)) (y_bins y)) + default 0%nat i))
    as [?|Hlt]; [done|]. split; [done|]. split.
  - unfold bins_at. apply Permutation_nil_r. rewrite isort_perm.
    destruct (List.filter _ (y_bins y)) as [|x l]; [reflexivity|]. cbn in Hlt. lia.
  - intros Hh o Ho Hl Hn'. rewrite (Hi Hh) in Hlt. cbn in Hlt.
    assert (Hin : o ∈ List.filter (fun o => (yo_delivery o =s yn_name child) && live o) (y_orders y)).
    { apply elem_of_lfilter. split; [done|]. by rewrite Hn', seqb_refl, Hl. }
    destruct (List.filter _ (y_orders y)) as [|x l]; [by apply elem_of_nil in Hin|]. cbn in Hlt. lia.
Qed.
End Answers.

Lemma cons_sub {A} (x : A) l k : x :: l ⊆ k -> x ∈ k /\ l ⊆ k.
Proof. intros H. split; [apply H; left|]. intros z Hz. apply H. by right. Qed.

Section Storage.
Context (h : Prop) (y : Yard) (payload : string) (binType : option Z) (kids : list YNode).
Notation fits := (fit_spot h y payload binType kids).

Lemma answers_lane_candidate child around :
  child ∈ kids -> yn_enabled child = true -> yn_class child = NodeClassLANE ->
  answers h y (lane_candidate child payload binType around) (fun r => forall s, r = Some s -> fits (sc_node s)).
Proof.
  intros Hk He Hl. unfold lane_candidate.
  eapply answers_bind; [apply answers_payload|]. intros [] Hp; [|by apply answers_ret]. cbn [negb].
  eapply answers_bind; [apply answers_type_ok|]. intros [] Ht; [|by apply answers_ret]. cbn [negb].
  eapply answers_bind; [apply answers_store_slot|]. intros [slot|] Hs; [|by apply answers_ret].
  do 2 (eapply answers_bind; [apply answers_ask_any, reads_query|]; intros ? _).
  eapply answers_bind; [apply answers_any|intros ? _].
  { destruct (payload =s ""); [split; reading|]. generalize (default [] a0). intros l.
    induction l as [|x l [IH1 IH2]]; cbn [lane_match]; unfold ListBinsByNode in *; split; reading. }
  eapply answers_bind; [apply answers_any|intros ? _].
  { destruct around; unfold LaneAcceptsInbound; split; reading. }
  apply answers_ret. intros s [= <-]. exists child. split_and!; auto.
Qed.

Lemma answers_floor_candidate child :
  child ∈ kids -> yn_enabled child = true -> yn_synthetic child = false ->
  answers h y (floor_candidate child payload binType) (fun r => forall s, r = Some s -> fits (sc_node s)).
Proof.
  intros Hk He Hsy. unfold floor_candidate.
  eapply answers_bind; [apply answers_floor|]. intros [n|] Hf; [|by apply answers_ret].
  destruct (Hf n eq_refl) as (H1 & H2 & H3).
  eapply answers_bind; [apply answers_type_ok|]. intros [] Ht; [|by apply answers_ret]. cbn [negb].
  eapply answers_bind; [apply answers_any|intros ? _].
  { destruct (payload =s ""); unfold ListBinsByNode; split; reading. }
  apply answers_ret. intros s [= <-]. exists child. split_and!; [done|done|auto|]. right. by split_and!.
Qed.

Lemma answers_gather around children acc :
  children ⊆ kids -> Forall (fun s => fits (sc_node s)) acc ->
  answers h y (gather children payload binType around acc) (Forall (fun s => fits (sc_node s))).
Proof.
  revert acc. induction children as [|child rest IH]; intros acc Hsub Ha; cbn [gather]; [by apply answers_ret|].
  apply cons_sub in Hsub as [Hin Hsub].
  destruct (yn_enabled child) eqn:He; cbn [negb]; [|by apply IH].
  assert (Hk : forall r : option storageCandidate, (forall s, r = Some s -> fits (sc_node s)) ->
    answers h y (gather rest payload binType around (acc ++ option_list r)) (Forall (fun s => fits (sc_node s)))).
  { intros r Hr. apply IH; [done|]. apply Forall_app. split; [done|]. destruct r; cbn; auto. }
  destruct (eqb_spec_s (yn_class child) NodeClassLANE) as [Hl|Hl].
  - eapply answers_bind; [apply answers_lane_candidate; [done|done|done]|done].
  - destruct (yn_synthetic child) eqn:Hs; cbn [negb]; [by apply IH|].
    eapply answers_bind; [apply answers_floor_candidate; [done|done|done]|done].
Qed.

Lemma best_in_list cs n :
  bestStorageCandidate cs = Some n -> Forall (fun s => fits (sc_node s)) cs -> fits n.
Proof.
  destruct cs as [|s cs]; [done|]. cbn. intros [= <-] [Hs Hcs]%Forall_cons. revert s Hs.
  induction Hcs as [|x cs Hx Hcs IH]; intros s Hs; cbn; [done|]. apply IH. by destruct (candidateBetter x s).
Qed.

Lemma answers_first_lane children :
  children ⊆ kids -> answers h y (first_lane children payload binType) (fun r => forall n, r = Some n -> fits n).
Proof.
  induction children as [|child rest IH]; intros Hsub; cbn [first_lane]; [by apply answers_ret|].
  apply cons_sub in Hsub as [Hin Hsub].
  assert (Hrest : answers h y (first_lane rest payload binType) (fun r => forall n, r = Some n -> fits n)) by (by apply IH).
  destruct (negb (yn_enabled child) || _) eqn:El; [done|]. apply is_lane in El as [He Hl].
  eapply answers_bind; [apply answers_payload|]. intros [] Hp; [|done]. cbn [negb].
  eapply answers_bind; [apply answers_type_ok|]. intros [] Ht; [|done]. cbn [negb].
  eapply answers_bind; [apply answers_store_slot|]. intros [slot|] Hs; [|done].
  apply answers_ret. intros n [= <-]. exists child. split_and!; auto.
Qed.

Lemma answers_first_floor children :
  children ⊆ kids -> answers h y (first_floor children binType) (fun r => forall n, r = Some n -> fits n).
Proof.
  induction children as [|child rest IH]; intros Hsub; cbn [first_floor]; [by apply answers_ret|].
  apply cons_sub in Hsub as [Hin Hsub].
  assert (Hrest : answers h y (first_floor rest binType) (fun r => forall n, r = Some n -> fits n)) by (by apply IH).
  destruct (yn_enabled child) eqn:He; cbn [negb orb]; [|done].
  destruct (yn_synthetic child) eqn:Hs; [done|]. destruct (yn_claimed child); [done|].
  eapply answers_bind; [apply answers_type_ok|]. intros [] Ht; [|done]. cbn [negb].
  eapply answers_bind; [apply answers_floor|]. intros [k|] Hf; [|done].
  destruct (Hf k eq_refl) as (H1 & H2 & H3). apply answers_ret. intros n [= <-]. exists child.
  split_and!; [done|done|auto|]. right. by split_and!.
Qed.
End Storage.

Lemma store_algorithms_fit h y group payload binType asker c res c' :
  (h -> faults c = []) -> db c = y ->
  resolveStoreDPTH group payload binType asker c = (Ok res, c') \/
  resolveStoreLKND group payload binType asker c = (Ok res, c') ->
  exists n, res = mkRes (Some n) None /\ fit_spot h y payload binType (unlocked_children y (yn_id group) asker) n.
Proof.
  intros Hf Hd H. unfold resolveStoreDPTH, resolveStoreLKND, ListChildNodesUnlocked in H.
  destruct (answers_query (E := ResolveError) h y (fun y => unlocked_children y (yn_id group) asker) c Hd Hf) as (r & c1 & E1 & Hd1 & Hf1 & _ & Hr).
  rewrite !(sbind_step _ _ _ _ _ E1) in H. destruct Hr as [->| ->]; [by destruct H|].
  set (kids := unlocked_children y (yn_id group) asker) in *.
  assert (Hk : kids ⊆ kids) by done. destruct H as [H|H].
  - destruct (answers_first_lane h y payload binType kids kids Hk c1 Hd1 Hf1) as (l & c2 & E2 & Hd2 & Hf2 & Hl).
    rewrite (sbind_step _ _ _ _ _ E2) in H. destruct l as [n|]; [injection H as <- <-; eauto|].
    destruct (answers_first_floor h y payload binType kids kids Hk c2 Hd2 Hf2) as (f & c3 & E3 & _ & _ & Hfl).
    rewrite (sbind_step _ _ _ _ _ E3) in H. destruct f as [n|]; [injection H as <- <-; eauto|done].
  - destruct (answers_any h y (prop (yn_id group) PropResolveAround)) with (c := c1) as (p & c2 & E2 & Hd2 & Hf2 & _);
      [unfold prop, GetNodeProperty; split; reading|done|done|]. rewrite (sbind_step _ _ _ _ _ E2) in H.
    destruct (answers_gather h y payload binType kids (p =s "on") kids [] Hk (Forall_nil_2 _) c2 Hd2 Hf2)
      as (cs & c3 & E3 & _ & _ & Hcs). rewrite (sbind_step _ _ _ _ _ E3) in H.
    destruct (bestStorageCandidate cs) as [n|] eqn:Eb; [|done]. injection H as <- <-. exists n. split; [done|].
    by eapply best_in_list.
Qed.

(** C38. A store goes where it fits and never over the declared level.  Whatever
    statements fail, a place the group resolver returns - under either algorithm
    - means the group does not yet hold what it declares (for the bin's type, or
    in total when the type is unknown), and the place is, in an enabled child no
    dig has closed to the asker, a store slot of a lane (empty, reachable, nobody
    else's, walling nobody in) or an unclaimed floor position with no bin on it.
    When every read was answered the lane also admits the payload, the child the
    bin type, and nobody is on the way to the floor position. *)
Theorem store_fits_below_level group payload binType asker c res c' :
  ResolveStore group payload binType asker c = (Ok res, c') ->
  level_met (db c) (yn_id group) binType = false /\
  exists n, res = mkRes (Some n) None /\
    fit_spot (faults c = []) (db c) payload binType (unlocked_children (db c) (yn_id group) asker) n.
Proof.
  unfold ResolveStore. intros H. apply sbind_ok in H as (full & c1 & E1 & H).
  assert (Hf1 : faults c = [] -> faults c1 = []).
  { assert (Hr : reads (atDeclaredLevel group binType)); [|specialize (Hr c); rewrite E1 in Hr; apply Hr].
    unfold atDeclaredLevel, CountEmptyBinsOfTypeInGroup, ListMaintainLevels.
    assert (Hs : forall ls w k, reads (sum_levels ls (yn_id group) w k)).
    { induction ls as [|l ls IH]; intros w k; cbn [sum_levels]; unfold CountEmptyBinsOfTypeInGroup; reading. }
    reading. }
  apply atDeclaredLevel_ok in E1 as [-> Hd1]. destruct (level_met _ _ _); [done|]. split; [done|].
  destruct (quiet_step _ c1 (reads_algorithm (yn_id group) "store_algorithm" StoreLKND)) as (algo & c2 & E2 & Hd2 & Hf2).
  rewrite (sbind_step _ _ _ _ _ E2) in H. apply (store_algorithms_fit _ _ _ _ _ _ c2 _ c'); [auto|congruence|].
  destruct (algo =s StoreDPTH); auto.
Qed.

(** ** The demo yard *)

Lemma demo_lanes_wf props payloads :
  lanes_wf (mkYard (y_nodes demo_yard) (y_bins demo_yard) (y_orders demo_yard) [] props payloads [] []).
Proof.
  split; [apply demo_yard_ids|..].
  - intros lane n Hl Hc Hn Hp. each_row Hl; try discriminate Hc; each_row Hn; try discriminate Hp; by eexists.
  - intros lane n m Hl Hc Hn Hm Hp Hp' Hd. each_row Hl; try discriminate Hc; each_row Hn; try discriminate Hp;
      each_row Hm; try discriminate Hp'; try discriminate Hd; reflexivity.
  - intros lane n b b' Hl Hc Hn Hp Hb Hb' Hat Hat'. each_row Hl; try discriminate Hc; each_row Hn; try discriminate Hp;
      each_row Hb; try discriminate Hat; each_row Hb'; try discriminate Hat'; reflexivity.
Qed.

Definition no_props : gmap (Z * string) string := ∅.
Definition demo_group : YNode := mkYNode 1 "G" true true None NodeClassNGRP None None.

(** The demo yard with a property of the group set, and payloads assigned. *)
Definition demo_with (props : gmap (Z * string) string) (payloads : list (Z * string)) : Yard :=
  mkYard (y_nodes demo_yard) (y_bins demo_yard) (y_orders demo_yard) [] props payloads [] [].

(** Payload "A": the older one is buried in L1 while L2's is in reach. *)
Lemma fifo_serves_oldest_witness :
  let kids := unlocked_children (demo_with no_props []) 1 Anyone in
  ResolveRetrieve demo_group "A" Anyone (calm (demo_with no_props [])) =
    (Err (ReBuried (ybin 100 13 "A" 5) (yslot 13 "S13" 10 3) 10), calm (demo_with no_props [])) /\
  (forall b', some_child (in_reach (demo_with no_props []) "A") kids b' -> (5 < binTimestamp b')%Z).
Proof.
  assert (E : ResolveRetrieve demo_group "A" Anyone (calm (demo_with no_props [])) =
    (Err (ReBuried (ybin 100 13 "A" 5) (yslot 13 "S13" 10 3) 10), calm (demo_with no_props []))) by (vm_compute; reflexivity).
  split; [exact E|].
  destruct (fifo_serves_oldest (demo_with no_props []) demo_group "A" Anyone _ _ (demo_lanes_wf no_props [])
    ltac:(vm_compute; reflexivity) E) as (_ & _ & H). exact H.
Defined.

Lemma store_fits_below_level_witness :
  ResolveStore demo_group "A" None Anyone (calm demo_yard) =
    (Ok (mkRes (Some (yslot 11 "S11" 10 1)) None), calm demo_yard) /\
  exists n, mkRes (Some (yslot 11 "S11" 10 1)) None = mkRes (Some n) None /\
    fit_spot (faults (calm demo_yard) = []) demo_yard "A" None (unlocked_children demo_yard 1 Anyone) n.
Proof.
  assert (E : ResolveStore demo_group "A" None Anyone (calm demo_yard) =
    (Ok (mkRes (Some (yslot 11 "S11" 10 1)) None), calm demo_yard)) by (vm_compute; reflexivity).
  split; [exact E|].
  destruct (store_fits_below_level demo_group "A" None Anyone (calm demo_yard) _ _ E) as (_ & n & H1 & H2).
  exists n. split; [exact H1|exact H2].
Defined.
