(* ===== verification/Capacity.v ===== *)
(** The dropoff gate (dispatch/capacity.go): may an order be sent to its
    delivery node now, and if not, why not.

    The gate never returns an error: a read it cannot make is a verdict of its
    own, [CauseCapacityCheckFailed].  [None] is "not blocked". *)

From Stdlib Require Import Ascii.
From S2P Require Import Prelude Status Sql CoreDb Mouth Yard YardReads Resolver.

(** ** Names *)

(** strings.SplitN(name, ".", 2). *)
Fixpoint cut_dot (s : string) : option (string * string) :=
  match s with
  | EmptyString => None
  | String c rest =>
      if Ascii.eqb c "."%char then Some ("", rest)
      else match cut_dot rest with Some (p, q) => Some (String c p, q) | None => None end
  end.

Definition node_by_name (y : Yard) (name : string) : option YNode :=
  List.find (fun n => yn_name n =s name) (y_nodes y).

Definition node_by_dot_name (y : Yard) (name : string) : option YNode :=
  match cut_dot name with
  | None => node_by_name y name
  | Some (parent, child) =>
      List.find (fun n => (yn_name n =s child) &&
        existsb (fun p => (yn_name p =s parent) && claimed_is (yn_parent n) (yn_id p)) (y_nodes y)) (y_nodes y)
  end.

Definition GetNodeByDotName (name : string) : YardSQL YNode :=
  r <-- query (fun y => node_by_dot_name y name) ;;
  match r with Some n => sret n | None => sfail YeNoRows end.

(** ** The gate *)

Definition CauseCapacityCheckFailed : string := "capacity-check-failed".
Definition CauseDropoffOccupied : string := "dropoff-occupied".
Definition CauseDropoffInflight : string := "dropoff-inflight".
Definition CauseNGRPFull : string := "ngrp-full".
Definition CauseNGRPAtLevel : string := "ngrp-at-level".

Record CapacityBlock := mkBlock {
  cb_cause : string; cb_destination : string; cb_bins : nat; cb_inbound : nat; cb_at_level : bool }.

Section Gate.
Context {E : Type}.
Notation GSQL := (SQL Yard E).

(** A call whose error the caller looks at. *)
Definition attempt {A} (m : YardSQL A) : GSQL (outcome YardError A) := fun c =>
  let '(o, c') := m c in (Ok o, c').

(** [None]: a read failed. *)
Fixpoint level_totals (ls : list MaintainLevel) (group want held : Z) : GSQL (option (Z * Z)) :=
  match ls with
  | [] => sret (Some (want, held))
  | l :: rest =>
      n <-- ask (CountEmptyBinsOfTypeInGroup (ml_code l) group) ;;
      match n with
      | None => sret None
      | Some n => level_totals rest group (want + ml_want l) (held + Z.of_nat n)
      end
  end.

Definition ngrpAtDeclaredLevel (ngrp : YNode) (binType : option Z) : GSQL (option bool) :=
  r <-- ask (ListMaintainLevels (yn_id ngrp)) ;;
  match r with
  | None => sret None
  | Some [] => sret (Some false)
  | Some levels =>
      match binType with
      | Some bt =>
          match List.find (fun l => ml_type l =i bt) levels with
          | None => sret (Some false)
          | Some l =>
              n <-- ask (CountEmptyBinsOfTypeInGroup (ml_code l) (yn_id ngrp)) ;;
              sret match n with None => None | Some held => Some (ml_want l <=? Z.of_nat held)%Z end
          end
      | None =>
          wh <-- level_totals levels (yn_id ngrp) 0 0 ;;
          sret match wh with None => None | Some (want, held) => Some (want <=? held)%Z end
      end
  end.

(** The counters of the walk over a group's children. *)
Record ChildCount := mkCount { cc_enabled : nat; cc_free : nat; cc_unreadable : nat }.

Definition bump_unreadable (k : ChildCount) : ChildCount :=
  mkCount (S (cc_enabled k)) (cc_free k) (S (cc_unreadable k)).
Definition bump_taken (k : ChildCount) : ChildCount := mkCount (S (cc_enabled k)) (cc_free k) (cc_unreadable k).
Definition bump_free (k : ChildCount) : ChildCount := mkCount (S (cc_enabled k)) (S (cc_free k)) (cc_unreadable k).

Fixpoint count_children (children : list YNode) (ex : Z) (k : ChildCount) : GSQL ChildCount :=
  match children with
  | [] => sret k
  | child :: rest =>
      if negb (yn_enabled child) || yn_synthetic child then count_children rest ex k
      else
        c <-- ask (CountBinsByNode (yn_id child)) ;;
        match c with
        | None => count_children rest ex (bump_unreadable k)
        | Some n =>
            if (0 <? n)%nat then count_children rest ex (bump_taken k)
            else
              i <-- ask (CountInFlightOrdersByDeliveryNodeExcluding (yn_name child) ex) ;;
              match i with
              | None => count_children rest ex (bump_unreadable k)
              | Some n => count_children rest ex (if (0 <? n)%nat then bump_taken k else bump_free k)
              end
        end
  end.

Definition checkNGRPCapacity (ngrp : YNode) (name : string) (ex : Z) (binType : option Z)
    : GSQL (option CapacityBlock) :=
  lvl <-- ngrpAtDeclaredLevel ngrp binType ;;
  match lvl with
  | None => sret (Some (mkBlock CauseCapacityCheckFailed name 0 0 false))
  | Some true => sret (Some (mkBlock CauseNGRPAtLevel name 0 0 true))
  | Some false =>
      r <-- ask (ListChildNodes (yn_id ngrp)) ;;
      match r with
      | None => sret (Some (mkBlock CauseCapacityCheckFailed name 0 0 false))
      | Some [] => sret None
      | Some children =>
          k <-- count_children children ex (mkCount 0 0 0) ;;
          sret (if (cc_enabled k =? 0)%nat then None
                else if (0 <? cc_free k)%nat then None
                else if (0 <? cc_unreadable k)%nat then Some (mkBlock CauseCapacityCheckFailed name 0 0 false)
                else Some (mkBlock CauseNGRPFull name 0 0 false))
      end
  end.

Definition CheckDropoffCapacityForType (deliveryNode : string) (ex : Z) (binType : option Z)
    : GSQL (option CapacityBlock) :=
  if deliveryNode =s "" then sret None
  else
    r <-- attempt (GetNodeByDotName deliveryNode) ;;
    match r with
    | Err YeNoRows => sret None
    | Err _ => sret (Some (mkBlock CauseCapacityCheckFailed deliveryNode 0 0 false))
    | Ok node =>
        if yn_synthetic node then
          if yn_class node =s NodeClassNGRP then checkNGRPCapacity node deliveryNode ex binType
          else sret None
        else
          c <-- ask (CountBinsByNode (yn_id node)) ;;
          match c with
          | None => sret (Some (mkBlock CauseCapacityCheckFailed deliveryNode 0 0 false))
          | Some count =>
              if (0 <? count)%nat then sret (Some (mkBlock CauseDropoffOccupied deliveryNode count 0 false))
              else
                i <-- ask (CountInFlightOrdersByDeliveryNodeExcluding deliveryNode ex) ;;
                match i with
                | None => sret (Some (mkBlock CauseCapacityCheckFailed deliveryNode 0 0 false))
                | Some inFlight =>
                    if (0 <? inFlight)%nat then sret (Some (mkBlock CauseDropoffInflight deliveryNode 0 inFlight false))
                    else sret None
                end
          end
    end.

Definition CheckDropoffCapacity (deliveryNode : string) (ex : Z) : GSQL (option CapacityBlock) :=
  CheckDropoffCapacityForType deliveryNode ex None.
End Gate.

(** ** What the verdicts mean *)

(** Orders under way to the named node, other than [ex]. *)
Definition inbound (y : Yard) (name : string) (ex : Z) : list YOrder :=
  List.filter (fun o => (yo_delivery o =s name) && live o && (yo_status o <>s StatusQueued) && negb (yo_id o =i ex))
    (y_orders y).

Definition standing (y : Yard) (id : Z) : list YBin :=
  List.filter (fun b => at_node id b && negb (retired b)) (y_bins y).

(** Nothing stands at the node and nothing is on its way there. *)
Definition vacant (y : Yard) (ex : Z) (n : YNode) : Prop :=
  standing y (yn_id n) = [] /\ inbound y (yn_name n) ex = [].

Definition floor_of (y : Yard) (group : Z) (n : YNode) : Prop :=
  n ∈ y_nodes y /\ yn_parent n = Some group /\ yn_enabled n = true /\ yn_synthetic n = false.

(** The verdicts of the gate on the tables [y]; [h]: every statement succeeds. *)
Inductive verdict (h : Prop) (y : Yard) (name : string) (ex : Z) (bt : option Z) : option CapacityBlock -> Prop :=
| v_unnamed : name = "" -> verdict h y name ex bt None
| v_unknown : node_by_dot_name y name = None -> verdict h y name ex bt None
| v_free n : node_by_dot_name y name = Some n -> yn_synthetic n = false ->
    standing y (yn_id n) = [] -> inbound y name ex = [] -> verdict h y name ex bt None
| v_other n : node_by_dot_name y name = Some n -> yn_synthetic n = true -> yn_class n <> NodeClassNGRP ->
    verdict h y name ex bt None
| v_room n k : node_by_dot_name y name = Some n -> yn_synthetic n = true -> yn_class n = NodeClassNGRP ->
    level_met y (yn_id n) bt = false -> floor_of y (yn_id n) k -> vacant y ex k -> verdict h y name ex bt None
| v_floorless n : node_by_dot_name y name = Some n -> yn_synthetic n = true -> yn_class n = NodeClassNGRP ->
    level_met y (yn_id n) bt = false -> (forall k, ~ floor_of y (yn_id n) k) -> verdict h y name ex bt None
| v_occupied n : node_by_dot_name y name = Some n -> yn_synthetic n = false -> standing y (yn_id n) <> [] ->
    verdict h y name ex bt (Some (mkBlock CauseDropoffOccupied name (length (standing y (yn_id n))) 0 false))
| v_inflight n : node_by_dot_name y name = Some n -> yn_synthetic n = false -> standing y (yn_id n) = [] ->
    inbound y name ex <> [] ->
    verdict h y name ex bt (Some (mkBlock CauseDropoffInflight name 0 (length (inbound y name ex)) false))
| v_level n : node_by_dot_name y name = Some n -> yn_synthetic n = true -> yn_class n = NodeClassNGRP ->
    level_met y (yn_id n) bt = true -> verdict h y name ex bt (Some (mkBlock CauseNGRPAtLevel name 0 0 true))
| v_full n : node_by_dot_name y name = Some n -> yn_synthetic n = true -> yn_class n = NodeClassNGRP ->
    level_met y (yn_id n) bt = false -> (exists k, floor_of y (yn_id n) k) ->
    (forall k, floor_of y (yn_id n) k -> ~ vacant y ex k) ->
    verdict h y name ex bt (Some (mkBlock CauseNGRPFull name 0 0 false))
| v_failed : ~ h -> verdict h y name ex bt (Some (mkBlock CauseCapacityCheckFailed name 0 0 false)).

Section Verdicts.
Context {E : Type} (h : Prop) (y : Yard).

Lemma answers_read {A} (f : Yard -> A) :
  answers h y (ask (E := E) (query f)) (fun r => (r = None /\ ~ h) \/ r = Some (f y)).
Proof.
  eapply answers_weaken; [apply answers_query|]. intros r [H1 [->|H2]]; [left|by right].
  split; [done|]. intros Hh. by specialize (H1 Hh).
Qed.

Lemma answers_bins id :
  answers h y (ask (E := E) (CountBinsByNode id)) (fun r => (r = None /\ ~ h) \/ r = Some (length (standing y id))).
Proof. exact (answers_read (fun y => length (standing y id))). Qed.
Lemma answers_inbound name ex :
  answers h y (ask (E := E) (CountInFlightOrdersByDeliveryNodeExcluding name ex))
    (fun r => (r = None /\ ~ h) \/ r = Some (length (inbound y name ex))).
Proof. exact (answers_read (fun y => length (inbound y name ex))). Qed.

Lemma answers_held code group :
  answers h y (ask (E := E) (CountEmptyBinsOfTypeInGroup code group))
    (fun r => (r = None /\ ~ h) \/ exists n, r = Some n /\ forall l, ml_code l = code -> Z.of_nat n = held_of y group l).
Proof.
  unfold CountEmptyBinsOfTypeInGroup, held_of. destruct (code =s "") eqn:Ec.
  - intros c Hd Hf. exists (Some 0%nat), c. split_and!; try done. right. exists 0%nat. split; [done|]. intros l ->. by rewrite Ec.
  - eapply answers_weaken; [apply answers_read|]. intros r [?| ->]; [by left|right]. eexists. split; [done|].
    intros l ->. by rewrite Ec.
Qed.

Lemma answers_totals ls group want held :
  answers h y (level_totals (E := E) ls group want held)
    (fun r => (r = None /\ ~ h) \/ r = Some ((want + sum_by ml_want ls)%Z, (held + sum_by (held_of y group) ls)%Z)).
Proof.
  revert want held. induction ls as [|l ls IH]; intros want held; cbn.
  - apply answers_ret. right. by rewrite !Z.add_0_r.
  - eapply answers_bind; [apply answers_held|]. intros r [[-> Hh]|(n & -> & Hn)]; [apply answers_ret; by left|].
    eapply answers_weaken; [apply IH|]. intros r [?| ->]; [by left|right]. by rewrite (Hn l eq_refl), !Z.add_assoc.
Qed.

Lemma answers_ngrp_level ngrp bt :
  answers h y (ngrpAtDeclaredLevel (E := E) ngrp bt) (fun r => (r = None /\ ~ h) \/ r = Some (level_met y (yn_id ngrp) bt)).
Proof.
  unfold ngrpAtDeclaredLevel, ListMaintainLevels, level_met.
  eapply answers_bind; [apply answers_read|]. intros r [[-> Hh]| ->]; [apply answers_ret; by left|].
  fold (levels_of y (yn_id ngrp)). destruct (levels_of y (yn_id ngrp)) as [|l0 ls0]; [apply answers_ret; by right|].
  generalize (l0 :: ls0). intros ls. destruct bt as [bt|].
  - destruct (List.find _ ls) as [l|]; [|apply answers_ret; by right].
    eapply answers_bind; [apply answers_held|]. intros r [[-> Hh]|(n & -> & Hn)]; apply answers_ret; [by left|right].
    by rewrite (Hn l eq_refl).
  - eapply answers_bind; [apply answers_totals|]. intros r [[-> Hh]| ->]; apply answers_ret; [by left|by right].
Qed.

Definition usable (n : YNode) : bool := yn_enabled n && negb (yn_synthetic n).

(** What the counters say when the walk over [children] is done. *)
Record counted (ex : Z) (children : list YNode) (k k' : ChildCount) : Prop := {
  ct_enabled : cc_enabled k' = (cc_enabled k + length (List.filter usable children))%nat;
  ct_more : (cc_free k <= cc_free k' /\ cc_unreadable k <= cc_unreadable k')%nat;
  ct_free : (cc_free k < cc_free k')%nat -> exists n, n ∈ children /\ usable n = true /\ vacant y ex n;
  ct_taken : cc_free k' = cc_free k -> cc_unreadable k' = cc_unreadable k ->
    forall n, n ∈ children -> usable n = true -> ~ vacant y ex n;
  ct_healthy : h -> cc_unreadable k' = cc_unreadable k }.

(** One usable child, then the rest. *)
Lemma counted_cons ex child rest k k1 k' :
  usable child = true -> cc_enabled k1 = S (cc_enabled k) ->
  (k1 = bump_unreadable k /\ ~ h \/ k1 = bump_taken k /\ ~ vacant y ex child \/ k1 = bump_free k /\ vacant y ex child) ->
  counted ex rest k1 k' -> counted ex (child :: rest) k k'.
Proof.
  intros Hu He Hk [H1 [H2 H2'] H3 H4 H5]. split.
  - cbn. rewrite Hu. cbn. lia.
  - destruct Hk as [[-> _]|[[-> _]|[-> _]]]; cbn in *; lia.
  - intros Hlt. destruct Hk as [[-> _]|[[-> _]|[-> Hv]]]; cbn in *.
    1,2: destruct (H3 Hlt) as (n & Hn & Hx); exists n; split; [by right|done].
    exists child. split; [left|done].
  - intros Hf Hun n [->|Hn]%elem_of_cons Hus.
    + destruct Hk as [[-> _]|[[-> Hv]|[-> _]]]; cbn in *; [lia|done|lia].
    + destruct Hk as [[-> _]|[[-> _]|[-> _]]]; cbn in *; [lia|by apply H4|lia].
  - intros Hh. specialize (H5 Hh). destruct Hk as [[-> Hn]|[[-> _]|[-> _]]]; cbn in *; [done|lia|lia].
Qed.

Lemma counted_skip ex child rest k k' :
  usable child = false -> counted ex rest k k' -> counted ex (child :: rest) k k'.
Proof.
  intros Hu [H1 H2 H3 H4 H5]. split; try done.
  - cbn. by rewrite Hu.
  - intros Hlt. destruct (H3 Hlt) as (n & Hn & Hx). exists n. split; [by right|done].
  - intros Hf Hun n [->|Hn]%elem_of_cons Hus; [congruence|by apply H4].
Qed.

Lemma nonempty_pos {A} (l : list A) : (0 <? length l)%nat = true <-> l <> [].
Proof. rewrite Nat.ltb_lt. destruct l; cbn; split; intros H; first [lia|done|by destruct H]. Qed.

Lemma answers_children ex children k :
  answers h y (count_children (E := E) children ex k) (counted ex children k).
Proof.
  revert k. induction children as [|child rest IH]; intros k; cbn [count_children].
  { apply answers_ret. split; [cbn; lia|lia|lia|intros _ _ n Hn; by apply elem_of_nil in Hn|done]. }
  destruct (usable child) eqn:Hu; unfold usable in Hu.
  2: { assert (Hs : negb (yn_enabled child) || yn_synthetic child = true).
       { destruct (yn_enabled child), (yn_synthetic child); done. }
       rewrite Hs. eapply answers_weaken; [apply IH|]. intros k' Hk. by apply counted_skip. }
  assert (Hs : negb (yn_enabled child) || yn_synthetic child = false).
  { destruct (yn_enabled child), (yn_synthetic child); done. }
  rewrite Hs. eapply answers_bind; [apply answers_bins|]. intros r [[-> Hh]| ->].
  { eapply answers_weaken; [apply IH|]. intros k'. apply counted_cons; [done|done|tauto]. }
  destruct (0 <? length (standing y (yn_id child)))%nat eqn:El.
  { eapply answers_weaken; [apply IH|]. intros k'. apply counted_cons; [done|done|]. right. left. split; [done|].
    intros [Hv _]. by apply nonempty_pos in El. }
  assert (Hst : standing y (yn_id child) = []) by by destruct (standing y (yn_id child)).
  eapply answers_bind; [apply answers_inbound|]. intros r [[-> Hh]| ->].
  { eapply answers_weaken; [apply IH|]. intros k'. apply counted_cons; [done|done|tauto]. }
  destruct (0 <? length (inbound y (yn_name child) ex))%nat eqn:Ei.
  - eapply answers_weaken; [apply IH|]. intros k'. apply counted_cons; [done|done|]. right. left. split; [done|].
    intros [_ Hv]. by apply nonempty_pos in Ei.
  - eapply answers_weaken; [apply IH|]. intros k'. apply counted_cons; [done|done|]. right. right. split; [done|].
    split; [done|]. by destruct (inbound y (yn_name child) ex).
Qed.

Lemma group_verdict ngrp name ex bt :
  node_by_dot_name y name = Some ngrp -> yn_synthetic ngrp = true -> yn_class ngrp = NodeClassNGRP ->
  answers h y (checkNGRPCapacity (E := E) ngrp name ex bt) (verdict h y name ex bt).
Proof.
  intros Hn Hs Hc. unfold checkNGRPCapacity. eapply answers_bind; [apply answers_ngrp_level|].
  intros r [[-> Hh]| ->]; [by apply answers_ret, v_failed|].
  destruct (level_met y (yn_id ngrp) bt) eqn:El; [apply answers_ret; by eapply v_level|].
  eapply answers_bind; [apply answers_read|]. intros r [[-> Hh]| ->]; [by apply answers_ret, v_failed|].
  set (kids := isort _ _).
  assert (Hfl : forall k, floor_of y (yn_id ngrp) k <-> k ∈ kids /\ usable k = true).
  { intros k. unfold kids, floor_of, usable, child_of. rewrite isort_perm, elem_of_lfilter, claimed_is_true, andb_true_iff, negb_true_iff. tauto. }
  clearbody kids. destruct kids as [|k0 ks0].
  { apply answers_ret. eapply v_floorless; try done. intros k Hk%Hfl. by destruct Hk as [Hk%elem_of_nil _]. }
  revert Hfl. generalize (k0 :: ks0). intros kids Hfl.
  eapply answers_bind; [apply answers_children|]. intros k [H1 H2 H3 H4 H5]. apply answers_ret.
  cbn [cc_enabled cc_free cc_unreadable Nat.add] in *.
  destruct (Nat.eqb_spec (cc_enabled k) 0) as [H0|H0].
  { eapply v_floorless; try done. intros n [Hin Hu]%Hfl.
    assert (Hx : n ∈ List.filter usable kids) by by apply elem_of_lfilter.
    destruct (List.filter usable kids); [by apply elem_of_nil in Hx|]. cbn in H1. lia. }
  destruct (Nat.ltb_spec 0 (cc_free k)) as [Hf|Hf].
  { destruct (H3 Hf) as (n & Hin & Hu & Hv). eapply v_room; try done. by apply Hfl. }
  destruct (Nat.ltb_spec 0 (cc_unreadable k)) as [Hun|Hun]; [apply v_failed; intros Hh; specialize (H5 Hh); lia|].
  eapply v_full; try done.
  - destruct (List.filter usable kids) as [|n l] eqn:Ef; [cbn in H1; lia|]. exists n. apply Hfl, elem_of_lfilter.
    rewrite Ef. left.
  - intros n [Hin Hu]%Hfl. apply H4; [lia|lia|done|done].
Qed.

Lemma answers_lookup name :
  answers h y (attempt (E := E) (GetNodeByDotName name))
    (fun r => (exists e, r = Err e /\ e <> YeNoRows /\ ~ h) \/
      r = match node_by_dot_name y name with Some n => Ok n | None => Err YeNoRows end).
Proof.
  intros c Hd Hf. unfold attempt, GetNodeByDotName, sbind, query, stmt.
  destruct (faults c) as [|[] fs] eqn:Ef; rewrite ?Hd; destruct (node_by_dot_name y name); eexists _, _;
    (split; [reflexivity|]); split_and!; auto; try (intros Hh; specialize (Hf Hh); done); left; eexists; (split; [done|]);
    (split; [done|]); intros Hh; specialize (Hf Hh); done.
Qed.

Lemma gate_verdict name ex bt :
  answers h y (CheckDropoffCapacityForType (E := E) name ex bt) (verdict h y name ex bt).
Proof.
  unfold CheckDropoffCapacityForType. destruct (eqb_spec_s name "") as [->|Hne]; [by apply answers_ret, v_unnamed|].
  eapply answers_bind; [apply answers_lookup|]. intros r [(e & -> & He & Hh)| ->].
  { destruct e; try done; by apply answers_ret, v_failed. }
  destruct (node_by_dot_name y name) as [n|] eqn:En; [|by apply answers_ret, v_unknown].
  destruct (yn_synthetic n) eqn:Es.
  { destruct (eqb_spec_s (yn_class n) NodeClassNGRP); [by apply group_verdict|apply answers_ret; by eapply v_other]. }
  eapply answers_bind; [apply answers_bins|]. intros r [[-> Hh]| ->]; [by apply answers_ret, v_failed|].
  destruct (0 <? length (standing y (yn_id n)))%nat eqn:El.
  { apply answers_ret. eapply v_occupied; try done. by apply nonempty_pos. }
  assert (Hst : standing y (yn_id n) = []) by (destruct (standing y (yn_id n)); done).
  eapply answers_bind; [apply answers_inbound|]. intros r [[-> Hh]| ->]; [by apply answers_ret, v_failed|].
  destruct (0 <? length (inbound y name ex))%nat eqn:Ei; apply answers_ret.
  - eapply v_inflight; try done. by apply nonempty_pos.
  - eapply v_free; try done. by destruct (inbound y name ex).
Qed.
End Verdicts.

(** The dropoff gate never guesses.  Whatever statements fail, the gate comes
    back with a verdict that is true of the tables: it opens a physical node only
    if no bin stands there and no other order is under way to that name, and a
    group only below its declared level with a vacant position (or with no
    position of its own to judge by); "occupied" and "in flight" carry the exact
    counts, "at level" and "full" are facts, and "check failed" is said only when
    a statement did fail. *)
Theorem capacity_verdict_true {E : Type} name ex bt c :
  exists v c', CheckDropoffCapacityForType (E := E) name ex bt c = (Ok v, c') /\ db c' = db c /\
    verdict (faults c = []) (db c) name ex bt v.
Proof.
  destruct (gate_verdict (E := E) (faults c = []) (db c) name ex bt c eq_refl (fun H => H)) as (v & c' & E1 & Hd & _ & Hv).
  eauto.
Qed.

(** A group with its one floor position taken and a lane with room: the gate
    calls it full while the store resolver has a slot to offer. *)
Definition mixed_yard : Yard :=
  mkYard (y_nodes demo_yard) (ybin 103 30 "C" 4 :: y_bins demo_yard) [] [] no_props [] [] [].

Example full_gate_ignores_lanes :
  (CheckDropoffCapacity (E := ResolveError) "G" 0 (calm mixed_yard)).1 =
    Ok (Some (mkBlock CauseNGRPFull "G" 0 0 false)) /\
  (ResolveStore demo_group "C" None Anyone (calm mixed_yard)).1 = Ok (mkRes (Some (yslot 21 "S21" 20 1)) None).
Proof. vm_compute. done. Qed.
