(* ===== verification/Reshuffle.v ===== *)
(** Digging a buried bin out (dispatch/reshuffle.go): which bins stand in the
    way, where the dig could park them, and the plan.

    Parking is looked for first at the group's floor positions, then lane by
    lane from the back.  When the pool is too small the walk is run again over
    the unfiltered group, to find out whether lanes held by other orders made
    the difference; that second walk asks the same question once more with
    nothing left to remove.  [shuffleSlotsFrom] therefore takes the nesting depth
    it may use, and two levels are always enough ([shuffle_walk_terminates]). *)

From S2P Require Import Prelude Status Sql CoreDb Mouth Yard YardReads Resolver Capacity.

Inductive DigError :=
| DeRead
| DeSlotNotInLane
| DeNothingInTheWay
| DeNoShuffleSlot (have unreadable : nat)
| DeCannotTell
| DeDigHeld (lane : string) (holder : Z) (short : nat) (excavation : bool)
| DeLaneOccupied (lane : string) (short : nat)
| DeMouthHeld (lane : string) (short : nat)
| DeMouthUnreadable (lanes : list string) (short : nat)
| DeDepth.

Notation DSQL := (SQL Yard DigError).

(** A call whose error ends the plan. *)
Definition must {A} (m : YardSQL A) : DSQL A :=
  r <-- ask m ;; match r with Some a => sret a | None => sfail DeRead end.

(** A read without whose answer nothing can be offered: reported as congestion. *)
Definition need {A} (m : YardSQL A) : DSQL A :=
  r <-- ask m ;; match r with Some a => sret a | None => sfail DeCannotTell end.

(** ** Parking *)

Definition PropLaneGatePoint : string := "lane_gate_point".

(** reservations.DigAdmissible over the lane's mouth rows. *)
Definition dig_admissible (y : Yard) (lane : Z) (asker : DigAsker) : bool :=
  forallb (fun h => Owns asker (mh_order h)) (mouth_rows y lane).

Definition shuffleSlotFree (n : YNode) : DSQL bool :=
  match yn_claimed n with
  | Some _ => sret false
  | None => b <-- CheckDropoffCapacity (yn_name n) 0 ;; sret (bool_decide (b = None))
  end.

(** What the walk has found and passed over. *)
Record Walk := mkWalk {
  w_available : list YNode; w_occupied : list YNode; w_held : list YNode; w_unseen : list YNode;
  w_unreadable : nat }.

Definition add_slot (n : YNode) (w : Walk) : Walk :=
  mkWalk (w_available w ++ [n]) (w_occupied w) (w_held w) (w_unseen w) (w_unreadable w).
Definition add_unreadable (w : Walk) : Walk :=
  mkWalk (w_available w) (w_occupied w) (w_held w) (w_unseen w) (S (w_unreadable w)).
Definition skip_occupied (n : YNode) (w : Walk) : Walk :=
  mkWalk (w_available w) (w_occupied w ++ [n]) (w_held w) (w_unseen w) (w_unreadable w).
Definition skip_held (n : YNode) (w : Walk) : Walk :=
  mkWalk (w_available w) (w_occupied w) (w_held w ++ [n]) (w_unseen w) (w_unreadable w).
Definition skip_unseen (n : YNode) (w : Walk) : Walk :=
  mkWalk (w_available w) (w_occupied w) (w_held w) (w_unseen w ++ [n]) (w_unreadable w).

Section Walk.
Context (laneID : Z) (count : nat) (asker : DigAsker) (askTheMouth : bool) (exclude : Z -> bool).
Context (occupied blocked entombing : Z -> bool) (dugLaneGated : bool).

(** [inl]: the early return with enough slots. *)
Definition take_slot (n : YNode) (w : Walk) : list YNode + Walk :=
  let w' := add_slot n w in
  if (count <=? length (w_available w'))%nat then inl (w_available w') else inr w'.

(** Pass 1, over the children from the last to the first. *)
Fixpoint floor_pass (children : list YNode) (w : Walk) : DSQL (list YNode + Walk) :=
  match children with
  | [] => sret (inr w)
  | c :: rest =>
      if negb (yn_enabled c) || yn_synthetic c || exclude (yn_id c) then floor_pass rest w
      else
        free <-- shuffleSlotFree c ;;
        if negb free then floor_pass rest w
        else match take_slot c w with inl out => sret (inl out) | inr w' => floor_pass rest w' end
  end.

(** The slots of one lane, from the last to the first. *)
Fixpoint slot_pass (slots : list YNode) (w : Walk) : DSQL (list YNode + Walk) :=
  match slots with
  | [] => sret (inr w)
  | s :: rest =>
      if negb (yn_enabled s) || exclude (yn_id s) then slot_pass rest w
      else if blocked (yn_id s) then slot_pass rest w
      else if entombing (yn_id s) then slot_pass rest w
      else
        acc <-- ask (IsSlotAccessible (yn_id s)) ;;
        match acc with
        | None => slot_pass rest (add_unreadable w)
        | Some false => slot_pass rest w
        | Some true =>
            free <-- shuffleSlotFree s ;;
            if negb free then slot_pass rest w
            else match take_slot s w with inl out => sret (inl out) | inr w' => slot_pass rest w' end
        end
  end.

(** Does the lane's mouth let the dig in?  [None]: it could not be read. *)
Definition mouth_answer (lane : Z) : DSQL (option bool) :=
  if askTheMouth then ask (query (fun y => dig_admissible y lane asker)) else sret (Some true).

Definition lane_gated (lane : Z) : DSQL bool :=
  if dugLaneGated then p <-- ask (GetNodeProperty lane PropLaneGatePoint) ;; sret (default "" p <>s "")
  else sret false.

(** Pass 2, over the lanes in order. *)
Fixpoint lane_pass (children : list YNode) (w : Walk) : DSQL (list YNode + Walk) :=
  match children with
  | [] => sret (inr w)
  | c :: rest =>
      if negb (yn_enabled c) || (yn_class c <>s NodeClassLANE) then lane_pass rest w
      else if yn_id c =i laneID then lane_pass rest w
      else if occupied (yn_id c) then lane_pass rest (skip_occupied c w)
      else
        m <-- mouth_answer (yn_id c) ;;
        match m with
        | None => lane_pass rest (skip_unseen c w)
        | Some false => lane_pass rest (skip_held c w)
        | Some true =>
            gated <-- lane_gated (yn_id c) ;;
            if gated then lane_pass rest w
            else
              slots <-- ask (ListLaneSlots (yn_id c)) ;;
              match slots with
              | None => lane_pass rest (add_unreadable w)
              | Some slots =>
                  r <-- slot_pass (reverse slots) w ;;
                  match r with inl out => sret (inl out) | inr w' => lane_pass rest w' end
              end
        end
  end.
End Walk.

(** The lane right of way removed, if the pool would have been wide enough with
    it.  [rewalk] runs the walk over the unfiltered children without asking the
    mouths. *)
Definition digHeldParking (rewalk : list YNode -> DSQL (list YNode)) (laneID groupID : Z)
    (unlocked : list YNode) (count have : nat) : DSQL (option DigError) :=
  r <-- ask (ListChildNodes groupID) ;;
  match r with
  | None => sret None
  | Some all =>
      match List.filter (fun c => negb (existsb (fun u => yn_id u =i yn_id c) unlocked || (yn_id c =i laneID)
              || negb (yn_enabled c))) all with
      | [] => sret None
      | c :: _ => fun k =>
          match rewalk all k with
          | (Err DeDepth, k') => (Err DeDepth, k')
          | (Err _, k') => (Ok None, k')
          | (Ok _, k') =>
              (rows <-- ask (query (fun y => mouth_rows y (yn_id c))) ;;
               sret match List.find (fun h => is_mode (mh_mode h) ModeDig) (default [] rows) with
                 | Some h => Some (DeDigHeld (yn_name c) (mh_order h) (count - have) (IsExcavation (mh_by h)))
                 | None => Some (DeDigHeld (yn_name c) 0 (count - have) false)
                 end) k'
          end
      end
  end.

(** The shortfall's cause: a dig's lane, a robot inside, a held mouth, an unread
    mouth, or a full group. *)
Definition shortfall (w : Walk) (count : nat) : DigError :=
  let short := (count - length (w_available w))%nat in
  match w_occupied w, w_held w, w_unseen w with
  | c :: _, _, _ => DeLaneOccupied (yn_name c) short
  | [], c :: _, _ => DeMouthHeld (yn_name c) short
  | [], [], _ :: _ => DeMouthUnreadable (map yn_name (w_unseen w)) short
  | [], [], [] => DeNoShuffleSlot (length (w_available w)) (w_unreadable w)
  end.

(** One walk: the exclusions read once, then both passes. *)
Definition parking_walk (laneID groupID : Z) (children : list YNode) (count : nat)
    (asker : DigAsker) (askTheMouth : bool) (exclude : Z -> bool) : DSQL (list YNode + Walk) :=
  gate <-- ask (GetNodeProperty laneID PropLaneGatePoint) ;;
  occ <-- need (LanesOccupiedInGroup groupID) ;;
  blocked <-- need (SlotsBlockedByHardClaims groupID) ;;
  entombing <-- need (SlotsThatWouldEntombASpokenForSlot groupID) ;;
  r <-- floor_pass count exclude (reverse children) (mkWalk [] [] [] [] 0) ;;
  match r with
  | inl out => sret (inl out)
  | inr w => lane_pass laneID count asker askTheMouth exclude occ blocked entombing (default "" gate <>s "") children w
  end.

Fixpoint shuffleSlotsFrom (depth : nat) (laneID groupID : Z) (children : list YNode) (count : nat)
    (asker : DigAsker) (askTheMouth : bool) (exclude : Z -> bool) : DSQL (list YNode) :=
  match depth with
  | O => sfail DeDepth
  | S depth =>
      r <-- parking_walk laneID groupID children count asker askTheMouth exclude ;;
      match r with
      | inl out => sret out
      | inr w =>
          if (length (w_available w) <? count)%nat then
            held <-- digHeldParking
              (fun all => shuffleSlotsFrom depth laneID groupID all count asker false exclude)
              laneID groupID children count (length (w_available w)) ;;
            sfail (match held with Some e => e | None => shortfall w count end)
          else sret (w_available w)
      end
  end.

Definition findShuffleSlots (laneID groupID : Z) (count : nat) (asker : DigAsker) (exclude : Z -> bool)
    : DSQL (list YNode) :=
  children <-- must (ListChildNodesUnlocked groupID asker) ;;
  shuffleSlotsFrom 2 laneID groupID children count asker true exclude.

(** ** Plans *)

Inductive StepType := StepUnbury | StepRetrieve.

Record ReshuffleStep := mkStep {
  st_seq : nat; st_type : StepType; st_bin : Z; st_from : YNode; st_to : option YNode }.

Record ReshufflePlan := mkPlan { pl_target : option YBin; pl_slot : YNode; pl_steps : list ReshuffleStep }.

Fixpoint blocker_bins (slots : list YNode) : DSQL (list (YBin * YNode)) :=
  match slots with
  | [] => sret []
  | s :: rest =>
      bs <-- must (ListBinsByNode (yn_id s)) ;;
      more <-- blocker_bins rest ;;
      sret match bs with [] => more | b :: _ => (b, s) :: more end
  end.

Definition findBuriedBlockers (slot : Z) : DSQL (list (YBin * YNode)) :=
  slots <-- must (BlockersInFrontOf slot) ;; blocker_bins slots.

Fixpoint unbury_steps (seq : nat) (blockers : list (YBin * YNode)) : list ReshuffleStep :=
  match blockers with
  | [] => []
  | (b, s) :: rest => mkStep seq StepUnbury (yb_id b) s None :: unbury_steps (S seq) rest
  end.

Definition planUnbury (target : option YBin) (targetSlot lane : YNode) (groupID : Z) (asker : DigAsker)
    : DSQL (ReshufflePlan * nat) :=
  match yn_parent targetSlot with
  | None => sfail DeSlotNotInLane
  | Some _ =>
      blockers <-- findBuriedBlockers (yn_id targetSlot) ;;
      findShuffleSlots (yn_id lane) groupID (length blockers) asker (fun _ => false) ;;;
      sret (mkPlan target targetSlot (unbury_steps 1 blockers), S (length blockers))
  end.

Definition PlanReshuffle (target : YBin) (targetSlot lane : YNode) (groupID : Z) (asker : DigAsker)
    : DSQL ReshufflePlan :=
  p <-- planUnbury (Some target) targetSlot lane groupID asker ;;
  let '(plan, seq) := p in
  sret (mkPlan (pl_target plan) (pl_slot plan)
    (pl_steps plan ++ [mkStep seq StepRetrieve (yb_id target) targetSlot None])).

Definition PlanLaneMouthClear (targetSlot lane : YNode) (groupID : Z) (asker : DigAsker) : DSQL ReshufflePlan :=
  p <-- planUnbury None targetSlot lane groupID asker ;;
  match pl_steps p.1 with
  | [] => sfail DeNothingInTheWay
  | _ => sret p.1
  end.

(** ** The walk comes back *)

Lemma gate_quiet {E : Type} name ex bt : reads (CheckDropoffCapacityForType (E := E) name ex bt) /\
  quiet (CheckDropoffCapacityForType (E := E) name ex bt).
Proof.
  split; intros c; destruct (gate_verdict (E := E) (faults c = []) (db c) name ex bt c eq_refl (fun H => H))
    as (v & c' & E1 & Hd & Hf & _); rewrite E1; eauto.
Qed.

Lemma free_quiet n : reads (shuffleSlotFree n) /\ quiet (shuffleSlotFree n).
Proof.
  unfold shuffleSlotFree, CheckDropoffCapacity. pose proof (gate_quiet (E := DigError) (yn_name n) 0 None) as [H1 H2].
  destruct (yn_claimed n); split; reading.
Qed.

Lemma reads_IsSlotAccessible id : reads (IsSlotAccessible id).
Proof. unfold IsSlotAccessible, BlockersInFrontOf, GetNode. reading. Qed.
#[export] Hint Resolve reads_IsSlotAccessible : reads.

(** Both halves of [reads /\ quiet] at a time. *)
Lemma rq_bind {A B} (m : DSQL A) (k : A -> DSQL B) :
  reads m /\ quiet m -> (forall a, reads (k a) /\ quiet (k a)) -> reads (sbind m k) /\ quiet (sbind m k).
Proof. intros [H1 H2] H. split; [apply reads_bind|apply quiet_bind]; try done; apply H. Qed.
Lemma rq_ret {A} (a : A) : reads (sret (E := DigError) a) /\ quiet (sret (E := DigError) a).
Proof. split; [apply reads_ret|apply quiet_ret]. Qed.
Lemma rq_ask {A} (m : YardSQL A) : reads m -> reads (ask (E := DigError) m) /\ quiet (ask (E := DigError) m).
Proof. intros H. split; [by apply reads_ask|apply quiet_ask]. Qed.

Section Quiet.
Context (laneID : Z) (count : nat) (asker : DigAsker) (mouth : bool) (exclude occ blocked entombing : Z -> bool) (gated : bool).

Lemma floor_quiet children w :
  reads (floor_pass count exclude children w) /\ quiet (floor_pass count exclude children w).
Proof.
  revert w. induction children as [|c cs IH]; intros w; cbn [floor_pass]; [apply rq_ret|].
  case_match; [apply IH|]. apply rq_bind; [apply free_quiet|]. intros []; cbn [negb]; [|apply IH].
  destruct (take_slot count c w); [apply rq_ret|apply IH].
Qed.

Lemma slot_quiet slots w :
  reads (slot_pass count exclude blocked entombing slots w) /\ quiet (slot_pass count exclude blocked entombing slots w).
Proof.
  revert w. induction slots as [|s ss IH]; intros w; cbn [slot_pass]; [apply rq_ret|].
  do 3 (case_match; [apply IH|]). apply rq_bind; [apply rq_ask, reads_IsSlotAccessible|]. intros [[]|]; [|apply IH|apply IH].
  apply rq_bind; [apply free_quiet|]. intros []; cbn [negb]; [|apply IH].
  destruct (take_slot count s w); [apply rq_ret|apply IH].
Qed.

Lemma lane_quiet children w :
  reads (lane_pass laneID count asker mouth exclude occ blocked entombing gated children w) /\
  quiet (lane_pass laneID count asker mouth exclude occ blocked entombing gated children w).
Proof.
  revert w. induction children as [|c cs IH]; intros w; cbn [lane_pass]; [apply rq_ret|].
  do 3 (case_match; [apply IH|]). unfold mouth_answer, lane_gated, GetNodeProperty, ListLaneSlots.
  apply rq_bind; [destruct mouth; [apply rq_ask, reads_query|apply rq_ret]|]. intros [[]|]; [|apply IH|apply IH].
  apply rq_bind; [destruct gated; [apply rq_bind; [apply rq_ask; reading|intros; apply rq_ret]|apply rq_ret]|].
  intros []; [apply IH|]. apply rq_bind; [apply rq_ask, reads_query|]. intros [slots|]; [|apply IH].
  apply rq_bind; [apply slot_quiet|]. intros [out|w']; [apply rq_ret|apply IH].
Qed.
End Quiet.

(** The second walk has nothing left to remove. *)
Lemma nothing_removed laneID groupID count have c :
  exists c', db c' = db c /\ forall rewalk,
    digHeldParking rewalk laneID groupID (isort (fun a b => String.leb (yn_name a) (yn_name b))
      (List.filter (child_of groupID) (y_nodes (db c)))) count have c = (Ok None, c').
Proof.
  unfold digHeldParking, ListChildNodes.
  destruct (ask_read (E := DigError) (fun y => isort (fun a b => String.leb (yn_name a) (yn_name b))
    (List.filter (child_of groupID) (y_nodes y))) c) as (r & c1 & E1 & Hd & Hr).
  exists c1. split; [done|]. intros rewalk. rewrite (sbind_step _ _ _ _ _ E1). destruct Hr as [->| ->]; [done|].
  set (all := isort _ _).
  assert (Hf : List.filter (fun c => negb (existsb (fun u => yn_id u =i yn_id c) all || (yn_id c =i laneID)
    || negb (yn_enabled c))) all = []).
  { assert (H : forall l, l ⊆ all -> List.filter (fun c => negb (existsb (fun u => yn_id u =i yn_id c) all
      || (yn_id c =i laneID) || negb (yn_enabled c))) l = []).
    { induction l as [|x l IH]; intros Hl; [done|]. cbn. apply cons_sub in Hl as [Hx Hl].
      assert (Hex : existsb (fun u => yn_id u =i yn_id x) all = true).
      { apply existsb_true. exists x. split; [done|apply Z.eqb_refl]. }
      rewrite Hex. cbn. by apply IH. }
    by apply H. }
  by rewrite Hf.
Qed.

Definition group_children (y : Yard) (groupID : Z) : list YNode :=
  isort (fun a b => String.leb (yn_name a) (yn_name b)) (List.filter (child_of groupID) (y_nodes y)).

Lemma walk_reads laneID groupID children count asker mouth exclude c :
  exists o c1, parking_walk laneID groupID children count asker mouth exclude c = (o, c1) /\ db c1 = db c /\ o <> Err DeDepth.
Proof.
  unfold parking_walk, need, LanesOccupiedInGroup, SlotsBlockedByHardClaims, SlotsThatWouldEntombASpokenForSlot.
  destruct (quiet_step (ask (E := DigError) (GetNodeProperty laneID PropLaneGatePoint)) c) as (gate & c1 & E1 & Hd1 & _).
  { apply rq_ask. unfold GetNodeProperty. reading. }
  rewrite (sbind_step _ _ _ _ _ E1), <- Hd1. clear E1 Hd1.
  do 3 match goal with |- context [sbind (sbind (ask (query ?f)) _) _ ?k] =>
    let r := fresh "r" in let k' := fresh "k" in let E := fresh "E" in let Hd := fresh "Hd" in
    destruct (ask_read (E := DigError) f k) as (r & k' & E & Hd & _);
    rewrite <- Hd; unfold sbind at 1; rewrite (sbind_step _ _ _ _ _ E);
    destruct r as [r|]; [cbn [sret]|eexists _, _; split_and!; [reflexivity|done|done]]; clear E Hd end.
  match goal with |- context [sbind (floor_pass ?a ?b ?x ?w) _ ?k] =>
    destruct (quiet_step _ k (floor_quiet a b x w)) as (out & k' & E & Hd & _) end.
  rewrite (sbind_step _ _ _ _ _ E), <- Hd. destruct out as [out|w]; [by eexists _, _|].
  match goal with |- context [lane_pass ?a ?b ?x ?m ?e ?o ?bl ?en ?g ?ch ?w ?k] =>
    destruct (quiet_step _ k (lane_quiet a b x m e o bl en g ch w)) as (out & k'' & E' & Hd' & _) end.
  rewrite E', <- Hd'. by eexists _, _.
Qed.

Lemma sbind_cong {A B} (m m' : DSQL A) (k : A -> DSQL B) c : m c = m' c -> sbind m k c = sbind m' k c.
Proof. intros H. unfold sbind. by rewrite H. Qed.

Lemma sbind_not_err {A B} (m : DSQL A) (k : A -> DSQL B) c e :
  (m c).1 <> Err e -> (forall a c', m c = (Ok a, c') -> (k a c').1 <> Err e) -> (sbind m k c).1 <> Err e.
Proof. intros H1 H2. unfold sbind. destruct (m c) as [[a|e'] c']; [by apply H2|]. cbn in *. congruence. Qed.

Lemma shortfall_not_depth w count : shortfall w count <> DeDepth.
Proof. unfold shortfall. by destruct (w_occupied w), (w_held w), (w_unseen w). Qed.

Lemma shuffle_S d laneID groupID children count asker mouth exclude :
  shuffleSlotsFrom (S d) laneID groupID children count asker mouth exclude =
  (r <-- parking_walk laneID groupID children count asker mouth exclude ;;
   match r with
   | inl out => sret out
   | inr w =>
       if (length (w_available w) <? count)%nat then
         held <-- digHeldParking (fun all => shuffleSlotsFrom d laneID groupID all count asker false exclude)
           laneID groupID children count (length (w_available w)) ;;
         sfail (match held with Some e => e | None => shortfall w count end)
       else sret (w_available w)
   end).
Proof. done. Qed.

(** Over the whole group one level is enough. *)
Lemma full_walk_settles d laneID groupID count asker mouth exclude c :
  shuffleSlotsFrom (S d) laneID groupID (group_children (db c) groupID) count asker mouth exclude c =
  shuffleSlotsFrom 1 laneID groupID (group_children (db c) groupID) count asker mouth exclude c /\
  (shuffleSlotsFrom 1 laneID groupID (group_children (db c) groupID) count asker mouth exclude c).1 <> Err DeDepth.
Proof.
  rewrite !shuffle_S. set (kids := group_children (db c) groupID).
  destruct (walk_reads laneID groupID kids count asker mouth exclude c) as (o & c1 & E & Hd & Ho).
  destruct o as [[out|w]|e].
  - by rewrite !(sbind_step _ _ _ _ _ E).
  - rewrite !(sbind_step _ _ _ _ _ E). destruct (length (w_available w) <? count)%nat; [|done].
    destruct (nothing_removed laneID groupID count (length (w_available w)) c1) as (c2 & Hd2 & Hn).
    rewrite Hd in Hn. change (isort _ _) with kids in Hn. rewrite !(sbind_step _ _ _ _ _ (Hn _)). split; [done|].
    pose proof (shortfall_not_depth w count). cbn. congruence.
  - split; [by unfold sbind; rewrite E|]. apply sbind_not_err; rewrite E; [done|]. intros ? ? [=].
Qed.

Lemma dig_held_same rw rw' laneID groupID unlocked count have c :
  (forall c', db c' = db c -> rw (group_children (db c) groupID) c' = rw' (group_children (db c) groupID) c' /\
    (rw' (group_children (db c) groupID) c').1 <> Err DeDepth) ->
  digHeldParking rw laneID groupID unlocked count have c = digHeldParking rw' laneID groupID unlocked count have c /\
  (digHeldParking rw' laneID groupID unlocked count have c).1 <> Err DeDepth /\
  forall e, (digHeldParking rw' laneID groupID unlocked count have c).1 <> Ok (Some e) \/ e <> DeDepth.
Proof.
  intros H. unfold digHeldParking, ListChildNodes.
  destruct (ask_read (E := DigError) (fun y => group_children y groupID) c) as (r & c1 & E & Hd & Hr).
  unfold group_children in E at 1. rewrite !(sbind_step _ _ _ _ _ E). destruct Hr as [->| ->].
  { split_and!; try done. by left. }
  destruct (List.filter _ _) as [|k l]; [split_and!; try done; by left|].
  destruct (H c1 Hd) as [H1 H2]. rewrite H1. destruct (rw' _ c1) as [[out|e] c2]; cbn in H2.
  - match goal with |- context [sbind (ask ?m) _ c2] =>
      destruct (quiet_step (ask (E := DigError) m) c2) as (rows & c3 & E3 & _ & _) end.
    { apply rq_ask, reads_query. }
    rewrite (sbind_step _ _ _ _ _ E3). split; [done|]. split; [by case_match|].
    intros e. destruct (List.find _ _); cbn; (destruct e; auto; left; congruence).
  - destruct e; try done; split_and!; try done; by left.
Qed.

(** C20. The parking search always comes back.  A search that finds too little
    room runs itself again over the unfiltered group, and that run asks the same
    question once more; however deep the nesting were allowed to go, two levels
    already give the final answer, on every group and under any faults. *)
Theorem shuffle_walk_terminates d laneID groupID children count asker mouth exclude c :
  shuffleSlotsFrom (S (S d)) laneID groupID children count asker mouth exclude c =
  shuffleSlotsFrom 2 laneID groupID children count asker mouth exclude c /\
  (shuffleSlotsFrom 2 laneID groupID children count asker mouth exclude c).1 <> Err DeDepth.
Proof.
  assert (Hrw : forall c1 d, (forall c', db c' = db c1 ->
    shuffleSlotsFrom (S d) laneID groupID (group_children (db c1) groupID) count asker false exclude c' =
    shuffleSlotsFrom 1 laneID groupID (group_children (db c1) groupID) count asker false exclude c' /\
    (shuffleSlotsFrom 1 laneID groupID (group_children (db c1) groupID) count asker false exclude c').1 <> Err DeDepth)).
  { intros c1 d' c' <-. apply full_walk_settles. }
  destruct (walk_reads laneID groupID children count asker mouth exclude c) as (o & c1 & E & Hd & Ho).
  rewrite (shuffle_S (S d)), (shuffle_S 1).
  destruct o as [[out|w]|e].
  - by rewrite !(sbind_step _ _ _ _ _ E).
  - rewrite !(sbind_step _ _ _ _ _ E). destruct (length (w_available w) <? count)%nat; [|done].
    destruct (dig_held_same (fun all => shuffleSlotsFrom (S d) laneID groupID all count asker false exclude)
      (fun all => shuffleSlotsFrom 1 laneID groupID all count asker false exclude) laneID groupID children count
      (length (w_available w)) c1 (Hrw c1 d)) as (H1 & H2 & H3).
    split; [by apply sbind_cong|]. apply sbind_not_err; [exact H2|]. intros [e|] c2 E2; cbn [sfail fst].
    + rewrite E2 in H3. destruct (H3 DeDepth) as [H4|H4]; [|done]. intros [= ->]. by apply H4.
    + pose proof (shortfall_not_depth w count). congruence.
  - split; [by unfold sbind; rewrite E|]. apply sbind_not_err; rewrite E; [done|]. intros ? ? [=].
Qed.

(** ** Where blockers may be parked *)

(** What the plant's tables keep: node ids and names are unique, names are not
    empty and carry no dot, and no node is its own parent. *)
Record table_wf (y : Yard) : Prop := {
  tw_ids : NoDup (map yn_id (y_nodes y));
  tw_names : forall n m, n ∈ y_nodes y -> m ∈ y_nodes y -> yn_name n = yn_name m -> n = m;
  tw_plain : forall n, n ∈ y_nodes y -> yn_name n <> "" /\ cut_dot (yn_name n) = None;
  tw_parent : forall n, n ∈ y_nodes y -> yn_parent n <> Some (yn_id n) }.

Lemma lookup_own_name y n : table_wf y -> n ∈ y_nodes y -> node_by_dot_name y (yn_name n) = Some n.
Proof.
  intros Hw Hn. unfold node_by_dot_name, node_by_name. destruct (tw_plain y Hw n Hn) as [_ ->].
  destruct (List.find _ _) as [m|] eqn:E.
  - apply find_some in E as [Hm E]. f_equal. apply (tw_names y Hw); [by apply list_elem_of_In|done|].
    by destruct (eqb_spec_s (yn_name m) (yn_name n)).
  - eapply find_none in E; [|by apply list_elem_of_In]. by rewrite seqb_refl in E.
Qed.

(** A slot the dig may use; a physical one is vacant. *)
Record spare (y : Yard) (exclude : Z -> bool) (n : YNode) : Prop := {
  sp_known : n ∈ y_nodes y;
  sp_enabled : yn_enabled n = true;
  sp_open : exclude (yn_id n) = false;
  sp_unclaimed : yn_claimed n = None;
  sp_vacant : yn_synthetic n = false -> vacant y 0 n }.

(** A lane the dig may enter. *)
Record open_lane (h : Prop) (y : Yard) (laneID groupID : Z) (asker : DigAsker) (mouth : bool) (lane : YNode) : Prop := {
  ol_known : lane ∈ y_nodes y;
  ol_enabled : yn_enabled lane = true;
  ol_class : yn_class lane = NodeClassLANE;
  ol_other : yn_id lane <> laneID;
  ol_empty : robot_inside y groupID (yn_id lane) = false;
  ol_mouth : mouth = true -> dig_admissible y (yn_id lane) asker = true;
  ol_gate : h -> default "" (y_props y !! (laneID, PropLaneGatePoint)) <> "" ->
    default "" (y_props y !! (yn_id lane, PropLaneGatePoint)) = "" }.

(** A place to park: a floor position of the group, or a reachable slot of an open
    lane that walls nobody in. *)
Definition parking (h : Prop) (y : Yard) (laneID groupID : Z) (asker : DigAsker) (mouth : bool)
    (exclude : Z -> bool) (n : YNode) : Prop :=
  spare y exclude n /\
  ((yn_parent n = Some groupID /\ yn_synthetic n = false) \/
   (exists lane, open_lane h y laneID groupID asker mouth lane /\ yn_parent n = Some (yn_id lane) /\
      yn_parent lane = Some groupID /\ ReachableSQL y n = true /\ walls_collected y n = false /\
      EntombsASpokenForSlotSQL y n 0 = false)).

(** The order of parking: a bin set down earlier never stands in front of a lane
    slot used later. *)
Definition after_ok (groupID : Z) (a b : YNode) : Prop :=
  yn_parent b = Some groupID \/ ShallowerInSameLane a b = false.

Lemma strongly_sorted_snoc {A} (R : A -> A -> Prop) l x :
  StronglySorted R l -> Forall (fun a => R a x) l -> StronglySorted R (l ++ [x]).
Proof.
  induction l as [|a l IH]; cbn; intros Hs Hf; [repeat constructor|].
  apply StronglySorted_inv in Hs as [Hs Ha]. apply Forall_cons in Hf as [Hax Hf].
  constructor; [by apply IH|]. apply Forall_app. split; [done|by constructor].
Qed.

Lemma strongly_sorted_reverse {A} (R : A -> A -> Prop) l :
  StronglySorted R l -> StronglySorted (fun a b => R b a) (reverse l).
Proof.
  induction 1 as [|a l Hs IH Ha]; [rewrite reverse_nil; constructor|]. rewrite reverse_cons.
  apply strongly_sorted_snoc; [done|]. by apply Forall_reverse.
Qed.

Lemma by_depth_sorted (l : list YNode) :
  StronglySorted (fun a b => (depth0 a <= depth0 b)%Z) (isort (fun a b => (depth0 a <=? depth0 b)%Z) l).
Proof.
  assert (Hs : StronglySorted (fun a b => (depth0 a <=? depth0 b)%Z = true) (isort (fun a b => (depth0 a <=? depth0 b)%Z) l)).
  { apply Sorted_StronglySorted; [intros a b c H1%Z.leb_le H2%Z.leb_le; apply Z.leb_le; lia|].
    apply isort_sorted. intros a b H%Z.leb_gt. apply Z.leb_le. lia. }
  induction Hs as [|a k Hs IH Ha]; constructor; [done|]. eapply Forall_impl; [exact Ha|]. intros b. apply Z.leb_le.
Qed.

Lemma NoDup_filter_l {A} (f : A -> bool) l : NoDup l -> NoDup (List.filter f l).
Proof.
  induction 1 as [|x l Hx Hn IH]; [apply NoDup_nil_2|]. cbn. destruct (f x); [|done]. apply NoDup_cons.
  split; [|done]. by intros [? _]%elem_of_lfilter.
Qed.

Section Parking.
Context (h : Prop) (y : Yard) (laneID groupID : Z) (count : nat) (asker : DigAsker) (mouth : bool) (exclude : Z -> bool).
Context (Hw : table_wf y) (Hpos : (1 <= count)%nat).
Notation good := (parking h y laneID groupID asker mouth exclude).

(** What the passes maintain about the slots found so far, and what they return. *)
Record pool_ok (l : list YNode) : Prop := {
  po_good : Forall good l;
  po_order : StronglySorted (after_ok groupID) l;
  po_ids : NoDup l }.

Definition found (r : list YNode + Walk) : Prop :=
  match r with
  | inl out => pool_ok out /\ length out = count
  | inr w => pool_ok (w_available w) /\ (length (w_available w) < count)%nat
  end.

Lemma take_found n w :
  found (inr w) -> good n -> Forall (fun a => after_ok groupID a n) (w_available w) -> n ∉ w_available w ->
  found (take_slot count n w).
Proof.
  intros [[Hg Ho Hn] Hl] Hgn Hord Hfresh. unfold take_slot, found. cbn [w_available add_slot].
  assert (Hp : pool_ok (w_available w ++ [n])).
  { split; [apply Forall_app; by split; [|constructor]|by apply strongly_sorted_snoc|].
    apply NoDup_app. split; [done|]. split; [|apply NoDup_singleton]. intros x Hx. by intros ->%list_elem_of_singleton. }
  destruct (Nat.leb_spec count (length (w_available w ++ [n]))) as [H|H]; split; try done.
  rewrite length_app in *. cbn in *. lia.
Qed.

Lemma answers_free n :
  n ∈ y_nodes y -> yn_enabled n = true -> exclude (yn_id n) = false ->
  answers h y (shuffleSlotFree n) (fun b => b = true -> spare y exclude n).
Proof.
  intros Hn He Hx. unfold shuffleSlotFree. destruct (yn_claimed n) eqn:Ec; [by apply answers_ret|].
  eapply answers_bind; [apply gate_verdict|]. intros v Hv. apply answers_ret. intros ->%bool_decide_eq_true.
  split; try done. intros Hs. pose proof (lookup_own_name y n Hw Hn) as Hl. destruct (tw_plain y Hw n Hn) as [Hne _].
  inversion Hv; subst; try congruence.
  assert (n0 = n) as -> by congruence. by split.
Qed.

Definition of_group (a : YNode) : Prop := yn_parent a = Some groupID.

Lemma answers_floor_pass cs w :
  NoDup cs -> Forall (fun c => c ∈ y_nodes y /\ of_group c) cs -> found (inr w) ->
  Forall (fun a => a ∉ cs /\ of_group a) (w_available w) ->
  answers h y (floor_pass count exclude cs w)
    (fun r => found r /\ forall w', r = inr w' -> Forall of_group (w_available w')).
Proof.
  revert w. induction cs as [|c cs IH]; intros w Hnd Hcs Hf Ha; cbn [floor_pass].
  { apply answers_ret. split; [done|]. intros w' [= <-]. eapply Forall_impl; [exact Ha|]. by intros a []. }
  apply NoDup_cons in Hnd as [Hc Hnd]. apply Forall_cons in Hcs as [[Hcn Hcg] Hcs].
  assert (Hrest : Forall (fun a => a ∉ cs /\ of_group a) (w_available w)).
  { eapply Forall_impl; [exact Ha|]. intros a [H1 H2]. split; [|done]. intros H. apply H1. by right. }
  destruct (negb (yn_enabled c) || yn_synthetic c || exclude (yn_id c)) eqn:Es; [by apply IH|].
  apply orb_false_iff in Es as [[He%negb_false_iff Hs]%orb_false_iff Hx].
  eapply answers_bind; [by apply answers_free|]. intros [] Hsp; cbn [negb]; [|by apply IH].
  assert (Ht : found (take_slot count c w)).
  { apply take_found; [done| | |].
    - split; [by apply Hsp|by left].
    - eapply Forall_impl; [exact Ha|]. intros a _. by left.
    - intros Hin. rewrite Forall_forall in Ha. destruct (Ha c Hin) as [Hn _]. apply Hn. left. }
  destruct (take_slot count c w) as [out|w'] eqn:Et; [by apply answers_ret|].
  assert (Ew : w_available w' = w_available w ++ [c]) by (unfold take_slot in Et; case_match; simplify_eq; done).
  apply IH; [done|done|done|]. rewrite Ew. apply Forall_app. split; [done|]. by constructor.
Qed.

Lemma answers_accessible n :
  n ∈ y_nodes y -> answers h y (ask (E := DigError) (IsSlotAccessible (yn_id n))) (fun r => r = Some true -> ReachableSQL y n = true).
Proof.
  intros Hn c Hd Hf.
  destruct (quiet_step (ask (E := DigError) (IsSlotAccessible (yn_id n))) c (rq_ask _ (reads_IsSlotAccessible _))) as (r & c1 & E1 & Hd1 & Hf1).
  exists r, c1. split_and!; [done|congruence|auto|]. intros ->. unfold ask in E1.
  destruct (IsSlotAccessible (yn_id n) c) as [[b|e] c2] eqn:E2; simplify_eq.
  unfold IsSlotAccessible in E2. apply sbind_ok in E2 as (l & c3 & E2 & E3). injection E3 as E3 <-.
  apply BlockersInFrontOf_ok in E2 as [-> _]; [|apply (tw_ids _ Hw)|done].
  apply Nat.eqb_eq, nil_length_inv in E3. unfold ReachableSQL, BuriedSQL. apply negb_true_iff, existsb_false.
  intros m Hm. destruct (LaneBlockerPredicate _ m n) eqn:Eb; [|done].
  assert (Hin : m ∈ in_front (db c) n) by (unfold in_front; rewrite isort_perm; by apply elem_of_lfilter).
  rewrite E3 in Hin. by apply elem_of_nil in Hin.
Qed.

(** A slot that the group-wide exclusions leave in. *)
Lemma group_slot_false P n lane :
  n ∈ y_nodes y -> lane ∈ y_nodes y -> yn_parent n = Some (yn_id lane) -> yn_parent lane = Some groupID ->
  group_slot y groupID P (yn_id n) = false -> P n = false.
Proof.
  intros Hn Hl Hp Hg H. unfold group_slot in H. rewrite existsb_false in H. specialize (H n Hn).
  rewrite Z.eqb_refl in H. cbn in H. destruct (P n); [|done]. rewrite andb_true_r in H.
  unfold in_group in H. rewrite existsb_false in H. specialize (H lane Hl). unfold child_of in H.
  by rewrite (proj2 (claimed_is_true _ _) Hg), (proj2 (claimed_is_true _ _) Hp) in H.
Qed.

Notation blocked := (group_slot y groupID (walls_collected y)).
Notation entombing := (group_slot y groupID (fun n => EntombsASpokenForSlotSQL y n 0)).

(** While lane [c] is searched from the back: what was found in it is at least as
    deep as what is left. *)
Definition deeper_first (c : YNode) (ss : list YNode) (a : YNode) : Prop :=
  a ∉ ss /\ (yn_parent a = Some (yn_id c) -> Forall (fun s => (depth0 s <= depth0 a)%Z) ss).

Lemma answers_slot_pass c ss w :
  open_lane h y laneID groupID asker mouth c -> yn_parent c = Some groupID ->
  NoDup ss -> Forall (fun s => s ∈ y_nodes y /\ yn_parent s = Some (yn_id c)) ss ->
  StronglySorted (fun a b => (depth0 b <= depth0 a)%Z) ss ->
  found (inr w) -> Forall (deeper_first c ss) (w_available w) ->
  answers h y (slot_pass count exclude blocked entombing ss w)
    (fun r => found r /\ forall w', r = inr w' ->
      Forall (fun a => a ∈ w_available w \/ yn_parent a = Some (yn_id c)) (w_available w')).
Proof.
  intros Hc Hcg. revert w. induction ss as [|s ss IH]; intros w Hnd Hss Hsort Hf Ha; cbn [slot_pass].
  { apply answers_ret. split; [done|]. intros w' [= <-]. apply Forall_forall. auto. }
  apply NoDup_cons in Hnd as [Hs Hnd]. apply Forall_cons in Hss as [[Hsn Hsp] Hss].
  apply StronglySorted_inv in Hsort as [Hsort Hdeep].
  assert (Hrest : Forall (deeper_first c ss) (w_available w)).
  { eapply Forall_impl; [exact Ha|]. intros a [H1 H2]. split; [intros H; apply H1; by right|].
    intros H. by apply H2, Forall_cons in H as [_ H]. }
  assert (Hskip : forall w1, w_available w1 = w_available w -> answers h y (slot_pass count exclude blocked entombing ss w1)
    (fun r => found r /\ forall w', r = inr w' ->
      Forall (fun a => a ∈ w_available w \/ yn_parent a = Some (yn_id c)) (w_available w'))).
  { intros w1 E. rewrite <- E. apply IH; try done; [|by rewrite E]. unfold found in *. by rewrite E. }
  destruct (negb (yn_enabled s) || exclude (yn_id s)) eqn:Ex; [by apply Hskip|].
  apply orb_false_iff in Ex as [He%negb_false_iff Hx].
  destruct (blocked (yn_id s)) eqn:Eb; [by apply Hskip|]. destruct (entombing (yn_id s)) eqn:Ee; [by apply Hskip|].
  eapply answers_bind; [by apply answers_accessible|]. intros [[]|] Hacc; [|by apply Hskip|by apply Hskip].
  eapply answers_bind; [by apply answers_free|]. intros [] Hsp'; cbn [negb]; [|by apply Hskip].
  assert (Ht : found (take_slot count s w)).
  { apply take_found; [done| | |].
    - pose proof (ol_known _ _ _ _ _ _ _ Hc) as Hck. split; [by apply Hsp'|]. right. exists c.
      split_and!; try done; [by apply Hacc|by apply (group_slot_false (walls_collected y) s c)|].
      by apply (group_slot_false (fun n => EntombsASpokenForSlotSQL y n 0) s c).
    - eapply Forall_impl; [exact Ha|]. intros a [_ H2]. right. destruct (ShallowerInSameLane a s) eqn:Es; [|done].
      pose proof (shallower_parent _ _ Es) as Hp. apply shallower_depth in Es.
      rewrite Hp, Hsp in H2. apply Forall_cons in H2 as [H2 _]; [lia|done].
    - intros Hin. rewrite Forall_forall in Ha. destruct (Ha s Hin) as [Hn _]. apply Hn. left. }
  destruct (take_slot count s w) as [out|w'] eqn:Et; [by apply answers_ret|].
  assert (Ew : w_available w' = w_available w ++ [s]) by (unfold take_slot in Et; case_match; simplify_eq; done).
  eapply answers_weaken; [apply (IH w'); try done|].
  - rewrite Ew. apply Forall_app. split; [done|]. constructor; [|done]. split; [done|]. by intros _.
  - intros r [H1 H2]. split; [done|]. intros w2 ->. eapply Forall_impl; [by apply H2|]. rewrite Ew.
    intros a [H|H]; [|by right]. apply elem_of_app in H as [H|H%list_elem_of_singleton]; [by left|right; by subst].
Qed.

Lemma lane_slots_facts c ss : ss = lane_slots y (yn_id c) ->
  NoDup (reverse ss) /\ Forall (fun s => s ∈ y_nodes y /\ yn_parent s = Some (yn_id c)) (reverse ss) /\
  StronglySorted (fun a b => (depth0 b <= depth0 a)%Z) (reverse ss).
Proof.
  intros ->. unfold lane_slots. split_and!.
  - rewrite reverse_Permutation, isort_perm. apply NoDup_filter_l. exact (NoDup_fmap_1 _ _ (tw_ids _ Hw)).
  - apply Forall_forall. intros s. rewrite elem_of_reverse, isort_perm, elem_of_lfilter. unfold child_of.
    rewrite claimed_is_true. tauto.
  - apply strongly_sorted_reverse, by_depth_sorted.
Qed.

Lemma answers_lane_pass cs w gated :
  (h -> gated = (default "" (y_props y !! (laneID, PropLaneGatePoint)) <>s "")) ->
  NoDup (map yn_id cs) -> Forall (fun c => c ∈ y_nodes y /\ of_group c) cs -> found (inr w) ->
  Forall (fun a => forall c, c ∈ cs -> yn_parent a <> Some (yn_id c)) (w_available w) ->
  answers h y (lane_pass laneID count asker mouth exclude (robot_inside y groupID) blocked entombing gated cs w) found.
Proof.
  intros Hgate. revert w. induction cs as [|c cs IH]; intros w Hnd Hcs Hf Ha; cbn [lane_pass]; [by apply answers_ret|].
  cbn in Hnd. apply NoDup_cons in Hnd as [Hc Hnd]. apply Forall_cons in Hcs as [[Hcn Hcg] Hcs].
  assert (Hskip : forall w1, w_available w1 = w_available w ->
    answers h y (lane_pass laneID count asker mouth exclude (robot_inside y groupID) blocked entombing gated cs w1) found).
  { intros w1 E. apply IH; try done; [unfold found in *; by rewrite E|]. rewrite E.
    eapply Forall_impl; [exact Ha|]. intros a H k Hk. apply H. by right. }
  destruct (negb (yn_enabled c) || _) eqn:El; [by apply Hskip|]. apply is_lane in El as [He Hl].
  destruct (Z.eqb_spec (yn_id c) laneID) as [|Hne]; [by apply Hskip|].
  destruct (robot_inside y groupID (yn_id c)) eqn:Ein; [by apply Hskip|].
  eapply (answers_bind _ _ _ _ (fun m => m = Some true -> mouth = true -> dig_admissible y (yn_id c) asker = true)).
  { unfold mouth_answer. destruct mouth; [|by apply answers_ret].
    eapply answers_weaken; [apply answers_query|]. intros r [_ [->| ->]]; [done|]. by intros [= ->]. }
  intros [[]|] Hm; [|by apply Hskip|by apply Hskip].
  eapply (answers_bind _ _ _ _ (fun g => g = false -> h -> gated = true -> default "" (y_props y !! (yn_id c, PropLaneGatePoint)) = "")).
  { unfold lane_gated. destruct gated; [|by apply answers_ret].
    unfold GetNodeProperty. intros k Hd Hk.
    destruct (quiet_step (ask (E := DigError) (r <-- slog (query (fun y0 => default "" (y_props y0 !! (yn_id c, PropLaneGatePoint)))) ;;
      sret (default "" r))) k) as (p & k1 & E1 & Hd1 & Hf1); [apply rq_ask; reading|].
    rewrite (sbind_step _ _ _ _ _ E1). eexists _, k1. split_and!; [done|congruence|auto|]. intros Hg Hh _. specialize (Hk Hh).
    destruct k as [d fs]; cbn in *; subst. unfold ask, sbind, slog in E1. cbn in E1. simplify_eq. cbn in Hg.
    by apply negb_false_iff, String.eqb_eq in Hg. }
  intros [] Hg; [by apply Hskip|].
  eapply answers_bind; [apply answers_query|]. intros r [_ [->| ->]]; [by apply Hskip|].
  destruct (lane_slots_facts c (lane_slots y (yn_id c)) eq_refl) as (H1 & H2 & H3).
  assert (Hol : open_lane h y laneID groupID asker mouth c).
  { split; try done; [by apply Hm|]. intros Hh Hdug. apply Hg; [done|done|]. rewrite (Hgate Hh). by apply negb_true_iff, seqb_neq. }
  eapply answers_bind; [apply (answers_slot_pass c); try done|].
  { eapply Forall_impl; [exact Ha|]. intros a Hac. assert (Hnp : yn_parent a <> Some (yn_id c)) by (apply Hac; left).
    split; [|done]. intros Hin. rewrite Forall_forall in H2. by destruct (H2 a Hin) as [_ ?]. }
  intros [out|w'] [Hfd Hpar]; [by apply answers_ret|]. apply IH; try done.
  eapply Forall_impl; [by apply Hpar|]. intros a [Hin|Hpa] k Hk.
  - rewrite Forall_forall in Ha. apply (Ha a Hin). by right.
  - rewrite Hpa. intros [= E]. apply Hc. rewrite E. by apply list_elem_of_fmap_2.
Qed.

Lemma answers_need {A} (f : Yard -> A) {B} (k : A -> DSQL B) (Q : outcome DigError B -> Prop) :
  runs h y (k (f y)) Q -> Q (Err DeCannotTell) -> runs h y (sbind (need (query f)) k) Q.
Proof.
  intros Hk He. unfold need. eapply (runs_bind _ _ _ _ (fun o => o = Ok (f y) \/ o = Err DeCannotTell)).
  - eapply runs_answers; [apply answers_query|]. intros r [_ [->| ->]]; [apply runs_fail; by right|apply runs_ret; by left].
  - by intros a [[= ->]|[=]].
  - by intros e [[=]|[= ->]].
Qed.

Definition found_or_err (o : outcome DigError (list YNode + Walk)) : Prop :=
  match o with Ok r => found r | Err _ => True end.

Lemma runs_parking_walk children :
  NoDup (map yn_id children) -> Forall (fun c => c ∈ y_nodes y /\ of_group c) children ->
  runs h y (parking_walk laneID groupID children count asker mouth exclude) found_or_err.
Proof.
  intros Hnd Hcs. unfold parking_walk.
  eapply (runs_answers _ _ _ _ (fun g => h -> default "" g = default "" (y_props y !! (laneID, PropLaneGatePoint)))).
  { intros c Hd Hf.
    destruct (quiet_step (ask (E := DigError) (GetNodeProperty laneID PropLaneGatePoint)) c) as (p & k1 & E1 & Hd1 & Hf1);
      [apply rq_ask; unfold GetNodeProperty; reading|].
    exists p, k1. split_and!; [done|congruence|auto|]. intros Hh. specialize (Hf Hh). destruct c as [d fs]; cbn in *; subst.
    unfold ask, GetNodeProperty, sbind, slog in E1. cbn in E1. by simplify_eq. }
  intros g Hg. apply answers_need; [|done]. apply answers_need; [|done]. apply answers_need; [|done].
  assert (Hempty : found (inr (mkWalk [] [] [] [] 0))).
  { split; [|cbn; lia]. split; cbn; [constructor|constructor|apply NoDup_nil_2]. }
  eapply runs_answers; [apply answers_floor_pass; [|by apply Forall_reverse|done|done]|].
  { rewrite reverse_Permutation. exact (NoDup_fmap_1 _ _ Hnd). }
  intros [out|w] [Hfd Hpar]; [by apply runs_ret|].
  assert (Hl : answers h y (lane_pass laneID count asker mouth exclude (robot_inside y groupID) blocked entombing
    (default "" g <>s "") children w) found).
  { apply answers_lane_pass; try done; [intros Hh; by rewrite (Hg Hh)|].
    eapply Forall_impl; [by apply Hpar|]. intros a Hag k Hk. rewrite Hag. intros [= E].
    rewrite Forall_forall in Hcs. destruct (Hcs k Hk) as [Hkn Hkg]. apply (tw_parent _ Hw k Hkn). by rewrite <- E. }
  intros c Hd Hf. destruct (Hl c Hd Hf) as (r & c' & E & Hd' & Hf' & Hr). by exists (Ok r), c'.
Qed.
End Parking.

(** Bins set down one after another: (bin, node) in order. *)
Definition carry (moves : list (Z * Z)) (y : Yard) : Yard :=
  fold_left (fun y m => move_bin m.1 (Some m.2) y) moves y.

Lemma carry_nodes moves y : y_nodes (carry moves y) = y_nodes y.
Proof. revert y. induction moves as [|m ms IH]; intros y; [done|]. cbn. by rewrite IH. Qed.

Lemma reachable_carry moves y n :
  ReachableSQL y n = true ->
  (forall b d, (b, d) ∈ moves -> forall k, k ∈ y_nodes y -> yn_id k = d -> ShallowerInSameLane k n = false) ->
  ReachableSQL (carry moves y) n = true.
Proof.
  revert y. induction moves as [|[b d] ms IH]; intros y Hr Hm; [done|]. cbn. apply IH.
  - apply reachable_move; [done|]. intros k Hk [= E]. apply (Hm b d); [left|done|done].
  - intros b' d' Hin k Hk. rewrite move_nodes in Hk. apply (Hm b' d'); [by right|done].
Qed.

Lemma sorted_before {A} (R : A -> A -> Prop) l k n a :
  StronglySorted R l -> l !! k = Some n -> a ∈ take k l -> R a n.
Proof.
  intros Hs. revert k. induction Hs as [|x l Hs IH Hx]; intros [|k] Hk Ha; try done.
  - by apply elem_of_nil in Ha.
  - cbn in *. apply elem_of_cons in Ha as [->|Ha]; [|by apply (IH k)].
    rewrite Forall_forall in Hx. apply Hx, list_elem_of_In. apply list_elem_of_In. by eapply list_elem_of_lookup_2.
Qed.

Lemma unlocked_facts y groupID asker :
  table_wf y -> NoDup (map yn_id (unlocked_children y groupID asker)) /\
  Forall (fun c => c ∈ y_nodes y /\ yn_parent c = Some groupID) (unlocked_children y groupID asker).
Proof.
  intros Hw. unfold unlocked_children. split.
  - rewrite isort_perm. apply keys_filter, (tw_ids _ Hw).
  - apply Forall_forall. intros c. rewrite isort_perm. intros [Hc [Hp%claimed_is_true _]%andb_true_iff]%elem_of_lfilter. done.
Qed.

(** C19. A dig never parks where it would do harm.  Whatever statements fail, the
    search hands out exactly as many distinct places as the dig has blockers, or
    an error.  Each is enabled, unclaimed and - if it is a physical node - vacant
    with nobody on the way; it is a floor position of the group, or a reachable
    slot of an enabled lane other than the dug one, with no robot inside, whose
    mouth admits the dig, in front neither of a bin a robot is coming to collect
    nor of an empty slot one is coming to fill.  When every read was answered a
    dig out of a gated lane also stays out of other gated lanes.  And parking in
    the order given, each lane slot is still reachable when its turn comes. *)
Theorem parking_never_harms laneID groupID count asker exclude c slots c' :
  table_wf (db c) -> (1 <= count)%nat ->
  findShuffleSlots laneID groupID count asker exclude c = (Ok slots, c') ->
  length slots = count /\ NoDup slots /\
  Forall (parking (faults c = []) (db c) laneID groupID asker true exclude) slots /\
  (forall bins k n, slots !! k = Some n -> yn_parent n <> Some groupID ->
     ReachableSQL (carry (zip bins (map yn_id (take k slots))) (db c)) n = true).
Proof.
  intros Hw Hpos H. unfold findShuffleSlots, must, ListChildNodesUnlocked in H.
  destruct (answers_query (E := DigError) (faults c = []) (db c) (fun y => unlocked_children y groupID asker) c eq_refl (fun H => H))
    as (r & c1 & E1 & Hd1 & Hf1 & _ & Hr).
  unfold sbind in H at 1. rewrite (sbind_step _ _ _ _ _ E1) in H. destruct Hr as [->| ->]; [done|]. cbn [sret] in H.
  destruct (unlocked_facts (db c) groupID asker Hw) as [Hnd Hkids].
  rewrite shuffle_S in H.
  destruct (runs_parking_walk (faults c = []) (db c) laneID groupID count asker true exclude Hw Hpos _ Hnd Hkids c1 Hd1 Hf1)
    as (o & c2 & E2 & _ & _ & Ho).
  destruct o as [[out|w]|e]; cbn [found_or_err found] in Ho.
  - rewrite (sbind_step _ _ _ _ _ E2) in H. injection H as <- <-. destruct Ho as [[Hg Hs Hn] Hl]. split_and!; try done.
    intros bins k n Hk Hp. apply reachable_carry.
    + rewrite Forall_forall in Hg. destruct (Hg n) as [_ [[? _]|(lane & _ & _ & _ & Hr & _)]]; [|done|done].
      by eapply list_elem_of_lookup_2.
    + intros b d Hin m Hm Em. apply elem_of_zip_r in Hin. apply list_elem_of_fmap in Hin as (a & -> & Ha).
      assert (Hak : a ∈ y_nodes (db c)).
      { rewrite Forall_forall in Hg. destruct (Hg a) as [[Hak _] _]; [|done]. by eapply elem_of_take in Ha as (i & Hi & _); eapply list_elem_of_lookup_2. }
      assert (m = a) as -> by exact (id_inj (db c) m a (tw_ids _ Hw) Hm Hak Em).
      by destruct (sorted_before _ _ _ _ a Hs Hk Ha) as [?|?].
  - rewrite (sbind_step _ _ _ _ _ E2) in H. destruct Ho as [_ Hlt]. apply Nat.ltb_lt in Hlt as Hb. rewrite Hb in H.
    unfold sbind in H. by destruct (digHeldParking _ _ _ _ _ _ c2) as [[?|?] ?].
  - unfold sbind in H. by rewrite E2 in H.
Qed.

(** ** The plan *)

(** No retired carrier stands at this node: occupancy counts one, the list of a
    node's bins leaves it out. *)
Definition stock_in_use (y : Yard) (n : YNode) : Prop :=
  forall b, b ∈ y_bins y -> yb_node b = Some (yn_id n) -> retired b = false.

Lemma occupied_bin y n : stock_in_use y n -> occupied y n = true -> exists b rest, bins_at y (yn_id n) = b :: rest.
Proof.
  intros Hs (b & Hb & Hat)%occupied_spec.
  assert (Hin : b ∈ bins_at y (yn_id n)).
  { unfold bins_at. rewrite isort_perm. apply elem_of_lfilter. split; [done|]. unfold at_node.
    by rewrite (proj2 (claimed_is_true _ _) Hat), (Hs b Hb Hat). }
  destruct (bins_at y (yn_id n)) as [|x l]; [by apply elem_of_nil in Hin|eauto].
Qed.

Lemma must_ok {A} (f : Yard -> A) c a c' : must (query f) c = (Ok a, c') -> a = f (db c) /\ db c' = db c.
Proof.
  unfold must. destruct (ask_read (E := DigError) f c) as (r & c1 & E & Hd & Hr). rewrite (sbind_step _ _ _ _ _ E).
  destruct Hr as [->| ->]; [done|]. by intros [= <- <-].
Qed.

Lemma blocker_bins_ok slots c l c' :
  Forall (stock_in_use (db c)) slots -> Forall (fun s => occupied (db c) s = true) slots -> blocker_bins slots c = (Ok l, c') ->
  l.*2 = slots /\ Forall (fun p => p.1 ∈ y_bins (db c) /\ yb_node p.1 = Some (yn_id p.2)) l.
Proof.
  revert c l c'. induction slots as [|s slots IH]; intros c l c' Hs Hocc H; cbn [blocker_bins] in H.
  { injection H as <- <-. by split; [|constructor]. }
  apply Forall_cons in Hocc as [Ho Hocc]. apply Forall_cons in Hs as [Hs1 Hs]. apply sbind_ok in H as (bs & c1 & H1 & H).
  apply (must_ok (fun y => bins_at y (yn_id s))) in H1 as [-> Hd].
  apply sbind_ok in H as (more & c2 & H2 & H). rewrite <- Hd in Hs, Hocc.
  destruct (IH c1 more c2 Hs Hocc H2) as [E1 E2]. rewrite Hd in *.
  destruct (occupied_bin (db c) s Hs1 Ho) as (b & rest & Eb). rewrite Eb in H. injection H as <- <-. cbn. split; [by rewrite E1|].
  constructor; [|done]. cbn. apply bins_at_spec. rewrite Eb. left.
Qed.

(** After some moves a slot is occupied by a bin that was not moved, or one was
    set down there. *)
Lemma occupied_carry moves y n :
  occupied (carry moves y) n = true ->
  (exists b, b ∈ y_bins y /\ yb_node b = Some (yn_id n) /\ yb_id b ∉ moves.*1) \/ yn_id n ∈ moves.*2.
Proof.
  revert y. induction moves as [|[b d] ms IH]; intros y Ho; cbn in *.
  - apply occupied_spec in Ho as (b & Hb & Hat). left. exists b. split_and!; try done. by intros ?%elem_of_nil.
  - destruct (IH _ Ho) as [(x' & Hx & Hat & Hni)|H]; [|by right; right]. cbn in Hx.
    apply list_elem_of_fmap in Hx as (x & -> & Hx). destruct (Z.eqb_spec (yb_id x) b) as [Hb|Hb].
    + cbn in Hat. injection Hat as ->. right. left.
    + left. exists x. split_and!; try done. rewrite elem_of_cons. tauto.
Qed.

(** A slot is reachable once every bin in front of it has been carried out of the
    lane. *)
Lemma reachable_after moves y s :
  (forall d k, d ∈ moves.*2 -> k ∈ y_nodes y -> yn_id k = d -> yn_parent k <> yn_parent s) ->
  (forall n b, n ∈ y_nodes y -> ShallowerInSameLane n s = true -> b ∈ y_bins y -> yb_node b = Some (yn_id n) ->
     yb_id b ∈ moves.*1) ->
  ReachableSQL (carry moves y) s = true.
Proof.
  intros Hd Hb. apply reachable_spec. rewrite carry_nodes. intros n Hn Ho.
  destruct (ShallowerInSameLane n s) eqn:E; [|done]. apply occupied_carry in Ho as [(b & Hbin & Hat & Hni)|Hin].
  - destruct Hni. by eapply Hb.
  - destruct (Hd (yn_id n) n); try done. by apply shallower_parent.
Qed.

Lemma shallower_trans y a b t :
  NoDup (map yn_id (y_nodes y)) -> a ∈ y_nodes y -> t ∈ y_nodes y ->
  ShallowerInSameLane a b = true -> ShallowerInSameLane b t = true -> ShallowerInSameLane a t = true.
Proof.
  intros Hid Ha Ht Hab%shallower_spec Hbt%shallower_spec.
  destruct Hab as (p & da & db & P1 & P2 & _ & D1 & D2 & L1), Hbt as (p' & db' & dt & Q1 & Q2 & _ & F1 & F2 & L2).
  apply shallower_spec. exists p, da, dt. split_and!; try done; [congruence| |simplify_eq; lia].
  intros E. apply (id_inj y) in E as ->; try done. simplify_eq. lia.
Qed.

Lemma strictly_sorted {A} (key : A -> Z) l :
  StronglySorted (fun a b => (key a <= key b)%Z) l -> NoDup l -> (forall a b, a ∈ l -> b ∈ l -> key a = key b -> a = b) ->
  StronglySorted (fun a b => (key a < key b)%Z) l.
Proof.
  induction 1 as [|a l Hs IH Ha]; intros Hnd Hinj; constructor; apply NoDup_cons in Hnd as [Hna Hnd].
  - apply IH; [done|]. intros x z Hx Hz. apply Hinj; by right.
  - rewrite Forall_forall in *. intros b Hb. specialize (Ha b Hb). destruct (Z.eq_dec (key a) (key b)) as [E|E]; [|lia].
    destruct Hna. rewrite (Hinj a b); [done|left|by right|done].
Qed.

(** Blockers from the front to the back. *)
Lemma in_front_facts y lane t :
  lanes_wf y -> lane ∈ y_nodes y -> yn_class lane = NodeClassLANE -> t ∈ y_nodes y -> yn_parent t = Some (yn_id lane) ->
  (forall n, n ∈ in_front y t <-> n ∈ y_nodes y /\ occupied y n = true /\ ShallowerInSameLane n t = true) /\
  StronglySorted (fun a b => (depth0 a < depth0 b)%Z) (in_front y t).
Proof.
  intros Hw Hl Hc Ht Hp.
  assert (Hin : forall n, n ∈ in_front y t <-> n ∈ y_nodes y /\ occupied y n = true /\ ShallowerInSameLane n t = true).
  { intros n. unfold in_front. rewrite isort_perm, elem_of_lfilter. unfold LaneBlockerPredicate. rewrite andb_true_iff. done. }
  split; [done|].
  assert (Hnd : NoDup (in_front y t)).
  { unfold in_front. rewrite isort_perm. apply NoDup_filter_l. exact (NoDup_fmap_1 _ _ (lw_ids _ Hw)). }
  apply strictly_sorted; [apply by_depth_sorted|done|].
  intros a b (Ha & _ & Sa)%Hin (Hb & _ & Sb)%Hin E. pose proof (shallower_parent _ _ Sa). pose proof (shallower_parent _ _ Sb).
  apply (lw_distinct y Hw lane); try done; [congruence|congruence|].
  apply shallower_spec in Sa as (? & da & ? & _ & _ & _ & Da & _), Sb as (? & db & ? & _ & _ & _ & Db & _).
  unfold depth0 in E. rewrite Da, Db in *. cbn in E. by f_equal.
Qed.

Lemma planUnbury_ok target slot lane groupID asker c plan seq c' :
  NoDup (map yn_id (y_nodes (db c))) -> Forall (stock_in_use (db c)) (in_front (db c) slot) -> slot ∈ y_nodes (db c) ->
  planUnbury target slot lane groupID asker c = (Ok (plan, seq), c') ->
  exists blockers, plan = mkPlan target slot (unbury_steps 1 blockers) /\ seq = S (length blockers) /\
    blockers.*2 = in_front (db c) slot /\
    Forall (fun p => p.1 ∈ y_bins (db c) /\ yb_node p.1 = Some (yn_id p.2)) blockers.
Proof.
  intros Hid Hs Hslot H. unfold planUnbury in H. destruct (yn_parent slot); [|done].
  apply sbind_ok in H as (blockers & c1 & H1 & H). apply sbind_ok in H as (ps & c2 & _ & H). injection H as <- <- <-.
  exists blockers. split_and!; try done; unfold findBuriedBlockers in H1; apply sbind_ok in H1 as (slots & c3 & H1 & H2);
    unfold must in H1; apply sbind_ok in H1 as (r & c4 & H1 & H3); unfold ask in H1;
    (destruct (BlockersInFrontOf (yn_id slot) c) as [[l|e] c5] eqn:E; injection H1 as <- <-; [|done]);
    injection H3 as <- <-; apply BlockersInFrontOf_ok in E as [-> Hd]; try done;
    apply blocker_bins_ok in H2 as [E1 E2]; rewrite ?Hd in *; try done;
    apply Forall_forall; intros n Hn; unfold in_front in Hn; rewrite isort_perm in Hn;
    apply elem_of_lfilter in Hn as [_ Hb]; by apply andb_true_iff in Hb as [? _].
Qed.

Section Excavation.
Context (y : Yard) (lane slot : YNode) (blockers : list (YBin * YNode)) (dests : list Z).
Context (Hw : lanes_wf y) (Hl : lane ∈ y_nodes y) (Hc : yn_class lane = NodeClassLANE) (Hslot : slot ∈ y_nodes y).
Context (Hp : yn_parent slot = Some (yn_id lane)) (Hfront : blockers.*2 = in_front y slot).
Context (Hbins : Forall (fun p => p.1 ∈ y_bins y /\ yb_node p.1 = Some (yn_id p.2)) blockers).
Context (Hlen : length dests = length blockers).
Context (Hout : forall d k, d ∈ dests -> k ∈ y_nodes y -> yn_id k = d -> yn_parent k <> Some (yn_id lane)).

Definition dig_moves : list (Z * Z) := zip ((yb_id ∘ fst) <$> blockers) dests.

Lemma dig_moves_bins k : (take k dig_moves).*1 = take k ((yb_id ∘ fst) <$> blockers).
Proof. unfold dig_moves. rewrite fmap_take, fst_zip; [done|]. rewrite length_fmap. lia. Qed.

Lemma dig_moves_out k s : yn_parent s = Some (yn_id lane) ->
  forall d n, d ∈ (take k dig_moves).*2 -> n ∈ y_nodes y -> yn_id n = d -> yn_parent n <> yn_parent s.
Proof.
  intros Hs d n Hd Hn E. rewrite Hs. apply (Hout d); try done.
  apply list_elem_of_fmap in Hd as ([b d'] & -> & Hd). apply elem_of_take in Hd as (i & Hi & _).
  apply list_elem_of_lookup_2 in Hi. by eapply elem_of_zip_r.
Qed.

(** The bin standing at a blocker's slot is the one the plan moves. *)
Lemma blocker_moved n b : n ∈ y_nodes y -> ShallowerInSameLane n slot = true -> b ∈ y_bins y -> yb_node b = Some (yn_id n) ->
  exists j, blockers !! j = Some (b, n).
Proof.
  intros Hn Hs Hb Hat. destruct (in_front_facts y lane slot Hw Hl Hc Hslot Hp) as [Hin _].
  assert (Hmem : n ∈ blockers.*2).
  { rewrite Hfront. apply Hin. split_and!; try done. apply occupied_spec. eauto. }
  apply list_elem_of_fmap in Hmem as ([b' n'] & -> & Hmem). apply list_elem_of_lookup in Hmem as [j Hj].
  exists j. rewrite Hj. rewrite Forall_forall in Hbins. destruct (Hbins (b', n')) as [Hb' Hat']; [by eapply list_elem_of_lookup_2|].
  cbn in *. f_equal. f_equal. apply (lw_single y Hw lane n' b' b); try done. rewrite <- Hp. by apply shallower_parent.
Qed.

Lemma target_uncovered : ReachableSQL (carry dig_moves y) slot = true.
Proof.
  apply reachable_after.
  - intros d k Hd. pose proof (dig_moves_out (length dig_moves) slot Hp d k) as H. rewrite firstn_all in H. auto.
  - intros n b Hn Hs Hb Hat. destruct (blocker_moved n b Hn Hs Hb Hat) as [j Hj].
    pose proof (dig_moves_bins (length dig_moves)) as H. rewrite firstn_all in H. rewrite H.
    rewrite take_ge; [|unfold dig_moves; rewrite length_zip_with, length_fmap; lia].
    eapply list_elem_of_fmap_2'; [by eapply list_elem_of_lookup_2|done].
Qed.

Lemma each_reachable k b s : blockers !! k = Some (b, s) -> ReachableSQL (carry (take k dig_moves) y) s = true.
Proof.
  intros Hk. destruct (in_front_facts y lane slot Hw Hl Hc Hslot Hp) as [Hin Hsort].
  assert (Hs : s ∈ y_nodes y /\ occupied y s = true /\ ShallowerInSameLane s slot = true).
  { apply Hin. rewrite <- Hfront. apply list_elem_of_fmap. exists (b, s). split; [done|]. by eapply list_elem_of_lookup_2. }
  destruct Hs as (Hsn & _ & Hss). assert (Hsp : yn_parent s = Some (yn_id lane)) by (rewrite <- Hp; by apply shallower_parent).
  apply reachable_after; [by apply dig_moves_out|]. intros n x Hn Hns Hx Hat.
  assert (Hnt : ShallowerInSameLane n slot = true) by (eapply (shallower_trans y n s slot); try done; apply (lw_ids _ Hw)).
  destruct (blocker_moved n x Hn Hnt Hx Hat) as [j Hj]. rewrite dig_moves_bins.
  assert (Hjk : (j < k)%nat).
  { apply shallower_depth in Hns. rewrite <- Hfront in Hsort.
    assert (Hlk : forall i p, blockers !! i = Some p -> blockers.*2 !! i = Some p.2) by (intros i p E; by rewrite list_lookup_fmap, E).
    destruct (Nat.lt_trichotomy j k) as [?|[->|Hgt]]; [done|simplify_eq; lia|].
    assert (Hlt : (depth0 s < depth0 n)%Z); [|lia].
    apply (sorted_before _ _ j n s Hsort (Hlk _ _ Hj)). apply elem_of_take. exists k. split; [exact (Hlk _ _ Hk)|done]. }
  apply elem_of_take. exists j. split; [|done]. by rewrite list_lookup_fmap, Hj.
Qed.
End Excavation.

(** C18. Carrying out a dig plan uncovers the target.  In a lane whose slots have
    their own depths and hold at most one bin each, and with no retired bin standing
    in front of the target (the plan takes such a bin for an obstacle and then
    forgets it), a retrieve plan consists of one unbury step for every bin in front
    of the target, from the mouth inwards and numbered from 1, and then the
    retrieve.  Whatever places outside the lane the blockers
    are taken to, each of them can be reached when its turn comes, and at the end
    the target can. *)
Theorem plan_uncovers_target target slot lane groupID asker c plan c' :
  lanes_wf (db c) -> Forall (stock_in_use (db c)) (in_front (db c) slot) -> lane ∈ y_nodes (db c) -> yn_class lane = NodeClassLANE ->
  slot ∈ y_nodes (db c) -> yn_parent slot = Some (yn_id lane) ->
  PlanReshuffle target slot lane groupID asker c = (Ok plan, c') ->
  exists blockers,
    pl_steps plan = unbury_steps 1 blockers ++ [mkStep (S (length blockers)) StepRetrieve (yb_id target) slot None] /\
    (forall n, n ∈ blockers.*2 <-> n ∈ y_nodes (db c) /\ LaneBlockerPredicate (db c) n slot = true) /\
    StronglySorted (fun a b => (depth0 a < depth0 b)%Z) blockers.*2 /\
    forall dests, length dests = length blockers ->
      (forall d k, d ∈ dests -> k ∈ y_nodes (db c) -> yn_id k = d -> yn_parent k <> Some (yn_id lane)) ->
      (forall k b s, blockers !! k = Some (b, s) -> ReachableSQL (carry (take k (dig_moves blockers dests)) (db c)) s = true) /\
      ReachableSQL (carry (dig_moves blockers dests) (db c)) slot = true.
Proof.
  intros Hw Hs Hl Hc Hslot Hp H. unfold PlanReshuffle in H. apply sbind_ok in H as ([p seq] & c1 & H1 & H).
  apply planUnbury_ok in H1 as (blockers & -> & -> & Hf & Hb); [|apply (lw_ids _ Hw)|done|done]. injection H as <- <-.
  destruct (in_front_facts (db c) lane slot Hw Hl Hc Hslot Hp) as [Hin Hsort]. exists blockers. split_and!; [done| |by rewrite Hf|].
  - intros n. rewrite Hf, Hin. unfold LaneBlockerPredicate. by rewrite andb_true_iff.
  - intros dests Hlen Hout. split; [intros k b s; by apply (each_reachable (db c) lane slot)|by apply (target_uncovered (db c) lane slot)].
Qed.

(** ** The demo yard, with no order on its way *)

Definition idle_yard : Yard := mkYard (y_nodes demo_yard) (y_bins demo_yard) [] [] no_props [] [] [].

Lemma idle_table_wf : table_wf idle_yard.
Proof.
  split; [apply demo_yard_ids|..].
  - intros n m Hn Hm E. each_row Hn; each_row Hm; first [reflexivity|discriminate E].
  - intros n Hn. each_row Hn; done.
  - intros n Hn. each_row Hn; done.
Qed.

Lemma idle_lanes_wf : lanes_wf idle_yard.
Proof. destruct (demo_lanes_wf no_props []) as [H1 H2 H3 H4]. by split. Qed.

Lemma parking_never_harms_witness :
  findShuffleSlots 10 1 2 Anyone (fun _ => false) (calm idle_yard) =
    (Ok [mkYNode 30 "P1" false true None "" (Some 1%Z) None; yslot 21 "S21" 20 1], calm idle_yard) /\
  parking True idle_yard 10 1 Anyone true (fun _ => false) (yslot 21 "S21" 20 1) /\
  ReachableSQL (carry [(101, 30)%Z] idle_yard) (yslot 21 "S21" 20 1) = true.
Proof.
  assert (E : findShuffleSlots 10 1 2 Anyone (fun _ => false) (calm idle_yard) =
    (Ok [mkYNode 30 "P1" false true None "" (Some 1%Z) None; yslot 21 "S21" 20 1], calm idle_yard))
    by (vm_compute; reflexivity).
  destruct (parking_never_harms 10 1 2 Anyone (fun _ => false) (calm idle_yard) _ _ idle_table_wf ltac:(lia) E) as (_ & _ & H1 & H2).
  split; [exact E|]. split.
  - apply Forall_cons in H1 as [_ H1]. apply Forall_cons in H1 as [[Hsp [[Hg _]|(lane & Hl & H)]] _]; [discriminate Hg|].
    split; [exact Hsp|]. right. exists lane. split; [|exact H].
    destruct Hl as [K1 K2 K3 K4 K5 K6 K7]. split; try assumption. intros _. apply K7. reflexivity.
  - apply (H2 [101%Z] 1%nat); [reflexivity|discriminate].
Defined.

Lemma plan_uncovers_target_witness :
  PlanReshuffle (ybin 100 13 "A" 5) (yslot 13 "S13" 10 3) (ylane 10 "L1" 1) 1 Anyone (calm idle_yard) =
    (Ok (mkPlan (Some (ybin 100 13 "A" 5)) (yslot 13 "S13" 10 3)
       [mkStep 1 StepUnbury 101 (yslot 12 "S12" 10 2) None; mkStep 2 StepRetrieve 100 (yslot 13 "S13" 10 3) None]),
     calm idle_yard) /\
  exists blockers, unbury_steps 1 blockers = [mkStep 1 StepUnbury 101 (yslot 12 "S12" 10 2) None] /\
    ReachableSQL (carry (dig_moves blockers [30%Z]) idle_yard) (yslot 13 "S13" 10 3) = true.
Proof.
  assert (E : PlanReshuffle (ybin 100 13 "A" 5) (yslot 13 "S13" 10 3) (ylane 10 "L1" 1) 1 Anyone (calm idle_yard) =
    (Ok (mkPlan (Some (ybin 100 13 "A" 5)) (yslot 13 "S13" 10 3)
       [mkStep 1 StepUnbury 101 (yslot 12 "S12" 10 2) None; mkStep 2 StepRetrieve 100 (yslot 13 "S13" 10 3) None]),
     calm idle_yard)) by (vm_compute; reflexivity).
  assert (Hs : Forall (stock_in_use idle_yard) (in_front idle_yard (yslot 13 "S13" 10 3))).
  { apply Forall_forall. intros n _ b Hb _. each_row Hb; reflexivity. }
  destruct (plan_uncovers_target (ybin 100 13 "A" 5) (yslot 13 "S13" 10 3) (ylane 10 "L1" 1) 1 Anyone (calm idle_yard) _ _
    idle_lanes_wf Hs ltac:(in_row) eq_refl ltac:(in_row) eq_refl E) as (blockers & H1 & _ & _ & H4).
  split; [exact E|]. exists blockers. cbn [pl_steps] in H1.
  change [?a; ?b] with ([a] ++ [b]) in H1. apply app_inj_tail in H1 as [H1 _]. split; [exact (eq_sym H1)|].
  apply H4.
  - destruct blockers as [|x [|z l]]; [discriminate H1|reflexivity|destruct x, z; discriminate H1].
  - intros d k Hd Hk Ek. apply list_elem_of_singleton in Hd as ->. each_row Hk; first [discriminate Ek|discriminate].
Defined.

(** The same lane with a retired bin at its mouth.  It stands in the way of the
    target, but the plan, made from the lists of bins in use, has no step for it:
    when all of the plan has been carried out the target is still walled in. *)
Definition retired_yard : Yard :=
  mkYard (y_nodes demo_yard)
    (mkYBin 103 (Some 11%Z) "retired" None false true "" "T1" None 0 :: y_bins demo_yard) [] [] no_props [] [] [].

Example retired_bin_stays_in_the_way :
  PlanReshuffle (ybin 100 13 "A" 5) (yslot 13 "S13" 10 3) (ylane 10 "L1" 1) 1 Anyone (calm retired_yard) =
    (Ok (mkPlan (Some (ybin 100 13 "A" 5)) (yslot 13 "S13" 10 3)
       [mkStep 1 StepUnbury 101 (yslot 12 "S12" 10 2) None; mkStep 2 StepRetrieve 100 (yslot 13 "S13" 10 3) None]),
     calm retired_yard) /\
  LaneBlockerPredicate retired_yard (yslot 11 "S11" 10 1) (yslot 13 "S13" 10 3) = true /\
  ReachableSQL retired_yard (yslot 12 "S12" 10 2) = false /\
  ReachableSQL (carry [(101, 30)%Z] retired_yard) (yslot 13 "S13" 10 3) = false.
Proof. split_and!; vm_compute; reflexivity. Qed.
