(* ===== verification/GatedPlan.v ===== *)
(** Plans of fleet work: the resolved steps of an order, how they are cut at the
    waits into the segments a robot is given one at a time, and the fleet blocks
    each segment becomes (dispatch/complex.go, complex_steps.go, plan_simple.go,
    lane_gate_release.go, dig_dwell.go, fleet/seerrds/mappers.go).

    [steps_json] is the plan itself here; a stored plan that cannot be parsed is
    [Garbled].  Positions in a plan are [nat], the [int] counters of the source
    ([wait_index], block numbers) are [Z]. *)

From Stdlib Require Import Ascii.
From stdpp Require Import pretty.
From S2P Require Import Prelude.

(** ** Steps *)

Record resolvedStep := mkStep {
  ps_action : string; ps_node : string; ps_group : string; ps_empty : bool; ps_exclusive : bool;
  ps_kind : string; ps_lane : Z }.

#[export] Instance resolvedStep_eq_dec : EqDecision resolvedStep.
Proof. solve_decision. Defined.

Definition noStep : resolvedStep := mkStep "" "" "" false false "" 0.

Definition ActionPickup : string := "pickup".
Definition ActionDropoff : string := "dropoff".
Definition ActionWait : string := "wait".
Definition WaitKindLane : string := "lane".
Definition WaitKindStation : string := "station".

Definition is_wait (s : resolvedStep) : bool := ps_action s =s ActionWait.
Definition actionable (s : resolvedStep) : bool := (ps_action s =s ActionPickup) || (ps_action s =s ActionDropoff).
Definition lane_wait (s : resolvedStep) : bool := is_wait s && (ps_kind s =s WaitKindLane).

Definition IsStationWait (kind : string) : bool := (kind =s WaitKindStation) || (kind =s "").

Definition buildTransportPlan (sourceNode deliveryNode : string) (emptyPickup : bool) : list resolvedStep :=
  [mkStep ActionPickup sourceNode "" emptyPickup false "" 0; mkStep ActionDropoff deliveryNode "" false false "" 0].

(** The first and the last actionable node; a blank first node is passed over. *)
Definition extractEndpoints (steps : list resolvedStep) : string * string :=
  fold_left (fun '(pickup, delivery) s =>
    if actionable s then ((if pickup =s "" then ps_node s else pickup), ps_node s) else (pickup, delivery))
    steps ("", "").

(** ** Waits and segments *)

(** Steps up to the first wait; the wait itself is kept when it names a node. *)
Fixpoint splitAtWait (steps : list resolvedStep) : list resolvedStep * bool :=
  match steps with
  | [] => ([], false)
  | s :: rest =>
      if is_wait s then (if ps_node s <>s "" then [s] else [], true)
      else let '(pre, w) := splitAtWait rest in (s :: pre, w)
  end.

(** The steps through the [want]-th wait, and those after it. *)
Fixpoint through_wait (seen want : Z) (steps : list resolvedStep) : option (list resolvedStep * list resolvedStep) :=
  match steps with
  | [] => None
  | s :: rest =>
      if is_wait s && (seen + 1 =i want) then Some ([s], rest)
      else match through_wait (if is_wait s then seen + 1 else seen)%Z want rest with
           | Some (before, after) => Some (s :: before, after)
           | None => None
           end
  end.

Definition emits (s : resolvedStep) : bool := negb (is_wait s) || (ps_node s <>s "").

(** Segment ([None] = nil), more waits, block offset.  The search for the
    segment's end is the walk of [splitAtWait]. *)
Definition splitSegment (steps : list resolvedStep) (waitIndex : Z) : option (list resolvedStep) * bool * Z :=
  match through_wait 0 (waitIndex + 1) steps with
  | None => (None, false, 0%Z)
  | Some (before, after) =>
      let '(segment, moreWaits) := splitAtWait after in
      (Some segment, moreWaits, Z.of_nat (length (List.filter emits before)))
  end.

Fixpoint wait_from (seen waitIndex : Z) (steps : list resolvedStep) : option resolvedStep :=
  match steps with
  | [] => None
  | s :: rest =>
      if negb (is_wait s) then wait_from seen waitIndex rest
      else if seen =i waitIndex then Some s else wait_from (seen + 1) waitIndex rest
  end.

Definition waitAt (steps : list resolvedStep) (waitIndex : Z) : option resolvedStep :=
  if (waitIndex <? 0)%Z then None else wait_from 0 waitIndex steps.

(** The position just past the wait at [waitIndex]. *)
Fixpoint after_wait (i : nat) (seen waitIndex : Z) (steps : list resolvedStep) : option nat :=
  match steps with
  | [] => None
  | s :: rest =>
      if negb (is_wait s) then after_wait (S i) seen waitIndex rest
      else if seen =i waitIndex then Some (S i) else after_wait (S i) (seen + 1) waitIndex rest
  end.

Fixpoint first_actionable (i : nat) (steps : list resolvedStep) : option (resolvedStep * nat * bool) :=
  match steps with
  | [] => None
  | s :: rest =>
      if ps_action s =s ActionPickup then Some (s, i, true)
      else if ps_action s =s ActionDropoff then Some (s, i, false)
      else first_actionable (S i) rest
  end.

(** The step, its position, and whether it picks up. *)
Definition laneEntryAfterWait (steps : list resolvedStep) (waitIndex : Z) : option (resolvedStep * nat * bool) :=
  match after_wait 0 0 waitIndex steps with
  | None => None
  | Some start => first_actionable start (drop start steps)
  end.

Definition waitGatesAnAppend (steps : list resolvedStep) (waitIndex : Z) : bool :=
  match waitAt steps waitIndex with
  | Some w => (ps_kind w =s WaitKindLane) && negb (bool_decide (is_Some (laneEntryAfterWait steps waitIndex)))
  | None => false
  end.

(** ** The stored plan *)

Inductive Stored := NoPlan | Garbled | Plan (steps : list resolvedStep).

Definition CoreOwnsWaitAt (stored : Stored) (waitIndex : Z) : bool :=
  match stored with
  | NoPlan | Garbled => false
  | Plan steps =>
      match waitAt steps waitIndex with
      | Some w => negb (IsStationWait (ps_kind w))
      | None => false
      end
  end.

(** [vendorOrderID], [steps_json] and [wait_index] of a row that exists. *)
Definition IsGateStaged (vendorOrderID : string) (stored : Stored) (waitIndex : Z) : bool :=
  if vendorOrderID =s "" then false
  else match stored with
  | NoPlan | Garbled => false
  | Plan steps =>
      match waitAt steps waitIndex with
      | Some w => ps_kind w =s WaitKindLane
      | None => false
      end
  end.

(** ** Blocks *)

Record OrderBlock := mkOrderBlock { bk_id : string; bk_location : string; bk_task : string }.

#[export] Instance OrderBlock_eq_dec : EqDecision OrderBlock.
Proof. solve_decision. Defined.

Definition BinTaskForAction (action : string) : string :=
  if action =s ActionPickup then "JackLoad"
  else if action =s ActionDropoff then "JackUnload"
  else if action =s ActionWait then "Wait" else "".

Definition mintBlockID (vendorOrderID : string) (n : Z) : string := vendorOrderID +:+ "-b" +:+ pretty n.

(** The load leg, one block per task at the same location. *)
Definition load_blocks (vendorOrderID : string) (base : Z) (location : string) (loadSeq : list string) : list OrderBlock :=
  imap (fun k task =>
    let id := mintBlockID vendorOrderID base in
    mkOrderBlock (if (0 <? k)%nat then id +:+ "-" +:+ pretty k else id) location task) loadSeq.

Fixpoint blocks_from (vendorOrderID : string) (blockOffset : Z) (loadSeq : list string) (i : nat) (loadExpanded : bool)
    (steps : list resolvedStep) : list OrderBlock :=
  match steps with
  | [] => []
  | s :: rest =>
      if is_wait s && (ps_node s =s "") then blocks_from vendorOrderID blockOffset loadSeq (S i) loadExpanded rest
      else
        let base := (blockOffset + Z.of_nat i + 1)%Z in
        if negb (length loadSeq =? 0)%nat && negb loadExpanded && (ps_action s =s ActionPickup)
        then load_blocks vendorOrderID base (ps_node s) loadSeq
               ++ blocks_from vendorOrderID blockOffset loadSeq (S i) true rest
        else mkOrderBlock (mintBlockID vendorOrderID base) (ps_node s) (BinTaskForAction (ps_action s))
               :: blocks_from vendorOrderID blockOffset loadSeq (S i) loadExpanded rest
  end.

Definition stepsToBlocks (vendorOrderID : string) (steps : list resolvedStep) (blockOffset : Z)
    (loadSeq : list string) : list OrderBlock :=
  blocks_from vendorOrderID blockOffset loadSeq 0 false steps.

(** The doc comment of [splitSegment] on its own example. *)
Definition at_ (action node : string) : resolvedStep := mkStep action node "" false false "" 0.
Definition doc_plan : list resolvedStep :=
  [at_ ActionPickup "A"; at_ ActionDropoff "B"; at_ ActionWait "C"; at_ ActionPickup "D"; at_ ActionDropoff "E";
   at_ ActionWait ""; at_ ActionPickup "F"; at_ ActionDropoff "G"].

Example doc_plan_segments :
  splitSegment doc_plan 0 = (Some [at_ ActionPickup "D"; at_ ActionDropoff "E"], true, 3%Z) /\
  splitSegment doc_plan 1 = (Some [at_ ActionPickup "F"; at_ ActionDropoff "G"], false, 5%Z) /\
  splitSegment doc_plan 2 = (None, false, 0%Z).
Proof. done. Qed.

(** ** What the cuts add up to *)

(** The plan cut after each wait; a wait without a node is dropped. *)
Fixpoint chunks (steps : list resolvedStep) : list (list resolvedStep) :=
  match steps with
  | [] => [[]]
  | s :: rest =>
      if is_wait s then (if emits s then [s] else []) :: chunks rest
      else match chunks rest with
           | c :: cs => (s :: c) :: cs
           | [] => [[s]]
           end
  end.

Definition waits (steps : list resolvedStep) : nat := length (List.filter is_wait steps).

(** Blocks numbered on from [n]. *)
Fixpoint numbered (v : string) (n : Z) (steps : list resolvedStep) : list OrderBlock :=
  match steps with
  | [] => []
  | s :: rest => mkOrderBlock (mintBlockID v n) (ps_node s) (BinTaskForAction (ps_action s)) :: numbered v (n + 1) rest
  end.

(** What the fleet has been sent after the create and [k] releases. *)
Definition issued (v : string) (loadSeq : list string) (steps : list resolvedStep) (k : nat) : list OrderBlock :=
  stepsToBlocks v (splitAtWait steps).1 0 loadSeq ++
  concat (map (fun i => let '(segment, _, offset) := splitSegment steps (Z.of_nat i) in
                 stepsToBlocks v (default [] segment) offset []) (seq 0 k)).

Section Cuts.
Implicit Types steps : list resolvedStep.

Lemma chunks_length steps : length (chunks steps) = S (waits steps).
Proof.
  unfold waits. induction steps as [|s l IH]; [done|]. cbn. destruct (is_wait s); cbn; [by rewrite IH|].
  destruct (chunks l); cbn in *; lia.
Qed.

Lemma chunks_cons steps : exists c cs, chunks steps = c :: cs /\ length cs = waits steps.
Proof. pose proof (chunks_length steps) as H. destruct (chunks steps) as [|c cs]; [done|]. exists c, cs. split; [done|]. cbn in H. lia. Qed.

Lemma chunks_concat steps : concat (chunks steps) = List.filter emits steps.
Proof.
  induction steps as [|s l IH]; [done|]. cbn. destruct (is_wait s) eqn:Ew.
  - cbn. rewrite IH. by destruct (emits s).
  - unfold emits at 1. rewrite Ew. cbn. destruct (chunks_cons l) as (c & cs & Hc & _). rewrite Hc in *. cbn in *.
    by rewrite IH.
Qed.

Lemma chunks_emit steps c : c ∈ chunks steps -> forall s, s ∈ c -> emits s = true.
Proof.
  intros Hc s Hs. assert (Hin : s ∈ concat (chunks steps)).
  { apply list_elem_of_In, in_concat. exists c. by rewrite <- !list_elem_of_In. }
  rewrite chunks_concat in Hin. by apply elem_of_lfilter in Hin as [_ ?].
Qed.

Lemma split_chunk steps : splitAtWait steps = (default [] (chunks steps !! 0%nat), (0 <? waits steps)%nat).
Proof.
  unfold waits. induction steps as [|s l IH]; [done|]. cbn. destruct (is_wait s) eqn:Ew; cbn.
  - unfold emits. rewrite Ew. done.
  - rewrite IH. destruct (chunks_cons l) as (c & cs & Hc & _). by rewrite Hc.
Qed.

Lemma through_chunks steps seen k :
  (0 <= k)%nat ->
  match through_wait seen (seen + 1 + Z.of_nat k) steps with
  | Some (before, after) =>
      (k < waits steps)%nat /\ steps = before ++ after /\ chunks after = drop (S k) (chunks steps) /\
      List.filter emits before = concat (take (S k) (chunks steps)) /\ waits before = S k
  | None => (waits steps <= k)%nat
  end.
Proof.
  revert seen k. unfold waits. induction steps as [|s l IH]; intros seen k Hk; [cbn; lia|]. cbn.
  destruct (is_wait s) eqn:Ew; cbn.
  - destruct k as [|k].
    { rewrite (proj2 (Z.eqb_eq _ _)) by lia. cbn. rewrite Ew. split_and!; try done; try lia.
      by destruct (emits s). }
    rewrite (proj2 (Z.eqb_neq _ _)) by lia.
    specialize (IH (seen + 1)%Z k ltac:(lia)). replace (seen + 1 + Z.of_nat (S k))%Z with (seen + 1 + 1 + Z.of_nat k)%Z by lia.
    destruct (through_wait _ _ l) as [[before after]|]; cbn in *; [|lia].
    destruct IH as (H1 & -> & H3 & H4 & H5). rewrite Ew. cbn. split_and!; try done; [lia| |by rewrite H5].
    by destruct (emits s); cbn; rewrite H4.
  - specialize (IH seen k Hk). destruct (through_wait _ _ l) as [[before after]|]; [|done].
    destruct IH as (H1 & -> & H3 & H4 & H5). destruct (chunks_cons (before ++ after)) as (c & cs & Hc & _). rewrite Hc in *.
    cbn. rewrite Ew. unfold emits at 1. rewrite Ew. cbn. split_and!; try done. by rewrite H4.
Qed.

(** Each release hands out the next chunk, with the number of blocks already out. *)
Lemma segment_chunk steps (k : nat) :
  splitSegment steps (Z.of_nat k) =
    if (k <? waits steps)%nat
    then (chunks steps !! S k, (S k <? waits steps)%nat, Z.of_nat (length (concat (take (S k) (chunks steps)))))
    else (None, false, 0%Z).
Proof.
  unfold splitSegment. pose proof (through_chunks steps 0 k ltac:(lia)) as H.
  replace (0 + 1 + Z.of_nat k)%Z with (Z.of_nat k + 1)%Z in H by lia.
  destruct (through_wait 0 _ steps) as [[before after]|].
  - destruct H as (H1 & Hs & H3 & H4 & H5). rewrite (proj2 (Nat.ltb_lt _ _) H1), split_chunk, H3, H4, lookup_drop, Nat.add_0_r.
    destruct (lookup_lt_is_Some_2 (chunks steps) (S k)) as [c Hc]; [rewrite chunks_length; lia|]. rewrite Hc.
    replace (0 <? waits after)%nat with (S k <? waits steps)%nat; [done|].
    rewrite Hs. unfold waits in *. rewrite List.filter_app, length_app, H5.
    destruct (Nat.ltb_spec 0 (length (List.filter is_wait after))), (Nat.ltb_spec (S k) (S k + length (List.filter is_wait after))); lia.
  - by rewrite (proj2 (Nat.ltb_ge _ _) H).
Qed.

Lemma through_early steps seen want : (want <= seen)%Z -> through_wait seen want steps = None.
Proof.
  revert seen. induction steps as [|s l IH]; intros seen H; [done|]. cbn.
  rewrite (proj2 (Z.eqb_neq _ _)), andb_false_r by lia. by rewrite IH by (destruct (is_wait s); lia).
Qed.

Lemma segment_negative steps k : (k < 0)%Z -> splitSegment steps k = (None, false, 0%Z).
Proof. intros H. unfold splitSegment. by rewrite through_early by lia. Qed.

Lemma wait_at_found steps seen (k : nat) : is_Some (wait_from seen (seen + Z.of_nat k) steps) <-> (k < waits steps)%nat.
Proof.
  revert seen k. unfold waits. induction steps as [|s l IH]; intros seen k; cbn; [split; [by intros [? ?]|lia]|].
  destruct (is_wait s); cbn; [|apply IH]. destruct k as [|k].
  - rewrite (proj2 (Z.eqb_eq _ _)) by lia. split; [lia|eauto].
  - rewrite (proj2 (Z.eqb_neq _ _)) by lia.
    replace (seen + Z.of_nat (S k))%Z with (seen + 1 + Z.of_nat k)%Z by lia. rewrite IH. lia.
Qed.
End Cuts.

(** ** Block numbers *)

Lemma numbered_app v n a b : numbered v n (a ++ b) = numbered v n a ++ numbered v (n + Z.of_nat (length a)) b.
Proof.
  revert n. induction a as [|s a IH]; intros n; cbn; [by rewrite Z.add_0_r|].
  rewrite IH. by replace (n + 1 + Z.of_nat (length a))%Z with (n + Z.of_nat (S (length a)))%Z by lia.
Qed.

Lemma bare_not_emits s : emits s = true -> is_wait s && (ps_node s =s "") = false.
Proof. unfold emits. by destruct (is_wait s), (ps_node s =s ""). Qed.

(** With nothing left to expand, blocks are numbered by position. *)
Lemma blocks_plain v off loadSeq i x l :
  loadSeq = [] \/ x = true -> (forall s, s ∈ l -> emits s = true) ->
  blocks_from v off loadSeq i x l = numbered v (off + Z.of_nat i + 1) l.
Proof.
  intros Hx. revert i. induction l as [|s l IH]; intros i Hl; [done|]. cbn.
  rewrite bare_not_emits by (apply Hl; left).
  replace (negb (length loadSeq =? 0)%nat && negb x) with false by (destruct Hx as [->| ->]; cbn; by rewrite ?andb_false_r).
  cbn. rewrite IH by (intros t Ht; apply Hl; by right).
  by replace (off + Z.of_nat (S i) + 1)%Z with (off + Z.of_nat i + 1 + 1)%Z by lia.
Qed.

(** The create with a load sequence: numbered but for the first pickup. *)
Inductive loaded (v : string) (loadSeq : list string) : Z -> list resolvedStep -> list OrderBlock -> Prop :=
| loaded_none n l : loaded v loadSeq n l (numbered v n l)
| loaded_at n pre s post :
    loaded v loadSeq n (pre ++ s :: post)
      (numbered v n pre ++ load_blocks v (n + Z.of_nat (length pre)) (ps_node s) loadSeq
       ++ numbered v (n + Z.of_nat (length pre) + 1) post).

Lemma blocks_loaded v off loadSeq i l :
  (forall s, s ∈ l -> emits s = true) -> loaded v loadSeq (off + Z.of_nat i + 1) l (blocks_from v off loadSeq i false l).
Proof.
  revert i. induction l as [|s l IH]; intros i Hl; [constructor|]. cbn.
  rewrite bare_not_emits by (apply Hl; left). assert (Hl' : forall t, t ∈ l -> emits t = true) by (intros t Ht; apply Hl; by right).
  case_match.
  - rewrite blocks_plain by auto. pose proof (loaded_at v loadSeq (off + Z.of_nat i + 1) [] s l) as HL. cbn in HL.
    rewrite Z.add_0_r in HL.
    by replace (off + Z.of_nat (S i) + 1)%Z with (off + Z.of_nat i + 1 + 1)%Z by lia.
  - specialize (IH (S i) Hl'). replace (off + Z.of_nat (S i) + 1)%Z with (off + Z.of_nat i + 1 + 1)%Z in IH by lia.
    revert IH. generalize (off + Z.of_nat i + 1)%Z. intros n IH. remember (n + 1)%Z as m eqn:Em.
    destruct IH as [m l|m pre t post]; subst; [apply (loaded_none v loadSeq _ (s :: l))|].
    pose proof (loaded_at v loadSeq n (s :: pre) t post) as HL. cbn in HL.
    by replace (n + 1 + Z.of_nat (length pre))%Z with (n + Z.of_nat (S (length pre)))%Z by lia.
Qed.

Lemma segments_numbered v steps a k :
  (a + k <= waits steps)%nat ->
  concat (map (fun i => let '(segment, _, offset) := splitSegment steps (Z.of_nat i) in
            stepsToBlocks v (default [] segment) offset []) (seq a k)) =
  numbered v (Z.of_nat (length (concat (take (S a) (chunks steps)))) + 1) (concat (take k (drop (S a) (chunks steps)))).
Proof.
  revert a. induction k as [|k IH]; intros a H; [done|]. cbn [seq map concat].
  rewrite segment_chunk, (proj2 (Nat.ltb_lt _ _)) by lia.
  destruct (lookup_lt_is_Some_2 (chunks steps) (S a)) as [c Hc]; [rewrite chunks_length; lia|].
  rewrite Hc, IH by lia. cbn [default]. unfold stepsToBlocks.
  rewrite blocks_plain; [|by left|by apply (chunks_emit steps), list_elem_of_lookup; eauto].
  rewrite (drop_S _ _ _ Hc), (take_S_r _ _ _ Hc). cbn. rewrite concat_app, length_app, numbered_app. cbn. rewrite app_nil_r.
  f_equal; [f_equal; lia|f_equal; lia].
Qed.

Lemma create_chunk v loadSeq steps :
  exists c, chunks steps !! 0%nat = Some c /\
    loaded v loadSeq 1 c (stepsToBlocks v (splitAtWait steps).1 0 loadSeq) /\
    (loadSeq = [] -> stepsToBlocks v (splitAtWait steps).1 0 loadSeq = numbered v 1 c).
Proof.
  destruct (chunks_cons steps) as (c & cs & Hc & _). exists c. rewrite split_chunk, Hc. cbn.
  assert (He : forall s, s ∈ c -> emits s = true) by (apply (chunks_emit steps); rewrite Hc; left).
  split; [done|]. split; [apply (blocks_loaded v 0 loadSeq 0 c He)|]. intros ->. unfold stepsToBlocks.
  by rewrite blocks_plain by auto.
Qed.

Lemma issued_shape v loadSeq steps k :
  (k <= waits steps)%nat ->
  exists c bs, chunks steps !! 0%nat = Some c /\ loaded v loadSeq 1 c bs /\ (loadSeq = [] -> bs = numbered v 1 c) /\
    issued v loadSeq steps k = bs ++ numbered v (1 + Z.of_nat (length c)) (concat (take k (drop 1 (chunks steps)))).
Proof.
  intros Hk. destruct (create_chunk v loadSeq steps) as (c & Hc & Hl & Hp). exists c. eexists. split_and!; [done|exact Hl|exact Hp|].
  unfold issued. f_equal. rewrite segments_numbered by lia. rewrite (take_S_r _ _ _ Hc). rewrite take_0.
  cbn [app concat]. rewrite app_nil_r. f_equal. lia.
Qed.

Lemma issued_whole v steps : issued v [] steps (waits steps) = numbered v 1 (List.filter emits steps).
Proof.
  destruct (issued_shape v [] steps (waits steps) ltac:(lia)) as (c & bs & Hc & _ & Hb & ->).
  rewrite Hb by done. destruct (chunks_cons steps) as (c' & cs & Hcs & Hlen). rewrite Hcs in *. cbn in Hc. simplify_eq.
  change (drop 1 (c :: cs)) with cs. rewrite take_ge by lia. rewrite <- chunks_concat, Hcs. cbn. by rewrite numbered_app.
Qed.

(** *** Ids *)

Definition dash : ascii := "-"%char.

Fixpoint no_dash (s : string) : bool :=
  match s with
  | EmptyString => true
  | String a r => negb (Ascii.eqb a dash) && no_dash r
  end.

Lemma no_dash_digits x s : no_dash s = true -> no_dash (pretty_N_go x s) = true.
Proof.
  revert s. induction (N.lt_wf_0 x) as [x _ IH]; intros s Hs.
  assert (x = 0 \/ 0 < x)%N as [->|Hx] by lia; [by rewrite pretty_N_go_0|].
  rewrite pretty_N_go_step by done. apply IH; [by apply N.div_lt|]. cbn.
  rewrite Hs, andb_true_r. unfold pretty_N_char. by repeat case_match.
Qed.

Lemma no_dash_pretty (z : Z) : (0 <= z)%Z -> no_dash (pretty z) = true.
Proof.
  assert (HN : forall n : N, no_dash (pretty n) = true).
  { intros n. unfold pretty, pretty_N. case_decide; [done|]. by apply no_dash_digits. }
  intros Hz. destruct z; [done|apply HN|lia].
Qed.

Lemma no_dash_app a b : no_dash (a +:+ b) = no_dash a && no_dash b.
Proof. induction a as [|c a IH]; [done|]. change (String c a +:+ b) with (String c (a +:+ b)). cbn. by rewrite IH, andb_assoc. Qed.

Lemma sapp_assoc (a b c : string) : (a +:+ b) +:+ c = a +:+ (b +:+ c).
Proof. induction a as [|x a IH]; [done|]. change (String x ((a +:+ b) +:+ c) = String x (a +:+ (b +:+ c))). by rewrite IH. Qed.

Lemma sapp_nil_r (a : string) : a +:+ "" = a.
Proof. induction a as [|x a IH]; [done|]. change (String x (a +:+ "") = String x a). by rewrite IH. Qed.

Lemma mint_inj v n m : mintBlockID v n = mintBlockID v m -> n = m.
Proof. unfold mintBlockID. intros H%(inj (String.app v))%(inj (String.app "-b")). by apply (inj pretty) in H. Qed.

(** A suffixed id is no plain id. *)
Lemma mint_suffix v n m x : (0 <= m)%Z -> mintBlockID v n +:+ "-" +:+ x <> mintBlockID v m.
Proof.
  intros Hm H. unfold mintBlockID in H. rewrite !sapp_assoc in H.
  apply (inj (String.app v)), (inj (String.app "-b")) in H.
  assert (Hd : no_dash (pretty n +:+ "-" +:+ x) = true) by (rewrite H; by apply no_dash_pretty).
  rewrite !no_dash_app, andb_true_iff in Hd. by destruct Hd as [_ ?].
Qed.

Lemma numbered_ids v n l b :
  b ∈ map bk_id (numbered v n l) -> exists m, (n <= m < n + Z.of_nat (length l))%Z /\ b = mintBlockID v m.
Proof.
  revert n. induction l as [|s l IH]; intros n; cbn; [by intros H%elem_of_nil|].
  intros [->|H]%elem_of_cons; [exists n; split; [lia|done]|].
  destruct (IH _ H) as (m & Hm & ->). exists m. split; [lia|done].
Qed.

Lemma numbered_nodup v n l : NoDup (map bk_id (numbered v n l)).
Proof.
  revert n. induction l as [|s l IH]; intros n; cbn; [constructor|]. constructor; [|apply IH].
  intros (m & Hm & H%mint_inj)%numbered_ids. lia.
Qed.

Lemma load_ids v base loc seq b :
  b ∈ map bk_id (load_blocks v base loc seq) ->
  b = mintBlockID v base \/ exists k : nat, b = mintBlockID v base +:+ "-" +:+ pretty k.
Proof.
  unfold load_blocks. rewrite list_elem_of_fmap. intros (x & -> & H). apply elem_of_lookup_imap in H as (k & t & -> & _). cbn.
  destruct k as [|k]; [by left|right; by exists (S k)].
Qed.

Lemma load_nodup v base loc seq : NoDup (map bk_id (load_blocks v base loc seq)).
Proof.
  apply NoDup_alt. intros i j b Hi Hj. rewrite !list_lookup_fmap in Hi, Hj. unfold load_blocks in *.
  rewrite !list_lookup_imap in Hi, Hj.
  destruct (seq !! i), (seq !! j); try done. injection Hi as Hi. injection Hj as Hj. rewrite <- Hi in Hj. clear Hi b.
  assert (Hn : forall k : nat, mintBlockID v base <> mintBlockID v base +:+ "-" +:+ pretty k).
  { intros k H. symmetry in H. rewrite <- (sapp_nil_r (mintBlockID v base)) in H at 2. by apply (inj (String.app _)) in H. }
  destruct (Nat.ltb_spec 0 i), (Nat.ltb_spec 0 j); try lia; [|by apply Hn in Hj|by symmetry in Hj; apply Hn in Hj].
  apply (inj (String.app _)), (inj (String.app "-")), (inj pretty) in Hj. done.
Qed.

Lemma nodup_parts (a b : list string) :
  NoDup a -> NoDup b -> (forall x, x ∈ a -> x ∈ b -> False) -> NoDup (a ++ b).
Proof. intros Ha Hb H. apply NoDup_app. split_and!; [done| |done]. intros x Hx Hy. by apply (H x). Qed.

(** Ids of the create and of what follows are all distinct. *)
Lemma loaded_nodup v loadSeq n c bs l :
  (0 <= n)%Z -> loaded v loadSeq n c bs ->
  NoDup (map bk_id (bs ++ numbered v (n + Z.of_nat (length c)) l)).
Proof.
  intros Hn HL. revert Hn. destruct HL as [m c'|m pre s post]; intros Hn.
  { rewrite <- numbered_app. apply numbered_nodup. }
  set (base := (m + Z.of_nat (length pre))%Z).
  replace (m + Z.of_nat (length (pre ++ s :: post)))%Z with (base + 1 + Z.of_nat (length post))%Z
    by (rewrite length_app, length_cons; unfold base; lia).
  rewrite <- !app_assoc, <- numbered_app, !map_app.
  apply nodup_parts; [apply numbered_nodup| |].
  - apply nodup_parts; [apply load_nodup|apply numbered_nodup|].
    intros x [->|[k ->]]%load_ids (q & Hq & H)%numbered_ids; [apply mint_inj in H; lia|].
    apply mint_suffix in H; [done|lia].
  - intros x (q & Hq & ->)%numbered_ids [[H|[k H]]%load_ids|(q' & Hq' & H)%numbered_ids]%elem_of_app;
      [apply mint_inj in H; lia| |apply mint_inj in H; lia].
    symmetry in H. apply mint_suffix in H; [done|lia].
Qed.

(** C33. A plan reaches the robot in pieces that add up to the plan.  Releasing at
    wait k hands out a segment exactly when the plan has a k-th wait, the one the
    order is parked at; the segment is the last exactly when no further wait
    exists; the create and all releases together are the plan's block-producing
    steps, in order and numbered from 1 without gap; and at every stage, with or
    without an expanded load leg, no two block ids given to the fleet are equal. *)
Theorem segments_tile_plan v loadSeq steps :
  (forall k : Z, is_Some (splitSegment steps k).1.1 <-> is_Some (waitAt steps k)) /\
  (forall k : Z, is_Some (waitAt steps k) <-> (0 <= k < Z.of_nat (waits steps))%Z) /\
  (forall k : Z, is_Some (waitAt steps k) -> (splitSegment steps k).1.2 = true <-> is_Some (waitAt steps (k + 1))) /\
  issued v [] steps (waits steps) = numbered v 1 (List.filter emits steps) /\
  (forall k, (k <= waits steps)%nat -> NoDup (map bk_id (issued v loadSeq steps k))).
Proof.
  assert (Hw : forall k : Z, is_Some (waitAt steps k) <-> (0 <= k < Z.of_nat (waits steps))%Z).
  { intros k. unfold waitAt. destruct (Z.ltb_spec k 0) as [Hk|Hk]; [split; [by intros [? ?]|lia]|].
    pose proof (wait_at_found steps 0 (Z.to_nat k)) as H. rewrite Z2Nat.id, Z.add_0_l in H by done. rewrite H. lia. }
  assert (Hs : forall k : Z, (0 <= k)%Z -> splitSegment steps k = splitSegment steps (Z.of_nat (Z.to_nat k)))
    by (intros k Hk; by rewrite Z2Nat.id).
  split_and!; [|done| |apply issued_whole|].
  - intros k. rewrite Hw. destruct (Z.lt_ge_cases k 0) as [Hk|Hk].
    { rewrite segment_negative by done. split; [by intros [? ?]|lia]. }
    rewrite Hs, segment_chunk by done. destruct (Nat.ltb_spec (Z.to_nat k) (waits steps)); [|split; [by intros [? ?]|lia]].
    split; [lia|]. intros _. cbn. apply lookup_lt_is_Some. rewrite chunks_length. lia.
  - intros k [Hk1 Hk2]%Hw. rewrite Hs, segment_chunk by done. rewrite (proj2 (Nat.ltb_lt _ _)) by lia. cbn [fst snd].
    rewrite Hw, Nat.ltb_lt. lia.
  - intros k Hk. destruct (issued_shape v loadSeq steps k Hk) as (c & bs & _ & Hl & _ & ->). by eapply loaded_nodup.
Qed.
