(* ===== verification/Splice.v ===== *)
(** The gated-lane splice: waits inserted into a plan before each entry into a
    marked lane (dispatch/lane_gate_dispatch.go, lane_gate.go), and the re-index
    of the order's junction rows onto the longer plan (dispatch/splice_reindex.go,
    store/orders/order_bins.go).

    The splice reads the yard through Yard.v's queries, any of which may fail.  A
    failed lookup of a step's node, or of a lane's mark, is not an error in the
    source: the node is then somewhere else, the lane unmarked. *)

From S2P Require Import Prelude Status Sql CoreDb Mouth Yard YardReads Resolver Capacity Reshuffle GatedPlan.

(** ** The splice *)

Inductive SpliceError :=
| SeResolveLane (name : string)                (** a lane lookup failed *)
| SeBlankBeforeGate (blank last : nat)
| SeEntryUnresolved (name : string)
| SeGatesNothing (at_step : nat) (lane : Z)
| SeUnknownOwner (at_step : nat) (kind : string)
| SeDwellNowhere (at_step : nat)               (** a trailing lane wait that is no outbound dwell *)
| SeNoDwellSlot (name : string).

Notation SpliceSQL := (SQL Yard SpliceError).

Record laneGateTarget := mkTarget { lg_lane : YNode; lg_point : string }.

Definition laneWaitPoint (laneID : Z) : SpliceSQL string :=
  p <-- ask (GetNodeProperty laneID PropLaneGatePoint) ;; sret (default "" p).

Definition laneIsGated (laneID : Z) : SpliceSQL bool :=
  p <-- laneWaitPoint laneID ;; sret (p <>s "").

Definition gateTargetForLane (lane : option YNode) : SpliceSQL (option laneGateTarget) :=
  match lane with
  | None => sret None
  | Some l =>
      match yn_parent l with
      | None => sret None
      | Some _ =>
          p <-- laneWaitPoint (yn_id l) ;;
          sret (if p =s "" then None else Some (mkTarget l p))
      end
  end.

(** [d.db.LaneForNode] with the caller's own error. *)
Definition lane_or (e : SpliceError) (id : Z) : SpliceSQL (option YNode) :=
  r <-- ask (LaneForNode id) ;; match r with Some l => sret l | None => sfail e end.

(** The walk: the gates to insert (position, target), the first blank step. *)
Fixpoint splice_walk (i : nat) (inside : Z) (steps : list resolvedStep)
    : SpliceSQL (list (nat * laneGateTarget) * option nat) :=
  match steps with
  | [] => sret ([], None)
  | s :: rest =>
      if negb (actionable s) then splice_walk (S i) inside rest
      else if ps_node s =s "" then
        r <-- splice_walk (S i) inside rest ;; sret (r.1, Some i)
      else
        n <-- ask (GetNodeByDotName (ps_node s)) ;;
        match n with
        | None => splice_walk (S i) 0 rest
        | Some n =>
            lane <-- lane_or (SeResolveLane (ps_node s)) (yn_id n) ;;
            t <-- gateTargetForLane lane ;;
            match t with
            | None => splice_walk (S i) 0 rest
            | Some t =>
                if yn_id (lg_lane t) =i inside then splice_walk (S i) inside rest
                else r <-- splice_walk (S i) (yn_id (lg_lane t)) rest ;; sret ((i, t) :: r.1, r.2)
            end
        end
  end.

Definition gate_wait (t : laneGateTarget) : resolvedStep :=
  mkStep ActionWait (lg_point t) "" false false WaitKindLane (yn_id (lg_lane t)).

Fixpoint insert_waits (i : nat) (gates : list (nat * laneGateTarget)) (steps : list resolvedStep) : list resolvedStep :=
  match steps with
  | [] => []
  | s :: rest =>
      match gates with
      | (g, t) :: gates' =>
          if (g =? i)%nat then gate_wait t :: s :: insert_waits (S i) gates' rest
          else s :: insert_waits (S i) gates rest
      | [] => s :: insert_waits (S i) [] rest
      end
  end.

(** *** The checks on the result *)

(** The error is the step's position and kind; an untagged wait is only logged. *)
Fixpoint owner_from (i : nat) (steps : list resolvedStep) : option (nat * string) :=
  match steps with
  | [] => None
  | s :: rest =>
      if is_wait s && negb (ps_kind s =s WaitKindLane) && negb (ps_kind s =s WaitKindStation) && (ps_kind s <>s "")
      then Some (i, ps_kind s) else owner_from (S i) rest
  end.
Definition assertEveryWaitDeclaresAnOwner (steps : list resolvedStep) : option (nat * string) := owner_from 0 steps.

Definition in_lane (name : string) (unresolved mismatch : SpliceError) (lane : Z) : SpliceSQL unit :=
  n <-- ask (GetNodeByDotName name) ;;
  match n with
  | None => sfail unresolved
  | Some n =>
      l <-- lane_or (SeResolveLane name) (yn_id n) ;;
      match l with
      | Some l => if yn_id l =i lane then sret () else sfail mismatch
      | None => sfail mismatch
      end
  end.

(** [prev] is the step before the wait, if any. *)
Definition assertWaitGatesAnAppend (i : nat) (prev : option resolvedStep) (s : resolvedStep) : SpliceSQL unit :=
  in_lane (ps_node s) (SeDwellNowhere i) (SeDwellNowhere i) (ps_lane s) ;;;
  match prev with
  | None => sfail (SeDwellNowhere i)
  | Some p =>
      if negb (ps_action p =s ActionPickup) then sfail (SeDwellNowhere i)
      else in_lane (ps_node p) (SeDwellNowhere i) (SeDwellNowhere i) (ps_lane s)
  end.

Fixpoint entries_from (i : nat) (prev : option resolvedStep) (steps : list resolvedStep) : SpliceSQL unit :=
  match steps with
  | [] => sret ()
  | s :: rest =>
      (if negb (lane_wait s) then sret ()
       else match rest with
            | [] => assertWaitGatesAnAppend i prev s
            | next :: _ => in_lane (ps_node next) (SeEntryUnresolved (ps_node next)) (SeGatesNothing i (ps_lane s)) (ps_lane s)
            end) ;;;
      entries_from (S i) (Some s) rest
  end.
Definition assertEachWaitGatesItsEntry (steps : list resolvedStep) : SpliceSQL unit := entries_from 0 None steps.

(** The plan, and the first gate when there is one. *)
Definition spliceLaneWait (steps : list resolvedStep) : SpliceSQL (list resolvedStep * option laneGateTarget) :=
  w <-- splice_walk 0 0 steps ;;
  match w.1 with
  | [] => sret (steps, None)
  | (g, first) :: gates =>
      let last := List.last (map fst gates) g in
      match w.2 with
      | Some blank => if (blank <? last)%nat then sfail (SeBlankBeforeGate blank last) else sret ()
      | None => sret ()
      end ;;;
      let out := insert_waits 0 w.1 steps in
      assertEachWaitGatesItsEntry out ;;;
      match assertEveryWaitDeclaresAnOwner out with
      | Some (i, k) => sfail (SeUnknownOwner i k)
      | None => sret (out, Some first)
      end
  end.

(** *** The plan a plain order or a dig leg is spliced from *)

Definition awaitsReleaseTimeDestination (parent : option Z) (delivery : string) : bool :=
  bool_decide (is_Some parent) && (delivery =s "").

Definition dwellSlotFor (lane : YNode) : SpliceSQL YNode :=
  slots <-- ask (ListLaneSlots (yn_id lane)) ;;
  match slots with
  | None => sfail (SeResolveLane (yn_name lane))
  | Some slots =>
      match List.find (fun s => yn_enabled s && negb (yn_synthetic s)) slots with
      | Some s => sret s
      | None => sfail (SeNoDwellSlot (yn_name lane))
      end
  end.

Definition digDwellPlan (parent : option Z) (delivery : string) (sourceNode : YNode)
    : SpliceSQL (option (list resolvedStep * laneGateTarget)) :=
  if negb (awaitsReleaseTimeDestination parent delivery) then sret None
  else
    lane <-- lane_or (SeResolveLane (yn_name sourceNode)) (yn_id sourceNode) ;;
    match lane with
    | None => sfail (SeNoDwellSlot (yn_name sourceNode))
    | Some lane =>
        slot <-- dwellSlotFor lane ;;
        sret (Some ([mkStep ActionPickup (yn_name sourceNode) "" false false "" 0;
                     mkStep ActionWait (yn_name slot) "" false false WaitKindLane (yn_id lane)],
                    mkTarget lane (yn_name slot)))
    end.

(** The planning half of dispatchToFleetCore: the plan, the spliced plan, and the
    gate it ships against. *)
Definition transportPlan (parent : option Z) (delivery : string) (sourceNode : YNode) (destName : string) (empty : bool)
    : SpliceSQL (list resolvedStep * list resolvedStep * option laneGateTarget) :=
  dwell <-- digDwellPlan parent delivery sourceNode ;;
  let plan := match dwell with Some (p, _) => p | None => buildTransportPlan (yn_name sourceNode) destName empty end in
  r <-- spliceLaneWait plan ;;
  sret (plan, r.1, match r.2, dwell with
                   | Some t, _ => Some t
                   | None, Some (_, t) => Some t
                   | None, None => None
                   end).

(** ** What the yard says *)

Definition lane_at (y : Yard) (id : Z) : option (option YNode) :=
  match node_by_id y id with
  | None => None
  | Some n =>
      match yn_parent n with
      | None => Some None
      | Some p =>
          match node_by_id y p with
          | None => None
          | Some pn => Some (if yn_class pn =s NodeClassLANE then Some pn else None)
          end
      end
  end.

Definition mark (y : Yard) (lane : Z) : string := default "" (y_props y !! (lane, PropLaneGatePoint)).

Definition target_of (y : Yard) (l : YNode) : option laneGateTarget :=
  match yn_parent l with
  | None => None
  | Some _ => if mark y (yn_id l) =s "" then None else Some (mkTarget l (mark y (yn_id l)))
  end.

(** The marked lane a step's node stands in. *)
Definition entered (y : Yard) (s : resolvedStep) : option laneGateTarget :=
  match node_by_dot_name y (ps_node s) with
  | None => None
  | Some n =>
      match lane_at y (yn_id n) with
      | Some (Some l) => target_of y l
      | _ => None
      end
  end.

(** The step's node stands in lane [lane]. *)
Definition stands_in (y : Yard) (s : resolvedStep) (lane : Z) : Prop :=
  exists n l, node_by_dot_name y (ps_node s) = Some n /\ lane_at y (yn_id n) = Some (Some l) /\ yn_id l = lane.

Definition concrete (s : resolvedStep) : bool := actionable s && (ps_node s <>s "").

(** The monitor a plan is run against: a robot enters a marked lane only as the
    lane it was last let into, and loses that permission when it works elsewhere. *)
Fixpoint escorted (y : Yard) (admitted : option Z) (plan : list resolvedStep) : Prop :=
  match plan with
  | [] => True
  | s :: rest =>
      if lane_wait s then escorted y (Some (ps_lane s)) rest
      else if negb (concrete s) then escorted y admitted rest
      else match entered y s with
           | Some t => admitted = Some (yn_id (lg_lane t)) /\ escorted y admitted rest
           | None => escorted y None rest
           end
  end.

(** [out] is [plan] with lane waits put in front of some of its steps. *)
Inductive with_waits : list resolvedStep -> list resolvedStep -> Prop :=
| ww_nil : with_waits [] []
| ww_keep s a b : with_waits a b -> with_waits (s :: a) (s :: b)
| ww_wait w s a b : lane_wait w = true -> with_waits a b -> with_waits (s :: a) (w :: s :: b).

(** A plan's author writes no lane wait but the one a dig leg ends in. *)
Definition authored (plan : list resolvedStep) : Prop := forallb (fun s => negb (lane_wait s)) (removelast plan) = true.

(** The walk on a healthy connection. *)
Fixpoint gates_of (y : Yard) (i : nat) (inside : Z) (steps : list resolvedStep) : list (nat * laneGateTarget) * option nat :=
  match steps with
  | [] => ([], None)
  | s :: rest =>
      if negb (actionable s) then gates_of y (S i) inside rest
      else if ps_node s =s "" then ((gates_of y (S i) inside rest).1, Some i)
      else match entered y s with
           | None => gates_of y (S i) 0 rest
           | Some t =>
               if yn_id (lg_lane t) =i inside then gates_of y (S i) inside rest
               else let r := gates_of y (S i) (yn_id (lg_lane t)) rest in ((i, t) :: r.1, r.2)
           end
  end.

(** ** Reading on a healthy connection *)

Section Healthy.
Variable y : Yard.

Lemma node_calm name : ask (E := SpliceError) (GetNodeByDotName name) (calm y) = (Ok (node_by_dot_name y name), calm y).
Proof. unfold ask, GetNodeByDotName, sbind, query, stmt. cbn. by destruct (node_by_dot_name y name). Qed.

Lemma lane_calm id : ask (E := SpliceError) (LaneForNode id) (calm y) = (Ok (lane_at y id), calm y).
Proof.
  unfold ask, LaneForNode, GetNode, lane_at, sbind, query, stmt. cbn. destruct (node_by_id y id) as [n|]; [|done]. cbn.
  destruct (yn_parent n) as [p|]; [|done]. cbn. by destruct (node_by_id y p).
Qed.

Lemma lane_or_calm e id :
  lane_or e id (calm y) = (match lane_at y id with Some l => Ok l | None => Err e end, calm y).
Proof. unfold lane_or. rewrite (sbind_step _ _ _ _ _ (lane_calm id)). by destruct (lane_at y id). Qed.

Lemma mark_calm lane : laneWaitPoint lane (calm y) = (Ok (mark y lane), calm y).
Proof. done. Qed.

Lemma target_calm lane :
  gateTargetForLane lane (calm y) = (Ok (match lane with Some l => target_of y l | None => None end), calm y).
Proof.
  unfold gateTargetForLane, target_of. destruct lane as [l|]; [|done]. destruct (yn_parent l); [|done].
  by rewrite (sbind_step _ _ _ _ _ (mark_calm _)).
Qed.

(** The lane lookup of a step's node answers. *)
Definition readable (s : resolvedStep) : Prop :=
  forall n, node_by_dot_name y (ps_node s) = Some n -> is_Some (lane_at y (yn_id n)).

Lemma walk_calm steps : forall i inside,
  match splice_walk i inside steps (calm y) with
  | (Ok r, c) => r = gates_of y i inside steps /\ c = calm y
  | (Err _, _) => exists s, s ∈ steps /\ concrete s = true /\ ~ readable s
  end.
Proof.
  assert (Hcons : forall (P : resolvedStep -> Prop) s l, (exists t, t ∈ l /\ P t) -> exists t, t ∈ s :: l /\ P t)
    by (intros P s l (t & ? & ?); exists t; split; [by right|done]).
  induction steps as [|s l IH]; intros i inside; [done|]. cbn [splice_walk gates_of].
  destruct (actionable s) eqn:Ha; cbn [negb].
  2: { specialize (IH (S i) inside). destruct (splice_walk _ _ l _) as [[r|e] c]; [done|by apply Hcons]. }
  destruct (ps_node s =s "") eqn:Eb.
  { specialize (IH (S i) inside). unfold sbind. destruct (splice_walk _ _ l _) as [[r|e] c]; [|by apply Hcons].
    destruct IH as [-> ->]. done. }
  rewrite (sbind_step _ _ _ _ _ (node_calm _)). unfold entered.
  destruct (node_by_dot_name y (ps_node s)) as [n|] eqn:En.
  2: { specialize (IH (S i) 0%Z). destruct (splice_walk _ _ l _) as [[r|e] c]; [done|by apply Hcons]. }
  unfold sbind at 1. rewrite lane_or_calm. destruct (lane_at y (yn_id n)) as [lane|] eqn:El.
  2: { exists s. split; [left|]. unfold concrete. rewrite Ha, Eb. split; [done|]. intros H. apply H in En. rewrite El in En.
       by destruct En. }
  rewrite (sbind_step _ _ _ _ _ (target_calm _)).
  destruct lane as [lane|];
    [destruct (target_of y lane) as [t|]; [destruct (yn_id (lg_lane t) =i inside)|]|].
  - specialize (IH (S i) inside). destruct (splice_walk _ _ l _) as [[r|e] c]; [done|by apply Hcons].
  - specialize (IH (S i) (yn_id (lg_lane t))). unfold sbind. destruct (splice_walk _ _ l _) as [[r|e] c]; [|by apply Hcons].
    destruct IH as [-> ->]. done.
  - specialize (IH (S i) 0%Z). destruct (splice_walk _ _ l _) as [[r|e] c]; [done|by apply Hcons].
  - specialize (IH (S i) 0%Z). destruct (splice_walk _ _ l _) as [[r|e] c]; [done|by apply Hcons].
Qed.

Lemma in_lane_calm name e1 e2 lane :
  in_lane name e1 e2 lane (calm y) =
    (match node_by_dot_name y name with
     | None => Err e1
     | Some n =>
         match lane_at y (yn_id n) with
         | None => Err (SeResolveLane name)
         | Some (Some l) => if yn_id l =i lane then Ok () else Err e2
         | Some None => Err e2
         end
     end, calm y).
Proof.
  unfold in_lane. rewrite (sbind_step _ _ _ _ _ (node_calm _)). destruct (node_by_dot_name y name) as [n|]; [|done].
  unfold sbind. rewrite lane_or_calm. destruct (lane_at y (yn_id n)) as [[l|]|]; [|done|done]. by destruct (yn_id l =i lane).
Qed.

Lemma in_lane_stands s e1 e2 lane :
  stands_in y s lane -> in_lane (ps_node s) e1 e2 lane (calm y) = (Ok (), calm y).
Proof. intros (n & l & Hn & Hl & <-). by rewrite in_lane_calm, Hn, Hl, Z.eqb_refl. Qed.

(** ** The gates *)

Lemma gates_later steps : forall i inside g, g ∈ (gates_of y i inside steps).1 -> (i <= g.1)%nat.
Proof.
  assert (Hweak : forall i (l : list (nat * laneGateTarget)) g, (g ∈ l -> (S i <= g.1)%nat) -> g ∈ l -> (i <= g.1)%nat)
    by (intros i l g H Hg; specialize (H Hg); lia).
  induction steps as [|s l IH]; intros i inside g; cbn; [by intros ?%elem_of_nil|].
  repeat case_match; cbn; try (by apply Hweak, IH).
  intros [->|Hg]%elem_of_cons; [done|]. apply IH in Hg. lia.
Qed.

Lemma insert_skip i gates s l :
  (forall g, g ∈ gates -> (S i <= g.1)%nat) -> insert_waits i gates (s :: l) = s :: insert_waits (S i) gates l.
Proof.
  intros H. cbn. destruct gates as [|[g t] gs]; [done|]. specialize (H (g, t) ltac:(left)). cbn in H.
  by rewrite (proj2 (Nat.eqb_neq g i)) by lia.
Qed.

Lemma skip_step i inside s l :
  insert_waits i (gates_of y (S i) inside l).1 (s :: l) = s :: insert_waits (S i) (gates_of y (S i) inside l).1 l.
Proof. apply insert_skip. intros g. apply gates_later. Qed.

Lemma authored_tail s l : authored (s :: l) -> authored l /\ (l <> [] -> lane_wait s = false).
Proof.
  unfold authored. destruct l as [|t l]; [done|]. cbn [removelast forallb]. intros [H1 H2]%andb_true_iff.
  split; [done|]. intros _. by apply negb_true_iff.
Qed.

Lemma lane_wait_not_concrete s : lane_wait s = true -> actionable s = false.
Proof.
  unfold lane_wait, is_wait, actionable. intros [H _]%andb_true_iff. apply String.eqb_eq in H. by rewrite H.
Qed.

(** [inside = 0] is the source's "not in a gated lane". *)
Definition permission (inside : Z) : option Z := if inside =i 0 then None else Some inside.

Lemma lane_at_id id l : lane_at y id = Some (Some l) -> l ∈ y_nodes y.
Proof.
  unfold lane_at. destruct (node_by_id y id) as [n|]; [|done]. destruct (yn_parent n) as [p|]; [|done].
  destruct (node_by_id y p) as [pn|] eqn:Ep; [|done]. case_match; [|done]. intros [= ->].
  by apply list_elem_of_In, (find_some _ _ Ep).
Qed.

Lemma entered_lane s t : entered y s = Some t -> lg_lane t ∈ y_nodes y /\ stands_in y s (yn_id (lg_lane t)).
Proof.
  unfold entered, stands_in. destruct (node_by_dot_name y (ps_node s)) as [n|]; [|done].
  destruct (lane_at y (yn_id n)) as [[l|]|] eqn:El; [|done|done]. unfold target_of. repeat case_match; try done.
  intros [= <-]. cbn. split; [by eapply lane_at_id|]. by exists n, l.
Qed.

Definition ids_set : Prop := forall n, n ∈ y_nodes y -> yn_id n <> 0%Z.

Lemma gates_escort steps i inside :
  ids_set -> authored steps -> escorted y (permission inside) (insert_waits i (gates_of y i inside steps).1 steps).
Proof.
  intros Hids. revert i inside. induction steps as [|s l IH]; intros i inside Hau; [done|].
  destruct (authored_tail s l Hau) as [Hl Hs]. cbn [gates_of].
  destruct (lane_wait s) eqn:Hw.
  { destruct l as [|t l]; [|exfalso; by discriminate Hs]. rewrite (lane_wait_not_concrete s Hw). cbn. by rewrite Hw. }
  destruct (actionable s) eqn:Ha; cbn [negb].
  2: { rewrite skip_step. cbn. unfold concrete. rewrite Hw, Ha. cbn. by apply IH. }
  destruct (ps_node s =s "") eqn:Eb.
  { cbn [fst]. rewrite skip_step. cbn. unfold concrete. rewrite Hw, Ha, Eb. cbn. by apply IH. }
  assert (Hc : concrete s = true) by (unfold concrete; by rewrite Ha, Eb).
  destruct (entered y s) as [t|] eqn:Ee.
  2: { rewrite skip_step. cbn. rewrite Hw, Hc, Ee. cbn. by apply (IH (S i) 0%Z). }
  assert (Hp : permission (yn_id (lg_lane t)) = Some (yn_id (lg_lane t))).
  { unfold permission. by rewrite (proj2 (Z.eqb_neq _ _)) by (apply Hids, (entered_lane s t Ee)). }
  destruct (Z.eqb_spec (yn_id (lg_lane t)) inside) as [<-|Hne].
  { rewrite skip_step. cbn. rewrite Hw, Hc, Ee. cbn. split; [done|]. by apply IH. }
  cbn [fst insert_waits]. rewrite Nat.eqb_refl. cbn. rewrite Hw, Hc, Ee. cbn. split; [done|]. rewrite <- Hp. by apply IH.
Qed.
End Healthy.

Lemma insert_with_waits gates i steps : with_waits steps (insert_waits i gates steps).
Proof.
  revert gates i. induction steps as [|s l IH]; intros gates i; cbn; [constructor|].
  destruct gates as [|[g t] gs]; [constructor; apply IH|]. destruct (g =? i)%nat; constructor; done || apply IH.
Qed.

Lemma with_waits_refl steps : with_waits steps steps.
Proof. induction steps; by constructor. Qed.

(** ** The checks *)

(** A wait that lets a robot into the lane it names, or holds one that has just
    lifted a bin out of it. *)
Definition gates_something (y : Yard) (prev : option resolvedStep) (w : resolvedStep) (next : option resolvedStep) : Prop :=
  match next with
  | Some s => stands_in y s (ps_lane w)
  | None => stands_in y w (ps_lane w) /\
      exists p, prev = Some p /\ ps_action p = ActionPickup /\ stands_in y p (ps_lane w)
  end.

Fixpoint every_wait_gates (y : Yard) (prev : option resolvedStep) (plan : list resolvedStep) : Prop :=
  match plan with
  | [] => True
  | s :: rest => (lane_wait s = true -> gates_something y prev s (head rest)) /\ every_wait_gates y (Some s) rest
  end.

Lemma ask_node_ok name c n c' :
  ask (E := SpliceError) (GetNodeByDotName name) c = (Ok (Some n), c') -> node_by_dot_name (db c) name = Some n /\ db c' = db c.
Proof.
  unfold ask, GetNodeByDotName, sbind, query, stmt. destruct (faults c) as [|[] fs]; cbn;
    destruct (node_by_dot_name (db c) name); cbn; intros; by simplify_eq.
Qed.

Lemma lane_or_ok e id c l c' : lane_or e id c = (Ok l, c') -> lane_at (db c) id = Some l /\ db c' = db c.
Proof.
  unfold lane_or, ask, LaneForNode, GetNode, lane_at, sbind, query, stmt, sret, sfail.
  destruct (faults c) as [|[] fs]; cbn; [|done|].
  - destruct (node_by_id (db c) id) as [n|]; [|done]. cbn. destruct (yn_parent n) as [p|]; cbn; [|intros; by simplify_eq].
    destruct (node_by_id (db c) p); cbn; [|done]. intros; by simplify_eq.
  - destruct (node_by_id (db c) id) as [n|]; [|done]. cbn. destruct (yn_parent n) as [p|]; cbn; [|intros; by simplify_eq].
    destruct fs as [|[] fs]; cbn; [|done|]; (destruct (node_by_id (db c) p); cbn; [|done]; intros; by simplify_eq).
Qed.

Lemma in_lane_ok s e1 e2 lane c u c' :
  in_lane (ps_node s) e1 e2 lane c = (Ok u, c') -> stands_in (db c) s lane /\ db c' = db c.
Proof.
  unfold in_lane. intros (r & c1 & E1 & H)%sbind_ok. destruct r as [n|]; [|done]. apply ask_node_ok in E1 as [Hn Hd].
  apply sbind_ok in H as (l & c2 & E2 & H). apply lane_or_ok in E2 as [Hl Hd2]. rewrite Hd in *.
  destruct l as [l|]; [|done]. destruct (Z.eqb_spec (yn_id l) lane); [|done]. injection H as _ <-.
  split; [by exists n, l|congruence].
Qed.

Lemma entries_ok steps : forall i prev c u c',
  entries_from i prev steps c = (Ok u, c') -> every_wait_gates (db c) prev steps /\ db c' = db c.
Proof.
  induction steps as [|s l IH]; intros i prev c u c'; cbn; [by intros [= _ <-]|].
  intros (u1 & c1 & E1 & H)%sbind_ok. apply IH in H as [H Hd].
  assert (Hs : (lane_wait s = true -> gates_something (db c) prev s (head l)) /\ db c1 = db c).
  { destruct (lane_wait s) eqn:Ew; cbn in E1; [|by injection E1 as _ <-].
    destruct l as [|t l]; cbn [head gates_something]; [|by apply in_lane_ok in E1 as [? ?]].
    apply sbind_ok in E1 as (u2 & c2 & E1 & E2). apply in_lane_ok in E1 as [Hw Hd1].
    destruct prev as [p|]; [|done]. destruct (eqb_spec_s (ps_action p) ActionPickup); cbn in E2; [|done].
    apply in_lane_ok in E2 as [Hp Hd2]. rewrite Hd1 in *. split; [|congruence]. intros _. split; [done|]. by exists p. }
  destruct Hs as [Hs Hd1]. rewrite Hd1 in *. split; [done|congruence].
Qed.

Definition known_owner (s : resolvedStep) : Prop :=
  is_wait s = true -> ps_kind s = WaitKindLane \/ ps_kind s = WaitKindStation \/ ps_kind s = "".

Lemma owner_none steps i : owner_from i steps = None <-> Forall known_owner steps.
Proof.
  revert i. induction steps as [|s l IH]; intros i; cbn; [split; [constructor|done]|].
  rewrite Forall_cons, <- (IH (S i)). unfold known_owner.
  destruct (is_wait s); cbn; [|naive_solver].
  destruct (eqb_spec_s (ps_kind s) WaitKindLane), (eqb_spec_s (ps_kind s) WaitKindStation), (eqb_spec_s (ps_kind s) ""); cbn; naive_solver.
Qed.

(** ** The splice *)

Lemma splice_walk_reads steps : forall i inside, reads (splice_walk i inside steps).
Proof.
  induction steps as [|s l IH]; intros i inside; cbn [splice_walk]; [apply reads_ret|].
  unfold gateTargetForLane, laneWaitPoint, lane_or, LaneForNode, GetNode, GetNodeByDotName, GetNodeProperty.
  repeat (first [apply IH | progress reading]).
Qed.

Lemma splice_ok steps c out t c' :
  spliceLaneWait steps c = (Ok (out, t), c') ->
  (t = None /\ out = steps) \/
  exists gates blank c1 c2,
    splice_walk 0 0 steps c = (Ok (gates, blank), c1) /\ db c1 = db c /\ t = Some (default (mkTarget (mkYNode 0 "" false false None "" None None) "") (snd <$> head gates)) /\
    out = insert_waits 0 gates steps /\ assertEachWaitGatesItsEntry out c1 = (Ok (), c2) /\
    assertEveryWaitDeclaresAnOwner out = None.
Proof.
  unfold spliceLaneWait. intros ([gates blank] & c1 & E1 & H)%sbind_ok. cbn [fst snd] in H.
  pose proof (splice_walk_reads steps 0 0 c) as [Hd _]. rewrite E1 in Hd. cbn in Hd.
  destruct gates as [|[g first] gates]; [left; by injection H as <- <- _|right].
  apply sbind_ok in H as (u & c2 & E2 & H).
  assert (c2 = c1) as -> by (destruct blank as [b|]; [destruct (b <? _)%nat|]; unfold sret, sfail in E2; by simplify_eq).
  apply sbind_ok in H as ([] & c3 & E3 & H).
  destruct (assertEveryWaitDeclaresAnOwner _) as [[i k]|] eqn:Eo; [done|]. injection H as <- <- _.
  by exists ((g, first) :: gates), blank, c1, c3.
Qed.

Lemma last_in_cons {A} (l : list A) x : List.last l x ∈ x :: l.
Proof.
  revert x. induction l as [|a l IH]; intros x; [left|].
  destruct l as [|b l]; [right; left|]. specialize (IH x). cbn in *. set_unfold. tauto.
Qed.

(** The splice only inserts, and what it inserts holds.  Whatever reads fail,
    a plan it returns is the given plan with lane waits put in front of some steps
    and nothing dropped, moved or changed; with no gate found it is the given plan
    itself; and with one, every lane wait of the result stands directly before a
    step in the lane it names (or, at the end, holds a robot that has just picked
    up in that lane), and every wait has a known owner. *)
Theorem splice_only_inserts steps c out t c' :
  spliceLaneWait steps c = (Ok (out, t), c') ->
  with_waits steps out /\ (t = None -> out = steps) /\
  (t <> None -> every_wait_gates (db c) None out /\ Forall known_owner out).
Proof.
  intros [[-> ->]|(gates & blank & c1 & c2 & _ & Hd & -> & Ho & Ha & Hk)]%splice_ok.
  { split_and!; [apply with_waits_refl|done|done]. }
  apply entries_ok in Ha as [Ha _]. rewrite Hd in Ha. apply owner_none in Hk.
  split_and!; [rewrite Ho; apply insert_with_waits|done|done].
Qed.

Lemma no_gates_insert steps i : insert_waits i [] steps = steps.
Proof. revert i. induction steps as [|s l IH]; intros i; cbn; [done|by rewrite IH]. Qed.

Lemma splice_calm y steps out t c' :
  spliceLaneWait steps (calm y) = (Ok (out, t), c') -> out = insert_waits 0 (gates_of y 0 0 steps).1 steps.
Proof.
  intros H. assert (Hw := walk_calm y steps 0 0).
  unfold spliceLaneWait in H. apply sbind_ok in H as ([gates blank] & c1 & E1 & H). rewrite E1 in Hw.
  destruct Hw as [Hw ->]. rewrite <- Hw. cbn [fst snd] in *.
  destruct gates as [|[g first] gates]; [injection H as <- _ _; by rewrite no_gates_insert|].
  apply sbind_ok in H as (u & c2 & E2 & H). apply sbind_ok in H as ([] & c3 & E3 & H).
  destruct (assertEveryWaitDeclaresAnOwner _) as [[i k]|]; [done|]. by injection H as <- _ _.
Qed.

(** C26. No robot is sent into a marked lane unannounced.  When the reads succeed,
    the plan that goes to the fleet is escorted: every step it takes inside a
    marked lane comes under a wait for that very lane, with no work elsewhere in
    between.  The given plan may hold no lane wait of its own but the one a dig
    leg ends in. *)
Theorem splice_escorts y steps out t c' :
  ids_set y -> authored steps -> spliceLaneWait steps (calm y) = (Ok (out, t), c') -> escorted y None out.
Proof. intros Hids Hau ->%splice_calm. by apply (gates_escort y steps 0 0%Z). Qed.

Lemma gated_entries_pass y steps : forall i k inside prev,
  (forall s, s ∈ steps -> lane_wait s = false) ->
  entries_from k prev (insert_waits i (gates_of y i inside steps).1 steps) (calm y) = (Ok (), calm y).
Proof.
  induction steps as [|s l IH]; intros i k inside prev Hn; [done|].
  assert (Hs : lane_wait s = false) by (apply Hn; left).
  assert (Hl : forall s', s' ∈ l -> lane_wait s' = false) by (intros s' H; apply Hn; by right).
  assert (Hskip : forall ins,
    entries_from k prev (insert_waits i (gates_of y (S i) ins l).1 (s :: l)) (calm y) = (Ok (), calm y)).
  { intros ins. rewrite skip_step. cbn [entries_from]. rewrite Hs. cbn [negb]. by apply IH. }
  cbn [gates_of]. destruct (actionable s); [|by apply Hskip]. cbn [negb].
  destruct (ps_node s =s ""); [by apply Hskip|]. destruct (entered y s) as [t|] eqn:Ee; [|by apply Hskip].
  destruct (yn_id (lg_lane t) =i inside); [by apply Hskip|]. cbn [fst insert_waits]. rewrite Nat.eqb_refl.
  cbn [entries_from]. rewrite Hs. cbn [negb]. unfold sbind at 1.
  change (lane_wait (gate_wait t)) with true. cbn [negb].
  rewrite in_lane_stands by apply (entered_lane y s t Ee). by apply IH.
Qed.

Lemma gated_owners y steps i inside :
  Forall known_owner steps -> Forall known_owner (insert_waits i (gates_of y i inside steps).1 steps).
Proof.
  generalize (gates_of y i inside steps).1. intros gates. pose proof (insert_with_waits gates i steps) as H. revert H.
  generalize (insert_waits i gates steps). induction 1 as [|s a b _ IH|w s a b Hw _ IH]; intros Hf; [done|..];
    apply Forall_cons in Hf as [Hs Hf]; repeat apply Forall_cons_2; auto.
  intros _. left. apply andb_true_iff in Hw as [_ Hw]. by apply String.eqb_eq.
Qed.

(** Every position up to the last gated entry has its node. *)
Definition sequenced (y : Yard) (steps : list resolvedStep) : Prop :=
  forall b g, (gates_of y 0 0 steps).2 = Some b -> g ∈ (gates_of y 0 0 steps).1 -> (g.1 <= b)%nat.

Lemma gates_none y steps : ids_set y -> forall i,
  (gates_of y i 0 steps).1 = [] <-> forall s, s ∈ steps -> concrete s = true -> entered y s = None.
Proof.
  intros Hids. induction steps as [|s l IH]; intros i; cbn [gates_of].
  { split; [by intros _ s ?%elem_of_nil|done]. }
  assert (Hother : concrete s = false \/ entered y s = None ->
    (forall s', s' ∈ l -> concrete s' = true -> entered y s' = None) <->
    (forall s', s' ∈ s :: l -> concrete s' = true -> entered y s' = None)).
  { intros Hs. split; intros H s' Hin; [|apply H; by right].
    apply elem_of_cons in Hin as [->|Hin]; [|by apply H]. destruct Hs; congruence. }
  unfold concrete in *. destruct (actionable s) eqn:Ha; cbn [negb]; [|rewrite IH; apply Hother; by left].
  destruct (ps_node s =s "") eqn:Eb; cbn [fst]; [rewrite IH; apply Hother; by left|].
  destruct (entered y s) as [t|] eqn:Ee; [|rewrite IH; apply Hother; by right].
  rewrite (proj2 (Z.eqb_neq _ _)) by (apply Hids, (entered_lane y s t Ee)). cbn [fst]. split; [done|].
  intros H. rewrite (H s) in Ee; [done|left|]. by rewrite Ha, Eb.
Qed.

(** The splice does not refuse work it can gate.  On readable tables a plan
    without lane waits of its own, whose waits all have a known owner and whose
    steps are concrete up to the last marked lane it enters, is spliced, whatever
    number of marked lanes it visits; it ships without a gate exactly when no
    step enters a marked lane. *)
Theorem splice_accepts y steps :
  ids_set y -> (forall s, s ∈ steps -> lane_wait s = false /\ known_owner s /\ readable y s) -> sequenced y steps ->
  exists out t, spliceLaneWait steps (calm y) = (Ok (out, t), calm y) /\
    (t = None <-> forall s, s ∈ steps -> concrete s = true -> entered y s = None).
Proof.
  intros Hids Hs Hseq. assert (Hw := walk_calm y steps 0 0). unfold spliceLaneWait, sbind at 1.
  destruct (splice_walk 0 0 steps (calm y)) as [[[gates blank]|e] c1] eqn:E1.
  2: { destruct Hw as (s & Hin & _ & Hr). destruct Hr. by apply Hs. }
  destruct Hw as [Hw ->]. unfold sequenced in Hseq. pose proof (gates_none y steps Hids 0) as Hn. rewrite <- Hw in Hseq, Hn. cbn [fst snd] in *.
  destruct gates as [|[g first] gates]; [exists steps, None; split; [done|by rewrite <- Hn]|].
  assert (Hb : match blank with Some b => if (b <? List.last (map fst gates) g)%nat
            then sfail (SeBlankBeforeGate b (List.last (map fst gates) g)) else sret () | None => sret () end (calm y) = (Ok (), calm y)).
  { destruct blank as [b|]; [|done]. rewrite (proj2 (Nat.ltb_ge _ _)); [done|].
    assert (Hin : List.last (map fst gates) g ∈ map fst ((g, first) :: gates)) by apply last_in_cons.
    apply list_elem_of_fmap in Hin as (x & -> & Hx). by apply (Hseq b x). }
  rewrite (sbind_step _ _ _ _ _ Hb).
  assert (Hg : (g, first) :: gates = (gates_of y 0 0 steps).1) by (by rewrite <- Hw). rewrite Hg.
  unfold sbind, assertEachWaitGatesItsEntry. rewrite gated_entries_pass by (intros s ?; by apply Hs).
  unfold assertEveryWaitDeclaresAnOwner. rewrite (proj2 (owner_none _ _)).
  { eexists _, _. split; [done|]. split; [done|by intros H%Hn]. }
  apply gated_owners, Forall_forall. intros s ?. by apply Hs.
Qed.

(** ** A swap between two marked lanes *)

Definition marked_yard : Yard :=
  mkYard (y_nodes demo_yard) (y_bins demo_yard) [] []
    (<[(10%Z, PropLaneGatePoint) := "M1"]> (<[(20%Z, PropLaneGatePoint) := "M2"]> no_props)) [] [] [].

Definition swap_plan : list resolvedStep :=
  [at_ ActionPickup "S11"; at_ ActionPickup "S12"; at_ ActionDropoff "P1"; at_ ActionPickup "P1"; at_ ActionDropoff "S21"].

Definition lane_stop (point : string) (lane : Z) : resolvedStep := mkStep ActionWait point "" false false WaitKindLane lane.

Definition swap_spliced : list resolvedStep :=
  [lane_stop "M1" 10; at_ ActionPickup "S11"; at_ ActionPickup "S12"; at_ ActionDropoff "P1"; at_ ActionPickup "P1";
   lane_stop "M2" 20; at_ ActionDropoff "S21"].

Lemma swap_spliced_run :
  spliceLaneWait swap_plan (calm marked_yard) = (Ok (swap_spliced, Some (mkTarget (ylane 10 "L1" 1) "M1")), calm marked_yard).
Proof. vm_compute. reflexivity. Qed.

Lemma marked_ids : ids_set marked_yard.
Proof. intros n Hn. by each_row Hn. Qed.

Lemma splice_only_inserts_witness :
  with_waits swap_plan swap_spliced /\ every_wait_gates marked_yard None swap_spliced /\ Forall known_owner swap_spliced.
Proof. destruct (splice_only_inserts _ _ _ _ _ swap_spliced_run) as (H1 & _ & H3). by destruct (H3 ltac:(done)). Defined.

Lemma splice_escorts_witness : escorted marked_yard None swap_spliced.
Proof. apply (splice_escorts marked_yard swap_plan _ _ _ marked_ids (eq_refl _) swap_spliced_run). Defined.

(** One failed read is enough to lose a gate: with the first node lookup, or
    with the lane's mark, unreadable the same plan ships into L1 unannounced,
    and the splice reports success. *)
Example failed_read_opens_the_gate :
  (forall faults, faults = [true] \/ faults = [false; false; false; true] ->
    exists t, (spliceLaneWait [at_ ActionPickup "S11"; at_ ActionDropoff "S21"] (mkConn marked_yard faults)).1 =
      Ok ([at_ ActionPickup "S11"; lane_stop "M2" 20; at_ ActionDropoff "S21"], t)) /\
  ~ escorted marked_yard None [at_ ActionPickup "S11"; lane_stop "M2" 20; at_ ActionDropoff "S21"].
Proof. split; [intros faults [->| ->]; eexists; vm_compute; reflexivity|]. cbn. by intros [? _]. Qed.
