(* ===== verification/Junction.v ===== *)
(** The order_bins junction: which claimed bin belongs to which step of an
    order's plan (store/orders/order_bins.go), and its re-index when the splice
    has moved the plan's steps (dispatch/splice_reindex.go).

    [ShiftOrderBinSteps] ranges over a Go map twice.  The two orders of iteration
    are parameters, any permutation of the map's entries. *)

From S2P Require Import Prelude Sql Yard YardReads Capacity GatedPlan Splice.

(** ** The table *)

Record OrderBin := mkOrderBin {
  ob_id : Z; ob_order : Z; ob_bin : Z; ob_step : Z; ob_action : string; ob_node : string; ob_dest : string }.

Record Junction := mkJunction { j_rows : list OrderBin; j_next : Z }.

Inductive JunctionError := JeDriver.
#[export] Instance junction_driver_error : DriverError JunctionError := {| driver_error := JeDriver |}.

Notation JunctionSQL := (SQL Junction JunctionError).

Definition with_rows (rows : list OrderBin) (j : Junction) : Junction := mkJunction rows (j_next j).
Definition with_step (step : Z) (r : OrderBin) : OrderBin :=
  mkOrderBin (ob_id r) (ob_order r) (ob_bin r) step (ob_action r) (ob_node r) (ob_dest r).
Definition with_dest (dest : string) (r : OrderBin) : OrderBin :=
  mkOrderBin (ob_id r) (ob_order r) (ob_bin r) (ob_step r) (ob_action r) (ob_node r) dest.

Definition of_order (orderID : Z) (r : OrderBin) : bool := ob_order r =i orderID.
Definition of_bin (orderID binID : Z) (r : OrderBin) : bool := of_order orderID r && (ob_bin r =i binID).

(** ON CONFLICT (order_id, bin_id) DO UPDATE: the row keeps its id. *)
Definition InsertOrderBin (orderID binID stepIndex : Z) (action nodeName destNode : string) : JunctionSQL unit :=
  exec (fun j =>
    if existsb (of_bin orderID binID) (j_rows j) then
      with_rows (map (fun r => if of_bin orderID binID r
        then mkOrderBin (ob_id r) orderID binID stepIndex action nodeName destNode else r) (j_rows j)) j
    else mkJunction (j_rows j ++ [mkOrderBin (j_next j) orderID binID stepIndex action nodeName destNode]) (j_next j + 1)).

Definition rows_of (orderID : Z) (j : Junction) : list OrderBin :=
  isort (fun a b => (ob_step a <=? ob_step b)%Z) (List.filter (of_order orderID) (j_rows j)).

Definition ListOrderBins (orderID : Z) : JunctionSQL (list OrderBin) := query (rows_of orderID).

Definition UpdateOrderBinDestNode (orderID binID : Z) (destNode : string) : JunctionSQL nat :=
  stmt (fun j => (length (List.filter (of_bin orderID binID) (j_rows j)),
    with_rows (map (fun r => if of_bin orderID binID r then with_dest destNode r else r) (j_rows j)) j)).

Definition DeleteOrderBins (orderID : Z) : JunctionSQL (option unit) :=
  slog (exec (fun j => with_rows (List.filter (fun r => negb (of_order orderID r)) (j_rows j)) j)).

Definition move_row (orderID from to : Z) (r : OrderBin) : OrderBin :=
  if of_order orderID r && (ob_step r =i from) then with_step to r else r.

Section Shift.
Context (park_range land_range : gmap Z Z -> list (Z * Z)).

Fixpoint park_loop (orderID : Z) (entries : list (Z * Z)) : JunctionSQL unit :=
  match entries with
  | [] => sret ()
  | (old, _) :: rest =>
      exec (fun j => with_rows (map (move_row orderID old (-1 - old)) (j_rows j)) j) ;;; park_loop orderID rest
  end.

Fixpoint land_loop (orderID : Z) (entries : list (Z * Z)) : JunctionSQL unit :=
  match entries with
  | [] => sret ()
  | (old, new) :: rest =>
      exec (fun j => with_rows (map (move_row orderID (-1 - old) new) (j_rows j)) j) ;;; land_loop orderID rest
  end.

Definition ShiftOrderBinSteps (orderID : Z) (shift : gmap Z Z) : JunctionSQL unit :=
  if (length (map_to_list shift) =? 0)%nat then sret ()
  else tx (park_loop orderID (park_range shift) ;;; land_loop orderID (land_range shift) ;;; commit ()).

(** ** The re-index *)

Fixpoint shift_from (pre post : Z) (spliced : list resolvedStep) : gmap Z Z :=
  match spliced with
  | [] => ∅
  | s :: rest =>
      if lane_wait s then shift_from pre (post + 1) rest
      else if post =i pre then shift_from (pre + 1) (post + 1) rest
      else <[pre := post]> (shift_from (pre + 1) (post + 1) rest)
  end.

Definition spliceStepShift (spliced : list resolvedStep) : gmap Z Z := shift_from 0 0 spliced.

Inductive Mismatch :=
| OutsidePlan (bin step : Z) (planLength : nat)
| OtherNode (bin step : Z) (recorded actual : string).

Fixpoint assertJunctionMatchesPlan (steps : list resolvedStep) (rows : list OrderBin) : option Mismatch :=
  match rows with
  | [] => None
  | r :: rest =>
      if (ob_step r <? 0)%Z || (Z.of_nat (length steps) <=? ob_step r)%Z
      then Some (OutsidePlan (ob_bin r) (ob_step r) (length steps))
      else
        let s := default noStep (steps !! Z.to_nat (ob_step r)) in
        if (ob_node r <>s "") && (ps_node s <>s ob_node r)
        then Some (OtherNode (ob_bin r) (ob_step r) (ob_node r) (ps_node s))
        else assertJunctionMatchesPlan steps rest
  end.

Definition junctionPlanMismatch (spliced : list resolvedStep) (rows : list OrderBin) : option Mismatch :=
  assertJunctionMatchesPlan spliced rows.

(** [Some m]: the invariant did not hold and was logged. *)
Definition reindexOrderBinsForSplice (orderID : Z) (spliced : list resolvedStep) : JunctionSQL (option Mismatch) :=
  let shift := spliceStepShift spliced in
  if (length (map_to_list shift) =? 0)%nat then sret None
  else
    rows <-- ListOrderBins orderID ;;
    match rows with
    | [] => sret None
    | _ :: _ =>
        let applicable := fold_left (fun m r => match shift !! ob_step r with Some to => <[ob_step r := to]> m | None => m end)
          rows ∅ in
        if (length (map_to_list applicable) =? 0)%nat then sret None
        else
          ShiftOrderBinSteps orderID applicable ;;;
          after <-- ListOrderBins orderID ;;
          sret (junctionPlanMismatch spliced after)
    end.
End Shift.

(** ** Positions *)

(** Where the [i]-th step that is no lane wait stands. *)
Fixpoint nth_pos (l : list resolvedStep) (i : nat) : option nat :=
  match l with
  | [] => None
  | s :: rest => if lane_wait s then S <$> nth_pos rest i else match i with O => Some O | S i => S <$> nth_pos rest i end
  end.

Lemma shift_below l : forall pre post k, (k < pre)%Z -> shift_from pre post l !! k = None.
Proof.
  induction l as [|s l IH]; intros pre post k Hk; cbn; [done|].
  destruct (lane_wait s); [by apply IH|]. destruct (post =i pre); [apply IH; lia|].
  rewrite lookup_insert_ne by lia. apply IH. lia.
Qed.

Lemma shift_position l : forall pre post i p,
  nth_pos l i = Some p ->
  default (pre + Z.of_nat i)%Z (shift_from pre post l !! (pre + Z.of_nat i)%Z) = (post + Z.of_nat p)%Z.
Proof.
  induction l as [|s l IH]; intros pre post i p; cbn; [done|]. destruct (lane_wait s).
  - intros (q & Hq & ->)%fmap_Some. rewrite (IH pre (post + 1)%Z i q Hq). lia.
  - destruct i as [|i].
    { intros [= <-]. rewrite !Z.add_0_r. destruct (Z.eqb_spec post pre) as [->|Hne]; [|by rewrite lookup_insert_eq].
      by rewrite shift_below by lia. }
    intros (q & Hq & ->)%fmap_Some. specialize (IH (pre + 1)%Z (post + 1)%Z i q Hq).
    replace (pre + 1 + Z.of_nat i)%Z with (pre + Z.of_nat (S i))%Z in IH by lia.
    destruct (post =i pre); [|rewrite lookup_insert_ne by lia]; rewrite IH; lia.
Qed.

Lemma shift_nonneg l : forall pre post k v, (0 <= post)%Z -> shift_from pre post l !! k = Some v -> (0 <= v)%Z.
Proof.
  induction l as [|s l IH]; intros pre post k v Hp; cbn; [done|].
  destruct (lane_wait s); [apply IH; lia|]. destruct (post =i pre); [apply IH; lia|].
  rewrite lookup_insert_Some. intros [[_ <-]|[_ H]]; [done|]. eapply IH; [|done]. lia.
Qed.

(** The splice keeps every authored step, at the place the walk computes. *)
Lemma position_kept plan spliced :
  with_waits plan spliced -> authored plan -> forall i s, plan !! i = Some s -> lane_wait s = false ->
  exists p, nth_pos spliced i = Some p /\ spliced !! p = Some s.
Proof.
  induction 1 as [|s a b _ IH|w s a b Hw _ IH]; intros Hau i x Hx Hn; [done|..].
  - destruct (authored_tail s a Hau) as [Ha Hs]. cbn. destruct i as [|i].
    { injection Hx as ->. rewrite Hn. by exists 0%nat. }
    rewrite Hs by (by destruct a). destruct (IH Ha i x Hx Hn) as (p & -> & Hp). by exists (S p).
  - destruct (authored_tail s a Hau) as [Ha Hs]. cbn. rewrite Hw. destruct i as [|i].
    { injection Hx as ->. rewrite Hn. by exists 1%nat. }
    rewrite Hs by (by destruct a). destruct (IH Ha i x Hx Hn) as (p & -> & Hp). by exists (S (S p)).
Qed.

(** ** The two passes *)

Section Passes.
Context (o : Z).

Definition park_row (entries : list (Z * Z)) (r : OrderBin) : OrderBin :=
  fold_left (fun r e => move_row o e.1 (-1 - e.1) r) entries r.
Definition land_row (entries : list (Z * Z)) (r : OrderBin) : OrderBin :=
  fold_left (fun r e => move_row o (-1 - e.1) e.2 r) entries r.

Lemma park_loop_ok entries : forall c u c',
  park_loop o entries c = (Ok u, c') -> db c' = with_rows (map (park_row entries) (j_rows (db c))) (db c).
Proof.
  induction entries as [|[old new] l IH]; intros c u c'; cbn.
  { intros [= _ <-]. unfold with_rows. rewrite map_id. by destruct (db c). }
  intros (u1 & c1 & E1 & H)%sbind_ok. apply exec_ok in E1. rewrite (IH _ _ _ H), E1. unfold with_rows. cbn.
  by rewrite map_map.
Qed.

Lemma land_loop_ok entries : forall c u c',
  land_loop o entries c = (Ok u, c') -> db c' = with_rows (map (land_row entries) (j_rows (db c))) (db c).
Proof.
  induction entries as [|[old new] l IH]; intros c u c'; cbn.
  { intros [= _ <-]. unfold with_rows. rewrite map_id. by destruct (db c). }
  intros (u1 & c1 & E1 & H)%sbind_ok. apply exec_ok in E1. rewrite (IH _ _ _ H), E1. unfold with_rows. cbn.
  by rewrite map_map.
Qed.

Lemma move_other from to r : of_order o r = false \/ ob_step r <> from -> move_row o from to r = r.
Proof.
  unfold move_row. intros [->|H]; [done|]. by rewrite (proj2 (Z.eqb_neq _ _) H), andb_false_r.
Qed.

Lemma move_own to r : of_order o r = true -> move_row o (ob_step r) to r = with_step to r.
Proof. unfold move_row. intros ->. by rewrite Z.eqb_refl. Qed.

Lemma park_stays entries r :
  of_order o r = false \/ (forall e, e ∈ entries -> ob_step r <> e.1) -> park_row entries r = r.
Proof.
  intros H. induction entries as [|e l IH]; [done|]. cbn. rewrite move_other.
  - apply IH. destruct H as [H|H]; [by left|right]. intros e' He. apply H. by right.
  - destruct H as [H|H]; [by left|right]. apply H. left.
Qed.

Lemma park_moves entries r :
  of_order o r = true -> (0 <= ob_step r)%Z -> (forall e, e ∈ entries -> (0 <= e.1)%Z) ->
  ob_step r ∈ map fst entries -> park_row entries r = with_step (-1 - ob_step r) r.
Proof.
  intros Ho Hr He Hin. induction entries as [|e l IH]; [by apply elem_of_nil in Hin|]. cbn.
  assert (Hl : forall e', e' ∈ l -> (0 <= e'.1)%Z) by (intros e' H; apply He; by right).
  destruct (decide (ob_step r = e.1)) as [E|E].
  - rewrite <- E, move_own by done. apply park_stays. right. intros e' H. cbn. specialize (Hl e' H). lia.
  - rewrite move_other by (by right). apply IH; [done|]. cbn in Hin. apply elem_of_cons in Hin as [?|?]; [congruence|done].
Qed.

Lemma land_stays entries r :
  of_order o r = false \/ (forall e, e ∈ entries -> ob_step r <> (-1 - e.1)%Z) -> land_row entries r = r.
Proof.
  intros H. induction entries as [|e l IH]; [done|]. cbn. rewrite move_other.
  - apply IH. destruct H as [H|H]; [by left|right]. intros e' He. apply H. by right.
  - destruct H as [H|H]; [by left|right]. apply H. left.
Qed.

Lemma land_moves entries r old new :
  of_order o r = true -> ob_step r = (-1 - old)%Z -> (forall e, e ∈ entries -> (0 <= e.1)%Z /\ (0 <= e.2)%Z) ->
  NoDup (map fst entries) -> (old, new) ∈ entries -> land_row entries r = with_step new r.
Proof.
  intros Ho Hr He Hnd Hin. induction entries as [|[a b] l IH]; [by apply elem_of_nil in Hin|]. cbn.
  cbn in Hnd. apply NoDup_cons in Hnd as [Ha Hnd].
  assert (Hl : forall e', e' ∈ l -> (0 <= e'.1)%Z /\ (0 <= e'.2)%Z) by (intros e' H; apply He; by right).
  apply elem_of_cons in Hin as [[= <- <-]|Hin].
  - rewrite <- Hr, move_own by done. apply land_stays. right. intros e' H. cbn.
    destruct (Hl e' H), (He (old, new) ltac:(left)). cbn in *. lia.
  - rewrite move_other; [by apply IH|]. right. intros E.
    assert (a = old) as -> by lia. apply Ha, list_elem_of_fmap. by exists (old, new).
Qed.
End Passes.

Definition shifted (o : Z) (shift : gmap Z Z) (r : OrderBin) : OrderBin :=
  if of_order o r then with_step (default (ob_step r) (shift !! ob_step r)) r else r.

Lemma with_same_step r : with_step (ob_step r) r = r.
Proof. by destruct r. Qed.

Section Reindex.
Context (park_range land_range : gmap Z Z -> list (Z * Z)).
Hypothesis park_perm : forall m, park_range m ≡ₚ map_to_list m.
Hypothesis land_perm : forall m, land_range m ≡ₚ map_to_list m.

(** No entry collides with a parked row. *)
Definition positions (shift : gmap Z Z) : Prop := forall k v, shift !! k = Some v -> (0 <= k)%Z /\ (0 <= v)%Z.

Lemma two_passes o shift r :
  positions shift -> (of_order o r = true -> (0 <= ob_step r)%Z) ->
  land_row o (land_range shift) (park_row o (park_range shift) r) = shifted o shift r.
Proof.
  intros Hpos Hr. unfold shifted. destruct (of_order o r) eqn:Ho.
  2: { rewrite park_stays by (by left). apply land_stays. by left. }
  assert (Hin : forall (range : gmap Z Z -> list (Z * Z)) e, range shift ≡ₚ map_to_list shift -> e ∈ range shift ->
    shift !! e.1 = Some e.2 /\ (0 <= e.1)%Z /\ (0 <= e.2)%Z).
  { intros range [k v] Hp He. rewrite Hp in He. apply elem_of_map_to_list in He. split; [done|]. by apply Hpos. }
  specialize (Hr eq_refl). destruct (shift !! ob_step r) as [new|] eqn:Es; cbn [default].
  - rewrite (park_moves o _ r Ho Hr).
    + transitivity (with_step new (with_step (-1 - ob_step r) r)); [|done].
      apply (land_moves o _ _ (ob_step r) new); [done|done|intros e He; by apply (Hin land_range)| |].
      * rewrite land_perm. apply NoDup_fst_map_to_list.
      * rewrite land_perm. by apply elem_of_map_to_list.
    + intros e He. by apply (Hin park_range).
    + apply list_elem_of_fmap. exists (ob_step r, new). split; [done|]. rewrite park_perm. by apply elem_of_map_to_list.
  - rewrite with_same_step, park_stays, land_stays; [done|right..].
    + intros e He. destruct (Hin land_range e (land_perm _) He) as (_ & ? & _). lia.
    + intros e He E. destruct (Hin park_range e (park_perm _) He) as (? & _). rewrite <- E in *. congruence.
Qed.

(** The shift as one update, however the map is ranged over, or no update. *)
Lemma shift_lands o shift c :
  positions shift -> (forall r, r ∈ j_rows (db c) -> of_order o r = true -> (0 <= ob_step r)%Z) ->
  match ShiftOrderBinSteps park_range land_range o shift c with
  | (Ok _, c') => db c' = with_rows (map (shifted o shift) (j_rows (db c))) (db c)
  | (Err _, c') => db c' = db c
  end.
Proof.
  intros Hpos Hrows. unfold ShiftOrderBinSteps. destruct (Nat.eqb_spec (length (map_to_list shift)) 0) as [E|_].
  { assert (shift = ∅) as -> by (apply map_to_list_empty_iff, length_zero_iff_nil; done). cbn. unfold with_rows.
    rewrite (map_ext_in _ id), map_id; [by destruct (db c)|]. intros r _. unfold shifted. rewrite lookup_empty. cbn.
    rewrite with_same_step. by destruct (of_order o r). }
  destruct (tx _ c) as [[u|e] c'] eqn:Et; [|by apply tx_err in Et].
  apply tx_ok in Et as (done & c0 & c1 & Hd0 & H & Hd).
  apply sbind_ok in H as (u1 & c2 & E1 & H). apply sbind_ok in H as (u2 & c3 & E2 & H). injection H as _ <- <-.
  apply park_loop_ok in E1. apply land_loop_ok in E2. rewrite Hd, E2, E1, Hd0. unfold with_rows. cbn. rewrite map_map.
  f_equal. apply map_ext_in. intros r Hr. apply two_passes; [done|]. apply Hrows. by apply list_elem_of_In.
Qed.

Definition applicable_of (shift : gmap Z Z) (rows : list OrderBin) (m : gmap Z Z) : gmap Z Z :=
  fold_left (fun m r => match shift !! ob_step r with Some to => <[ob_step r := to]> m | None => m end) rows m.

Lemma applicable_sound shift rows : forall m,
  (forall k v, m !! k = Some v -> shift !! k = Some v) ->
  (forall k v, applicable_of shift rows m !! k = Some v ->
    shift !! k = Some v /\ (is_Some (m !! k) \/ exists r, r ∈ rows /\ ob_step r = k)) /\
  (forall k, is_Some (m !! k) -> applicable_of shift rows m !! k = m !! k) /\
  (forall r, r ∈ rows -> applicable_of shift rows m !! ob_step r = shift !! ob_step r).
Proof.
  induction rows as [|r l IH]; intros m Hm; cbn.
  { split_and!; [naive_solver|done|by intros r ?%elem_of_nil]. }
  destruct (shift !! ob_step r) as [to|] eqn:Es.
  2: { destruct (IH m Hm) as (H1 & H2 & H3). split_and!; [|done|].
       - intros k v Hk. destruct (H1 k v Hk) as (? & [?|(r' & ? & ?)]); split; eauto. right. exists r'. split; [by right|done].
       - intros r' [->|Hin]%elem_of_cons; [|by apply H3]. destruct (applicable_of shift l m !! ob_step r) as [v|] eqn:E; [|by rewrite Es].
         apply H1 in E as [E _]. congruence. }
  destruct (IH (<[ob_step r := to]> m)) as (H1 & H2 & H3).
  { intros k v. rewrite lookup_insert_Some. intros [[<- <-]|[_ ?]]; auto. }
  split_and!.
  - intros k v Hk. destruct (H1 k v Hk) as (? & [[x Hx]|(r' & ? & ?)]); (split; [done|]).
    + apply lookup_insert_Some in Hx as [[<- _]|[_ ?]]; [right; exists r; split; [left|done]|left; eauto].
    + right. exists r'. split; [by right|done].
  - intros k Hk. rewrite H2; [|by apply lookup_insert_is_Some'; right]. destruct (decide (ob_step r = k)) as [<-|]; [|by rewrite lookup_insert_ne].
    destruct Hk as [v Hv]. rewrite lookup_insert_eq, Hv. apply Hm in Hv. congruence.
  - intros r' [->|Hin]%elem_of_cons; [|by apply H3]. rewrite H2, lookup_insert_eq; [done|]. rewrite lookup_insert_eq. eauto.
Qed.

(** The row names a step of the plan: a position in it, at the step's node. *)
Definition filed (plan : list resolvedStep) (r : OrderBin) : Prop :=
  (0 <= ob_step r)%Z /\ exists s, plan !! Z.to_nat (ob_step r) = Some s /\ lane_wait s = false /\
    (ob_node r = "" \/ ob_node r = ps_node s).

Lemma shifted_filed o plan spliced r :
  with_waits plan spliced -> authored plan -> of_order o r = true -> filed plan r ->
  filed spliced (shifted o (spliceStepShift spliced) r) /\
  spliced !! Z.to_nat (ob_step (shifted o (spliceStepShift spliced) r)) = plan !! Z.to_nat (ob_step r).
Proof.
  intros Hw Ha Ho (Hr & s & Hs & Hn & Hname). destruct (position_kept plan spliced Hw Ha _ s Hs Hn) as (p & Hp & Hps).
  pose proof (shift_position spliced 0 0 _ p Hp) as E. rewrite !Z.add_0_l, !Z2Nat.id in E by done.
  set (r' := shifted o (spliceStepShift spliced) r).
  assert (ob_step r' = Z.of_nat p /\ ob_node r' = ob_node r) as [Hst Hnode].
  { unfold r', shifted. rewrite Ho. split; [exact E|done]. }
  unfold filed. rewrite Hst, Hnode, Nat2Z.id, Hs. split; [|done]. split; [lia|]. by exists s.
Qed.

Lemma filed_matches plan rows :
  (forall r, r ∈ rows -> filed plan r) -> assertJunctionMatchesPlan plan rows = None.
Proof.
  induction rows as [|r l IH]; intros H; [done|]. cbn. destruct (H r ltac:(left)) as (Hr & s & Hs & _ & Hn).
  pose proof (lookup_lt_Some _ _ _ Hs). rewrite (proj2 (Z.ltb_ge _ _)), (proj2 (Z.leb_gt _ _)) by lia. cbn. rewrite Hs. cbn.
  rewrite IH by (intros r' H'; apply H; by right).
  destruct Hn as [->| ->]; [done|]. by rewrite String.eqb_refl, andb_false_r.
Qed.

Lemma rows_of_in o j r : r ∈ rows_of o j <-> r ∈ j_rows j /\ of_order o r = true.
Proof. unfold rows_of. by rewrite elem_of_isort, elem_of_lfilter. Qed.

Lemma of_order_shifted o shift r : of_order o (shifted o shift r) = of_order o r.
Proof. unfold shifted. destruct (of_order o r) eqn:E; [|done]. done. Qed.

Lemma nothing_moves o shift j :
  (forall r, r ∈ rows_of o j -> shift !! ob_step r = None) -> with_rows (map (shifted o shift) (j_rows j)) j = j.
Proof.
  intros H. unfold with_rows. rewrite (map_ext_in _ id), map_id; [by destruct j|]. intros r Hr%list_elem_of_In. unfold shifted, id.
  destruct (of_order o r) eqn:E; [|done]. rewrite H by (by apply rows_of_in). cbn. apply with_same_step.
Qed.

Lemma list_bins_run o c :
  match ListOrderBins o c with
  | (Ok rows, c') => rows = rows_of o (db c) /\ db c' = db c
  | (Err _, c') => db c' = db c
  end.
Proof. unfold ListOrderBins, query, stmt. by destruct (faults c) as [|[] fs]. Qed.
End Reindex.

(** The junction follows the plan.  Whatever order the shift's map is ranged
    over in, an order's junction rows that named the steps of the plan before the
    splice name, after the re-index, the very same steps of the spliced plan, and
    no other row is touched.  Whatever statement fails, the rows are all moved or
    none is; a re-index that reports success has moved them, and its closing check
    finds nothing to log. *)
Theorem junction_follows_splice park_range land_range o plan spliced c :
  (forall m, park_range m ≡ₚ map_to_list m) -> (forall m, land_range m ≡ₚ map_to_list m) ->
  with_waits plan spliced -> authored plan -> (forall r, r ∈ rows_of o (db c) -> filed plan r) ->
  let moved := shifted o (spliceStepShift spliced) in
  let after := with_rows (map moved (j_rows (db c))) (db c) in
  (forall r, r ∈ rows_of o (db c) -> filed spliced (moved r) /\
     spliced !! Z.to_nat (ob_step (moved r)) = plan !! Z.to_nat (ob_step r)) /\
  match reindexOrderBinsForSplice park_range land_range o spliced c with
  | (Ok breach, c') => db c' = after /\ breach = None
  | (Err _, c') => db c' = db c \/ db c' = after
  end.
Proof.
  intros Hp Hl Hw Ha Hrows moved after. split.
  { intros r Hr. apply (shifted_filed o plan); [done|done| |by apply Hrows]. by apply rows_of_in in Hr as [_ ?]. }
  assert (Hafter : forall r, r ∈ rows_of o after -> filed spliced r).
  { intros r [Hin Ho]%rows_of_in. cbn in Hin. apply list_elem_of_fmap in Hin as (r0 & -> & Hin). unfold moved in *.
    rewrite of_order_shifted in Ho. apply (shifted_filed o plan); [done|done|done|]. apply Hrows, rows_of_in. done. }
  unfold reindexOrderBinsForSplice. set (shift := spliceStepShift spliced) in *.
  destruct (Nat.eqb_spec (length (map_to_list shift)) 0) as [E|_].
  { cbn. split; [|done]. symmetry. apply nothing_moves. intros r _. fold shift.
    assert (shift = ∅) as -> by (by apply map_to_list_empty_iff, length_zero_iff_nil). apply lookup_empty. }
  pose proof (list_bins_run o c) as HL. unfold sbind at 1. destruct (ListOrderBins o c) as [[rows|e] c1]; [|by left].
  destruct HL as [-> Hd1]. destruct (rows_of o (db c)) as [|r0 rs0] eqn:Er.
  { cbn. split; [|done]. rewrite Hd1. symmetry. apply nothing_moves. rewrite Er. by intros r ?%elem_of_nil. }
  remember (r0 :: rs0) as rows eqn:Erows. clear Erows.
  change (fold_left _ rows ∅) with (applicable_of shift rows ∅). set (app := applicable_of shift rows ∅).
  destruct (applicable_sound shift rows ∅) as (H1 & _ & H3); [by intros k v ?%lookup_empty_Some|]. fold app in H1, H3.
  assert (Hsame : forall r, r ∈ rows -> app !! ob_step r = shift !! ob_step r) by done.
  assert (Hpos : positions app).
  { intros k v Hk. destruct (H1 k v Hk) as (Hs & [[x Hx]|(r & Hr & <-)]); [by rewrite lookup_empty in Hx|].
    split; [by destruct (Hrows r Hr)|]. by eapply (shift_nonneg spliced 0 0). }
  destruct (Nat.eqb_spec (length (map_to_list app)) 0) as [E|_].
  { cbn. split; [|done]. rewrite Hd1. symmetry. apply nothing_moves. rewrite Er. intros r Hr. fold shift. rewrite <- Hsame by done.
    assert (app = ∅) as -> by (by apply map_to_list_empty_iff, length_zero_iff_nil). apply lookup_empty. }
  assert (Hnn : forall r, r ∈ j_rows (db c1) -> of_order o r = true -> (0 <= ob_step r)%Z).
  { intros r Hr Ho. rewrite Hd1 in Hr. apply (Hrows r). rewrite <- Er. by apply rows_of_in. }
  pose proof (shift_lands park_range land_range Hp Hl o app c1 Hpos Hnn) as HS. unfold sbind at 1.
  destruct (ShiftOrderBinSteps park_range land_range o app c1) as [[u|e] c2]; [|left; congruence].
  assert (Hd2 : db c2 = after).
  { rewrite HS, Hd1. unfold after, with_rows. f_equal. apply map_ext_in. intros r Hr%list_elem_of_In. unfold moved, shifted.
    destruct (of_order o r) eqn:Ho; [|done]. rewrite Hsame; [done|]. rewrite <- Er. by apply rows_of_in. }
  pose proof (list_bins_run o c2) as HL2. unfold sbind. destruct (ListOrderBins o c2) as [[rows2|e] c3]; [|right; congruence].
  destruct HL2 as [-> Hd3]. cbn. split; [congruence|]. unfold junctionPlanMismatch. rewrite Hd2. by apply filed_matches.
Qed.

(** ** The swap's rows *)

Definition bin_row (id order bin step : Z) (node : string) : OrderBin := mkOrderBin id order bin step ActionPickup node "".

Definition swap_rows : Junction :=
  mkJunction [bin_row 1 5 101 0 "S11"; bin_row 2 9 700 0 "X"; bin_row 3 5 102 1 "S12"; bin_row 4 5 103 3 "P1"] 5.

Definition backwards (m : gmap Z Z) : list (Z * Z) := reverse (map_to_list m).

Lemma backwards_perm m : backwards m ≡ₚ map_to_list m.
Proof. apply reverse_Permutation. Qed.

Lemma swap_with_waits : with_waits swap_plan swap_spliced.
Proof. by repeat (first [apply ww_nil | apply ww_wait; [done|] | apply ww_keep]). Qed.

Lemma swap_rows_filed r : r ∈ rows_of 5 swap_rows -> filed swap_plan r.
Proof. intros Hr. each_row Hr; (split; [done|]); eexists; (split; [reflexivity|]); (split; [done|by right]). Qed.

