(* ===== verification/Admission.v ===== *)
(** Lane admission (shingo-core/dispatch/admission.go): may this move happen now?
    With the questions it is made of - whose dig holds the lane ([ownsDig],
    dispatch/lane_gate.go), which bin the order's entry wants and where it stands
    (dispatch/bin_for_step.go, [pickupSlotNow] of lane_gate_release.go).

    Admission reads and never writes, and any of its statements may fail.  An
    [Err] here is the source's zero verdict with an error: not admitted.  The
    order is the copy the caller holds, with its stored plan and wait index; the
    order_bins rows are given beside the yard. *)

From S2P Require Import Prelude Status Sql CoreDb Mouth Yard YardReads Resolver Capacity Reshuffle GatedPlan Splice Junction.

(** ** Verdicts *)

Definition CauseLaneDigActive : string := "lane-dig-active".
Definition CauseLaneHeldSource : string := "lane-held-source".
Definition CauseLaneOccupied : string := "lane-occupied".
Definition CauseLaneTargetBuried : string := "lane-target-buried".
Definition CauseGatePickupElsewhere : string := "gate-pickup-elsewhere".

Record GateVerdict := mkVerdict { gv_admitted : bool; gv_cause : string; gv_lane : string }.

Definition admitted_now : GateVerdict := mkVerdict true "" "".
Definition RefusedAt (cause lane : string) : GateVerdict := mkVerdict false cause lane.

Record admissionSkips := mkSkips { sk_reachability : bool; sk_entry_when_gated : bool }.

Definition skipsForPlainEntry : admissionSkips := mkSkips true true.
Definition skipsForGatedStoreEntry : admissionSkips := mkSkips false false.
Definition skipsForComplexEntry : admissionSkips := mkSkips false true.

Inductive EntryKind := EntryFreshBin | EntryHeldBin.

Definition skipsForEntry (kind : EntryKind) : admissionSkips :=
  match kind with EntryHeldBin => mkSkips false true | EntryFreshBin => skipsForPlainEntry end.

(** ** The order in hand *)

(** id, status, source node, bin_id and parent; steps_json; wait_index. *)
Record Asking := mkAsking { aq_order : YOrder; aq_plan : Stored; aq_wait : Z }.

Definition aq_id (o : Asking) : Z := yo_id (aq_order o).

Record admissionSituation := mkSituation {
  as_order : option Asking; as_source : option YNode; as_dest : option YNode; as_skip : admissionSkips }.

Inductive AdmissionError :=
| AeDriver
| AePickupNotInLane                            (** ErrPickupNotInLane *)
| AeBinGone (bin : Z)
| AeNoOrder.
#[export] Instance admission_driver_error : DriverError AdmissionError := {| driver_error := AeDriver |}.

Notation AdmSQL := (SQL Yard AdmissionError).

(** A call whose error is returned. *)
Definition fetch {A} (m : YardSQL A) : AdmSQL A :=
  r <-- ask m ;; match r with Some a => sret a | None => sfail AeDriver end.

Section Admission.
Context (rows : Z -> list OrderBin).

(** ** Which bin does the entry want *)

Record stepBin := mkStepBin { sb_bin : Z; sb_at : string; sb_known : bool }.

Definition no_bin : stepBin := mkStepBin 0 "" false.
Definition from_order (o : Asking) : stepBin :=
  match yo_bin (aq_order o) with Some b => mkStepBin b "" true | None => no_bin end.

Definition orderDropsAtBefore (steps : list resolvedStep) (node : string) (stepIndex : nat) : bool :=
  existsb (fun s => (ps_action s =s ActionDropoff) && (ps_node s =s node)) (take stepIndex steps).

Definition binForStep (o : Asking) (steps : list resolvedStep) (stepIndex : nat) : AdmSQL stepBin :=
  match steps !! stepIndex with
  | None => sret no_bin
  | Some step =>
      rs <-- query (fun _ => rows (aq_id o)) ;;
      match List.find (fun r => ob_step r =i Z.of_nat stepIndex) rs with
      | Some r => sret (mkStepBin (ob_bin r) "" true)
      | None =>
          if (ps_node step <>s "") && orderDropsAtBefore steps (ps_node step) stepIndex
          then sret (mkStepBin 0 (ps_node step) true)
          else sret (from_order o)
      end
  end.

Definition entryStepIndex (o : Asking) (steps : list resolvedStep) : option nat :=
  if IsPreDispatch (yo_status (aq_order o))
  then (fun x => x.1.2) <$> first_actionable 0 steps
  else (fun x => x.1.2) <$> laneEntryAfterWait steps (aq_wait o).

Definition wantedBin (o : Asking) : AdmSQL stepBin :=
  match aq_plan o with
  | NoPlan | Garbled => sret (from_order o)
  | Plan steps =>
      match entryStepIndex o steps with
      | None => sret (from_order o)
      | Some idx =>
          b <-- binForStep o steps idx ;;
          sret (if sb_known b then b else from_order o)
      end
  end.

(** ** Where it stands *)

Definition GetBin (id : Z) : YardSQL YBin :=
  r <-- query (fun y => List.find (fun b => yb_id b =i id) (y_bins y)) ;;
  match r with Some b => sret b | None => sfail YeNoRows end.

(** The slot, and whether it is another one than the order names. *)
Definition pickupSlotNow (o : Asking) (lane : YNode) : AdmSQL (YNode * bool) :=
  named <-- fetch (GetNodeByDotName (yo_source (aq_order o))) ;;
  want <-- wantedBin o ;;
  if negb (sb_known want) then sret (named, false)
  else if sb_at want <>s "" then
    at_ <-- fetch (GetNodeByDotName (sb_at want)) ;;
    if negb (child_of (yn_id lane) at_) then sfail AePickupNotInLane
    else sret (at_, negb (yn_id at_ =i yn_id named))
  else
    bin <-- fetch (GetBin (sb_bin want)) ;;
    match yb_node bin with
    | None => sfail (AeBinGone (sb_bin want))
    | Some at_id =>
        if at_id =i yn_id named then sret (named, false)
        else
          at_ <-- fetch (GetNode at_id) ;;
          if negb (child_of (yn_id lane) at_) then sfail AePickupNotInLane else sret (at_, true)
    end.

(** ** Whose dig *)

Definition digAskerFor (o : YOrder) : DigAsker := AskerFor (yo_id o) (default (yo_id o) (yo_parent o)).

Definition order_by_id (y : Yard) (id : Z) : option YOrder := List.find (fun o => yo_id o =i id) (y_orders y).

Definition get_order (id : Z) : YardSQL YOrder :=
  r <-- query (fun y => order_by_id y id) ;; match r with Some o => sret o | None => sfail YeNoRows end.

Definition digAsker (orderID : Z) : AdmSQL DigAsker :=
  r <-- ask (get_order orderID) ;;
  sret match r with None => AskerFor orderID orderID | Some o => digAskerFor o end.

Definition ownsDig (orderID digOwner : Z) : AdmSQL bool :=
  a <-- digAsker orderID ;; sret (negb (ExcludedBy a digOwner)).

(** ** One lane *)

Definition entryDeferredToGate (skip : admissionSkips) (lane : YNode) : AdmSQL bool :=
  match sk_entry_when_gated skip, yn_parent lane with
  | true, Some _ => p <-- ask (GetNodeProperty (yn_id lane) PropLaneGatePoint) ;; sret (default "" p <>s "")
  | _, _ => sret false
  end.

Definition dig_row (h : MouthHold) : bool := is_mode (mh_mode h) ModeDig.

(** LaneLock.DigOwner, LaneLock.ExcavationOwner and reservations.OccupantsOf over the
    yard's rows. *)
Definition dig_owner (y : Yard) (lane : Z) : Z := dig_owner_in dig_row (mouth_rows y lane).
Definition excavation_owner (y : Yard) (lane : Z) : Z :=
  dig_owner_in (fun h => dig_row h && IsExcavation (mh_by h)) (mouth_rows y lane).
Definition occupants (y : Yard) (lane : Z) : list Z :=
  isort Z.leb (map r_order
    (List.filter (fun r => bool_decide (r_kind r = KindOccupancy) && claimed_is (r_node r) lane) (y_resv y))).

Definition blockers_at (slot : Z) : AdmSQL (list (YBin * YNode)) := fun c =>
  match findBuriedBlockers slot c with
  | (Ok l, c') => (Ok l, c')
  | (Err _, c') => (Err AeDriver, c')
  end.

(** [errors.Is(err, ErrPickupNotInLane)]: [None]. *)
Definition pickup_or_elsewhere (o : Asking) (lane : YNode) : AdmSQL (option YNode) := fun c =>
  match pickupSlotNow o lane c with
  | (Ok (n, _), c') => (Ok (Some n), c')
  | (Err AePickupNotInLane, c') => (Ok None, c')
  | (Err e, c') => (Err e, c')
  end.

Definition admit_reachable (o : Asking) (lane : YNode) : AdmSQL GateVerdict :=
  target <-- pickup_or_elsewhere o lane ;;
  match target with
  | None => sret (RefusedAt CauseGatePickupElsewhere (yn_name lane))
  | Some slot =>
      blockers <-- blockers_at (yn_id slot) ;;
      sret match blockers with [] => admitted_now | _ :: _ => RefusedAt CauseLaneTargetBuried (yn_name lane) end
  end.

Definition admitLane (o : Asking) (skip : admissionSkips) (node : option YNode) (isSource : bool) : AdmSQL GateVerdict :=
  match node with
  | None => sret admitted_now
  | Some n =>
      l <-- fetch (LaneForNode (yn_id n)) ;;
      match l with
      | None => sret admitted_now
      | Some lane =>
          deferred <-- entryDeferredToGate skip lane ;;
          if deferred : bool then sret admitted_now
          else
            digOwner <-- query (fun y => dig_owner y (yn_id lane)) ;;
            owns <-- (if digOwner =i 0 then sret true else ownsDig (aq_id o) digOwner) ;;
            if negb owns then
              x <-- slog (query (fun y => excavation_owner y (yn_id lane))) ;;
              sret (RefusedAt (match x with Some 0%Z => CauseLaneHeldSource | _ => CauseLaneDigActive end) (yn_name lane))
            else
              occ <-- query (fun y => occupants y (yn_id lane)) ;;
              if existsb (fun id => negb (id =i aq_id o)) occ then sret (RefusedAt CauseLaneOccupied (yn_name lane))
              else if negb isSource || sk_reachability skip then sret admitted_now
              else admit_reachable o lane
      end
  end.

(** The source calls it [admit]. *)
Definition admit_move (s : admissionSituation) : AdmSQL GateVerdict :=
  match as_order s with
  | None => sfail AeNoOrder
  | Some o =>
      v <-- admitLane o (as_skip s) (as_source s) true ;;
      if negb (gv_admitted v) then sret v else admitLane o (as_skip s) (as_dest s) false
  end.

(** The question a gate-staged retrieve asks. *)
Definition laneGateRetrieveCause (sourceNode : YNode) (o : Asking) : AdmSQL GateVerdict :=
  admit_move (mkSituation (Some o) (Some sourceNode) None (mkSkips false false)).

(** ** A whole plan *)

Definition named_step (s : resolvedStep) : bool := actionable s && (ps_node s <>s "").

Fixpoint planNodes (steps : list resolvedStep) : AdmSQL (list YNode) :=
  match steps with
  | [] => sret []
  | s :: rest =>
      if negb (named_step s) then planNodes rest
      else
        n <-- ask (GetNodeByDotName (ps_node s)) ;;
        more <-- planNodes rest ;;
        sret match n with Some n => n :: more | None => more end
  end.

Fixpoint admitPlan (o : Asking) (steps : list resolvedStep) (skip : admissionSkips) : AdmSQL GateVerdict :=
  match steps with
  | [] => sret admitted_now
  | s :: rest =>
      if negb (named_step s) then admitPlan o rest skip
      else
        n <-- ask (GetNodeByDotName (ps_node s)) ;;
        match n with
        | None => admitPlan o rest skip
        | Some node =>
            v <-- admitLane o skip (Some node) (ps_action s =s ActionPickup) ;;
            if negb (gv_admitted v) then sret v else admitPlan o rest skip
        end
  end.
End Admission.

(** ** What it means for a lane to be open *)

(** The dig is the order's own, or its parent's. *)
Definition own_dig (y : Yard) (id owner : Z) : Prop :=
  owner = id \/ exists o, order_by_id y id = Some o /\ yo_parent o = Some owner.

(** What the mouth's admission keeps true of a lane (Mouth.v): one dig at most. *)
Definition one_dig (y : Yard) (lane : Z) : Prop :=
  forall r r', r ∈ y_resv y -> r' ∈ y_resv y -> mouth_on lane r = true -> mouth_on lane r' = true ->
    r_mode r = Some ModeDig -> r_mode r' = Some ModeDig -> r_order r = r_order r' /\ r_order r <> 0%Z.

(** Nobody has to be moved to get at the slot; a retired bin is nobody's to move. *)
Definition way_clear (y : Yard) (slot : YNode) : Prop :=
  forall n, n ∈ y_nodes y -> LaneBlockerPredicate y n slot = true -> bins_at y (yn_id n) = [].

Section Open.
Context (rows : Z -> list OrderBin).

(** The bin an entry is for: the junction's row for the step, a bin the order
    itself left at the step's node, or the order's own bin. *)
Definition wanted (o : Asking) : stepBin :=
  match aq_plan o with
  | Plan steps =>
      match entryStepIndex o steps with
      | Some idx =>
          match List.find (fun r => ob_step r =i Z.of_nat idx) (rows (aq_id o)), steps !! idx with
          | Some r, Some _ => mkStepBin (ob_bin r) "" true
          | None, Some step =>
              if (ps_node step <>s "") && orderDropsAtBefore steps (ps_node step) idx
              then mkStepBin 0 (ps_node step) true else from_order o
          | _, None => from_order o
          end
      | None => from_order o
      end
  | _ => from_order o
  end.

Definition bin_by_id (y : Yard) (id : Z) : option YBin := List.find (fun b => yb_id b =i id) (y_bins y).

Definition of_lane (lane : YNode) (n : option YNode) : option YNode :=
  match n with Some n => if child_of (yn_id lane) n then Some n else None | None => None end.

(** Where the wanted bin stands, if that is the slot the order names or a slot of
    the lane. *)
Definition pickup_spot (y : Yard) (o : Asking) (lane : YNode) : option YNode :=
  match node_by_dot_name y (yo_source (aq_order o)) with
  | None => None
  | Some named =>
      if negb (sb_known (wanted o)) then Some named
      else if sb_at (wanted o) <>s "" then of_lane lane (node_by_dot_name y (sb_at (wanted o)))
      else match bin_by_id y (sb_bin (wanted o)) with
           | None => None
           | Some b =>
               match yb_node b with
               | None => None
               | Some i => if i =i yn_id named then Some named else of_lane lane (node_by_id y i)
               end
           end
  end.

Record lane_open (y : Yard) (o : Asking) (skip : admissionSkips) (isSource : bool) (lane : YNode) : Prop := {
  lo_dig : dig_owner y (yn_id lane) = 0%Z \/ own_dig y (aq_id o) (dig_owner y (yn_id lane));
  lo_alone : forall r, r ∈ y_resv y -> r_kind r = KindOccupancy -> r_node r = Some (yn_id lane) -> r_order r = aq_id o;
  lo_clear : isSource = true -> sk_reachability skip = false ->
    exists slot, pickup_spot y o lane = Some slot /\ way_clear y slot }.

(** The caller stops at the lane's mark; the gate asks later. *)
Definition deferred_at (y : Yard) (skip : admissionSkips) (lane : YNode) : bool :=
  sk_entry_when_gated skip && bool_decide (is_Some (yn_parent lane)) && (mark y (yn_id lane) <>s "").

Definition end_open (y : Yard) (o : Asking) (skip : admissionSkips) (isSource : bool) (node : option YNode) : Prop :=
  match node with
  | None => True
  | Some n =>
      match lane_at y (yn_id n) with
      | None => False
      | Some None => True
      | Some (Some lane) => deferred_at y skip lane = true \/ lane_open y o skip isSource lane
      end
  end.
End Open.

(** ** Reading *)

Section Reading.
Context (h : Prop) (y : Yard).
Notation runs := (runs (E := AdmissionError) h y).

(** The call reads [f]: right, or an error on a connection that failed. *)
Definition reads_as {A} (m : YardSQL A) (f : Yard -> option A) : Prop :=
  YardReads.runs (E := YardError) h y m (fun o => match o with Ok a => f y = Some a | Err _ => h -> f y = None end).

Lemma lookup_reads {A} (f : Yard -> option A) (e : YardError) :
  reads_as (r <-- query f ;; match r with Some a => sret a | None => sfail e end) f.
Proof.
  intros c Hd Hf. unfold sbind, query, stmt.
  destruct (faults c) as [|[] fs] eqn:Ef; cbn; rewrite ?Hd;
    try (destruct (f y) as [a|] eqn:E); eexists _, _; (split; [reflexivity|]); split_and!; auto;
    intros Hh; specialize (Hf Hh); try done; by injection Hf as ->.
Qed.

Lemma GetNode_reads id : reads_as (GetNode id) (fun y => node_by_id y id).
Proof. apply lookup_reads. Qed.

Lemma LaneForNode_reads id : reads_as (LaneForNode id) (fun y => lane_at y id).
Proof.
  unfold reads_as, LaneForNode, lane_at.
  eapply runs_bind; [apply GetNode_reads| |intros e He Hh; by rewrite (He Hh)]. intros n Hn. cbn in Hn. rewrite Hn.
  destruct (yn_parent n) as [p|]; [|by apply runs_ret].
  eapply runs_bind; [apply GetNode_reads| |intros e He Hh; by rewrite (He Hh)]. intros pn Hp. cbn in Hp. rewrite Hp.
  by apply runs_ret.
Qed.

Lemma answers_ask {E A} (m : YardSQL A) f :
  reads_as m f -> answers h y (ask (E := E) m) (fun r => (h -> r = f y) /\ (r = None \/ r = f y)).
Proof.
  intros Hm c Hd Hf. destruct (Hm c Hd Hf) as (o & c1 & E1 & Hd1 & Hf1 & Ho). unfold ask. rewrite E1.
  destruct o as [a|e]; eexists _, c1; (split; [reflexivity|]); split_and!; auto. intros Hh. by rewrite (Ho Hh).
Qed.

Lemma runs_fetch {A} (m : YardSQL A) f :
  reads_as m f -> runs (fetch m) (fun r => match r with Ok a => f y = Some a | Err e => e = AeDriver /\ (h -> f y = None) end).
Proof.
  intros Hm. eapply runs_answers; [by eapply answers_ask|]. intros [a|] [Ha Ha']; [apply runs_ret|apply runs_fail].
  - by destruct Ha' as [?|<-].
  - split; [done|]. intros Hh. by rewrite <- (Ha Hh).
Qed.

Lemma runs_query {A} (f : Yard -> A) :
  runs (query f) (fun r => match r with Ok a => a = f y | Err e => e = AeDriver /\ (h -> False) end).
Proof.
  intros c Hd Hf. unfold query, stmt. destruct (faults c) as [|[] fs] eqn:Ef; eexists _, _; (split; [reflexivity|]);
    rewrite ?Hd; split_and!; auto; intros Hh; specialize (Hf Hh); try done.
Qed.
End Reading.

(** ** The pieces on any connection *)

Section Pieces.
Context (rows : Z -> list OrderBin) (h : Prop) (y : Yard).
Notation runs := (runs (E := AdmissionError) h y).
Notation fails e := (e = AeDriver /\ (h -> False)).

Lemma runs_wanted o : runs (wantedBin rows o) (fun r => match r with Ok b => b = wanted rows o | Err e => fails e end).
Proof.
  unfold wantedBin, wanted. destruct (aq_plan o) as [| |steps]; [by apply runs_ret|by apply runs_ret|].
  destruct (entryStepIndex o steps) as [idx|]; [|by apply runs_ret]. unfold binForStep.
  destruct (steps !! idx) as [step|] eqn:Es.
  2: { eapply runs_bind; [apply (runs_ret _ _ _ (fun r => r = Ok no_bin)); done| |done]. intros a [= ->]. apply runs_ret.
       by destruct (List.find _ _). }
  eapply runs_bind with (P := fun r => match r with Ok b => b = match List.find (fun r => ob_step r =i Z.of_nat idx) (rows (aq_id o)) with
      | Some r => mkStepBin (ob_bin r) "" true
      | None => if (ps_node step <>s "") && orderDropsAtBefore steps (ps_node step) idx
                then mkStepBin 0 (ps_node step) true else from_order o end | Err e => fails e end); [| |done].
  - eapply runs_bind; [apply runs_query| |done]. intros rs ->.
    destruct (List.find _ _); [by apply runs_ret|]. destruct (_ && _); by apply runs_ret.
  - intros b ->. apply runs_ret. destruct (List.find _ _); [done|]. destruct (_ && _); [done|].
    unfold from_order. by destruct (yo_bin _).
Qed.

Lemma of_lane_some lane n n' : of_lane lane n = Some n' -> n = Some n' /\ child_of (yn_id lane) n' = true.
Proof. unfold of_lane. destruct n as [m|]; [|done]. destruct (child_of _ m) eqn:E; naive_solver. Qed.

Lemma runs_pickup o lane :
  runs (pickupSlotNow rows o lane) (fun r => match r with
    | Ok (n, _) => pickup_spot rows y o lane = Some n
    | Err AePickupNotInLane => pickup_spot rows y o lane = None
    | Err _ => h -> pickup_spot rows y o lane = None end).
Proof.
  unfold pickupSlotNow, pickup_spot.
  eapply runs_bind; [apply runs_fetch, lookup_reads| |intros e [-> He] Hh; by rewrite He]. intros named ->.
  eapply runs_bind; [apply runs_wanted| |intros e [-> He] Hh; by destruct He]. intros ? ->.
  destruct (sb_known (wanted rows o)); cbn [negb]; [|by apply runs_ret].
  destruct (sb_at (wanted rows o) <>s ""); cbn [negb].
  - eapply runs_bind; [apply runs_fetch, lookup_reads| |intros e [-> He] Hh; by rewrite He]. intros at_ ->. cbn.
    destruct (child_of _ at_) eqn:Ec; cbn; [by apply runs_ret|by apply runs_fail].
  - eapply runs_bind; [apply (runs_fetch _ _ _ (fun y => bin_by_id y (sb_bin (wanted rows o)))), lookup_reads| |intros e [-> He] Hh; by rewrite He].
    intros b ->. destruct (yb_node b) as [i|]; [|by apply runs_fail]. destruct (i =i yn_id named); [by apply runs_ret|].
    eapply runs_bind; [apply runs_fetch, GetNode_reads| |intros e [-> He] Hh; by rewrite He]. intros at_ ->. cbn.
    destruct (child_of _ at_) eqn:Ec; cbn; [by apply runs_ret|by apply runs_fail].
Qed.

Lemma runs_pickup_or_elsewhere o lane :
  runs (pickup_or_elsewhere rows o lane) (fun r => match r with
    | Ok n => pickup_spot rows y o lane = n
    | Err _ => h -> pickup_spot rows y o lane = None end).
Proof.
  intros c Hd Hf. destruct (runs_pickup o lane c Hd Hf) as (r & c1 & E & Hd1 & Hf1 & Hr).
  unfold pickup_or_elsewhere. rewrite E.
  destruct r as [[n m]|[]]; eexists _, c1; (split; [reflexivity|]); auto.
Qed.

Lemma runs_owns id owner :
  owner <> 0%Z ->
  runs (ownsDig id owner) (fun r => match r with
    | Ok b => (b = true -> own_dig y id owner) /\ (h -> own_dig y id owner -> b = true) /\ (b = false -> owner <> id)
    | Err _ => False end).
Proof.
  intros H0. unfold ownsDig, digAsker.
  eapply runs_answers with (P := fun a => (Owns a owner = true -> own_dig y id owner) /\ (h -> own_dig y id owner -> Owns a owner = true) /\
    (Owns a owner = false -> owner <> id)).
  - eapply answers_bind; [apply answers_ask, lookup_reads|]. intros r [Hr Hr']. apply answers_ret.
    unfold Owns, digAskerFor, AskerFor, own_dig. rewrite (proj2 (Z.eqb_neq owner 0)) by done. cbn.
    assert (Hid : forall o, order_by_id y id = Some o -> yo_id o = id).
    { intros o Ho. unfold order_by_id in Ho. apply List.find_some in Ho as [_ Ho]. by apply Z.eqb_eq in Ho. }
    destruct r as [o|]; cbn.
    + destruct Hr' as [?|Hr']; [done|]. rewrite (Hid o) by done. rewrite <- Hr'. split_and!.
      * intros [->%Z.eqb_eq|E%Z.eqb_eq]%orb_true_iff; [by left|].
        destruct (yo_parent o) as [p|] eqn:Ep; cbn in E; [|left; by destruct (id =i 0)].
        destruct (p =i 0); [by left|right]. exists o. split; congruence.
      * intros Hh [->|(o' & [= <-] & Ep)]; apply orb_true_iff; [left; apply Z.eqb_refl|right]. rewrite Ep. cbn.
        rewrite (proj2 (Z.eqb_neq owner 0)) by done. apply Z.eqb_refl.
      * by intros [H%Z.eqb_neq _]%orb_false_iff.
    + split_and!.
      * intros [->%Z.eqb_eq|E%Z.eqb_eq]%orb_true_iff; left; [done|by destruct (id =i 0)].
      * intros Hh. rewrite <- (Hr Hh). intros [->|(o & ? & ?)]; [|done]. by rewrite Z.eqb_refl.
      * by intros [H%Z.eqb_neq _]%orb_false_iff.
  - intros a Ha. apply runs_ret. unfold ExcludedBy. rewrite (proj2 (Z.eqb_neq owner 0)) by done.
    by rewrite negb_involutive.
Qed.

Lemma runs_deferred skip lane :
  runs (entryDeferredToGate skip lane) (fun r => match r with
    | Ok b => (b = true -> deferred_at y skip lane = true) /\ (h -> b = deferred_at y skip lane)
    | Err _ => False end).
Proof.
  unfold entryDeferredToGate, deferred_at. destruct (sk_entry_when_gated skip); [|by apply runs_ret].
  destruct (yn_parent lane); [|by apply runs_ret]. cbn.
  eapply runs_answers with (P := fun p => (h -> p = Some (mark y (yn_id lane))) /\ (default "" p = "" \/ p = Some (mark y (yn_id lane)))).
  - intros c Hd Hf. unfold ask, GetNodeProperty, sbind, slog, query, stmt, sret, mark.
    destruct (faults c) as [|[] fs] eqn:Ef; cbn; rewrite ?Hd; eexists _, _; (split; [reflexivity|]); split_and!; auto;
      intros Hh; specialize (Hf Hh); done.
  - intros p [Hp Hp']. apply runs_ret. split; [|intros Hh; by rewrite (Hp Hh)].
    destruct Hp' as [->| ->]; done.
Qed.
End Pieces.

(** ** What stands in the way *)

Section Way.
Context (h : Prop) (y : Yard) (Hid : NoDup (map yn_id (y_nodes y))).

Lemma front_reads slot : slot ∈ y_nodes y -> reads_as h y (BlockersInFrontOf (yn_id slot)) (fun y => Some (in_front y slot)).
Proof.
  intros Hs. pose proof (node_by_id_in _ _ Hid Hs) as En. unfold reads_as, BlockersInFrontOf.
  eapply runs_bind; [apply GetNode_reads| |intros e He Hh; specialize (He Hh); cbn in He; congruence].
  intros n Hn. cbn in Hn. rewrite En in Hn. injection Hn as <-.
  destruct (yn_parent slot) eqn:Ep, (yn_depth slot) eqn:Ed; try (apply runs_ret; by rewrite in_front_nil; auto).
  intros c Hd Hf. unfold query, stmt. destruct (faults c) as [|[] fs] eqn:Ef; rewrite ?Hd, ?En; eexists _, _;
    (split; [reflexivity|]); split_and!; auto; intros Hh; specialize (Hf Hh); done.
Qed.

Lemma bins_reads n : reads_as h y (ListBinsByNode n) (fun y => Some (bins_at y n)).
Proof.
  intros c Hd Hf. unfold ListBinsByNode, query, stmt. destruct (faults c) as [|[] fs] eqn:Ef; rewrite ?Hd; eexists _, _;
    (split; [reflexivity|]); split_and!; auto; intros Hh; specialize (Hf Hh); done.
Qed.

Lemma runs_must {A} (m : YardSQL A) f :
  reads_as h y m f -> runs h y (must m) (fun r => match r with Ok a => f y = Some a | Err _ => h -> f y = None end).
Proof.
  intros Hm. eapply runs_answers; [by eapply answers_ask|]. intros [a|] [Ha Ha']; [apply runs_ret|apply runs_fail].
  - by destruct Ha' as [?|<-].
  - intros Hh. by rewrite <- (Ha Hh).
Qed.

Lemma runs_blocker_bins slots :
  runs h y (blocker_bins slots) (fun r => match r with
    | Ok l => l = [] <-> forall s, s ∈ slots -> bins_at y (yn_id s) = []
    | Err _ => h -> False end).
Proof.
  induction slots as [|s rest IH]; cbn; [apply runs_ret; set_solver|].
  eapply runs_bind; [apply runs_must, bins_reads| |intros e He Hh; specialize (He Hh); done]. intros bs [= <-].
  eapply runs_bind; [exact IH| |done]. intros more Hm. apply runs_ret. cbn in Hm |- *. setoid_rewrite elem_of_cons.
  destruct (bins_at y (yn_id s)) as [|b bs] eqn:Eb.
  - rewrite Hm. split; [intros H s' [->|Hs']; auto|auto].
  - split; [done|]. intros H. rewrite (H s) in Eb by auto. done.
Qed.

Lemma runs_blockers slot :
  slot ∈ y_nodes y ->
  runs h y (blockers_at (yn_id slot)) (fun r => match r with Ok l => l = [] <-> way_clear y slot | Err _ => h -> False end).
Proof.
  intros Hs. assert (H : runs h y (findBuriedBlockers (yn_id slot))
    (fun r => match r with Ok l => l = [] <-> way_clear y slot | Err _ => h -> False end)).
  { eapply runs_bind; [apply runs_must, front_reads, Hs| |intros e He Hh; by specialize (He Hh)]. intros slots [= <-].
    eapply runs_weaken; [apply runs_blocker_bins|]. intros [l|e]; [|done]. intros ->. unfold way_clear, in_front.
    setoid_rewrite elem_of_isort. setoid_rewrite elem_of_lfilter. naive_solver. }
  intros c Hd Hf. destruct (H c Hd Hf) as (o & c1 & E & Hd1 & Hf1 & Ho). unfold blockers_at. rewrite E.
  destruct o; eexists _, c1; (split; [reflexivity|]); auto.
Qed.
End Way.

Lemma found_in {A} (P : A -> bool) l (a : A) : List.find P l = Some a -> a ∈ l.
Proof. intros [H _]%List.find_some. by apply list_elem_of_In. Qed.

Lemma dot_name_row y name n : node_by_dot_name y name = Some n -> n ∈ y_nodes y.
Proof. unfold node_by_dot_name, node_by_name. destruct (cut_dot name) as [[p q]|]; apply found_in. Qed.

Lemma spot_row rows y o lane n : pickup_spot rows y o lane = Some n -> n ∈ y_nodes y.
Proof.
  unfold pickup_spot. destruct (node_by_dot_name y _) as [named|] eqn:En; [|done].
  destruct (negb _); [intros [= <-]; by eapply dot_name_row|].
  destruct (_ <>s ""); [intros [H _]%of_lane_some; by eapply dot_name_row|].
  destruct (bin_by_id y _) as [b|]; [|done]. destruct (yb_node b) as [i|]; [|done].
  destruct (i =i _); [intros [= <-]; by eapply dot_name_row|]. intros [H _]%of_lane_some. by eapply found_in.
Qed.

(** ** The holds of a lane *)

Lemma dig_owner_row y lane :
  dig_owner y lane = 0%Z \/
  exists r, r ∈ y_resv y /\ mouth_on lane r = true /\ r_mode r = Some ModeDig /\ r_order r = dig_owner y lane.
Proof.
  unfold dig_owner, dig_owner_in, mouth_rows. destruct (List.find dig_row _) as [hd|] eqn:E; [right|by left].
  apply List.find_some in E as [Hin Hd]. apply list_elem_of_In in Hin.
  apply elem_of_isort, list_elem_of_fmap in Hin as (r & -> & [Hr Hm]%elem_of_lfilter). exists r.
  split_and!; try done. by apply is_mode_true in Hd.
Qed.

Lemma dig_owner_found y lane r :
  one_dig y lane -> r ∈ y_resv y -> mouth_on lane r = true -> r_mode r = Some ModeDig ->
  dig_owner y lane = r_order r /\ r_order r <> 0%Z.
Proof.
  intros Hone Hr Hm Hd. destruct (Hone r r Hr Hr Hm Hm Hd Hd) as [_ H0]. split; [|done].
  destruct (dig_owner_row y lane) as [E|(r' & Hr' & Hm' & Hd' & <-)]; [|by apply (Hone r' r)]. exfalso.
  unfold dig_owner, dig_owner_in, mouth_rows in E.
  destruct (List.find dig_row _) as [hd|] eqn:Ef.
  - apply List.find_some in Ef as [Hin Hdd]. apply list_elem_of_In, elem_of_isort, list_elem_of_fmap in Hin as (r' & -> & [Hr' Hm']%elem_of_lfilter).
    apply is_mode_true in Hdd. by destruct (Hone r' r) as [_ H].
  - eapply List.find_none in Ef; [|apply list_elem_of_In, elem_of_isort, list_elem_of_fmap; exists r; split; [done|by apply elem_of_lfilter]].
    unfold dig_row in Ef. cbn in Ef. by rewrite (proj2 (is_mode_true _ _) Hd) in Ef.
Qed.

(** On a coherent lane the owner's answer is about every dig row. *)
Lemma own_every_dig rows y o skip isSource lane :
  one_dig y (yn_id lane) -> lane_open rows y o skip isSource lane ->
  forall r, r ∈ y_resv y -> mouth_on (yn_id lane) r = true -> r_mode r = Some ModeDig -> own_dig y (aq_id o) (r_order r).
Proof.
  intros Hone Ho r Hr Hm Hdig. destruct (dig_owner_found y (yn_id lane) r Hone Hr Hm Hdig) as [E H0].
  destruct (lo_dig _ _ _ _ _ _ Ho) as [H|H]; rewrite E in H; done.
Qed.

Lemma occupants_others y lane id :
  existsb (fun i => negb (i =i id)) (occupants y lane) = false <->
  forall r, r ∈ y_resv y -> r_kind r = KindOccupancy -> r_node r = Some lane -> r_order r = id.
Proof.
  rewrite existsb_false. unfold occupants. setoid_rewrite elem_of_isort. setoid_rewrite list_elem_of_fmap.
  setoid_rewrite elem_of_lfilter. setoid_rewrite andb_true_iff. setoid_rewrite bool_decide_eq_true.
  setoid_rewrite claimed_is_true. setoid_rewrite negb_false_iff. setoid_rewrite Z.eqb_eq. naive_solver.
Qed.

(** ** A lane, a move, a plan *)

(** What a refusal's cause says is so. *)
Inductive refused_because (rows : Z -> list OrderBin) (y : Yard) (o : Asking) (lane : YNode) : string -> Prop :=
| rb_dig r cause : r ∈ y_resv y -> mouth_on (yn_id lane) r = true -> r_mode r = Some ModeDig -> r_order r <> aq_id o ->
    cause = CauseLaneDigActive \/ cause = CauseLaneHeldSource -> refused_because rows y o lane cause
| rb_occupied r : r ∈ y_resv y -> r_kind r = KindOccupancy -> r_node r = Some (yn_id lane) -> r_order r <> aq_id o ->
    refused_because rows y o lane CauseLaneOccupied
| rb_elsewhere : pickup_spot rows y o lane = None -> refused_because rows y o lane CauseGatePickupElsewhere
| rb_buried slot n : pickup_spot rows y o lane = Some slot -> n ∈ y_nodes y -> LaneBlockerPredicate y n slot = true ->
    bins_at y (yn_id n) <> [] -> refused_because rows y o lane CauseLaneTargetBuried.

Definition refusal_true (rows : Z -> list OrderBin) (y : Yard) (o : Asking) (node : option YNode) (v : GateVerdict) : Prop :=
  exists n lane, node = Some n /\ lane_at y (yn_id n) = Some (Some lane) /\ gv_lane v = yn_name lane /\
    refused_because rows y o lane (gv_cause v).

Section Lane.
Context (rows : Z -> list OrderBin) (h : Prop) (y : Yard).
Context (Hid : NoDup (map yn_id (y_nodes y))).

(** The verdict is right about [P], and its refusals satisfy [R]. *)
Definition decides (P : Prop) (R : GateVerdict -> Prop) (r : outcome AdmissionError GateVerdict) : Prop :=
  match r with
  | Ok v => (gv_admitted v = true -> P) /\ (h -> P -> gv_admitted v = true) /\ (gv_admitted v = false -> R v)
  | Err _ => h -> ~ P
  end.

Lemma runs_admits (P : Prop) R : P -> runs h y (sret (E := AdmissionError) admitted_now) (decides P R).
Proof. intros H. apply runs_ret. by split_and!. Qed.
Lemma runs_refuses (P : Prop) (R : GateVerdict -> Prop) cause lane :
  (h -> ~ P) -> R (RefusedAt cause lane) -> runs h y (sret (E := AdmissionError) (RefusedAt cause lane)) (decides P R).
Proof. intros H HR. apply runs_ret. split_and!; try done. intros Hh HP. by destruct (H Hh). Qed.

Lemma way_blocked slot : ~ way_clear y slot ->
  exists n, n ∈ y_nodes y /\ LaneBlockerPredicate y n slot = true /\ bins_at y (yn_id n) <> [].
Proof.
  intros Hw. destruct (decide (Exists (fun n => LaneBlockerPredicate y n slot = true /\ bins_at y (yn_id n) <> []) (y_nodes y)))
    as [(n & Hn & HP & Hb)%Exists_exists|Hne]; [eauto|]. exfalso. apply Hw. intros n Hn HP.
  destruct (decide (bins_at y (yn_id n) = [])); [done|]. exfalso. apply Hne, Exists_exists. eauto.
Qed.

Lemma runs_reachable o lane :
  runs h y (admit_reachable rows o lane)
    (decides (exists slot, pickup_spot rows y o lane = Some slot /\ way_clear y slot)
      (fun v => gv_lane v = yn_name lane /\ refused_because rows y o lane (gv_cause v))).
Proof.
  unfold admit_reachable.
  eapply runs_bind; [apply runs_pickup_or_elsewhere| |intros e He Hh (s & Hs & _); specialize (He Hh); congruence].
  intros [slot|] Hs.
  2: { apply runs_refuses; [intros _ (s & Hs' & _); congruence|]. split; [done|]. by constructor. }
  eapply runs_bind; [apply (runs_blockers _ _ Hid), (spot_row _ _ _ _ _ Hs)| |intros e He Hh; by destruct He].
  intros [|b bs] Hb; [apply runs_admits; exists slot; split; [done|by apply Hb]|].
  assert (Hw : ~ way_clear y slot) by (intros H%Hb; done).
  apply runs_refuses; [intros _ (s & Hs' & Hc); congruence|]. split; [done|].
  destruct (way_blocked slot Hw) as (n & ? & ? & ?). by econstructor.
Qed.

Lemma runs_dig o lane :
  runs h y (if dig_owner y (yn_id lane) =i 0 then sret true else ownsDig (aq_id o) (dig_owner y (yn_id lane))) (fun r => match r with
    | Ok b => (b = true -> dig_owner y (yn_id lane) = 0%Z \/ own_dig y (aq_id o) (dig_owner y (yn_id lane))) /\
        (b = false -> dig_owner y (yn_id lane) <> 0%Z /\ dig_owner y (yn_id lane) <> aq_id o) /\
        (h -> own_dig y (aq_id o) (dig_owner y (yn_id lane)) -> b = true)
    | Err _ => False end).
Proof.
  destruct (dig_owner y (yn_id lane) =i 0) eqn:E0; [apply runs_ret; apply Z.eqb_eq in E0; split_and!; auto; done|].
  apply Z.eqb_neq in E0. eapply runs_weaken; [by apply runs_owns|]. intros [b|e]; [|done]. intros (H1 & H2 & H3). split_and!; auto.
Qed.

Lemma other_inside o lane :
  existsb (fun i => negb (i =i aq_id o)) (occupants y (yn_id lane)) = true -> refused_because rows y o lane CauseLaneOccupied.
Proof.
  intros (i & Hi & Hne%negb_true_iff%Z.eqb_neq)%existsb_true.
  apply elem_of_isort, list_elem_of_fmap in Hi as (r & -> & [Hr [Hk Hn]%andb_true_iff]%elem_of_lfilter).
  apply bool_decide_eq_true in Hk. apply claimed_is_true in Hn. by apply (rb_occupied _ _ _ _ r).
Qed.

Lemma runs_admitLane o skip node isSource :
  runs h y (admitLane rows o skip node isSource) (decides (end_open rows y o skip isSource node) (refusal_true rows y o node)).
Proof.
  destruct node as [n|]; [|by apply runs_admits]. unfold admitLane, end_open.
  eapply runs_bind; [apply runs_fetch, LaneForNode_reads| |intros e [-> He] Hh HP; by rewrite (He Hh) in HP].
  intros [lane|] Hl; rewrite Hl; [|by apply runs_admits].
  assert (Hrefuse : forall v, gv_lane v = yn_name lane -> refused_because rows y o lane (gv_cause v) -> refusal_true rows y o (Some n) v)
    by (intros v Hv Hr; by exists n, lane).
  eapply runs_bind; [apply runs_deferred| |done]. intros [] [Hd Hd']; [apply runs_admits; left; by apply Hd|].
  assert (Hnd : h -> deferred_at y skip lane <> true) by (intros Hh; rewrite <- (Hd' Hh); done).
  eapply runs_bind; [apply runs_query| |intros e [-> He] Hh; by destruct He]. intros ? ->.
  eapply runs_bind; [apply runs_dig| |done]. intros [] (Hown & Hf & Hown'); cbn [negb].
  2: { destruct (Hf eq_refl) as [Hn0 Hns]. destruct (dig_owner_row y (yn_id lane)) as [?|(r & Hr & Hm & Hdig & Er)]; [done|].
       eapply runs_answers; [apply (answers_any _ _ _); split; [apply reads_log, reads_query|]; intros c; unfold slog;
         destruct (query _ c) as [[]]; eauto|]. intros x _. apply runs_refuses.
       - intros Hh [HP|HP]; [by apply Hnd|]. destruct (lo_dig _ _ _ _ _ _ HP) as [?|Ho]; [done|]. by specialize (Hown' Hh Ho).
       - apply Hrefuse; [done|]. eapply rb_dig; try done; [congruence|]. destruct x as [[]|]; auto. }
  eapply runs_bind; [apply runs_query| |intros e [-> He] Hh; by destruct He]. intros ? ->.
  destruct (existsb _ (occupants y (yn_id lane))) eqn:Eo.
  { apply runs_refuses; [intros Hh [HP|HP]; [by apply Hnd|]|by apply Hrefuse, other_inside].
    by rewrite (proj2 (occupants_others y (yn_id lane) (aq_id o)) (lo_alone _ _ _ _ _ _ HP)) in Eo. }
  specialize (Hown eq_refl). pose proof (proj1 (occupants_others y (yn_id lane) (aq_id o)) Eo) as Halone.
  destruct (negb isSource || sk_reachability skip) eqn:Es.
  { apply runs_admits. right. split; [done|done|]. intros -> Hs. by rewrite Hs in Es. }
  apply orb_false_iff in Es as [->%negb_false_iff Hs].
  eapply runs_weaken; [apply runs_reachable|]. intros [v|e]; cbn.
  - intros (H1 & H2 & H3). split_and!; [intros Hv; right; split; auto| |intros Hv; destruct (H3 Hv); by apply Hrefuse].
    intros Hh [HP|HP]; [by destruct (Hnd Hh)|]. apply H2; [done|]. by apply (lo_clear _ _ _ _ _ _ HP).
  - intros He Hh [HP|HP]; [by apply Hnd|]. apply He; [done|]. by apply (lo_clear _ _ _ _ _ _ HP).
Qed.

Lemma runs_admit o skip src dst :
  runs h y (admit_move rows (mkSituation (Some o) src dst skip))
    (decides (end_open rows y o skip true src /\ end_open rows y o skip false dst)
      (fun v => refusal_true rows y o src v \/ refusal_true rows y o dst v)).
Proof.
  unfold admit_move. cbn. eapply runs_bind; [apply runs_admitLane| |intros e He Hh [HP _]; by apply He].
  intros v (H1 & H2 & H3). destruct (gv_admitted v) eqn:Ev; cbn.
  - eapply runs_weaken; [apply runs_admitLane|]. intros [v'|e]; [|intros He Hh [_ HP]; by apply He].
    intros (K1 & K2 & K3). split_and!; naive_solver.
  - apply runs_ret. unfold decides. rewrite Ev. split_and!; [done| |auto]. intros Hh [HP _]. by specialize (H2 Hh HP).
Qed.

(** A plan is open when every end it names is. *)
Definition plan_open (o : Asking) (skip : admissionSkips) (steps : list resolvedStep) : Prop :=
  forall s n, s ∈ steps -> named_step s = true -> node_by_dot_name y (ps_node s) = Some n ->
    end_open rows y o skip (ps_action s =s ActionPickup) (Some n).

Lemma plan_open_cons o skip s steps :
  plan_open o skip (s :: steps) <->
  (named_step s = true -> forall n, node_by_dot_name y (ps_node s) = Some n ->
     end_open rows y o skip (ps_action s =s ActionPickup) (Some n)) /\ plan_open o skip steps.
Proof. unfold plan_open. setoid_rewrite elem_of_cons. naive_solver. Qed.

Lemma runs_admitPlan o skip steps :
  runs h y (admitPlan rows o steps skip) (fun r => h -> match r with
    | Ok v => gv_admitted v = true <-> plan_open o skip steps
    | Err _ => ~ plan_open o skip steps end).
Proof.
  induction steps as [|s rest IH]; cbn [admitPlan]; [apply runs_ret; intros Hh; split; [by intros _ ? ? ?%elem_of_nil|done]|].
  destruct (named_step s) eqn:Es; cbn [negb].
  2: { eapply runs_weaken; [exact IH|]. intros [v|e] H Hh; specialize (H Hh); rewrite plan_open_cons.
       - rewrite H. split; [intros HP; split; [congruence|done]|by intros [_ ?]].
       - by intros [_ HP]. }
  eapply runs_answers; [apply answers_ask, lookup_reads|]. intros r [Hr Hr'].
  destruct r as [n|].
  2: { eapply runs_weaken; [exact IH|]. intros [v|e] H Hh; specialize (H Hh); specialize (Hr Hh);
         rewrite plan_open_cons, <- Hr.
       - rewrite H. split; [intros HP; by split|by intros [_ ?]].
       - by intros [_ HP]. }
  destruct Hr' as [?|Hr']; [done|].
  assert (Hhd : plan_open o skip (s :: rest) <-> end_open rows y o skip (ps_action s =s ActionPickup) (Some n) /\ plan_open o skip rest).
  { rewrite plan_open_cons, <- Hr', Es. split; [intros [HP ?]; split; [by apply HP|done]|].
    intros [HP ?]. split; [|done]. by intros _ n' [= <-]. }
  eapply runs_bind; [apply runs_admitLane| |intros e He Hh [HP _]%Hhd; by apply (He Hh)].
  intros v (H1 & H2 & H3). destruct (gv_admitted v) eqn:Ev; cbn [negb].
  - eapply runs_weaken; [exact IH|]. intros [v'|e] H Hh; specialize (H Hh); rewrite Hhd.
    + rewrite H. split; [auto|by intros [_ ?]].
    + by intros [_ HP].
  - apply runs_ret. intros Hh. rewrite Ev, Hhd. split; [done|]. intros [HP _]. by apply (H2 Hh).
Qed.

(** The nodes a plan names. *)
Definition named_nodes (steps : list resolvedStep) : list YNode :=
  omap (fun s => node_by_dot_name y (ps_node s)) (List.filter named_step steps).

Lemma runs_planNodes steps :
  runs h y (planNodes steps) (fun r => match r with Ok ns => h -> ns = named_nodes steps | Err _ => False end).
Proof.
  induction steps as [|s rest IH]; cbn [planNodes]; [by apply runs_ret|]. unfold named_nodes. cbn [List.filter].
  destruct (named_step s); cbn [negb]; [|exact IH].
  eapply runs_answers; [apply answers_ask, lookup_reads|]. intros r [Hr _].
  eapply runs_bind; [exact IH| |done]. intros more Hm. apply runs_ret. intros Hh. cbn. rewrite <- (Hr Hh), (Hm Hh).
  by destruct r.
Qed.
End Lane.

(** C21. Lane admission is exact and fails closed.  On every connection, whatever
    statements fail, admitting a move means that each lane it touches - other than
    one whose mark the robot will stop at - is open to the order: the dig on it is
    the order's own or its parent's, no other order is inside, and, at the pickup
    end of a caller that has not asked for itself, the bin the order came for stands
    in the slot it will drive to with nothing in front that could be moved (a caller
    that just had its bin from the finder skips this last question, and a move it is
    admitted for says nothing about it); a refusal names a lane and a cause that
    holds of it.  On a healthy connection a move is admitted exactly when its lanes
    are open in this sense.  Nothing is written.  Where the mouth has kept the lane to one dig,
    no dig row on an open lane is a stranger's. *)
Theorem admission_exact rows o skip src dst c :
  NoDup (map yn_id (y_nodes (db c))) ->
  let '(r, c') := admit_move rows (mkSituation (Some o) src dst skip) c in
  let open := end_open rows (db c) o skip true src /\ end_open rows (db c) o skip false dst in
  db c' = db c /\
  (forall v, r = Ok v -> gv_admitted v = true -> open) /\
  (forall v, r = Ok v -> gv_admitted v = false -> refusal_true rows (db c) o src v \/ refusal_true rows (db c) o dst v) /\
  (faults c = [] -> ((exists v, r = Ok v /\ gv_admitted v = true) <-> open)) /\
  (forall lane isSource, lane_open rows (db c) o skip isSource lane -> one_dig (db c) (yn_id lane) ->
     forall row, row ∈ y_resv (db c) -> mouth_on (yn_id lane) row = true -> r_mode row = Some ModeDig ->
       own_dig (db c) (aq_id o) (r_order row)).
Proof.
  intros Hid. destruct (runs_admit rows (faults c = []) (db c) Hid o skip src dst c eq_refl id) as (r & c' & E & Hd & _ & Hr).
  rewrite E. cbn zeta. unfold decides in Hr. split_and!; [done|intros v ->; tauto|intros v ->; tauto| |].
  - intros Hf. destruct r as [v|e]; [|split; [by intros (v & ? & _)|intros HP; by destruct (Hr Hf)]].
    destruct Hr as (H1 & H2 & _). split; [intros (v' & [= <-] & Hv); auto|]. intros HP. exists v. auto.
  - intros lane isSource Ho Hone. by apply (own_every_dig rows _ _ skip isSource).
Qed.

(** ** Admission only reads *)

Lemma reads_fetch {A} (m : YardSQL A) : reads m -> reads (fetch m).
Proof. intros Hm. unfold fetch. reading. Qed.
#[export] Hint Resolve reads_fetch : reads.

Lemma reads_dot_name name : reads (GetNodeByDotName name).
Proof. unfold GetNodeByDotName. reading. Qed.
Lemma reads_lane_for id : reads (LaneForNode id).
Proof. unfold LaneForNode. reading. Qed.
#[export] Hint Resolve reads_dot_name reads_lane_for : reads.

Lemma reads_blockers slot : reads (blockers_at slot).
Proof.
  assert (H : reads (findBuriedBlockers slot)).
  { unfold findBuriedBlockers, must, BlockersInFrontOf. apply reads_bind; [reading|]. intros slots.
    induction slots as [|x l IH]; simpl; [reading|]. unfold must, ListBinsByNode. reading. }
  intros c. unfold blockers_at. specialize (H c). by destruct (findBuriedBlockers slot c) as [[?|?] ?].
Qed.

Lemma reads_pickup rows o lane : reads (pickup_or_elsewhere rows o lane).
Proof.
  assert (Hw : reads (wantedBin rows o)) by (unfold wantedBin, binForStep; reading).
  assert (H : reads (pickupSlotNow rows o lane)) by (unfold pickupSlotNow, GetBin; reading).
  intros c. unfold pickup_or_elsewhere. specialize (H c). by destruct (pickupSlotNow rows o lane c) as [[[? ?]|[]] ?].
Qed.
#[export] Hint Resolve reads_blockers reads_pickup : reads.

Lemma reads_admitLane rows o skip node isSource : reads (admitLane rows o skip node isSource).
Proof. unfold admitLane, entryDeferredToGate, ownsDig, digAsker, get_order, GetNodeProperty, admit_reachable. reading. Qed.
#[export] Hint Resolve reads_admitLane : reads.

Lemma reads_admit rows s : reads (admit_move rows s).
Proof. unfold admit_move. reading. Qed.

(** ** A busy yard *)

(** Order 5's dig holds L1, with a leg 9 of its own; order 6 is inside L2. *)
Definition busy_yard : Yard :=
  mkYard (y_nodes demo_yard) (y_bins demo_yard)
    [mkYOrder 5 StatusReshuffling "" "" None None; mkYOrder 6 StatusInTransit "S21" "LINE" None None;
     mkYOrder 9 StatusPending "S12" "P1" (Some 101%Z) (Some 5%Z)]
    [mkResv 5 KindMouth None (Some 10%Z) StateConfirmed ByExcavation (Some ModeDig);
     mkResv 6 KindOccupancy None (Some 20%Z) StateConfirmed "lane-occupancy" None] ∅ [] [] [].

Definition leg : Asking := mkAsking (mkYOrder 9 StatusPending "S12" "P1" (Some 101%Z) (Some 5%Z)) NoPlan 0.
Definition stranger : Asking := mkAsking (mkYOrder 8 StatusSourcing "S12" "LINE" (Some 101%Z) None) NoPlan 0.

Definition S12 : YNode := yslot 12 "S12" 10 2.
Definition S21 : YNode := yslot 21 "S21" 20 1.

Lemma admission_exact_witness :
  admit_move (fun _ => []) (mkSituation (Some leg) (Some S12) None (mkSkips false false)) (calm busy_yard) = (Ok admitted_now, calm busy_yard) /\
  end_open (fun _ => []) busy_yard leg (mkSkips false false) true (Some S12) /\
  admit_move (fun _ => []) (mkSituation (Some leg) (Some S12) (Some S21) (mkSkips false false)) (calm busy_yard) =
    (Ok (RefusedAt CauseLaneOccupied "L2"), calm busy_yard) /\
  admit_move (fun _ => []) (mkSituation (Some stranger) (Some S12) None (mkSkips false false)) (calm busy_yard) =
    (Ok (RefusedAt CauseLaneDigActive "L1"), calm busy_yard).
Proof.
  split; [reflexivity|]. split; [|split; reflexivity].
  pose proof (admission_exact (fun _ => []) leg (mkSkips false false) (Some S12) None (calm busy_yard) demo_yard_ids) as H.
  rewrite (surjective_pairing (admit_move _ _ _)) in H. destruct H as (_ & H & _). by apply (H admitted_now).
Defined.

(** ** What a plan's walk does not ask *)

(** A plan that fetches bin 101 from L1 and then bin 102 from the back of L2,
    where a third bin stands in front of it. *)
Definition two_lanes : Yard :=
  mkYard (y_nodes demo_yard) (y_bins demo_yard ++ [ybin 103 21 "C" 1])
    [mkYOrder 8 StatusSourcing "S12" "LINE" (Some 101%Z) None] [] ∅ [] [] [].

Definition two_pickups : list resolvedStep :=
  [mkStep ActionPickup "S12" "" false false "" 0; mkStep ActionDropoff "P1" "" false false "" 0;
   mkStep ActionPickup "S22" "" false false "" 0; mkStep ActionDropoff "P1" "" false false "" 0].

Definition two_bins (id : Z) : list OrderBin :=
  [mkOrderBin 1 id 101 0 ActionPickup "S12" "P1"; mkOrderBin 2 id 102 2 ActionPickup "S22" "P1"].

Definition swap : Asking := mkAsking (mkYOrder 8 StatusSourcing "S12" "LINE" (Some 101%Z) None) (Plan two_pickups) 0.

(** The walk asks every pickup's lane whether the bin of the plan's first entry
    can be reached, so a later pickup behind another bin is admitted... *)
Example later_pickup_not_asked :
  BuriedSQL two_lanes (yslot 22 "S22" 20 2) = true /\
  (admitPlan two_bins swap two_pickups skipsForComplexEntry (calm two_lanes)).1 = Ok admitted_now.
Proof. split; reflexivity. Qed.

(** ... and when the first bin has moved up in its lane, the second lane is
    reported as the one its bin is missing from. *)
Example first_bin_missing_from_second_lane :
  admitPlan two_bins swap two_pickups skipsForComplexEntry (calm (move_bin 101 (Some 11%Z) demo_yard)) =
    (Ok (RefusedAt CauseGatePickupElsewhere "L2"), calm (move_bin 101 (Some 11%Z) demo_yard)).
Proof. reflexivity. Qed.

(** A step whose node could not be read is passed over like one that does not
    exist: the plan is admitted into a lane somebody else is inside. *)
Example unread_step_admitted :
  let steps := [mkStep ActionDropoff "S21" "" false false "" 0] in
  (admitPlan (fun _ => []) stranger steps skipsForComplexEntry (calm busy_yard)).1 = Ok (RefusedAt CauseLaneOccupied "L2") /\
  (admitPlan (fun _ => []) stranger steps skipsForComplexEntry (mkConn busy_yard [true])).1 = Ok admitted_now.
Proof. split; reflexivity. Qed.
