(* ===== verification/Fleet.v ===== *)
(** The fleet as Core sees it (fleet/fleet.go): the interface the dispatcher is
    written against, the in-memory simulator (fleet/simulator) and the SEER RDS
    adapter (fleet/seerrds/adapter.go) as its two implementations.

    [Backend] lists the calls that change a mission; [BackendLaws] is what the
    dispatcher relies on: an answer of success means the mission is as asked, and a
    call about one mission leaves the others alone.  An error says nothing about the
    mission: the server sits behind an HTTP client with a timeout, so a call that
    answered with an error may have been carried out.  The RDS server is not part
    of the repository: it is a parameter of the adapter. *)

From stdpp Require Import pretty.
From S2P Require Import Prelude Status GatedPlan.

Record CreateOrderRequest := mkCreate {
  cr_id : string; cr_external : string; cr_blocks : list OrderBlock; cr_priority : Z; cr_group : string; cr_complete : bool }.

Inductive FleetError := FeRefused | FeNeverIssued (id : string) | FeNotFound (id : string) | FeNoVehicle (id : string).

(** ** The interface *)

(** [mission f v]: the blocks of the live mission [v] and whether it is sealed. *)
Class Backend (F : Type) := {
  mission : F -> string -> option (list OrderBlock * bool);
  CreateOrder : CreateOrderRequest -> F -> outcome FleetError string * F;
  ReleaseOrder : string -> list OrderBlock -> bool -> F -> outcome FleetError unit * F;
  CancelOrder : string -> F -> outcome FleetError unit * F }.

Definition others {F} `{!Backend F} (v : string) (f f' : F) : Prop := forall w, w <> v -> mission f' w = mission f w.
Definition unmoved {F} `{!Backend F} (f f' : F) : Prop := forall w, mission f' w = mission f w.

Class BackendLaws (F : Type) `{!Backend F} := {
  create_ok req f v f' : cr_id req <> "" -> CreateOrder req f = (Ok v, f') ->
    v = cr_id req /\ mission f' v = Some (cr_blocks req, cr_complete req) /\ others v f f';
  create_err req f e f' : cr_id req <> "" -> CreateOrder req f = (Err e, f') -> others (cr_id req) f f';
  release_ok v blocks complete f f' bs sealed : mission f v = Some (bs, sealed) ->
    ReleaseOrder v blocks complete f = (Ok (), f') -> mission f' v = Some (bs ++ blocks, complete) /\ others v f f';
  release_err v blocks complete f e f' : ReleaseOrder v blocks complete f = (Err e, f') -> others v f f';
  cancel_ok v f f' : CancelOrder v f = (Ok (), f') -> mission f' v = None /\ others v f f';
  cancel_err v f e f' : CancelOrder v f = (Err e, f') -> others v f f' }.

(** ** The simulator *)

Module Simulator.

Record SimOrder := mkSimOrder {
  so_id : string; so_external : string; so_state : string; so_priority : Z; so_complete : bool; so_group : string;
  so_blocks : list OrderBlock; so_terminal_at : option Z }.

Record Sim := mkSim {
  sim_orders : gmap string SimOrder;
  sim_seq : list string;
  sim_settled : gset string;
  sim_counter : Z;
  sim_fail_create : bool;
  sim_clock : Z }.

Definition New (failOnCreate : bool) (now : Z) : Sim := mkSim ∅ [] ∅ 0 failOnCreate now.

Definition with_sim_orders (m : gmap string SimOrder) (s : Sim) : Sim :=
  mkSim m (sim_seq s) (sim_settled s) (sim_counter s) (sim_fail_create s) (sim_clock s).

Definition isEvictableTerminal (vendorState : string) : bool :=
  (vendorState =s "FINISHED") || (vendorState =s "STOPPED") || (vendorState =s "FAILED").
Definition IsTerminalState (vendorState : string) : bool := (vendorState =s "FINISHED") || (vendorState =s "STOPPED").

Definition mapStateInternal (vendorState : string) : string :=
  if (vendorState =s "CREATED") || (vendorState =s "TOBEDISPATCHED") then "dispatched"
  else if vendorState =s "RUNNING" then "in_transit"
  else if vendorState =s "WAITING" then "staged"
  else if vendorState =s "FINISHED" then "delivered"
  else if vendorState =s "FAILED" then "faulted"
  else if vendorState =s "STOPPED" then "cancelled" else "unknown".

(** The state and, on its first terminal state, the time. *)
Definition in_state (newState : string) (now : Z) (o : SimOrder) : SimOrder :=
  mkSimOrder (so_id o) (so_external o) newState (so_priority o) (so_complete o) (so_group o) (so_blocks o)
    (match so_terminal_at o with
     | Some t => Some t
     | None => if isEvictableTerminal newState then Some now else None
     end).

Definition evictable (cutoff : Z) (o : SimOrder) : bool :=
  match so_terminal_at o with Some t => (t <? cutoff)%Z | None => false end.

Fixpoint evict_loop (cutoff : Z) (ids : list string) (m : gmap string SimOrder) (settled : gset string)
    : gmap string SimOrder * gset string * list string * nat :=
  match ids with
  | [] => (m, settled, [], 0%nat)
  | id :: rest =>
      match m !! id with
      | None => evict_loop cutoff rest m settled
      | Some o =>
          if evictable cutoff o then
            let '(m', settled', kept, n) := evict_loop cutoff rest (delete id m) ({[id]} ∪ settled) in (m', settled', kept, S n)
          else let '(m', settled', kept, n) := evict_loop cutoff rest m settled in (m', settled', id :: kept, n)
      end
  end.

Definition EvictTerminalBefore (cutoff : Z) (s : Sim) : nat * Sim :=
  let '(m, settled, kept, n) := evict_loop cutoff (sim_seq s) (sim_orders s) (sim_settled s) in
  (n, mkSim m kept settled (sim_counter s) (sim_fail_create s) (sim_clock s)).

Definition sim_create (req : CreateOrderRequest) (s : Sim) : outcome FleetError string * Sim :=
  if sim_fail_create s then (Err FeRefused, s)
  else
    let '(id, counter) := if cr_id req =s "" then ("sim-" +:+ pretty (sim_counter s + 1)%Z, (sim_counter s + 1)%Z)
                          else (cr_id req, sim_counter s) in
    let o := mkSimOrder id (cr_external req) "CREATED" (cr_priority req) (cr_complete req) (cr_group req) (cr_blocks req) None in
    (Ok id, mkSim (<[id := o]> (sim_orders s)) (sim_seq s ++ [id]) (sim_settled s) counter (sim_fail_create s) (sim_clock s)).

Definition sim_release (id : string) (blocks : list OrderBlock) (complete : bool) (s : Sim) : outcome FleetError unit * Sim :=
  match sim_orders s !! id with
  | None => if bool_decide (id ∈ sim_settled s) then (Ok (), s) else (Err (FeNeverIssued id), s)
  | Some o =>
      if isEvictableTerminal (so_state o) then (Ok (), s)
      else
        (Ok (), with_sim_orders (<[id := mkSimOrder (so_id o) (so_external o) (so_state o) (so_priority o) complete (so_group o)
           (so_blocks o ++ blocks) (so_terminal_at o)]> (sim_orders s)) s)
  end.

Definition sim_cancel (id : string) (s : Sim) : outcome FleetError unit * Sim :=
  match sim_orders s !! id with
  | None => (Err (FeNotFound id), s)
  | Some o => (Ok (), with_sim_orders (<[id := in_state "STOPPED" (sim_clock s) o]> (sim_orders s)) s)
  end.

Definition SetOrderPriority (id : string) (priority : Z) (s : Sim) : outcome FleetError unit * Sim :=
  match sim_orders s !! id with
  | None => (Err (FeNotFound id), s)
  | Some o => (Ok (), with_sim_orders (<[id := mkSimOrder (so_id o) (so_external o) (so_state o) priority (so_complete o)
      (so_group o) (so_blocks o) (so_terminal_at o)]> (sim_orders s)) s)
  end.

(** The old state and the mapped one; whether a status event went out to the
    Core order the resolver names. *)
Definition DriveState (resolve : string -> option Z) (id newState : string) (s : Sim) : string * string * option Z * Sim :=
  match sim_orders s !! id with
  | None => ("", "", None, s)
  | Some o =>
      (so_state o, mapStateInternal newState, (if so_state o =s newState then None else resolve id),
       with_sim_orders (<[id := in_state newState (sim_clock s) o]> (sim_orders s)) s)
  end.

Definition RobotGroupFor (id : string) (s : Sim) : option string := so_group <$> sim_orders s !! id.

Definition sim_mission (s : Sim) (id : string) : option (list OrderBlock * bool) :=
  match sim_orders s !! id with
  | Some o => if isEvictableTerminal (so_state o) then None else Some (so_blocks o, so_complete o)
  | None => None
  end.

Lemma sim_release_others v blocks complete s w : w <> v -> sim_mission (sim_release v blocks complete s).2 w = sim_mission s w.
Proof.
  intros Hw. unfold sim_release. destruct (sim_orders s !! v) as [o|]; [|by case_bool_decide]. destruct (isEvictableTerminal _); [done|].
  unfold sim_mission. cbn. by rewrite lookup_insert_ne.
Qed.

#[global] Instance sim_backend : Backend Sim := {|
  mission := sim_mission; CreateOrder := sim_create; ReleaseOrder := sim_release; CancelOrder := sim_cancel |}.

#[global] Instance sim_laws : BackendLaws Sim.
Proof.
  assert (Hins : forall (m : gmap string SimOrder) v (o : SimOrder) w, w <> v -> <[v := o]> m !! w = m !! w)
    by (intros; by rewrite lookup_insert_ne).
  constructor; unfold unmoved, others; cbn -[sim_mission].
  - intros req f v f' Hid. unfold sim_create. destruct (sim_fail_create f); [done|].
    rewrite (seqb_neq _ _ Hid). intros [= <- <-]. unfold sim_mission. cbn. rewrite lookup_insert_eq. cbn.
    split_and!; [done|done|]. intros w Hw. by rewrite Hins.
  - intros req f e f' _. unfold sim_create. destruct (sim_fail_create f); [by intros [= _ <-]|]. destruct (cr_id req =s ""); done.
  - intros v blocks complete f f' bs sealed. unfold sim_mission, sim_release.
    destruct (sim_orders f !! v) as [o|] eqn:Eo; [|done]. destruct (isEvictableTerminal (so_state o)) eqn:Et; [done|].
    intros [= <- <-] [= <-]. cbn. rewrite lookup_insert_eq. cbn. rewrite Et. split; [done|]. intros w Hw. by rewrite Hins.
  - intros v blocks complete f e f'. unfold sim_release. repeat case_match; try done. by intros [= _ <-].
  - intros v f f'. unfold sim_cancel, sim_mission. destruct (sim_orders f !! v) as [o|] eqn:Eo; [|done]. intros [= <-]. cbn.
    rewrite lookup_insert_eq. split; [done|]. intros w Hw. by rewrite Hins.
  - intros v f e f'. unfold sim_cancel. case_match; [done|]. by intros [= _ <-].
Qed.

(** ** What the simulator remembers *)

Definition known (s : Sim) (id : string) : Prop := is_Some (sim_orders s !! id) \/ id ∈ sim_settled s.

(** One call of anybody; the driver moves only orders that have not ended. *)
Inductive sim_step : Sim -> Sim -> Prop :=
| ss_create req s : sim_step s (sim_create req s).2
| ss_release id blocks complete s : sim_step s (sim_release id blocks complete s).2
| ss_cancel id s : sim_step s (sim_cancel id s).2
| ss_priority id p s : sim_step s (SetOrderPriority id p s).2
| ss_drive resolve id st s :
    (forall o, sim_orders s !! id = Some o -> isEvictableTerminal (so_state o) = false) -> sim_step s (DriveState resolve id st s).2
| ss_evict cutoff s : sim_step s (EvictTerminalBefore cutoff s).2
| ss_tick now s : sim_step s (mkSim (sim_orders s) (sim_seq s) (sim_settled s) (sim_counter s) (sim_fail_create s) now).

(** An order that is still there can be found by the sweep, and a finished one
    has its time. *)
Record sim_wf (s : Sim) : Prop := {
  sw_seq id : is_Some (sim_orders s !! id) -> id ∈ sim_seq s;
  sw_stamp id o : sim_orders s !! id = Some o -> isEvictableTerminal (so_state o) = true <-> is_Some (so_terminal_at o) }.

Lemma evict_loop_spec cutoff ids : forall m settled,
  let '(m', settled', kept, n) := evict_loop cutoff ids m settled in
  (forall id o, m !! id = Some o -> evictable cutoff o = false -> m' !! id = Some o /\ (id ∈ ids -> id ∈ kept)) /\
  (forall id o, m !! id = Some o -> evictable cutoff o = true -> id ∈ ids -> m' !! id = None /\ id ∈ settled') /\
  (forall id o, m' !! id = Some o -> m !! id = Some o) /\
  (forall id, id ∈ settled -> id ∈ settled') /\
  (forall id, is_Some (m !! id) -> is_Some (m' !! id) \/ id ∈ settled').
Proof.
  induction ids as [|a l IH]; intros m settled; cbn.
  { split_and!; [|by intros id o _ _ ?%elem_of_nil|done|done|by left]. intros id o H _. split; [done|]. by intros ?%elem_of_nil. }
  destruct (m !! a) as [oa|] eqn:Ea.
  2: { specialize (IH m settled). destruct (evict_loop cutoff l m settled) as [[[m' settled'] kept] n].
       destruct IH as (H1 & H2 & H3 & H4 & H5). split_and!; try done.
       - intros id o Ho He. destruct (H1 id o Ho He) as [Hm Hk]. split; [done|]. intros [->|?]%elem_of_cons; [congruence|auto].
       - intros id o Ho He [->|?]%elem_of_cons; [congruence|by eapply H2]. }
  destruct (evictable cutoff oa) eqn:Ee.
  - specialize (IH (delete a m) ({[a]} ∪ settled)). destruct (evict_loop cutoff l _ _) as [[[m' settled'] kept] n].
    destruct IH as (H1 & H2 & H3 & H4 & H5).
    assert (Ha' : m' !! a = None).
    { destruct (m' !! a) as [x|] eqn:Ex; [|done]. apply H3 in Ex. by rewrite lookup_delete_eq in Ex. }
    assert (Has : a ∈ settled') by (apply H4; set_solver).
    split_and!.
    + intros id o Ho He. destruct (decide (id = a)) as [->|Hne]; [congruence|].
      destruct (H1 id o) as [Hm Hk]; [by rewrite lookup_delete_ne|done|]. split; [done|].
      intros [->|?]%elem_of_cons; [done|auto].
    + intros id o Ho He Hin. destruct (decide (id = a)) as [->|Hne]; [done|].
      apply elem_of_cons in Hin as [->|Hin]; [done|]. apply (H2 id o); [by rewrite lookup_delete_ne|done|done].
    + intros id o Ho%H3. by apply lookup_delete_Some in Ho as [_ ?].
    + intros id Hid. apply H4. set_solver.
    + intros id Hid. destruct (decide (id = a)) as [->|Hne]; [by right|]. apply H5. by rewrite lookup_delete_ne.
  - specialize (IH m settled). destruct (evict_loop cutoff l m settled) as [[[m' settled'] kept] n].
    destruct IH as (H1 & H2 & H3 & H4 & H5). split_and!; try done.
    + intros id o Ho He. destruct (H1 id o Ho He) as [Hm Hk]. split; [done|]. intros [->|?]%elem_of_cons; [left|right; auto].
    + intros id o Ho He [->|?]%elem_of_cons; [congruence|by eapply H2].
Qed.

Lemma sim_put_known s id o o' x :
  sim_orders s !! id = Some o -> known s x -> known (with_sim_orders (<[id := o']> (sim_orders s)) s) x.
Proof.
  intros Ho [Hx|Hx]; [left|by right]. cbn. destruct (decide (x = id)) as [->|]; [rewrite lookup_insert_eq; eauto|by rewrite lookup_insert_ne].
Qed.

Lemma sim_put_wf s id o o' :
  sim_wf s -> sim_orders s !! id = Some o ->
  (isEvictableTerminal (so_state o') = true <-> is_Some (so_terminal_at o')) ->
  sim_wf (with_sim_orders (<[id := o']> (sim_orders s)) s).
Proof.
  intros [H1 H2] Ho Ho'. split; cbn.
  - intros x Hx. apply H1. destruct (decide (x = id)) as [->|]; [eauto|by rewrite lookup_insert_ne in Hx].
  - intros x ox. rewrite lookup_insert_Some. intros [[<- <-]|[_ Hx]]; [done|by eapply H2].
Qed.

Lemma stamped st now o :
  isEvictableTerminal st = true \/ so_terminal_at o = None ->
  isEvictableTerminal (so_state (in_state st now o)) = true <-> is_Some (so_terminal_at (in_state st now o)).
Proof.
  cbn. intros [->| ->]; [split; [intros _|done]; destruct (so_terminal_at o); eauto|].
  by destruct (isEvictableTerminal st); split; intros H.
Qed.

Lemma sim_step_keeps s s' : sim_step s s' -> sim_wf s -> sim_wf s' /\ forall id, known s id -> known s' id.
Proof.
  intros Hs Hwf. pose proof Hwf as [H1 H2]. destruct Hs.
  - unfold sim_create. destruct (sim_fail_create s); [by cbn|].
    destruct (if cr_id req =s "" then _ else _) as [id counter]. split; [split; cbn|].
    + intros x Hx. apply elem_of_app. destruct (decide (x = id)) as [->|]; [right; left|left].
      rewrite lookup_insert_ne in Hx by done. by apply H1.
    + intros x o. rewrite lookup_insert_Some. intros [[_ <-]|[_ Hx]]; [|by eapply H2]. split; [done|by intros [? [=]]].
    + intros x [Hx|Hx]; [left|by right]. cbn. destruct (decide (x = id)) as [->|]; [rewrite lookup_insert_eq; eauto|by rewrite lookup_insert_ne].
  - unfold sim_release. destruct (sim_orders s !! id) as [o|] eqn:Eo; [|by case_match].
    destruct (isEvictableTerminal (so_state o)) eqn:Et; [done|]. cbn.
    split; [eapply sim_put_wf; [done|done|]; cbn; by eapply H2|intros x; by eapply sim_put_known].
  - unfold sim_cancel. destruct (sim_orders s !! id) as [o|] eqn:Eo; [|done]. cbn.
    split; [eapply sim_put_wf; [done|done|apply stamped; by left]|intros x; by eapply sim_put_known].
  - unfold SetOrderPriority. destruct (sim_orders s !! id) as [o|] eqn:Eo; [|done]. cbn.
    split; [eapply sim_put_wf; [done|done|]; cbn; by eapply H2|intros x; by eapply sim_put_known].
  - unfold DriveState. destruct (sim_orders s !! id) as [o|] eqn:Eo; [|done]. cbn.
    assert (Hnone : so_terminal_at o = None).
    { destruct (so_terminal_at o) as [t|] eqn:Et; [|done]. pose proof (proj2 (H2 id o Eo)) as Hst. rewrite Et in Hst.
      rewrite H in Hst by done. by discriminate Hst; eauto. }
    split; [eapply sim_put_wf; [done|done|apply stamped; by right]|intros x; by eapply sim_put_known].
  - unfold EvictTerminalBefore. pose proof (evict_loop_spec cutoff (sim_seq s) (sim_orders s) (sim_settled s)) as H.
    destruct (evict_loop cutoff _ _ _) as [[[m settled] kept] n]. destruct H as (E1 & E2 & E3 & E4 & E5). cbn. split; [split; cbn|].
    + intros id [o Ho]. pose proof (E3 _ _ Ho) as Ho'. destruct (evictable cutoff o) eqn:Ee.
      * destruct (E2 id o Ho' Ee) as [? _]; [apply H1; eauto|congruence].
      * apply (E1 id o Ho' Ee), H1. eauto.
    + intros id o Ho. apply E3 in Ho. by eapply H2.
    + intros id [Hid|Hid]; [by apply E5|right; by apply E4].
  - split; [by split|done].
Qed.

(** The simulator never disowns a mission.  Along any run of calls from a
    fresh simulator, an id once issued stays known, live or settled, so releasing
    it always succeeds, and only an id never issued is refused; the eviction sweep
    removes exactly the orders that ended before the cutoff and leaves every live
    mission as it was. *)
Theorem sim_never_forgets failOnCreate now s s' id :
  rtc sim_step (New failOnCreate now) s -> rtc sim_step s s' -> known s id ->
  known s' id /\
  (forall x blocks complete, is_ok (sim_release x blocks complete s').1 = true <-> known s' x) /\
  (forall cutoff, let s2 := (EvictTerminalBefore cutoff s').2 in
    (forall x, sim_orders s2 !! x = match sim_orders s' !! x with
       | Some o => if evictable cutoff o then None else Some o
       | None => None
       end) /\ unmoved s' s2).
Proof.
  intros H1 H2 Hk.
  assert (Hinv : forall a b, rtc sim_step a b -> sim_wf a -> sim_wf b /\ forall x, known a x -> known b x).
  { induction 1 as [a|a b c Hs _ IH]; [done|]. intros Ha. destruct (sim_step_keeps a b Hs Ha) as [Hb Hkb].
    destruct (IH Hb) as [Hc Hkc]. split; [done|auto]. }
  destruct (Hinv _ _ H1) as [Hwf _]; [by split; cbn; intros ? *; rewrite lookup_empty; intros [? ?] || done|].
  destruct (Hinv _ _ H2 Hwf) as [Hwf' Hkn]. pose proof Hwf' as [W1 W2]. split_and!; [auto| |].
  - intros x blocks complete. unfold sim_release, known. destruct (sim_orders s' !! x) as [o|] eqn:Eo.
    { case_match; cbn; split; eauto. }
    case_bool_decide; cbn; split; auto; [done|]. by intros [[? ?]|?].
  - intros cutoff s2. unfold s2, EvictTerminalBefore.
    pose proof (evict_loop_spec cutoff (sim_seq s') (sim_orders s') (sim_settled s')) as H.
    destruct (evict_loop cutoff _ _ _) as [[[m settled] kept] n]. destruct H as (E1 & E2 & E3 & _ & _). cbn.
    assert (Hm : forall x, m !! x = match sim_orders s' !! x with Some o => if evictable cutoff o then None else Some o | None => None end).
    { intros x. destruct (sim_orders s' !! x) as [o|] eqn:Eo.
      - destruct (evictable cutoff o) eqn:Ee; [apply (E2 x o Eo Ee), W1; eauto|by apply E1].
      - destruct (m !! x) as [o|] eqn:Em; [|done]. apply E3 in Em. congruence. }
    split; [done|]. intros x. unfold mission, sim_backend, sim_mission. cbn. rewrite Hm.
    destruct (sim_orders s' !! x) as [o|] eqn:Eo; [|done]. destruct (evictable cutoff o) eqn:Ee; [|done].
    unfold evictable in Ee. destruct (so_terminal_at o) eqn:Et; [|done]. pose proof (proj2 (W2 x o Eo)) as Hst.
    rewrite Et in Hst. by rewrite Hst by eauto.
Qed.

(** *** A run: created, cancelled, reaped, released once more *)

Definition demo_request : CreateOrderRequest := mkCreate "sg-5" "uuid" [mkOrderBlock "sg-5-b1" "A" "JackLoad"] 0 "" false.
Definition demo_created : Sim := (sim_create demo_request (New false 0)).2.
Definition demo_reaped : Sim :=
  (EvictTerminalBefore 5 (mkSim (sim_orders (sim_cancel "sg-5" demo_created).2) ["sg-5"] ∅ 0 false 9)).2.

Lemma reaped_still_known :
  sim_mission demo_reaped "sg-5" = None /\ known demo_reaped "sg-5" /\
  is_ok (sim_release "sg-5" [] true demo_reaped).1 = true /\ is_ok (sim_release "sg-6" [] true demo_reaped).1 = false.
Proof.
  destruct (sim_never_forgets false 0 demo_created demo_reaped "sg-5") as (Hk & Hr & _).
  - apply rtc_once, ss_create.
  - eapply rtc_l; [apply (ss_cancel "sg-5")|]. eapply rtc_l; [apply (ss_tick 9)|]. apply rtc_once, ss_evict.
  - left. vm_compute. eauto.
  - split_and!; [vm_compute; done|done|by apply Hr|vm_compute; done].
Qed.
End Simulator.

(** ** The SEER adapter *)

Module Seer.

Definition MapState (vendorState : string) : string :=
  if (vendorState =s "CREATED") || (vendorState =s "TOBEDISPATCHED") then StatusDispatched
  else if vendorState =s "RUNNING" then StatusInTransit
  else if vendorState =s "WAITING" then StatusStaged
  else if vendorState =s "FINISHED" then StatusDelivered
  else if vendorState =s "FAILED" then StatusFaulted
  else if vendorState =s "STOPPED" then StatusCancelled else StatusDispatched.

(** The RDS server behind its HTTP client: /setOrder, /addBlocks (with the vehicle
    to pin), /terminate, and the assigned vehicle of /orderDetails. *)
Class Rds (R : Type) := {
  rds_mission : R -> string -> option (list OrderBlock * bool);
  setOrder : CreateOrderRequest -> R -> outcome FleetError unit * R;
  addBlocks : string -> list OrderBlock -> bool -> string -> R -> outcome FleetError unit * R;
  terminate : string -> R -> outcome FleetError unit * R;
  orderDetails : string -> R -> outcome FleetError string }.

(** A call the server acknowledges has done what it says; one that ends in an error,
    a timeout among them, may or may not have; neither touches another mission. *)
Class RdsLaws (R : Type) `{!Rds R} := {
  set_ok req r r' : setOrder req r = (Ok (), r') -> rds_mission r' (cr_id req) = Some (cr_blocks req, cr_complete req) /\
    forall w, w <> cr_id req -> rds_mission r' w = rds_mission r w;
  set_err req r e r' w : w <> cr_id req -> setOrder req r = (Err e, r') -> rds_mission r' w = rds_mission r w;
  add_ok v blocks complete vehicle r r' bs sealed : rds_mission r v = Some (bs, sealed) ->
    addBlocks v blocks complete vehicle r = (Ok (), r') -> rds_mission r' v = Some (bs ++ blocks, complete) /\
    forall w, w <> v -> rds_mission r' w = rds_mission r w;
  add_err v blocks complete vehicle r e r' w : w <> v -> addBlocks v blocks complete vehicle r = (Err e, r') -> rds_mission r' w = rds_mission r w;
  terminate_ok v r r' : terminate v r = (Ok (), r') -> rds_mission r' v = None /\ forall w, w <> v -> rds_mission r' w = rds_mission r w;
  terminate_err v r e r' w : w <> v -> terminate v r = (Err e, r') -> rds_mission r' w = rds_mission r w }.

Section Adapter.
Context {R : Type} `{!Rds R}.

Definition adapter_create (req : CreateOrderRequest) (r : R) : outcome FleetError string * R :=
  match setOrder req r with
  | (Err e, r') => (Err e, r')
  | (Ok _, r') => (Ok (cr_id req), r')
  end.

(** Blocks go to the robot the server names, or not at all. *)
Definition adapter_release (v : string) (blocks : list OrderBlock) (complete : bool) (r : R) : outcome FleetError unit * R :=
  match blocks with
  | [] => addBlocks v [] complete "" r
  | _ :: _ =>
      match orderDetails v r with
      | Err e => (Err e, r)
      | Ok vehicle => if vehicle =s "" then (Err (FeNoVehicle v), r) else addBlocks v blocks complete vehicle r
      end
  end.

#[export] Instance adapter_backend : Backend R := {|
  mission := rds_mission; CreateOrder := adapter_create; ReleaseOrder := adapter_release; CancelOrder := terminate |}.

#[export] Instance adapter_laws `{!RdsLaws R} : BackendLaws R.
Proof.
  constructor; unfold unmoved, others; cbn.
  - intros req r v r' _. unfold adapter_create. destruct (setOrder req r) as [[[]|e] r1] eqn:E; [|done]. intros [= <- <-].
    destruct (set_ok req r r1 E). done.
  - intros req r e r' _ H w Hw. unfold adapter_create in H. destruct (setOrder req r) as [[[]|e'] r1] eqn:E; [done|]. injection H as _ <-.
    by eapply set_err.
  - intros v blocks complete r r' bs sealed Hm H. unfold adapter_release in H. destruct blocks as [|b l].
    { by eapply add_ok. }
    destruct (orderDetails v r) as [vehicle|e]; [|done]. destruct (vehicle =s ""); [done|]. by eapply add_ok.
  - intros v blocks complete r e r' H w Hw. unfold adapter_release in H. destruct blocks as [|b l]; [by eapply add_err|].
    destruct (orderDetails v r) as [vehicle|e']; [|by injection H as _ <-].
    destruct (vehicle =s ""); [by injection H as _ <-|by eapply add_err].
  - intros v r r' H. by apply terminate_ok.
  - intros v r e r' H w Hw. by eapply terminate_err.
Qed.
End Adapter.

(** The two state maps agree on every state the fleet has; on any other the
    simulator says "unknown" and the adapter "dispatched". *)
Lemma state_maps_agree st :
  Simulator.mapStateInternal st = MapState st \/ (Simulator.mapStateInternal st = "unknown" /\ MapState st = StatusDispatched).
Proof. unfold Simulator.mapStateInternal, MapState. repeat case_match; auto. Qed.

Example failed_not_terminal : Simulator.IsTerminalState "FAILED" = false.
Proof. done. Qed.
End Seer.

(** ** A fleet whose answers get lost *)

Module Lossy.

(** The simulator behind a line that drops the answers of the calls named: the call
    is carried out, and the caller reads a timeout. *)
Record Line := mkLine { ln_sim : Simulator.Sim; ln_create : bool; ln_release : bool; ln_cancel : bool }.

Definition carried (lost : bool) {A} (l : Line) (r : outcome FleetError A * Simulator.Sim) : outcome FleetError A * Line :=
  ((if lost then Err FeRefused else r.1), mkLine r.2 (ln_create l) (ln_release l) (ln_cancel l)).

#[global] Instance line_backend : Backend Line := {|
  mission l := mission (ln_sim l);
  CreateOrder req l := carried (ln_create l) l (CreateOrder req (ln_sim l));
  ReleaseOrder v blocks complete l := carried (ln_release l) l (ReleaseOrder v blocks complete (ln_sim l));
  CancelOrder v l := carried (ln_cancel l) l (CancelOrder v (ln_sim l)) |}.

Lemma carried_ok {A} lost (l : Line) (r : outcome FleetError A * Simulator.Sim) a l' :
  carried lost l r = (Ok a, l') -> r = (Ok a, ln_sim l').
Proof. unfold carried. destruct lost; [done|]. destruct r as [[x|e] s]; [|done]. by intros [= -> <-]. Qed.

Lemma carried_any {A} lost (l : Line) (r : outcome FleetError A * Simulator.Sim) x l' : carried lost l r = (x, l') -> ln_sim l' = r.2.
Proof. unfold carried. by intros [= _ <-]. Qed.

(** The laws do not rule it out. *)
#[global] Instance line_laws : BackendLaws Line.
Proof.
  constructor; unfold others; cbn -[Simulator.sim_backend].
  - intros req l v l' Hid H%carried_ok. by apply create_ok.
  - intros req l e l' Hid ->%carried_any. destruct (CreateOrder req (ln_sim l)) as [[v|e'] s] eqn:E; [|by eapply create_err].
    destruct (create_ok _ _ _ _ Hid E) as (-> & _ & H). exact H.
  - intros v blocks complete l l' bs sealed Hm H%carried_ok. by eapply release_ok.
  - intros v blocks complete l e l' ->%carried_any w Hw.
    by apply Simulator.sim_release_others.
  - intros v l l' H%carried_ok. by apply cancel_ok.
  - intros v l e l' ->%carried_any w Hw. destruct (CancelOrder v (ln_sim l)) as [[[]|e'] s] eqn:E; [|by eapply (cancel_err (F := Simulator.Sim))].
    destruct (cancel_ok (F := Simulator.Sim) _ _ _ E) as [_ H]. by apply H.
Qed.
End Lossy.
