(* ===== verification/OrderStore.v ===== *)
(** Order persistence (shingo-core/store/orders.go, store/orders/orders.go): the
    terminal chokepoint, the compare-and-swap status write, the queue detail
    and completion stamps, and the coupled claim releases. *)

From S2P Require Import Prelude Status Sql CoreDb Reservations.

(** ** Statements *)

(** UPDATE orders SET ... WHERE id=$1 [AND p]: rows affected, new tables. *)
Definition update_order (id : Z) (p : Order -> bool) (f : Order -> Order) (d : CoreDB)
    : nat * CoreDB :=
  match orders d !! id with
  | Some o => if p o then (1, set_orders <[id := f o]> d) else (0, d)
  | None => (0, d)
  end.

(** INSERT INTO order_history: the row's order must exist. *)
Definition insert_history (h : Hist) (d : CoreDB) : option (unit * CoreDB) :=
  match orders d !! h_order h with
  | Some _ => Some ((), set_history (fun l => l ++ [h]) d)
  | None => None
  end.

(** node_id IN (SELECT id FROM nodes WHERE name='_TRANSIT'). *)
Definition at_transit (d : CoreDB) (b : Bin) : bool :=
  match b_node b with
  | None => false
  | Some n => match nodes d !! n with Some nd => n_name nd =s "_TRANSIT" | None => false end
  end.

Definition stamp_transit (orderID : Z) (d : CoreDB) : CoreDB :=
  set_bins (fmap (fun b =>
    if claimed_is (b_claimed_by b) orderID && at_transit d b
    then set_bin_anomaly (coalesce (b_anomaly_at b) (Some (db_now d))) b else b)) d.

Definition unclaim_bin (orderID : Z) (b : Bin) : Bin :=
  if claimed_is (b_claimed_by b) orderID then set_bin_claim None b else b.
Definition unclaim_node (orderID : Z) (n : Node) : Node :=
  if claimed_is (n_claimed_by n) orderID then set_node_claim None n else n.

Definition drop_bin_claims (orderID : Z) : CoreDB -> CoreDB :=
  set_bins (fmap (unclaim_bin orderID)).
Definition drop_slot_claims (orderID : Z) : CoreDB -> CoreDB :=
  set_nodes (fmap (unclaim_node orderID)).
Definition drop_order_bins (orderID : Z) : CoreDB -> CoreDB :=
  set_order_bins (List.filter (fun ob => negb (ob.1 =i orderID))).

(** ** Operations *)

Record HistoryReason := mkReason { hr_code : string; hr_actor : string; hr_ref : TermRef }.

Definition noReason : HistoryReason := mkReason "" "" emptyRef.

(** NULL for an empty reference; marshalling a TermRef cannot fail. *)
Definition refJSON (r : HistoryReason) : option TermRef :=
  if TermRef_Empty (hr_ref r) then None else Some (hr_ref r).

Definition history_row (orderID : Z) (status : Status) (detail : string) (r : HistoryReason)
    : Hist :=
  mkHist orderID status detail (nullif (hr_code r)) (nullif (hr_actor r)) (refJSON r).

(** status <> ALL($4), with $4 the table's terminal statuses. *)
Definition still_live (o : Order) : bool := negb (contains TerminalStatuses (o_status o)).

Definition TerminalizeOrderWithReason (orderID : Z) (status : Status) (detail : string)
    (reason : HistoryReason) : CoreSQL bool :=
  tx (let errDetail := if status =s StatusConfirmed then "" else detail in
      moved <-- stmt (fun d =>
        update_order orderID still_live (with_status status errDetail (clock_now d)) d) ;;
      let won := (0 <? moved)%nat in
      (if won then stmt_checked (insert_history (history_row orderID status detail reason))
       else sret ()) ;;;
      exec (stamp_transit orderID) ;;;
      exec (drop_bin_claims orderID) ;;;
      exec (drop_slot_claims orderID) ;;;
      exec (drop_order_bins orderID) ;;;
      ReleaseByOrder orderID ;;;
      commit won).

Definition TerminalizeOrder (orderID : Z) (status : Status) (detail : string) : CoreSQL bool :=
  TerminalizeOrderWithReason orderID status detail noReason.

Definition FailOrderAtomic (orderID : Z) (detail : string) : CoreSQL unit :=
  TerminalizeOrder orderID StatusFailed detail ;;; sret ().

Definition ReleaseClaimForBin (binID orderID : Z) : CoreSQL unit :=
  tx (exec (set_bins (alter (unclaim_bin orderID) binID)) ;;;
      ReleaseByBin binID ;;;
      commit ()).

Definition ReleaseClaimByOrder (orderID : Z) : CoreSQL unit :=
  tx (exec (drop_bin_claims orderID) ;;;
      exec (drop_slot_claims orderID) ;;;
      exec (drop_order_bins orderID) ;;;
      ReleaseByOrder orderID ;;;
      commit ()).

(** The raw write: by id alone, refused for a terminal target. *)
Definition UpdateStatus (id : Z) (status : Status) (detail : string) : CoreSQL unit :=
  if IsTerminal status then sfail (ERefusedTerminal status)
  else
    tx (let errDetail :=
          if (status =s "failed") || (status =s "cancelled") then detail else "" in
        stmt (fun d =>
          update_order id (fun _ => true) (with_status status errDetail (clock_now d)) d) ;;;
        stmt_checked (insert_history (history_row id status detail noReason)) ;;;
        commit ()).

Definition UpdateStatusFromWithReason (id : Z) (from to : Status) (detail : string)
    (reason : HistoryReason) : CoreSQL bool :=
  if IsTerminal to then sfail (ERefusedTerminal to)
  else
    tx (n <-- stmt (fun d =>
          update_order id (fun o => o_status o =s from) (with_status to "" (clock_now d)) d) ;;
        if (n =? 0)%nat then rollback false
        else
          stmt_checked (insert_history (history_row id to detail reason)) ;;;
          commit true).

Definition UpdateStatusFrom (id : Z) (from to : Status) (detail : string) : CoreSQL bool :=
  UpdateStatusFromWithReason id from to detail noReason.

(** The most recent queued row of the order takes the code. *)
Definition with_code (code : string) (h : Hist) : Hist :=
  mkHist (h_order h) (h_status h) (h_detail h) (Some code) (h_actor h) (h_ref h).

Fixpoint stamp_first (p : Hist -> bool) (code : string) (l : list Hist) : list Hist :=
  match l with
  | [] => []
  | h :: rest => if p h then with_code code h :: rest else h :: stamp_first p code rest
  end.

Definition stamp_last_queued (id : Z) (code : string) (l : list Hist) : list Hist :=
  reverse (stamp_first (fun h => (h_order h =i id) && (h_status h =s StatusQueued)) code
    (reverse l)).

Definition SetQueueDetail (id : Z) (reason code cause : string) : CoreSQL unit :=
  tx (stmt (fun d =>
        update_order id (fun _ => true) (with_queue reason code cause (clock_now d)) d) ;;;
      (if code =s "" then sret ()
       else exec (set_history (stamp_last_queued id code))) ;;;
      commit ()).

Definition Complete (id : Z) : CoreSQL unit :=
  tx (stmt (fun d =>
        update_order id (fun _ => true) (with_completed (clock_now d)) d) ;;;
      commit ()).

Definition EverReachedStatus (orderID : Z) (status : Status) : CoreSQL bool :=
  query (fun d => existsb (fun h => (h_order h =i orderID) && (h_status h =s status)) (history d)).

(** ** Lemmas *)

Lemma still_live_true o : still_live o = true <-> o_status o ∉ TerminalStatuses.
Proof. unfold still_live. by rewrite negb_true_iff, contains_false. Qed.

Lemma unclaim_bin_free o b : claimed_is (b_claimed_by (unclaim_bin o b)) o = false.
Proof. unfold unclaim_bin. by destruct (claimed_is (b_claimed_by b) o) eqn:E. Qed.

Lemma unclaim_node_free o n : claimed_is (n_claimed_by (unclaim_node o n)) o = false.
Proof. unfold unclaim_node. by destruct (claimed_is (n_claimed_by n) o) eqn:E. Qed.

Lemma unclaim_bin_other o b : claimed_is (b_claimed_by b) o = false -> unclaim_bin o b = b.
Proof. unfold unclaim_bin. by intros ->. Qed.

Lemma unclaim_node_other o n : claimed_is (n_claimed_by n) o = false -> unclaim_node o n = n.
Proof. unfold unclaim_node. by intros ->. Qed.

(** Everything one order holds. *)
Record holds_nothing (o : Z) (d : CoreDB) : Prop := {
  hn_bins : forall b x, bins d !! b = Some x -> b_claimed_by x <> Some o;
  hn_nodes : forall n x, nodes d !! n = Some x -> n_claimed_by x <> Some o;
  hn_junction : forall ob, ob ∈ order_bins d -> ob.1 <> o;
  hn_resv : forall r, r ∈ reservations d -> r_order r <> o
}.

(** The release suffix shared by the terminal and the re-queue path. *)
Definition release_all (o : Z) (d : CoreDB) : CoreDB :=
  delete_where (fun r => r_order r =i o) (drop_order_bins o (drop_slot_claims o (drop_bin_claims o d))).

Lemma release_all_holds_nothing o d : holds_nothing o (release_all o d).
Proof.
  constructor; simpl.
  - intros b x Hb Hc. rewrite lookup_fmap, fmap_Some in Hb. destruct Hb as (x0 & _ & ->).
    apply claimed_is_true in Hc. by rewrite unclaim_bin_free in Hc.
  - intros n x Hn Hc. rewrite lookup_fmap, fmap_Some in Hn. destruct Hn as (x0 & _ & ->).
    apply claimed_is_true in Hc. by rewrite unclaim_node_free in Hc.
  - intros ob [_ H]%elem_of_lfilter. by breflect.
  - intros r [_ H]%elem_of_lfilter. by breflect.
Qed.

(** Holds of the other orders: what a release of [o] leaves alone. *)
Record others_kept (o : Z) (d d' : CoreDB) : Prop := {
  ok_bins : forall b x, bins d !! b = Some x -> b_claimed_by x <> Some o -> bins d' !! b = Some x;
  ok_nodes : forall n x, nodes d !! n = Some x -> n_claimed_by x <> Some o -> nodes d' !! n = Some x;
  ok_junction : order_bins d' = List.filter (fun ob => negb (ob.1 =i o)) (order_bins d);
  ok_resv : reservations d' = List.filter (fun r => negb (r_order r =i o)) (reservations d)
}.

Lemma claimed_is_false c o : claimed_is c o = false <-> c <> Some o.
Proof. rewrite <- claimed_is_true. by destruct (claimed_is c o). Qed.

Lemma release_all_others o d : others_kept o d (release_all o d).
Proof.
  constructor; simpl; [| |done..].
  - intros b x Hb Hc%claimed_is_false. rewrite lookup_fmap, Hb. simpl. f_equal.
    by apply unclaim_bin_other.
  - intros n x Hn Hc%claimed_is_false. rewrite lookup_fmap, Hn. simpl. f_equal.
    by apply unclaim_node_other.
Qed.

(** ** What the terminal chokepoint does, as one function on the tables *)

Definition err_detail (status : Status) (detail : string) : string :=
  if status =s StatusConfirmed then "" else detail.

Definition terminal_write (id : Z) (st : Status) (detail : string) (r : HistoryReason)
    (o : Order) (d : CoreDB) : CoreDB :=
  set_history (fun l => l ++ [history_row id st detail r])
    (set_orders <[id := with_status st (err_detail st detail) (clock_now d) o]> d).

Definition terminalize_spec (id : Z) (st : Status) (detail : string) (r : HistoryReason)
    (d : CoreDB) : bool * CoreDB :=
  match orders d !! id with
  | Some o =>
      if still_live o then (true, release_all id (stamp_transit id (terminal_write id st detail r o d)))
      else (false, release_all id (stamp_transit id d))
  | None => (false, release_all id (stamp_transit id d))
  end.

Lemma update_order_spec id p f d n d' :
  update_order id p f d = (n, d') ->
  (exists o, orders d !! id = Some o /\ p o = true /\ n = 1 /\ d' = set_orders <[id := f o]> d) \/
  (n = 0 /\ d' = d /\ forall o, orders d !! id = Some o -> p o = false).
Proof.
  unfold update_order. destruct (orders d !! id) as [o|] eqn:E.
  - destruct (p o) eqn:P; intros [= <- <-].
    + left. by exists o.
    + right. split_and!; [done..|]. intros o' [= <-]. done.
  - intros [= <- <-]. right. by split_and!.
Qed.

(** Every placement of driver faults: the call refines [terminalize_spec] or
    changes nothing. *)
Lemma terminalize_ok id st detail r c won c' :
  TerminalizeOrderWithReason id st detail r c = (Ok won, c') ->
  (won, db c') = terminalize_spec id st detail r (db c).
Proof.
  unfold TerminalizeOrderWithReason, ReleaseByOrder. intros H.
  apply tx_ok in H as (done & c0 & c1 & H0 & H & H1).
  apply sbind_ok in H as (moved & c2 & H2%stmt_ok & H).
  assert (Htail : exists c3 : Conn CoreDB,
    ((if (0 <? moved)%nat then stmt_checked (insert_history (history_row id st detail r))
      else sret ()) c2 = (Ok (), c3)) /\ won = (0 <? moved)%nat /\
    db c' = release_all id (stamp_transit id (db c3))).
  { apply sbind_ok in H as ([] & c3 & Hh & H). exists c3. split; [done|].
    sql_inv H. split; [done|]. rewrite H1. unfold release_all. congruence. }
  clear H H1. destruct Htail as (c3 & Hh & -> & ->). unfold terminalize_spec. rewrite H0 in H2.
  apply update_order_spec in H2 as [(o & Ho & Hl & -> & Hd)|(-> & Hd & Hl)];
    cbn [Nat.ltb Nat.leb] in Hh |- *.
  - apply stmt_checked_ok in Hh. unfold insert_history in Hh. simpl in Hh.
    rewrite Hd in Hh. simpl in Hh. rewrite lookup_insert_eq in Hh. injection Hh as Hh.
    by rewrite Ho, Hl, <- Hh.
  - sql_inv Hh. rewrite Hd. destruct (orders (db c) !! id) as [o|] eqn:Ho; [|done].
    by rewrite (Hl o eq_refl).
Qed.

Lemma terminalize_err id st detail r c e c' :
  TerminalizeOrderWithReason id st detail r c = (Err e, c') -> db c' = db c.
Proof. apply tx_err. Qed.

Lemma stamp_transit_lookup id d b x :
  bins d !! b = Some x ->
  bins (stamp_transit id d) !! b = Some (
    if claimed_is (b_claimed_by x) id && at_transit d x
    then set_bin_anomaly (coalesce (b_anomaly_at x) (Some (db_now d))) x else x).
Proof. intros H. unfold stamp_transit. cbn. by rewrite lookup_fmap, H. Qed.

(** The bin as the chokepoint leaves it: a claim of [id] is gone, and a bin that
    was still on a robot carries an anomaly stamp (an earlier stamp wins). *)
Definition bin_after (id : Z) (d : CoreDB) (x : Bin) : Bin :=
  unclaim_bin id (
    if claimed_is (b_claimed_by x) id && at_transit d x
    then set_bin_anomaly (coalesce (b_anomaly_at x) (Some (db_now d))) x else x).

Lemma release_stamp_others id d : others_kept id d (release_all id (stamp_transit id d)).
Proof.
  destruct (release_all_others id (stamp_transit id d)) as [Hb Hn Hj Hr].
  constructor; [|exact Hn|exact Hj|exact Hr].
  intros b x Hx Hc. apply Hb; [|done].
  rewrite (stamp_transit_lookup _ _ _ _ Hx), (proj2 (claimed_is_false _ _) Hc). done.
Qed.

Lemma release_stamp_bins id d b x :
  bins d !! b = Some x ->
  bins (release_all id (stamp_transit id d)) !! b = Some (bin_after id d x).
Proof.
  intros Hx. unfold release_all. cbn [bins set_bins set_nodes set_order_bins drop_bin_claims
    drop_slot_claims drop_order_bins delete_where set_reservations].
  by rewrite lookup_fmap, (stamp_transit_lookup _ _ _ _ Hx).
Qed.

Lemma terminalize_spec_shape id st detail r d won d' :
  terminalize_spec id st detail r d = (won, d') ->
  (won = true <-> exists o, orders d !! id = Some o /\ o_status o ∉ TerminalStatuses) /\
  orders d' = (if won
    then alter (with_status st (err_detail st detail) (clock_now d)) id (orders d)
    else orders d) /\
  history d' = history d ++ (if won then [history_row id st detail r] else []) /\
  holds_nothing id d' /\ others_kept id d d' /\
  (forall b x, bins d !! b = Some x -> bins d' !! b = Some (bin_after id d x)).
Proof.
  unfold terminalize_spec. destruct (orders d !! id) as [o|] eqn:Ho; [destruct (still_live o) eqn:Hl|];
    intros [= <- <-].
  - apply still_live_true in Hl. split_and!.
    + split; [|done]. eauto.
    + cbn. apply map_eq. intros i. destruct (decide (i = id)) as [->|Hne];
        [by rewrite lookup_insert_eq, lookup_alter_eq, Ho
        |by rewrite lookup_insert_ne, lookup_alter_ne by done].
    + done.
    + apply release_all_holds_nothing.
    + destruct (release_stamp_others id (terminal_write id st detail r o d)) as [H1 H2 H3 H4].
      constructor; [exact H1|exact H2|exact H3|exact H4].
    + intros b x Hx. exact (release_stamp_bins id (terminal_write id st detail r o d) b x Hx).
  - split_and!; [|done|by rewrite app_nil_r|apply release_all_holds_nothing
      |apply release_stamp_others|intros b x; apply release_stamp_bins].
    split; [done|]. intros (o' & [= <-] & Hn). apply still_live_true in Hn. congruence.
  - split_and!; [|done|by rewrite app_nil_r|apply release_all_holds_nothing
      |apply release_stamp_others|intros b x; apply release_stamp_bins].
    split; [done|]. by intros (o' & ? & _).
Qed.

(** A second pass over an order that holds nothing changes nothing. *)
Lemma holds_nothing_fixed id d :
  holds_nothing id d -> release_all id (stamp_transit id d) = d.
Proof.
  intros [Hb Hn Hj Hr]. destruct d as [os hs bs ns ob rs lg ex om au lh bt tp cn dn].
  unfold release_all, stamp_transit, drop_order_bins, drop_slot_claims, drop_bin_claims,
    delete_where, set_bins, set_nodes, set_order_bins, set_reservations; cbn in *. f_equal.
  - apply map_eq. intros b. rewrite !lookup_fmap. destruct (bs !! b) as [x|] eqn:Hx; [|done].
    cbn. f_equal. specialize (Hb b x Hx). apply claimed_is_false in Hb.
    rewrite Hb. cbn. by apply unclaim_bin_other.
  - apply map_eq. intros n. rewrite lookup_fmap. destruct (ns !! n) as [x|] eqn:Hx; [|done].
    cbn. f_equal. by apply unclaim_node_other, claimed_is_false, (Hn n).
  - apply lfilter_all. intros x Hx. by apply negb_true_iff, Z.eqb_neq, Hj.
  - apply lfilter_all. intros x Hx. by apply negb_true_iff, Z.eqb_neq, Hr.
Qed.

Lemma terminalize_no_fault id st detail r c :
  faults c = [] -> is_ok (TerminalizeOrderWithReason id st detail r c).1 = true.
Proof.
  intros Hf. unfold TerminalizeOrderWithReason, tx, exec at 1, stmt at 1. rewrite Hf.
  unfold sbind at 1, stmt at 1. cbn [faults db Datatypes.id].
  destruct (update_order _ _ _ _) as [n d'] eqn:E.
  apply update_order_spec in E as [(o & Ho & Hl & -> & ->)|(-> & -> & Hl)]; [|done].
  unfold sbind at 1, stmt_checked, insert_history. cbn [faults db Nat.ltb Nat.leb].
  cbn. by rewrite lookup_insert_eq.
Qed.

(** ** The claims *)

(** C4. Reaching a terminal status releases everything, for the winner and for
    the loser.  Whatever faults strike, TerminalizeOrder either returns an
    error with the tables untouched or commits: it reports a win exactly when
    the row exists and is not terminal yet; only a win writes the status and
    one history row; and in both cases the order holds no bin, no slot, no
    junction row and no reservation afterwards, a bin it had on a robot is
    stamped anomalous (an earlier stamp is kept), and every other order's holds
    are exactly as before. *)
Theorem terminalize_releases_everything (id : Z) (st : Status) (detail : string)
    (r : HistoryReason) (c : Conn CoreDB) :
  let '(res, c') := TerminalizeOrderWithReason id st detail r c in
  match res with
  | Err _ => db c' = db c
  | Ok won =>
      (won = true <->
         exists o, orders (db c) !! id = Some o /\ o_status o ∉ TerminalStatuses) /\
      orders (db c') = (if won
        then alter (with_status st (err_detail st detail) (clock_now (db c))) id (orders (db c))
        else orders (db c)) /\
      history (db c') =
        history (db c) ++ (if won then [history_row id st detail r] else []) /\
      holds_nothing id (db c') /\ others_kept id (db c) (db c') /\
      (forall b x, bins (db c) !! b = Some x ->
         bins (db c') !! b = Some (bin_after id (db c) x))
  end.
Proof.
  destruct (TerminalizeOrderWithReason id st detail r c) as [[won|e] c'] eqn:E.
  - apply terminalize_ok in E. symmetry in E. exact (terminalize_spec_shape _ _ _ _ _ _ _ E).
  - by apply terminalize_err in E.
Qed.

(** Terminalization is idempotent and first-writer-wins: once a terminalize
    to a terminal status has committed, every later terminalize of that order
    to any status loses and leaves the tables exactly as they are; and on a
    healthy connection the call never fails. *)
Theorem terminalize_first_writer_wins (id : Z) (st st2 : Status) (d1 d2 : string)
    (r1 r2 : HistoryReason) (won : bool) (c c1 : Conn CoreDB) :
  st ∈ TerminalStatuses ->
  TerminalizeOrderWithReason id st d1 r1 c = (Ok won, c1) ->
  db (TerminalizeOrderWithReason id st2 d2 r2 c1).2 = db c1 /\
  (faults c1 = [] -> (TerminalizeOrderWithReason id st2 d2 r2 c1).1 = Ok false).
Proof.
  intros Hst H. apply terminalize_ok in H. symmetry in H.
  apply terminalize_spec_shape in H as (Hw & Ho & _ & Hn & _).
  assert (Hs : terminalize_spec id st2 d2 r2 (db c1) = (false, db c1)).
  { unfold terminalize_spec. rewrite (holds_nothing_fixed _ _ Hn).
    destruct (orders (db c1) !! id) as [o|] eqn:Hl; [|done].
    destruct (still_live o) eqn:L; [|done]. apply still_live_true in L. exfalso.
    rewrite Ho in Hl. destruct won.
    - rewrite lookup_alter_eq in Hl. apply fmap_Some in Hl as (o0 & _ & ->). by apply L.
    - enough (false = true) by done. apply Hw. eauto. }
  pose proof (terminalize_no_fault id st2 d2 r2 c1) as Hf.
  destruct (TerminalizeOrderWithReason id st2 d2 r2 c1) as [[w|e] c2] eqn:E; cbn in *.
  - apply terminalize_ok in E. rewrite Hs in E. by injection E as -> ->.
  - apply terminalize_err in E. split; [done|]. intros F. by specialize (Hf F).
Qed.

(** The compare-and-swap write as one function on the tables. *)
Definition cas_spec (id : Z) (from to : Status) (detail : string) (r : HistoryReason)
    (d : CoreDB) : bool * CoreDB :=
  match orders d !! id with
  | Some o =>
      if o_status o =s from
      then (true, set_history (fun l => l ++ [history_row id to detail r])
                    (set_orders <[id := with_status to "" (clock_now d) o]> d))
      else (false, d)
  | None => (false, d)
  end.

Lemma cas_ok id from to detail r c b c' :
  UpdateStatusFromWithReason id from to detail r c = (Ok b, c') ->
  IsTerminal to = false /\ (b, db c') = cas_spec id from to detail r (db c).
Proof.
  unfold UpdateStatusFromWithReason, cas_spec. destruct (IsTerminal to); [done|].
  intros H. split; [done|]. apply tx_ok in H as (k & c0 & c1 & H0 & H & H1).
  apply sbind_ok in H as (n & c2 & H2%stmt_ok & H). rewrite H0 in H2.
  apply update_order_spec in H2 as [(o & Ho & Hl & -> & Hd)|(-> & Hd & Hl)];
    cbn [Nat.eqb] in H.
  - apply sbind_ok in H as ([] & c3 & Hh%stmt_checked_ok & H). sql_inv H.
    unfold insert_history in Hh. rewrite Hd in Hh. cbn in Hh. rewrite lookup_insert_eq in Hh.
    injection Hh as Hh. by rewrite Ho, Hl, H1, <- Hh.
  - sql_inv H. rewrite H1. destruct (orders (db c) !! id) as [o|] eqn:Ho; [|done].
    by rewrite (Hl o eq_refl).
Qed.

Lemma cas_err id from to detail r c e c' :
  UpdateStatusFromWithReason id from to detail r c = (Err e, c') -> db c' = db c.
Proof.
  unfold UpdateStatusFromWithReason. destruct (IsTerminal to).
  - by intros [= <- <-].
  - apply tx_err.
Qed.

Lemma cas_no_fault id from to detail r c :
  faults c = [] -> IsTerminal to = false -> is_ok (UpdateStatusFromWithReason id from to detail r c).1 = true.
Proof.
  intros Hf Ht. unfold UpdateStatusFromWithReason. rewrite Ht. unfold tx, exec at 1, stmt at 1. rewrite Hf.
  unfold sbind at 1, stmt at 1. cbn [faults db Datatypes.id].
  destruct (update_order _ _ _ _) as [n d'] eqn:E.
  apply update_order_spec in E as [(o & Ho & Hl & -> & ->)|(-> & -> & Hl)]; [|done].
  unfold sbind at 1, stmt_checked, insert_history. cbn [faults db Nat.eqb]. cbn. by rewrite lookup_insert_eq.
Qed.

(** A stale writer cannot overwrite: the compare-and-swap moves the row
    exactly when it still has the status the caller loaded, adds one history
    row when it does, and leaves the tables untouched when it does not, when
    the target is terminal (refused before any statement) and on any error. *)
Theorem cas_refuses_stale_writer (id : Z) (from to : Status) (detail : string)
    (r : HistoryReason) (c : Conn CoreDB) :
  let '(res, c') := UpdateStatusFromWithReason id from to detail r c in
  (IsTerminal to = true -> res = Err (ERefusedTerminal to)) /\
  match res with
  | Err _ => db c' = db c
  | Ok true =>
      exists o, orders (db c) !! id = Some o /\ o_status o = from /\
        orders (db c') = <[id := with_status to "" (clock_now (db c)) o]> (orders (db c)) /\
        history (db c') = history (db c) ++ [history_row id to detail r] /\
        reservations (db c') = reservations (db c) /\ bins (db c') = bins (db c)
  | Ok false =>
      db c' = db c /\ forall o, orders (db c) !! id = Some o -> o_status o <> from
  end.
Proof.
  destruct (UpdateStatusFromWithReason id from to detail r c) as [res c'] eqn:E. split.
  { intros Ht. unfold UpdateStatusFromWithReason in E. rewrite Ht in E. by injection E. }
  destruct res as [b|e]; [|by apply cas_err in E]. apply cas_ok in E as [_ E].
  unfold cas_spec in E. destruct (orders (db c) !! id) as [o|] eqn:Ho.
  - destruct (eqb_spec_s (o_status o) from) as [Hs|Hs]; injection E as -> ->.
    + exists o. by split_and!.
    + split; [done|]. by intros o' [= <-].
  - injection E as -> ->. split; [done|]. by intros o'.
Qed.

(** ** Queue detail *)

Definition queued_row_of (id : Z) (h : Hist) : bool :=
  (h_order h =i id) && (h_status h =s StatusQueued).

Lemma stamp_first_hit p code l1 h l2 :
  (forall x, x ∈ l1 -> p x = false) -> p h = true ->
  stamp_first p code (l1 ++ h :: l2) = l1 ++ with_code code h :: l2.
Proof.
  induction l1 as [|x l1 IH]; cbn; intros Hl Hp; [by rewrite Hp|].
  rewrite (Hl x) by set_solver. f_equal. apply IH; [set_solver|done].
Qed.

Lemma stamp_first_miss p code l : (forall x, x ∈ l -> p x = false) -> stamp_first p code l = l.
Proof.
  induction l as [|x l IH]; cbn; intros Hl; [done|].
  rewrite (Hl x) by set_solver. f_equal. apply IH. set_solver.
Qed.

(** The queue detail as one function on the tables. *)
Definition queue_spec (id : Z) (reason code cause : string) (d : CoreDB) : CoreDB :=
  let d1 := set_orders (alter (with_queue reason code cause (clock_now d)) id) d in
  if code =s "" then d1 else set_history (stamp_last_queued id code) d1.

Lemma update_order_always id f d :
  (update_order id (fun _ => true) f d).2 = set_orders (alter f id) d.
Proof.
  unfold update_order. destruct (orders d !! id) as [o|] eqn:E; cbn;
    destruct d as [os ? ? ? ? ? ? ? ? ? ? ? ? ? ?]; unfold set_orders; cbn in *; f_equal; apply map_eq;
    intros i; destruct (decide (i = id)) as [->|Hne];
    rewrite ?lookup_insert_eq, ?lookup_alter_eq, ?lookup_insert_ne, ?lookup_alter_ne by done;
    by rewrite ?E.
Qed.

Lemma SetQueueDetail_ok id reason code cause c c' :
  SetQueueDetail id reason code cause c = (Ok (), c') ->
  db c' = queue_spec id reason code cause (db c).
Proof.
  unfold SetQueueDetail, queue_spec. intros H. apply tx_ok in H as (k & c0 & c1 & H0 & H & H1).
  apply sbind_ok in H as (n & c2 & H2%stmt_ok & H). rewrite H0 in H2.
  assert (db c2 = set_orders (alter (with_queue reason code cause (clock_now (db c))) id) (db c))
    as Hd by (by rewrite <- update_order_always, H2).
  destruct (code =s ""); sql_inv H; congruence.
Qed.

Lemma Complete_ok id c c' :
  Complete id c = (Ok (), c') ->
  db c' = set_orders (alter (with_completed (clock_now (db c))) id) (db c).
Proof.
  unfold Complete. intros H. apply tx_ok in H as (k & c0 & c1 & H0 & H & H1).
  apply sbind_ok in H as (n & c2 & H2%stmt_ok & H). rewrite H0 in H2. sql_inv H.
  by rewrite H1, <- update_order_always, H2.
Qed.

(** Each queue episode keeps its own reason.  Storing a queue detail rewrites
    the three live columns of that order only and stamps the code onto the
    latest queued history row of that order and no other row; clearing the
    detail (an empty code) never wipes the history; an error changes nothing. *)
Theorem queue_reason_per_episode (id : Z) (reason code cause : string) (h1 h2 : list Hist)
    (h : Hist) (c : Conn CoreDB) :
  history (db c) = h1 ++ h :: h2 -> queued_row_of id h = true ->
  (forall x, x ∈ h2 -> queued_row_of id x = false) ->
  let '(res, c') := SetQueueDetail id reason code cause c in
  match res with
  | Err _ => db c' = db c
  | Ok _ =>
      orders (db c') =
        alter (with_queue reason code cause (clock_now (db c))) id (orders (db c)) /\
      history (db c') = h1 ++ (if code =s "" then h else with_code code h) :: h2 /\
      reservations (db c') = reservations (db c) /\ bins (db c') = bins (db c)
  end.
Proof.
  intros Hh Hq Hlast. destruct (SetQueueDetail _ _ _ _ c) as [[[]|e] c'] eqn:E;
    [|unfold SetQueueDetail in E; by apply tx_err in E].
  apply SetQueueDetail_ok in E. rewrite E. unfold queue_spec.
  destruct (code =s ""); [by split_and!|].
  cbn [orders history reservations bins set_history set_orders]. split_and!; [done| |done..].
  unfold stamp_last_queued. rewrite Hh.
  replace (reverse (h1 ++ h :: h2)) with (reverse h2 ++ h :: reverse h1)
    by (by rewrite reverse_app, reverse_cons, <- (assoc_L (++))).
  rewrite (stamp_first_hit _ code (reverse h2) h (reverse h1)); [| |exact Hq].
  { by rewrite reverse_app, reverse_cons, !reverse_involutive, <- (assoc_L (++)). }
  intros x Hx. apply Hlast. by apply elem_of_reverse.
Qed.

