(* ===== verification/BinManifest.v ===== *)
(** The bin's count and its claims (shingo-core/service/bin_manifest.go,
    store/audit/bin_uop.go and bin_uop_exception.go, bins.claimBin,
    nodes.ClaimSlotTx, store/nodes.go): every write of a carrier's count goes
    through here, with its ledger row, and a write that starts a new load
    starts a new delta generation and announces it in the same transaction.

    [topic] is the announcement topic the service was constructed with; the
    empty string means unwired. *)

From stdpp Require Import pretty.
From S2P Require Import Prelude Status Sql CoreDb Reservations OrderStore.

(** ** Columns *)

(** uop_remaining and the ledger counts are 32-bit columns. *)
Definition int4 (z : Z) : bool := (-2147483648 <=? z)%Z && (z <=? 2147483647)%Z.

(** UPDATE bins SET ... WHERE id=$1 AND p: rows affected; [None] when a value
    does not fit its column. *)
Definition update_bin (binID : Z) (p : Bin -> bool) (uop : Z) (f : Bin -> Bin) (d : CoreDB)
    : option (nat * CoreDB) :=
  if int4 uop then
    match bins d !! binID with
    | Some b => if p b then Some (1, set_bins <[binID := f b]> d) else Some (0, d)
    | None => Some (0, d)
    end
  else None.

(** ** Ledger *)

Definition OpSetForProduction : string := "set_for_production".
Definition OpClearForReuse : string := "clear_for_reuse".
Definition OpClearAndClaim : string := "clear_and_claim".
Definition OpSyncUOPAndClaim : string := "sync_uop_and_claim".
Definition OpReleasedEmpty : string := "released_empty".
Definition OpReleasedPartial : string := "released_partial".
Definition OpReleasedEmptyFallback : string := "released_empty_fallback".
Definition OpReleasedPartialFallback : string := "released_partial_fallback".
Definition OpManifestConfirmed : string := "manifest_confirmed".
Definition OpReleasedCaptureEmpty : string := "released_capture_empty".
Definition OpReleasedUnderpack : string := "released_underpack".
Definition OpOperatorOverridePullParts : string := "operator_override_pull_parts".
Definition OpOperatorOverrideReleasePartial : string := "operator_override_release_partial".

Definition EpochBumpOps : list string :=
  [ OpSetForProduction; OpClearAndClaim; OpClearForReuse; OpReleasedEmpty; OpReleasedPartial;
    OpReleasedEmptyFallback; OpReleasedPartialFallback; OpReleasedCaptureEmpty;
    OpReleasedUnderpack ].

Definition ExcBoundary : string := "boundary".

Record BinUOPContext := mkCtx { cx_node : option Z; cx_loader : option Z; cx_detail : option Detail }.

(** Boundary rows of one bin. *)
Definition boundary_of (binID : Z) (e : Exc) : bool :=
  (ex_bin e =i binID) && (ex_kind e =s ExcBoundary).

Definition boundaries (binID : Z) (d : CoreDB) : list Exc :=
  List.filter (boundary_of binID) (exceptions d).

Definition NextBinUOPEpochSeq (binID : Z) : CoreSQL Z :=
  n <-- query (fun d => Z.of_nat (length (boundaries binID d))) ;;
  sret (n + 1)%Z.

(** Every caller passes [clock.Now()] for the time of occurrence. *)
Definition AppendBinUOPException (kind : string) (binID : Z) (payload actor : string)
    (seq before after deepest recovered : option Z) (op : string) (detail : option Detail)
    : CoreSQL unit :=
  exec (fun d => set_exceptions (fun l => l ++ [mkExc kind binID payload actor seq before after op
    detail (clock_now d) deepest recovered]) d).

Definition AppendBinUOP (binID : Z) (before : option Z) (after : Z) (op source : string)
    (orderID : option Z) (payload actor : string) (ctx : BinUOPContext) : CoreSQL unit :=
  stmt_checked (fun d =>
    if int4 after then
      Some ((), set_ledger (fun l => l ++ [mkLedger binID before after op source orderID payload
        actor (cx_node ctx) (cx_loader ctx) (cx_detail ctx) (db_now d)]) d)
    else None) ;;;
  if contains EpochBumpOps op then
    seq <-- NextBinUOPEpochSeq binID ;;
    AppendBinUOPException ExcBoundary binID payload actor (Some seq) before (Some after) None None op
      (cx_detail ctx)
  else sret ().

Definition AppendBinUOPOverride (binID suggested operator : Z) (op source : string)
    (orderID : option Z) (part actor : string) (meta : Detail) : CoreSQL unit :=
  stmt_checked (fun d =>
    if int4 suggested && int4 operator then
      Some ((), set_ledger (fun l => l ++ [mkLedger binID (Some suggested) operator op source
        orderID part actor None None (Some meta) (db_now d)]) d)
    else None).

(** ** Reads inside the transaction *)

Definition readBinUOPInTx (binID : Z) : CoreSQL (option Z) :=
  query (fun d => b_uop <$> bins d !! binID).

Definition loader_at (node : Z) (d : CoreDB) : option Z :=
  (List.find (fun h => h.1 =i node) (loader_homes d)) ≫= (fun h => Some h.2).

Definition resolveBinUOPContext (binID : Z) (detail : option Detail) : CoreSQL BinUOPContext :=
  r <-- query (fun d => match bins d !! binID with
                        | Some b => (b_node b, b_node b ≫= (fun n => loader_at n d))
                        | None => (None, None)
                        end) ;;
  sret (mkCtx r.1 r.2 detail).

(** ** The generation bump *)

Definition node_name (d : CoreDB) (n : option Z) : string :=
  match n with
  | Some i => match nodes d !! i with Some nd => n_name nd | None => "" end
  | None => ""
  end.

(** UPDATE ... RETURNING delta_epoch, uop_remaining, node name. *)
Definition bumpEpochRaw (binID : Z) : CoreSQL (Z * Z * string) :=
  r <-- stmt (fun d =>
    match bins d !! binID with
    | Some b =>
        (Some ((b_epoch b + 1)%Z, b_uop b, node_name d (b_node b)),
         set_bins <[binID := set_bin_epoch (b_epoch b + 1) b]> d)
    | None => (None, d)
    end) ;;
  match r with Some x => sret x | None => sfail ENoRows end.

Section Service.
Variable topic : string.

Definition Wired : bool := topic <>s "".

Definition bumpEpoch (binID : Z) : CoreSQL Z :=
  r <-- bumpEpochRaw binID ;;
  let '(epoch, remaining, nodeName) := r in
  if nodeName =s "" then sret epoch
  else if negb Wired then sret epoch
  else
    exec (set_outbox (fun l => l ++ [mkOutMsg topic "inventory.uop_adjustment" binID nodeName
      (Some remaining) epoch "core"])) ;;;
    sret epoch.

(** *** Clearing and loading *)

(** payload_code='', manifest=NULL, uop_remaining=0, unconfirmed, loaded_at=NULL. *)
Definition cleared (b : Bin) : Bin := set_bin_load "" None 0 false None b.

(** Best effort: "" for no type, an unknown one or a failed read. *)
Definition binTypeCodeInTx (id : Z) : CoreSQL string :=
  if id =i 0 then sret ""
  else
    r <-- slog (query (fun d => bin_types d !! id)) ;;
    sret (match r with Some (Some code) => code | _ => "" end).

(** The dunnage transition recorded when the caller stamps a new type. *)
Definition dunnage_context (binTypeID old : option Z) (ctx : BinUOPContext)
    : CoreSQL BinUOPContext :=
  match binTypeID with
  | None => sret ctx
  | Some t =>
      from <-- binTypeCodeInTx (default 0%Z old) ;;
      to <-- binTypeCodeInTx t ;;
      sret (mkCtx (cx_node ctx) (cx_loader ctx) (Some (DunnageDetail from to)))
  end.

Definition read_old_type (binID : Z) (binTypeID : option Z) : CoreSQL (option Z) :=
  match binTypeID with
  | None => sret None
  | Some _ =>
      r <-- slog (query (fun d => bins d !! binID ≫= b_type)) ;;
      sret (match r with Some t => t | None => None end)
  end.

Definition ClearForReuseTx (binID : Z) (binTypeID : option Z) (op source : string) : CoreSQL Z :=
  before <-- readBinUOPInTx binID ;;
  old <-- read_old_type binID binTypeID ;;
  stmt_checked (update_bin binID (fun _ => true) 0 (fun b =>
    set_bin_type (coalesce binTypeID (b_type b)) (cleared b))) ;;;
  newEpoch <-- bumpEpoch binID ;;
  ctx0 <-- resolveBinUOPContext binID None ;;
  ctx <-- dunnage_context binTypeID old ctx0 ;;
  AppendBinUOP binID before 0 op source None "" "" ctx ;;;
  sret newEpoch.

Definition ClearForReuse (binID : Z) (binTypeID : option Z) : CoreSQL Z :=
  tx (epoch <-- ClearForReuseTx binID binTypeID OpClearForReuse
        "service/bin_manifest.go:ClearForReuse" ;;
      commit epoch).

Definition setForProductionTx (binID : Z) (manifest : Manifest) (payload : string) (uop : Z)
    : CoreSQL Z :=
  before <-- readBinUOPInTx binID ;;
  stmt_checked (update_bin binID (fun _ => true) uop (fun b =>
    set_bin_load payload (Some manifest) uop false (b_loaded_at b) b)) ;;;
  newEpoch <-- bumpEpoch binID ;;
  ctx <-- resolveBinUOPContext binID None ;;
  AppendBinUOP binID before uop OpSetForProduction "service/bin_manifest.go:SetForProduction"
    None payload "" ctx ;;;
  sret newEpoch.

Definition SetForProduction (binID : Z) (manifest : Manifest) (payload : string) (uop : Z)
    : CoreSQL Z :=
  tx (e <-- setForProductionTx binID manifest payload uop ;; commit e).

Definition resolveTemplateManifest (payload : string) (uopOverride : option Z)
    : CoreSQL (Manifest * Z) :=
  r <-- query (fun d => templates d !! payload) ;;
  match r with
  | None => sfail ENoRows
  | Some (capacity, _) =>
      items <-- query (fun d => match templates d !! payload with Some t => t.2 | None => [] end) ;;
      match uopOverride with
      | Some n => if (n <? 0)%Z then sfail ENegativeUOP else sret (items, n)
      | None => sret (items, capacity)
      end
  end.

Definition SetFromTemplate (binID : Z) (payload : string) (uopOverride : option Z) : CoreSQL Z :=
  r <-- resolveTemplateManifest payload uopOverride ;;
  SetForProduction binID r.1 payload r.2.

(** *** Confirming: [producedAt] is the instant the request's timestamp parses
    to, [None] when it is blank or malformed. *)

Definition resolveLoadedAt (producedAt : option Z) (now : Z) : Z := default now producedAt.

Definition ConfirmManifestTx (binID : Z) (producedAt : option Z) : CoreSQL (Z * Z * string) :=
  r <-- stmt (fun d =>
    let loadedAt := resolveLoadedAt producedAt (clock_now d) in
    match bins d !! binID with
    | Some b => (Some (loadedAt, b_uop b, b_payload b),
        set_bins <[binID := set_bin_load (b_payload b) (b_manifest b) (b_uop b) true
          (Some loadedAt) b]> d)
    | None => (None, d)
    end) ;;
  match r with Some x => sret x | None => sfail ENoRows end.

Definition confirmTx (binID : Z) (producedAt : option Z) : CoreSQL unit :=
  before <-- readBinUOPInTx binID ;;
  r <-- ConfirmManifestTx binID producedAt ;;
  let '(loadedAt, uop, payload) := r in
  ctx <-- resolveBinUOPContext binID (Some (LoadedAtDetail loadedAt)) ;;
  AppendBinUOP binID before uop OpManifestConfirmed "service/bin_manifest.go:Confirm"
    None payload "" ctx.

Definition ConfirmBin (binID : Z) (producedAt : option Z) : CoreSQL unit :=
  tx (confirmTx binID producedAt ;;; commit ()).

Definition RecordProducedBin (binID : Z) (manifest : Manifest) (payload : string) (uop : Z)
    (producedAt : option Z) : CoreSQL unit :=
  tx (setForProductionTx binID manifest payload uop ;;;
      confirmTx binID producedAt ;;;
      commit ()).

Definition RecordProducedBinFromTemplate (binID : Z) (payload : string) (uopOverride : option Z)
    (producedAt : option Z) : CoreSQL unit :=
  r <-- resolveTemplateManifest payload uopOverride ;;
  RecordProducedBin binID r.1 payload r.2 producedAt.

Definition Unconfirm (binID : Z) : CoreSQL unit :=
  exec (set_bins (alter (fun b =>
    set_bin_load (b_payload b) (b_manifest b) (b_uop b) false (b_loaded_at b) b) binID)).

(** *** Claiming under a reservation *)

(** EXISTS (... order_id=$1 AND bin_id=$2 AND state='pending'). *)
Definition pending_on (orderID binID : Z) (r : Resv) : bool :=
  (r_order r =i orderID) && claimed_is (r_bin r) binID && bool_decide (r_state r = StatePending).

Definition claimable (d : CoreDB) (orderID binID : Z) (b : Bin) : bool :=
  negb (b_locked b) &&
  (bool_decide (b_claimed_by b = None) || claimed_is (b_claimed_by b) orderID) &&
  existsb (pending_on orderID binID) (reservations d).

(** A guarded claim: zero rows affected is the refusal. *)
Definition claim_update (orderID binID uop : Z) (f : Bin -> Bin) : CoreSQL unit :=
  n <-- stmt_checked (fun d => update_bin binID (claimable d orderID binID) uop
          (fun b => set_bin_claim (Some orderID) (f b)) d) ;;
  if (n =? 0)%nat then sfail EClaimRefused else sret ().

Definition claimBin (binID orderID : Z) : CoreSQL unit := claim_update orderID binID 0 id.

Definition clearAndClaimTx (binID orderID : Z) : CoreSQL unit :=
  before <-- readBinUOPInTx binID ;;
  claim_update orderID binID 0 cleared ;;;
  bumpEpoch binID ;;;
  ctx <-- resolveBinUOPContext binID None ;;
  AppendBinUOP binID before 0 OpClearAndClaim "service/bin_manifest.go:ClearAndClaim"
    (Some orderID) "" "" ctx.

Definition syncUOPAndClaimTx (binID orderID remainingUOP : Z) : CoreSQL unit :=
  before <-- readBinUOPInTx binID ;;
  claim_update orderID binID remainingUOP (fun b =>
    set_bin_load (b_payload b) (b_manifest b) remainingUOP (b_confirmed b) (b_loaded_at b) b) ;;;
  ctx <-- resolveBinUOPContext binID None ;;
  AppendBinUOP binID before remainingUOP OpSyncUOPAndClaim
    "service/bin_manifest.go:SyncUOPAndClaim" (Some orderID) "" "" ctx.

Definition ClearAndClaim (binID orderID : Z) : CoreSQL unit :=
  tx (clearAndClaimTx binID orderID ;;; commit ()).
Definition SyncUOPAndClaim (binID orderID remainingUOP : Z) : CoreSQL unit :=
  tx (syncUOPAndClaimTx binID orderID remainingUOP ;;; commit ()).

Definition claimUnderReservationTx (binID orderID : Z) (remainingUOP : option Z) : CoreSQL unit :=
  match remainingUOP with
  | Some n => if (n <=? 0)%Z then clearAndClaimTx binID orderID
              else syncUOPAndClaimTx binID orderID n
  | None => claimBin binID orderID
  end.

Definition claimAndConfirm (binID orderID : Z) (remainingUOP : option Z) : CoreSQL unit :=
  tx (claimUnderReservationTx binID orderID remainingUOP ;;;
      Confirm orderID binID ;;;
      commit ()).

Definition ConfirmClaim (binID orderID : Z) (remainingUOP : option Z) : CoreSQL unit :=
  claimAndConfirm binID orderID remainingUOP.

Definition ConfirmHeldReservation (orderID binID : Z) : CoreSQL unit := Confirm orderID binID.

Definition ReserveForDispatch (binID orderID : Z) : CoreSQL unit :=
  Acquire orderID binID "reserveComplexPlan".

(** The fused form; on a failed claim the reservation is released and a
    failure of that release is only logged. *)
Definition ClaimForDispatch (binID orderID : Z) (remainingUOP : option Z) : CoreSQL unit :=
  Acquire orderID binID "ClaimForDispatch" ;;;
  (fun c => match claimAndConfirm binID orderID remainingUOP c with
            | (Ok _, c1) => (Ok (), c1)
            | (Err e, c1) => (Err e, (slog (Release orderID binID) c1).2)
            end).

(** *** Release-time sync *)

Definition AppendAudit (entity : string) (id : Z) (action new actor : string) : CoreSQL unit :=
  exec (set_audit_log (fun l => l ++ [mkAudit entity id action new actor])).

(** WHERE id=$1 AND locked=false [AND claimed_by=$2]. *)
Definition releasable (orderID : Z) (fallback : bool) (b : Bin) : bool :=
  negb (b_locked b) && (fallback || claimed_is (b_claimed_by b) orderID).

(** The manifest after a partial release: rebuilt from the payload code. *)
Definition partial_manifest (b : Bin) (n : Z) : option Manifest :=
  if b_payload b =s "" then b_manifest b else Some [(b_payload b, n)].

Definition released_update (n : Z) (b : Bin) : Bin :=
  if (n =? 0)%Z then cleared b
  else set_bin_load (b_payload b) (partial_manifest b n) n (b_confirmed b) (b_loaded_at b) b.

Definition released_op (n : Z) (kind : string) (fallback : bool) : string :=
  if (n =? 0)%Z then
    if fallback then OpReleasedEmptyFallback
    else if kind =s "release_underpack" then OpReleasedUnderpack else OpReleasedEmpty
  else if fallback then OpReleasedPartialFallback else OpReleasedPartial.

Definition released_source (fallback : bool) : string :=
  if fallback then "service/bin_manifest.go:SyncOrClearForReleasedNoOwner"
  else "service/bin_manifest.go:SyncOrClearForReleased".

Definition released_tag (n : Z) (kind : string) (fallback : bool) : string :=
  (if (n =? 0)%Z then
     if negb fallback && (kind =s "release_underpack") then "released_underpack"
     else "released_empty"
   else "released_partial") +:+ (if fallback then "_fallback" else "").

Definition released_note (n orderID : Z) (fallback : bool) : string :=
  (if (n =? 0)%Z then "" else "uop=" +:+ pretty n +:+ " ") +:+
  "order=" +:+ pretty orderID +:+ (if fallback then " (source-node fallback)" else "").

Definition syncOrClearForReleased (binID orderID : Z) (remainingUOP : option Z) (kind actor0 : string)
    (fallback : bool) : CoreSQL unit :=
  match remainingUOP with
  | None => sret ()
  | Some n =>
      let actor := if actor0 =s "" then "system" else actor0 in
      if (n <? 0)%Z then sfail ENegativeUOP
      else
        tx (before <-- readBinUOPInTx binID ;;
            code <-- slog (query (fun d => match bins d !! binID with
                                           | Some b => b_payload b | None => "" end)) ;;
            r <-- stmt_checked (update_bin binID (releasable orderID fallback) n
                    (released_update n)) ;;
            if (r =? 0)%nat then sfail EClaimRefused
            else
              bumpEpoch binID ;;;
              ctx <-- resolveBinUOPContext binID None ;;
              AppendBinUOP binID before n (released_op n kind fallback) (released_source fallback)
                (Some orderID) (default "" code) actor ctx ;;;
              commit ()) ;;;
        slog (AppendAudit "bin" binID (released_tag n kind fallback)
                (released_note n orderID fallback) actor) ;;;
        sret ()
  end.

Definition SyncOrClearForReleased (binID orderID : Z) (remainingUOP : option Z)
    (kind actor : string) : CoreSQL unit :=
  syncOrClearForReleased binID orderID remainingUOP kind actor false.

Definition SyncOrClearForReleasedNoOwner (binID orderID : Z) (remainingUOP : option Z)
    (actor : string) : CoreSQL unit :=
  syncOrClearForReleased binID orderID remainingUOP "" actor true.
End Service.

(** ** Slots *)

Definition slot_pending (orderID nodeID : Z) (r : Resv) : bool :=
  (r_order r =i orderID) && claimed_is (r_node r) nodeID &&
  bool_decide (r_kind r = KindSlot) && bool_decide (r_state r = StatePending).

(** NOT EXISTS (SELECT 1 FROM bins WHERE node_id=$2). *)
Definition occupied (d : CoreDB) (nodeID : Z) : bool :=
  existsb (fun kb => claimed_is (b_node kb.2) nodeID) (map_to_list (bins d)).

Definition slot_claimable (d : CoreDB) (orderID nodeID : Z) (n : Node) : bool :=
  (bool_decide (n_claimed_by n = None) || claimed_is (n_claimed_by n) orderID) &&
  negb (occupied d nodeID) && existsb (slot_pending orderID nodeID) (reservations d).

Definition ClaimSlotTx (nodeID orderID : Z) : CoreSQL unit :=
  n <-- stmt (fun d =>
    match nodes d !! nodeID with
    | Some nd => if slot_claimable d orderID nodeID nd
                 then (1, set_nodes <[nodeID := set_node_claim (Some orderID) nd]> d) else (0, d)
    | None => (0, d)
    end) ;;
  if (n =? 0)%nat then sfail EClaimRefused else sret ().

Definition UnclaimSlot (nodeID : Z) : CoreSQL unit :=
  exec (set_nodes (alter (set_node_claim None) nodeID)).
Definition UnclaimOrderSlots (orderID : Z) : CoreSQL unit := exec (drop_slot_claims orderID).

Definition ConfirmSlotClaim (nodeID orderID : Z) : CoreSQL unit :=
  tx (ClaimSlotTx nodeID orderID ;;; ConfirmSlot orderID nodeID ;;; commit ()).
Definition ReserveSlot (nodeID orderID : Z) : CoreSQL unit :=
  AcquireSlot orderID nodeID "reserveComplexPlan".
Definition ReleaseSlotReservation (nodeID orderID : Z) : CoreSQL unit := ReleaseSlot orderID nodeID.
Definition ConfirmSlotReservation (nodeID orderID : Z) : CoreSQL unit := ConfirmSlot orderID nodeID.
Definition ReleaseSlotClaim (nodeID orderID : Z) : CoreSQL unit :=
  tx (exec (set_nodes (alter (unclaim_node orderID) nodeID)) ;;;
      ReleaseSlot orderID nodeID ;;;
      commit ()).

(** ** Operator overrides at release *)

Record UOPDisposition := mkDisp {
  dp_kind : string;
  dp_count : Z;
  dp_captures : gmap string Z;
  dp_count_suggested : option Z;
  dp_captures_suggested : gmap string Z
}.

(** The parts of either map, each once, in name order; a missing key reads 0. *)
Definition override_parts (p : UOPDisposition) : list string :=
  isort String.leb (elements (dom (dp_captures_suggested p) ∪ dom (dp_captures p))).

Definition part_count (m : gmap string Z) (part : string) : Z := default 0%Z (m !! part).

Definition override_source : string := "service/bin_manifest.go:AuditReleaseOverride".

Fixpoint append_overrides (binID orderID : Z) (p : UOPDisposition) (actor : string)
    (parts : list string) : CoreSQL unit :=
  match parts with
  | [] => sret ()
  | part :: rest =>
      let suggested := part_count (dp_captures_suggested p) part in
      let operator := part_count (dp_captures p) part in
      if suggested =i operator then append_overrides binID orderID p actor rest
      else
        AppendBinUOPOverride binID suggested operator OpOperatorOverridePullParts override_source
          (Some orderID) part actor (OverrideDetail (dp_kind p) part suggested operator) ;;;
        append_overrides binID orderID p actor rest
  end.

Definition AuditReleaseOverride (binID orderID : Z) (disposition : option UOPDisposition)
    (actor0 : string) : CoreSQL unit :=
  match disposition with
  | None => sret ()
  | Some p =>
      let actor := if actor0 =s "" then "system" else actor0 in
      if dp_kind p =s "release_partial" then
        match dp_count_suggested p with
        | None => sret ()
        | Some suggested =>
            if suggested =i dp_count p then sret ()
            else AppendBinUOPOverride binID suggested (dp_count p) OpOperatorOverrideReleasePartial
                   override_source (Some orderID) "" actor
                   (OverrideDetail (dp_kind p) "" suggested (dp_count p))
        end
      else if dp_kind p =s "pull_parts" then
        if bool_decide (dp_captures_suggested p = ∅) then sret ()
        else append_overrides binID orderID p actor (override_parts p)
      else sret ()
  end.

(** ** One new generation *)

(** The announcement a bump leaves in the outbox. *)
Definition announcement (topic : string) (binID : Z) (d : CoreDB) (b : Bin) : list OutMsg :=
  if (node_name d (b_node b) =s "") || negb (Wired topic) then []
  else [mkOutMsg topic "inventory.uop_adjustment" binID (node_name d (b_node b)) (Some (b_uop b))
          (b_epoch b) "core"].

(** The tables moved from one load of a bin to the next: its row changed by
    [f] and its generation by one, with exactly one ledger row, the next
    boundary row and the announcement of the new count and generation. *)
Record new_generation (topic : string) (binID : Z) (f : Bin -> Bin) (after : Z) (op : string)
    (d d' : CoreDB) : Prop := {
  ng_bin : exists b, bins d !! binID = Some b /\
    bins d' = <[binID := set_bin_epoch (b_epoch b + 1) (f b)]> (bins d) /\
    (exists row, ledger d' = ledger d ++ [row] /\ lg_bin row = binID /\
       lg_before row = Some (b_uop b) /\ lg_after row = after /\ lg_op row = op) /\
    outbox d' = outbox d ++
      announcement topic binID d (set_bin_epoch (b_epoch b + 1) (f b));
  ng_boundary : exists row, exceptions d' = exceptions d ++ [row] /\
    boundary_of binID row = true /\
    ex_seq row = Some (Z.of_nat (S (length (boundaries binID d)))) /\
    ex_after row = Some after /\ ex_op row = op;
  ng_int4 : int4 after = true
}.

(** Statement runs of the helpers. *)
Lemma update_bin_ok binID p uop f d n d' :
  update_bin binID p uop f d = Some (n, d') ->
  int4 uop = true /\
  ((exists b, bins d !! binID = Some b /\ p b = true /\ n = 1 /\
      d' = set_bins <[binID := f b]> d) \/
   (n = 0 /\ d' = d /\ forall b, bins d !! binID = Some b -> p b = false)).
Proof.
  unfold update_bin. destruct (int4 uop); [|done]. intros H. split; [done|].
  destruct (bins d !! binID) as [b|] eqn:E; [destruct (p b) eqn:P|]; injection H as <- <-.
  - left. by exists b.
  - right. split_and!; [done..|]. by intros b' [= <-].
  - right. by split_and!.
Qed.

Lemma bumpEpoch_ok topic binID c e c' :
  bumpEpoch topic binID c = (Ok e, c') ->
  exists b, bins (db c) !! binID = Some b /\ e = (b_epoch b + 1)%Z /\
    db c' = set_outbox (fun l => l ++
        announcement topic binID (db c) (set_bin_epoch (b_epoch b + 1) b))
      (set_bins <[binID := set_bin_epoch (b_epoch b + 1) b]> (db c)).
Proof.
  unfold bumpEpoch, bumpEpochRaw. intros H.
  apply sbind_ok in H as ([[ep rem] nm] & c1 & H1 & H).
  apply sbind_ok in H1 as (r & c2 & H2%stmt_ok & H1).
  destruct (bins (db c) !! binID) as [b|] eqn:Hb; injection H2 as <- Hd; [|done].
  unfold sret in H1. injection H1 as <- <- <- <-. exists b. split; [done|].
  unfold announcement. cbn [b_node set_bin_epoch b_uop b_epoch].
  destruct (node_name (db c) (b_node b) =s ""); cbn [orb].
  { unfold sret in H. injection H as <- <-. split; [done|]. rewrite <- Hd.
    destruct (set_bins _ _). unfold set_outbox. cbn. by rewrite app_nil_r. }
  destruct (Wired topic); cbn [negb] in *.
  - apply sbind_ok in H as ([] & c3 & H3%exec_ok & H). unfold sret in H. injection H as <- <-.
    split; [done|]. by rewrite H3, <- Hd.
  - unfold sret in H. injection H as <- <-. split; [done|]. rewrite <- Hd.
    destruct (set_bins _ _). unfold set_outbox. cbn. by rewrite app_nil_r.
Qed.

Lemma AppendBinUOP_ok binID before after op source o payload actor ctx c c' :
  AppendBinUOP binID before after op source o payload actor ctx c = (Ok (), c') ->
  contains EpochBumpOps op = true ->
  int4 after = true /\ exists lrow erow,
    db c' = set_exceptions (fun l => l ++ [erow]) (set_ledger (fun l => l ++ [lrow]) (db c)) /\
    lg_bin lrow = binID /\ lg_before lrow = before /\ lg_after lrow = after /\ lg_op lrow = op /\
    boundary_of binID erow = true /\
    ex_seq erow = Some (Z.of_nat (S (length (boundaries binID (db c))))) /\
    ex_after erow = Some after /\ ex_op erow = op.
Proof.
  unfold AppendBinUOP. intros H Hop.
  apply sbind_ok in H as ([] & c1 & H1%stmt_checked_ok & H).
  destruct (int4 after); [|done]. split; [done|]. injection H1 as H1. rewrite Hop in H.
  unfold NextBinUOPEpochSeq, AppendBinUOPException in H.
  apply sbind_ok in H as (seq & c2 & H2 & H3%exec_ok).
  apply sbind_ok in H2 as (n & c3 & [-> Hd]%query_ok & H2). unfold sret in H2.
  injection H2 as <- <-. eexists _, _. split_and!.
  - rewrite H3, Hd, <- H1. reflexivity.
  - done.
  - done.
  - done.
  - done.
  - unfold boundary_of. cbn. by rewrite Z.eqb_refl.
  - cbn [ex_seq]. unfold boundaries. cbn [exceptions set_ledger]. f_equal. lia.
  - done.
  - done.
Qed.

Lemma context_ok binID detail c ctx c' :
  resolveBinUOPContext binID detail c = (Ok ctx, c') -> db c' = db c.
Proof. unfold resolveBinUOPContext. intros H. by sql_inv H. Qed.

(** Bump, context and ledger after a row update is one new generation. *)
Lemma generation_tail topic binID f b d before after op source o payload actor c1 c2 c3 c4 e ctx c' :
  bins d !! binID = Some b -> before = Some (b_uop b) ->
  db c1 = set_bins <[binID := f b]> d -> b_epoch (f b) = b_epoch b ->
  bumpEpoch topic binID c1 = (Ok e, c2) ->
  db c3 = db c2 -> db c4 = db c3 ->
  AppendBinUOP binID before after op source o payload actor ctx c4 = (Ok (), c') ->
  contains EpochBumpOps op = true ->
  new_generation topic binID f after op d (db c') /\ e = (b_epoch b + 1)%Z.
Proof.
  intros Hb Hbef Hd1 Hep Hbump H3 H4 Happ Hop.
  apply bumpEpoch_ok in Hbump as (b1 & Hb1 & He & Hd2).
  rewrite Hd1 in Hb1. cbn in Hb1. rewrite lookup_insert_eq in Hb1. injection Hb1 as <-.
  apply AppendBinUOP_ok in Happ as (Hi & lrow & erow & Hd & L1 & L2 & L3 & L4 & E1 & E2 & E3 & E4);
    [|done].
  assert (Hd4 : db c4 = db c2) by congruence.
  split; [|by rewrite He, Hep]. rewrite Hep in Hd2.
  constructor; [| |done].
  - exists b. split; [done|]. rewrite Hd, Hd4, Hd2, Hd1. cbn. rewrite insert_insert_eq.
    split_and!; [done| |done]. exists lrow. split_and!; [done..|by rewrite L2|done|done].
  - exists erow. rewrite Hd, Hd4. split_and!; [by rewrite Hd2, Hd1|done| |done|done].
    rewrite E2, Hd4, Hd2, Hd1. done.
Qed.

Lemma set_for_production_ok topic binID mf payload uop c e c' :
  setForProductionTx topic binID mf payload uop c = (Ok e, c') ->
  new_generation topic binID
    (fun b => set_bin_load payload (Some mf) uop false (b_loaded_at b) b) uop OpSetForProduction
    (db c) (db c') /\ exists b, bins (db c) !! binID = Some b /\ e = (b_epoch b + 1)%Z.
Proof.
  unfold setForProductionTx, readBinUOPInTx. intros H.
  apply sbind_ok in H as (before & c1 & [-> Hd1]%query_ok & H).
  apply sbind_ok in H as (n & c2 & H2%stmt_checked_ok & H).
  apply sbind_ok in H as (ep & c3 & H3 & H). apply sbind_ok in H as (ctx & c4 & H4%context_ok & H).
  apply sbind_ok in H as ([] & c5 & H5 & H). unfold sret in H. injection H as <- <-.
  apply update_bin_ok in H2 as [_ [(b & Hb & _ & _ & Hd2)|(_ & Hd2 & Hno)]]; rewrite Hd1 in *.
  - rewrite Hb in H5. cbn [fmap option_fmap option_map] in H5.
    destruct (generation_tail topic binID
      (fun b => set_bin_load payload (Some mf) uop false (b_loaded_at b) b) b (db c) (Some (b_uop b))
      uop OpSetForProduction _ _ _ _ c2 c3 c4 c4 ep ctx c5 Hb eq_refl Hd2 eq_refl H3 H4 eq_refl H5
      eq_refl) as [Hg He]. split; [done|]. by exists b.
  - apply bumpEpoch_ok in H3 as (b & Hb & _). rewrite Hd2 in Hb. by specialize (Hno b Hb).
Qed.

Lemma slog_query {A} (f : CoreDB -> A) c r c' :
  slog (query (E := error) f) c = (Ok r, c') -> db c' = db c.
Proof.
  unfold slog, query, stmt. destruct (faults c) as [|[] fs]; by intros [= <- <-].
Qed.

Lemma type_code_ok id c s c' : binTypeCodeInTx id c = (Ok s, c') -> db c' = db c.
Proof.
  unfold binTypeCodeInTx. destruct (id =i 0); [by intros [= <- <-]|]. intros H.
  apply sbind_ok in H as (r & c1 & H1%slog_query & H). unfold sret in H. by injection H as <- <-.
Qed.

Lemma dunnage_ok t old ctx c r c' : dunnage_context t old ctx c = (Ok r, c') -> db c' = db c.
Proof.
  unfold dunnage_context. destruct t; [|by intros [= <- <-]]. intros H.
  apply sbind_ok in H as (a & c1 & H1%type_code_ok & H).
  apply sbind_ok in H as (b & c2 & H2%type_code_ok & H). unfold sret in H. injection H as <- <-.
  congruence.
Qed.

Lemma old_type_ok binID t c r c' : read_old_type binID t c = (Ok r, c') -> db c' = db c.
Proof.
  unfold read_old_type. destruct t; [|by intros [= <- <-]]. intros H.
  apply sbind_ok in H as (a & c1 & H1%slog_query & H). unfold sret in H. by injection H as <- <-.
Qed.

Lemma clear_for_reuse_ok topic binID t op source c e c' :
  ClearForReuseTx topic binID t op source c = (Ok e, c') -> contains EpochBumpOps op = true ->
  new_generation topic binID (fun b => set_bin_type (coalesce t (b_type b)) (cleared b)) 0 op
    (db c) (db c').
Proof.
  unfold ClearForReuseTx, readBinUOPInTx. intros H Hop.
  apply sbind_ok in H as (before & c1 & [-> Hd1]%query_ok & H).
  apply sbind_ok in H as (old & c1' & Hd1'%old_type_ok & H).
  apply sbind_ok in H as (n & c2 & H2%stmt_checked_ok & H).
  apply sbind_ok in H as (ep & c3 & H3 & H). apply sbind_ok in H as (ctx & c4 & H4%context_ok & H).
  apply sbind_ok in H as (ctx' & c5 & H5%dunnage_ok & H).
  apply sbind_ok in H as ([] & c6 & H6 & H). unfold sret in H. injection H as <- <-.
  apply update_bin_ok in H2 as [_ [(b & Hb & _ & _ & Hd2)|(_ & Hd2 & Hno)]]; rewrite Hd1', Hd1 in *.
  - rewrite Hb in H6. cbn [fmap option_fmap option_map] in H6.
    by destruct (generation_tail topic binID
      (fun b => set_bin_type (coalesce t (b_type b)) (cleared b)) b (db c) (Some (b_uop b))
      0 op _ _ _ _ c2 c3 c4 c5 ep ctx' c6 Hb eq_refl Hd2 eq_refl H3 H4 H5 H6 Hop) as [Hg _].
  - apply bumpEpoch_ok in H3 as (b & Hb & _). rewrite Hd2 in Hb. by specialize (Hno b Hb).
Qed.

Lemma claim_update_ok orderID binID uop f c c' :
  claim_update orderID binID uop f c = (Ok (), c') ->
  exists b, bins (db c) !! binID = Some b /\ claimable (db c) orderID binID b = true /\
    db c' = set_bins <[binID := set_bin_claim (Some orderID) (f b)]> (db c).
Proof.
  unfold claim_update. intros H. apply sbind_ok in H as (n & c1 & H1%stmt_checked_ok & H).
  apply update_bin_ok in H1 as [_ [(b & Hb & Hp & -> & Hd)|(-> & _ & _)]]; [|done].
  cbn [Nat.eqb] in H. unfold sret in H. injection H as <-. by exists b.
Qed.

Lemma clear_and_claim_ok topic binID orderID c c' :
  clearAndClaimTx topic binID orderID c = (Ok (), c') ->
  new_generation topic binID (fun b => set_bin_claim (Some orderID) (cleared b)) 0 OpClearAndClaim
    (db c) (db c') /\ reservations (db c') = reservations (db c) /\
  exists b, bins (db c) !! binID = Some b /\ claimable (db c) orderID binID b = true.
Proof.
  unfold clearAndClaimTx, readBinUOPInTx. intros H.
  apply sbind_ok in H as (before & c1 & [-> Hd1]%query_ok & H).
  apply sbind_ok in H as ([] & c2 & (b & Hb & Hcl & Hd2)%claim_update_ok & H). rewrite Hd1 in *.
  apply sbind_ok in H as (ep & c3 & H3 & H). apply sbind_ok in H as (ctx & c4 & H4%context_ok & H).
  rewrite Hb in H. cbn [fmap option_fmap option_map] in H.
  destruct (generation_tail topic binID (fun b => set_bin_claim (Some orderID) (cleared b)) b (db c)
    (Some (b_uop b)) 0 OpClearAndClaim _ _ _ _ c2 c3 c4 c4 ep ctx c' Hb eq_refl Hd2 eq_refl H3 H4
    eq_refl H eq_refl) as [Hg _].
  split_and!; [done| |by exists b].
  apply AppendBinUOP_ok in H as (_ & lr & er & -> & _); [|done]. cbn. rewrite H4.
  apply bumpEpoch_ok in H3 as (b1 & _ & _ & ->). cbn. by rewrite Hd2.
Qed.

Lemma released_ok topic binID orderID n kind actor fb c c' :
  syncOrClearForReleased topic binID orderID (Some n) kind actor fb c = (Ok (), c') ->
  (0 <= n)%Z /\
  (exists b, bins (db c) !! binID = Some b /\ releasable orderID fb b = true) /\
  new_generation topic binID (released_update n) n (released_op n kind fb) (db c) (db c').
Proof.
  unfold syncOrClearForReleased. destruct (Z.ltb_spec n 0) as [?|Hn]; [done|]. intros H.
  split; [exact Hn|].
  apply sbind_ok in H as ([] & c0 & Htx & H).
  assert (Hlast : db c' = db c0 \/ exists r, db c' = set_audit_log (fun l => l ++ [r]) (db c0)).
  { apply sbind_ok in H as (x & c1 & H1 & H2). unfold sret in H2. injection H2 as <-.
    unfold slog, AppendAudit, exec, stmt in H1.
    destruct (faults c0) as [|[] fs]; injection H1 as _ <-; cbn; eauto. }
  apply tx_ok in Htx as (k & c1 & c2 & Hd0 & Hb & Hk). unfold readBinUOPInTx in Hb.
  apply sbind_ok in Hb as (before & c3 & [-> Hd3]%query_ok & Hb).
  apply sbind_ok in Hb as (code & c4 & Hd4%slog_query & Hb).
  apply sbind_ok in Hb as (r & c5 & H5%stmt_checked_ok & Hb). rewrite Hd4, Hd3, Hd0 in *.
  apply update_bin_ok in H5 as [_ [(b & Hbin & Hp & -> & Hd5)|(-> & _ & _)]]; [|done].
  cbn [Nat.eqb] in Hb. split; [by exists b|].
  apply sbind_ok in Hb as (ep & c6 & H6 & Hb). apply sbind_ok in Hb as (ctx & c7 & H7%context_ok & Hb).
  apply sbind_ok in Hb as ([] & c8 & H8 & Hb). unfold commit, sret in Hb. injection Hb as <- <-.
  rewrite Hbin in H8. cbn [fmap option_fmap option_map] in H8.
  assert (Hop : contains EpochBumpOps (released_op n kind fb) = true).
  { unfold released_op. by destruct (n =? 0)%Z, fb, (kind =s "release_underpack"). }
  assert (Hep : b_epoch (released_update n b) = b_epoch b) by (unfold released_update; by destruct (n =? 0)%Z).
  destruct (generation_tail topic binID (released_update n) b (db c) (Some (b_uop b)) n
    (released_op n kind fb) _ _ _ _ c5 c6 c7 c7 ep ctx c8 Hbin eq_refl Hd5 Hep H6 H7 eq_refl H8 Hop)
    as [Hg _].
  destruct Hlast as [->|[rw ->]]; rewrite Hk; [done|].
  destruct Hg as [G1 G2 G3]. constructor; [exact G1|exact G2|exact G3].
Qed.

(** After the transaction only the best-effort audit row follows, so a failed
    release changed nothing. *)
Lemma released_err {A} (body : CoreSQL (A * bool)) (log : CoreSQL unit) c e c' :
  (tx body ;;; slog log ;;; sret ()) c = (Err e, c') -> db c' = db c.
Proof.
  intros [H%tx_err|(a & c1 & _ & H)]%sbind_err; [done|].
  unfold sbind, slog, sret in H. by destruct (log c1) as [[]?].
Qed.

Lemma claim_and_confirm_depleted_ok topic binID orderID n c c' :
  (n <= 0)%Z -> claimAndConfirm topic binID orderID (Some n) c = (Ok (), c') ->
  new_generation topic binID (fun b => set_bin_claim (Some orderID) (cleared b)) 0 OpClearAndClaim
    (db c) (db c').
Proof.
  unfold claimAndConfirm, claimUnderReservationTx. intros Hn H.
  rewrite (proj2 (Z.leb_le _ _) Hn) in H. apply tx_ok in H as (k & c0 & c1 & Hd0 & Hb & Hk).
  apply sbind_ok in Hb as ([] & c2 & (Hg & _ & _)%clear_and_claim_ok & Hb).
  apply sbind_ok in Hb as ([] & c3 & H3%exec_ok & Hb). unfold commit, sret in Hb.
  injection Hb as <- <-. rewrite Hd0 in Hg. rewrite Hk, H3.
  destruct Hg as [G1 G2 G3]. constructor; [exact G1|exact G2|exact G3].
Qed.

(** ** The operations that start a new load *)

Inductive ResetOp :=
| RSetForProduction (manifest : Manifest) (payload : string) (uop : Z)
| RClearForReuse (binTypeID : option Z)
| RConfirmClaim (orderID remainingUOP : Z)
| RReleased (orderID remainingUOP : Z) (kind actor : string)
| RReleasedNoOwner (orderID remainingUOP : Z) (actor : string).

Definition run_reset (topic : string) (binID : Z) (op : ResetOp) : CoreSQL unit :=
  match op with
  | RSetForProduction mf payload uop => SetForProduction topic binID mf payload uop ;;; sret ()
  | RClearForReuse t => ClearForReuse topic binID t ;;; sret ()
  | RConfirmClaim o n => ConfirmClaim topic binID o (Some n)
  | RReleased o n kind actor => SyncOrClearForReleased topic binID o (Some n) kind actor
  | RReleasedNoOwner o n actor => SyncOrClearForReleasedNoOwner topic binID o (Some n) actor
  end.

(** The row each writes, the count it leaves and the ledger op that names it. *)
Definition reset_row (op : ResetOp) (b : Bin) : Bin :=
  match op with
  | RSetForProduction mf payload uop => set_bin_load payload (Some mf) uop false (b_loaded_at b) b
  | RClearForReuse t => set_bin_type (coalesce t (b_type b)) (cleared b)
  | RConfirmClaim o _ => set_bin_claim (Some o) (cleared b)
  | RReleased _ n _ _ | RReleasedNoOwner _ n _ => released_update n b
  end.

Definition reset_count (op : ResetOp) : Z :=
  match op with
  | RSetForProduction _ _ uop => uop
  | RClearForReuse _ | RConfirmClaim _ _ => 0
  | RReleased _ n _ _ | RReleasedNoOwner _ n _ => n
  end.

Definition reset_tag (op : ResetOp) : string :=
  match op with
  | RSetForProduction _ _ _ => OpSetForProduction
  | RClearForReuse _ => OpClearForReuse
  | RConfirmClaim _ _ => OpClearAndClaim
  | RReleased _ n kind _ => released_op n kind false
  | RReleasedNoOwner _ n _ => released_op n "" true
  end.

(** A claim is a reset only when the operator says the carrier is depleted. *)
Definition is_reset (op : ResetOp) : bool :=
  match op with RConfirmClaim _ n => (n <=? 0)%Z | _ => true end.

Lemma run_reset_err topic binID op c e c' :
  run_reset topic binID op c = (Err e, c') -> db c' = db c.
Proof.
  destruct op; cbn [run_reset].
  - unfold SetForProduction. intros [H%tx_err|(? & ? & _ & [=])]%sbind_err. done.
  - unfold ClearForReuse. intros [H%tx_err|(? & ? & _ & [=])]%sbind_err. done.
  - apply tx_err.
  - unfold SyncOrClearForReleased, syncOrClearForReleased.
    destruct (_ <? 0)%Z; [by intros [= <- <-]|]. apply released_err.
  - unfold SyncOrClearForReleasedNoOwner, syncOrClearForReleased.
    destruct (_ <? 0)%Z; [by intros [= <- <-]|]. apply released_err.
Qed.

Lemma run_reset_ok topic binID op c c' :
  is_reset op = true -> run_reset topic binID op c = (Ok (), c') ->
  new_generation topic binID (reset_row op) (reset_count op) (reset_tag op) (db c) (db c').
Proof.
  destruct op; cbn [run_reset is_reset]; intros Hr H.
  - apply sbind_ok in H as (e & c0 & H & [= <-]). unfold SetForProduction in H.
    apply tx_ok in H as (k & c1 & c2 & Hd0 & Hb & Hk).
    apply sbind_ok in Hb as (ep & c3 & [Hg _]%set_for_production_ok & [= <- <- <-]).
    by rewrite Hk, <- Hd0.
  - apply sbind_ok in H as (e & c0 & H & [= <-]). unfold ClearForReuse in H.
    apply tx_ok in H as (k & c1 & c2 & Hd0 & Hb & Hk).
    apply sbind_ok in Hb as (ep & c3 & Hg & [= <- <- <-]).
    apply clear_for_reuse_ok in Hg; [|done]. by rewrite Hk, <- Hd0.
  - apply Z.leb_le in Hr. by apply claim_and_confirm_depleted_ok in H.
  - by apply released_ok in H as (_ & _ & H).
  - by apply released_ok in H as (_ & _ & H).
Qed.

(** C7. A write that starts a new load starts a new delta generation, exactly
    once and announced with it.  Production load, clear for reuse, a depleted
    claim and both release forms either commit the row they describe together
    with the generation advanced by one, one ledger row (count before, count
    after, op), the next boundary row of the bin and - at a named node, when
    the service is wired - one outbox message carrying the new count and the
    new generation; or return an error and leave every table as it was,
    whichever driver call failed. *)
Theorem reset_starts_generation (topic : string) (binID : Z) (op : ResetOp)
    (c c' : Conn CoreDB) (r : outcome error unit) :
  is_reset op = true -> run_reset topic binID op c = (r, c') ->
  match r with
  | Ok _ => new_generation topic binID (reset_row op) (reset_count op) (reset_tag op)
              (db c) (db c')
  | Err _ => db c' = db c
  end.
Proof.
  intros Hr H. destruct r as [[]|e]; [by apply run_reset_ok in H|by apply run_reset_err in H].
Qed.

Lemma reset_starts_generation_witness :
  let c := mkConn demo_db [] in
  let d' := db (run_reset "shingo.core" 10 (RReleasedNoOwner 1 25 "ST1") c).2 in
  new_generation "shingo.core" 10 (released_update 25) 25 OpReleasedPartialFallback demo_db d' /\
  outbox d' = [mkOutMsg "shingo.core" "inventory.uop_adjustment" 10 "SLOT_A" (Some 25%Z) 4 "core"] /\
  db (run_reset "shingo.core" 10 (RReleasedNoOwner 1 25 "ST1")
        (mkConn demo_db [false; false; false; false; false; false; true])).2 = demo_db.
Proof.
  intros c d'. split_and!.
  - apply (reset_starts_generation "shingo.core" 10 (RReleasedNoOwner 1 25 "ST1") c
      (run_reset "shingo.core" 10 (RReleasedNoOwner 1 25 "ST1") c).2 (Ok ()));
      vm_compute; reflexivity.
  - vm_compute; reflexivity.
  - vm_compute; reflexivity.
Defined.

(** ** Generations and boundary rows in lockstep *)

(** The rest of the service's writes. *)
Inductive ManifestOp :=
| MReset (op : ResetOp)
| MConfirm (producedAt : option Z)
| MUnconfirm
| MRecordProduced (manifest : Manifest) (payload : string) (uop : Z) (producedAt : option Z)
| MReserve (orderID : Z)
| MClaimForDispatch (orderID : Z) (remainingUOP : option Z)
| MConfirmClaim (orderID : Z) (remainingUOP : option Z)
| MConfirmHeld (orderID : Z)
| MOverride (orderID : Z) (disposition : option UOPDisposition) (actor : string).

Definition run_manifest (topic : string) (binID : Z) (op : ManifestOp) : CoreSQL unit :=
  match op with
  | MReset op => run_reset topic binID op
  | MConfirm t => ConfirmBin binID t
  | MUnconfirm => Unconfirm binID
  | MRecordProduced mf payload uop t => RecordProducedBin topic binID mf payload uop t
  | MReserve o => ReserveForDispatch binID o
  | MClaimForDispatch o n => ClaimForDispatch topic binID o n
  | MConfirmClaim o n => ConfirmClaim topic binID o n
  | MConfirmHeld o => ConfirmHeldReservation o binID
  | MOverride o p actor => AuditReleaseOverride binID o p actor
  end.

(** Each call runs to its result, whatever it is, before the next. *)
Fixpoint run_manifests (topic : string) (ops : list (Z * ManifestOp)) (c : Conn CoreDB)
    : Conn CoreDB :=
  match ops with
  | [] => c
  | (binID, op) :: rest => run_manifests topic rest (run_manifest topic binID op c).2
  end.

(** Boundary rows numbered 1, 2, 3, ... in order of insertion. *)
Definition numbered (binID : Z) (d : CoreDB) : Prop :=
  map ex_seq (boundaries binID d) =
  map (fun k => Some (Z.of_nat k)) (seq 1 (length (boundaries binID d))).

Definition drift (binID : Z) (b : Bin) (d : CoreDB) : Z :=
  (b_epoch b - Z.of_nat (length (boundaries binID d)))%Z.

Record lockstep (d d' : CoreDB) : Prop := {
  ls_numbered : forall binID, numbered binID d -> numbered binID d';
  ls_drift : forall binID b, bins d !! binID = Some b ->
    exists b', bins d' !! binID = Some b' /\ drift binID b' d' = drift binID b d /\
      (b_epoch b <= b_epoch b')%Z
}.

#[export] Instance lockstep_preorder : PreOrder lockstep.
Proof.
  split.
  - intros d. constructor; [done|]. intros binID b Hb. exists b. split_and!; [done..|lia].
  - intros d1 d2 d3 [N1 D1] [N2 D2]. constructor; [auto|]. intros binID b Hb.
    destruct (D1 binID b Hb) as (b2 & Hb2 & E2 & L2).
    destruct (D2 binID b2 Hb2) as (b3 & Hb3 & E3 & L3). exists b3. split_and!; [done|congruence|lia].
Qed.

(** Writes that touch neither generations nor boundary rows. *)
Definition same_generation (d d' : CoreDB) : Prop :=
  exceptions d' = exceptions d /\
  forall binID, b_epoch <$> bins d' !! binID = b_epoch <$> bins d !! binID.

#[export] Instance same_generation_preorder : PreOrder same_generation.
Proof.
  split; [by intros d|]. intros d1 d2 d3 [E1 B1] [E2 B2]. split; [congruence|].
  intros binID. by rewrite B2, B1.
Qed.

Lemma same_generation_lockstep d d' : same_generation d d' -> lockstep d d'.
Proof.
  intros [He Hb]. constructor.
  - intros binID. unfold numbered, boundaries. by rewrite He.
  - intros binID b Hl. specialize (Hb binID). rewrite Hl in Hb.
    destruct (bins d' !! binID) as [b'|]; [|done]. injection Hb as Hb. exists b'.
    unfold drift, boundaries. rewrite He, Hb. split_and!; [done..|lia].
Qed.

Lemma boundaries_snoc binID row d d' :
  exceptions d' = exceptions d ++ [row] ->
  boundaries binID d' = boundaries binID d ++ (if boundary_of binID row then [row] else []).
Proof.
  unfold boundaries. intros ->. rewrite List.filter_app. cbn. by destruct (boundary_of binID row).
Qed.

Lemma new_generation_lockstep topic binID f after op d d' :
  (forall b, b_epoch (f b) = b_epoch b) ->
  new_generation topic binID f after op d d' -> lockstep d d'.
Proof.
  intros Hf [(b0 & Hb0 & Hbins & _) (row & Hex & Hrow & Hseq & _) _].
  pose proof (fun i => boundaries_snoc i row d d' Hex) as Hbd.
  assert (Hother : forall i, i <> binID -> boundary_of i row = false).
  { intros i Hi. unfold boundary_of in *. breflect. apply andb_false_iff. left.
    apply Z.eqb_neq. congruence. }
  constructor.
  - intros i. unfold numbered. rewrite Hbd. destruct (decide (i = binID)) as [->|Hi].
    + rewrite Hrow, length_app, !map_app. cbn [length map]. intros ->.
      rewrite seq_app, map_app. cbn [seq map]. by rewrite Hseq.
    + by rewrite (Hother i Hi), app_nil_r.
  - intros i b Hb. unfold drift. rewrite Hbd, Hbins. destruct (decide (i = binID)) as [->|Hi].
    + rewrite lookup_insert_eq, Hrow, length_app. eexists. split; [done|]. cbn [b_epoch set_bin_epoch length].
      assert (b = b0) by congruence. subst. lia.
    + rewrite lookup_insert_ne by done. exists b. rewrite (Hother i Hi), app_nil_r.
      split_and!; [done..|lia].
Qed.

Lemma update_bin_same binID p uop f d n d' :
  (forall b, b_epoch (f b) = b_epoch b) ->
  update_bin binID p uop f d = Some (n, d') -> same_generation d d'.
Proof.
  intros Hf [_ [(b & Hb & _ & _ & ->)|(_ & -> & _)]]%update_bin_ok; [|reflexivity].
  split; [done|]. intros i. cbn. destruct (decide (i = binID)) as [->|Hi].
  - rewrite lookup_insert_eq, Hb. cbn. by rewrite Hf.
  - by rewrite lookup_insert_ne.
Qed.

Lemma alter_bin_same binID f d :
  (forall b, b_epoch (f b) = b_epoch b) -> same_generation d (set_bins (alter f binID) d).
Proof.
  intros Hf. split; [done|]. intros i. cbn. destruct (decide (i = binID)) as [->|Hi].
  - rewrite lookup_alter_eq. destruct (bins d !! binID); cbn; by rewrite ?Hf.
  - by rewrite lookup_alter_ne.
Qed.

Lemma ledger_same f d : same_generation d (set_ledger f d).
Proof. done. Qed.
Lemma resv_same f d : same_generation d (set_reservations f d).
Proof. done. Qed.
#[export] Hint Resolve ledger_same resv_same : shingo.

Lemma acquire_same o ref by_ : evolves same_generation (acquire o ref by_).
Proof.
  unfold acquire, insert_on_conflict_nothing. evolve.
  intros d n d'. repeat case_match; intros [=]; by simplify_eq.
Qed.

Lemma release_same o ref : evolves same_generation (release o ref).
Proof. unfold release. evolve. done. Qed.

Lemma context_same binID detail : evolves same_generation (resolveBinUOPContext binID detail).
Proof. unfold resolveBinUOPContext. evolve. Qed.

(** A ledger row whose op is not a reset opens no boundary. *)
Lemma AppendBinUOP_same binID before after op source o payload actor ctx :
  contains EpochBumpOps op = false ->
  evolves same_generation (AppendBinUOP binID before after op source o payload actor ctx).
Proof.
  intros Hop. unfold AppendBinUOP. rewrite Hop. evolve; intros d a d' [=]; by simplify_eq.
Qed.

Lemma AppendBinUOPOverride_same binID s n op source o part actor meta :
  evolves same_generation (AppendBinUOPOverride binID s n op source o part actor meta).
Proof.
  unfold AppendBinUOPOverride. evolve; intros d a d' [=]; by simplify_eq.
Qed.

Lemma override_same binID o p actor : evolves same_generation (AuditReleaseOverride binID o p actor).
Proof.
  assert (Hl : forall q a parts, evolves same_generation (append_overrides binID o q a parts)).
  { intros q a parts. induction parts as [|part rest IH]; cbn [append_overrides];
      [apply evolves_ret; typeclasses eauto|]. case_match; [done|].
    apply evolves_bind; [typeclasses eauto|apply AppendBinUOPOverride_same|done]. }
  unfold AuditReleaseOverride. destruct p as [p|]; [|apply evolves_ret; typeclasses eauto].
  repeat case_match; first [apply evolves_ret; typeclasses eauto|apply AppendBinUOPOverride_same|apply Hl].
Qed.

Lemma confirm_tx_same binID t : evolves same_generation (confirmTx binID t).
Proof.
  unfold confirmTx, readBinUOPInTx, ConfirmManifestTx.
  apply evolves_bind; [typeclasses eauto|evolve|intros before].
  apply evolves_bind; [typeclasses eauto| |intros [[at_ uop] payload]].
  - evolve. intros d. destruct (bins d !! binID) as [b|] eqn:Hb; [|done]. split; [done|].
    intros i. cbn. destruct (decide (i = binID)) as [->|Hi]; [by rewrite lookup_insert_eq, Hb|].
    by rewrite lookup_insert_ne.
  - apply evolves_bind; [typeclasses eauto|apply context_same|intros ctx].
    by apply AppendBinUOP_same.
Qed.

Lemma claim_update_same o binID uop f :
  (forall b, b_epoch (f b) = b_epoch b) -> evolves same_generation (claim_update o binID uop f).
Proof.
  intros Hf. unfold claim_update. evolve. intros d n d' H. eapply update_bin_same; [|exact H]. done.
Qed.

Lemma reset_row_epoch op b : b_epoch (reset_row op b) = b_epoch b.
Proof. destruct op; cbn; try done; unfold released_update; by case_match. Qed.

Lemma same_lockstep {A} (m : CoreSQL A) : evolves same_generation m -> evolves lockstep m.
Proof. intros H c. apply same_generation_lockstep, H. Qed.

Lemma reset_lockstep topic binID op :
  is_reset op = true -> evolves lockstep (run_reset topic binID op).
Proof.
  intros Hr c. destruct (run_reset topic binID op c) as [[[]|e] c'] eqn:E; cbn.
  - apply run_reset_ok in E; [|done]. eapply new_generation_lockstep; [|exact E].
    apply reset_row_epoch.
  - apply run_reset_err in E. rewrite E. reflexivity.
Qed.

Lemma claim_lockstep topic binID o n : evolves lockstep (ConfirmClaim topic binID o n).
Proof.
  destruct n as [n|]; [destruct (n <=? 0)%Z eqn:Hn|].
  - by apply (reset_lockstep topic binID (RConfirmClaim o n)).
  - unfold ConfirmClaim, claimAndConfirm, claimUnderReservationTx. rewrite Hn.
    apply same_lockstep, evolves_tx; [typeclasses eauto|].
    apply evolves_bind; [typeclasses eauto| |intros []].
    + unfold syncUOPAndClaimTx, readBinUOPInTx.
      apply evolves_bind; [typeclasses eauto|evolve|intros before].
      apply evolves_bind; [typeclasses eauto|by apply claim_update_same|intros []].
      apply evolves_bind; [typeclasses eauto|apply context_same|intros ctx].
      by apply AppendBinUOP_same.
    + unfold Confirm, confirm. by evolve.
  - apply same_lockstep, evolves_tx; [typeclasses eauto|].
    apply evolves_bind; [typeclasses eauto|by apply claim_update_same|intros []].
    unfold Confirm, confirm. by evolve.
Qed.

Lemma claim_for_dispatch_lockstep topic binID o n :
  evolves lockstep (ClaimForDispatch topic binID o n).
Proof.
  unfold ClaimForDispatch. apply evolves_bind; [typeclasses eauto| |intros []].
  { apply same_lockstep, acquire_same. }
  intros c. pose proof (claim_lockstep topic binID o n c) as H. unfold ConfirmClaim in H.
  destruct (claimAndConfirm topic binID o n c) as [[[]|e] c1]; cbn in *; [done|].
  etransitivity; [exact H|]. apply same_lockstep, evolves_log, release_same.
Qed.

Lemma record_produced_lockstep topic binID mf payload uop t :
  evolves lockstep (RecordProducedBin topic binID mf payload uop t).
Proof.
  intros c. destruct (RecordProducedBin topic binID mf payload uop t c) as [[[]|e] c'] eqn:E; cbn;
    [|apply tx_err in E; rewrite E; reflexivity].
  apply tx_ok in E as (k & c0 & c1 & Hd0 & Hb & Hk).
  apply sbind_ok in Hb as (ep & c2 & [Hg _]%set_for_production_ok & Hb).
  apply sbind_ok in Hb as ([] & c3 & H3 & [= <- <-]). rewrite Hk, <- Hd0.
  etransitivity; [by eapply (new_generation_lockstep topic binID); [|exact Hg]|].
  pose proof (confirm_tx_same binID t c2) as H. rewrite H3 in H. by apply same_generation_lockstep.
Qed.

Lemma manifest_lockstep topic binID op : evolves lockstep (run_manifest topic binID op).
Proof.
  destruct op as [[]| | | | | | | |]; cbn [run_manifest];
    try (by apply reset_lockstep); try apply claim_lockstep.
  - apply same_lockstep, evolves_tx; [typeclasses eauto|].
    apply evolves_bind; [typeclasses eauto|apply confirm_tx_same|intros []]. evolve.
  - apply same_lockstep. unfold Unconfirm. evolve. intros d. by apply alter_bin_same.
  - apply record_produced_lockstep.
  - apply same_lockstep, acquire_same.
  - apply claim_for_dispatch_lockstep.
  - apply same_lockstep. unfold ConfirmHeldReservation, Confirm, confirm. by evolve.
  - apply same_lockstep, override_same.
Qed.

(** Generations never drift from their boundary rows.  Over any sequence of
    the manifest service's writes, on any bins, with driver faults anywhere,
    each bin's delta generation minus its number of boundary rows is what it
    was at the start, the boundary rows stay numbered 1, 2, 3, ... and the
    generation never decreases. *)
Theorem generations_in_lockstep (topic : string) (ops : list (Z * ManifestOp)) (c : Conn CoreDB) :
  lockstep (db c) (db (run_manifests topic ops c)).
Proof.
  revert c. induction ops as [|[binID op] rest IH]; intros c; cbn [run_manifests]; [reflexivity|].
  etransitivity; [apply manifest_lockstep|apply IH].
Qed.

(** ** Claiming *)

Lemma AppendBinUOP_tables binID before after op source o payload actor ctx c c' :
  AppendBinUOP binID before after op source o payload actor ctx c = (Ok (), c') ->
  bins (db c') = bins (db c) /\ reservations (db c') = reservations (db c).
Proof.
  unfold AppendBinUOP. intros H.
  apply sbind_ok in H as ([] & c1 & H1%stmt_checked_ok & H).
  destruct (int4 after); [|done]. injection H1 as H1.
  destruct (contains EpochBumpOps op).
  - unfold NextBinUOPEpochSeq, AppendBinUOPException in H.
    apply sbind_ok in H as (seq & c2 & H2 & H3%exec_ok).
    apply sbind_ok in H2 as (n & c3 & [-> Hd]%query_ok & [= _ <-]). by rewrite H3, Hd, <- H1.
  - injection H as <-. by rewrite <- H1.
Qed.

(** What a successful claim found and left: the row free for the order, the
    claim written, the reservations untouched. *)
Record claimed_row (binID orderID : Z) (uop : option Z) (d d' : CoreDB) : Prop := {
  cr_before : exists b, bins d !! binID = Some b /\ claimable d orderID binID b = true /\
    exists b', bins d' !! binID = Some b' /\ b_claimed_by b' = Some orderID /\
      b_uop b' = match uop with Some n => Z.max 0 n | None => b_uop b end;
  cr_resv : reservations d' = reservations d
}.

Lemma claim_under_reservation_ok topic binID orderID n c c' :
  claimUnderReservationTx topic binID orderID n c = (Ok (), c') ->
  claimed_row binID orderID n (db c) (db c').
Proof.
  unfold claimUnderReservationTx. destruct n as [n|]; [destruct (Z.leb_spec n 0) as [Hn|Hn]|].
  - intros ([(b & Hb & Hbins & _) _ _] & Hr & b0 & Hb0 & Hcl)%clear_and_claim_ok.
    constructor; [|done]. exists b0. split_and!; [done..|]. rewrite Hbins, lookup_insert_eq.
    eexists. split_and!; [done|done|]. cbn. lia.
  - unfold syncUOPAndClaimTx, readBinUOPInTx. intros H.
    apply sbind_ok in H as (before & c1 & [-> Hd1]%query_ok & H).
    apply sbind_ok in H as ([] & c2 & (b & Hb & Hcl & Hd2)%claim_update_ok & H).
    apply sbind_ok in H as (ctx & c3 & H3%context_ok & [Hb4 Hr4]%AppendBinUOP_tables).
    rewrite Hd1 in *. constructor; [|by rewrite Hr4, H3, Hd2].
    exists b. split_and!; [done..|]. rewrite Hb4, H3, Hd2. cbn. rewrite lookup_insert_eq.
    eexists. split_and!; [done|done|]. cbn. lia.
  - intros (b & Hb & Hcl & Hd)%claim_update_ok. constructor; [|by rewrite Hd].
    exists b. split_and!; [done..|]. rewrite Hd. cbn. rewrite lookup_insert_eq. by eexists.
Qed.

(** The one row of a bin that has a pending row, before and after Confirm. *)
Lemma pending_holder orderID binID d :
  resv_wf d -> existsb (pending_on orderID binID) (reservations d) = true ->
  exists r, holders (BinRef binID) d = [r] /\ r_order r = orderID /\ r_state r = StatePending.
Proof.
  intros Hwf (r & Hr & Hp)%existsb_exists. apply list_elem_of_In in Hr.
  unfold pending_on in Hp. apply andb_true_iff in Hp as [Hp Hst%bool_decide_eq_true].
  apply andb_true_iff in Hp as [Ho%Z.eqb_eq Hb%claimed_is_true].
  assert (Hk : r_kind r = KindBin).
  { pose proof (wf_target _ Hwf r Hr) as Ht. unfold kind_target_ok in Ht. rewrite Hb in Ht.
    destruct (r_kind r); [done|..]; by apply andb_true_iff in Ht as [_ Ht%bool_decide_eq_true]. }
  pose proof (holders_at_most_one (BinRef binID) d eq_refl Hwf) as Hl.
  assert (Hin : r ∈ holders (BinRef binID) d).
  { apply elem_of_lfilter. split; [done|]. unfold on_ref. rewrite Hk, Hb. cbn. apply Z.eqb_refl. }
  exists r. destruct (holders (BinRef binID) d) as [|x [|y l]]; [set_solver| |cbn in Hl; lia].
  apply list_elem_of_singleton in Hin as ->. done.
Qed.

Lemma holders_confirm o ref d :
  holders ref (set_reservations (map (fun r =>
    if matches o ref r && bool_decide (r_state r = StatePending) then set_confirmed r else r)) d) =
  map (fun r => if (r_order r =i o) && bool_decide (r_state r = StatePending)
                then set_confirmed r else r) (holders ref d).
Proof.
  unfold holders. cbn. induction (reservations d) as [|r l IH]; [done|]. cbn [map List.filter].
  rewrite matches_on_ref. destruct (on_ref ref r) eqn:E.
  - rewrite andb_true_r. cbn [map].
    assert (on_ref ref (if (r_order r =i o) && bool_decide (r_state r = StatePending)
      then set_confirmed r else r) = true) as -> by (by case_match).
    by rewrite IH.
  - rewrite andb_false_r. cbn [andb]. by rewrite E, IH.
Qed.

Lemma claim_and_confirm_ok topic binID orderID n c c' :
  claimAndConfirm topic binID orderID n c = (Ok (), c') ->
  exists d1, claimed_row binID orderID n (db c) d1 /\
    db c' = set_reservations (map (fun r =>
      if matches orderID (BinRef binID) r && bool_decide (r_state r = StatePending)
      then set_confirmed r else r)) d1.
Proof.
  unfold claimAndConfirm. intros (k & c0 & c1 & Hd0 & Hb & Hk)%tx_ok.
  apply sbind_ok in Hb as ([] & c2 & Hc%claim_under_reservation_ok & Hb).
  apply sbind_ok in Hb as ([] & c3 & H3%exec_ok & [= <- <-]). rewrite Hd0 in Hc.
  exists (db c2). split; [done|]. by rewrite Hk, H3.
Qed.

(** C8. A bin is claimed only from under its reservation, and claim and
    confirmation land together.  When claiming succeeds the bin was unlocked,
    free or already the order's, and the order's pending reservation was the
    bin's only row; afterwards the bin is claimed by the order, carries the
    reported count (never a negative one) and its only reservation is that row,
    confirmed.  When it fails for any reason - no reservation, a lock, another
    order's claim, a driver fault at any call, the commit - no table changed. *)
Theorem claim_requires_reservation (topic : string) (binID orderID : Z) (n : option Z)
    (c c' : Conn CoreDB) (r : outcome error unit) :
  resv_wf (db c) -> ConfirmClaim topic binID orderID n c = (r, c') ->
  match r with
  | Err _ => db c' = db c
  | Ok _ => exists b b' row,
      bins (db c) !! binID = Some b /\ b_locked b = false /\
      (b_claimed_by b = None \/ b_claimed_by b = Some orderID) /\
      holders (BinRef binID) (db c) = [row] /\ r_order row = orderID /\
      r_state row = StatePending /\
      bins (db c') !! binID = Some b' /\ b_claimed_by b' = Some orderID /\
      b_uop b' = match n with Some k => Z.max 0 k | None => b_uop b end /\
      holders (BinRef binID) (db c') = [set_confirmed row]
  end.
Proof.
  intros Hwf H. destruct r as [[]|e]; [|by apply tx_err in H].
  apply claim_and_confirm_ok in H as (d1 & [(b & Hb & Hcl & b' & Hb' & Hc' & Hu) Hr] & Hd).
  unfold claimable in Hcl. apply andb_true_iff in Hcl as [Hcl Hp].
  apply andb_true_iff in Hcl as [Hl%negb_true_iff Hfree].
  destruct (pending_holder orderID binID (db c) Hwf Hp) as (row & Hrow & Ho & Hst).
  exists b, b', row. rewrite Hd, holders_confirm.
  assert (Hh : holders (BinRef binID) d1 = [row]) by (unfold holders in *; by rewrite Hr).
  rewrite Hh. cbn [map]. rewrite Ho, Hst, Z.eqb_refl. cbn [andb].
  rewrite bool_decide_eq_true_2 by done. split_and!; try done.
  apply orb_true_iff in Hfree as [Hn%bool_decide_eq_true|Hn%claimed_is_true]; auto.
Qed.

Lemma claim_requires_reservation_witness :
  let c := (ReserveForDispatch 10 1 (mkConn demo_db [])).2 in
  (exists row, holders (BinRef 10) (db (ConfirmClaim "t" 10 1 (Some 7%Z) c).2) = [set_confirmed row]) /\
  db (ConfirmClaim "t" 10 1 None (mkConn demo_db [])).2 = demo_db.
Proof.
  intros c. split.
  - destruct (claim_requires_reservation "t" 10 1 (Some 7%Z) c
      (ConfirmClaim "t" 10 1 (Some 7%Z) c).2 (Ok ())) as (b & b' & row & H).
    + apply acquire_wf, demo_wf.
    + vm_compute. reflexivity.
    + exists row. apply H.
  - apply (claim_requires_reservation "t" 10 1 None (mkConn demo_db [])
      (ConfirmClaim "t" 10 1 None (mkConn demo_db [])).2 (Err EClaimRefused)).
    + apply demo_wf.
    + vm_compute. reflexivity.
Defined.

(** Taking back a row just placed restores the table. *)
Lemma release_undoes_acquire o ref by_ d :
  indexed ref = true -> resv_wf d -> holders ref d = [] ->
  delete_where (matches o ref) (set_reservations (fun l => l ++ [pending_row o ref by_]) d) = d.
Proof.
  intros Hi Hwf Hh. unfold delete_where, set_reservations. cbn. destruct d as [? ? ? ? ? l]. cbn in *.
  f_equal. rewrite List.filter_app. cbn [List.filter].
  rewrite matches_on_ref, pending_on_ref.
  assert (r_order (pending_row o ref by_) = o) as -> by done. rewrite Z.eqb_refl. cbn [andb negb].
  rewrite app_nil_r. apply List.forallb_filter_id, List.forallb_forall. intros r Hr%list_elem_of_In.
  rewrite matches_on_ref. destruct (on_ref ref r) eqn:E; [|by rewrite andb_false_r].
  assert (r ∈ List.filter (on_ref ref) l) as Hin by (by apply elem_of_lfilter).
  unfold holders in Hh. cbn in Hh. rewrite Hh in Hin. set_solver.
Qed.

(** The fused claim leaves no trace when it fails.  ClaimForDispatch on a
    bin someone already holds fails and changes nothing; on success the bin had
    no reservation and now has exactly the order's confirmed one and its claim;
    on failure after reserving, the reservation is taken back and the tables
    are as before - unless that very release failed at the driver, in which
    case the one row left behind is the order's own pending reservation. *)
Theorem claim_for_dispatch_atomic (topic : string) (binID orderID : Z) (n : option Z)
    (c c' : Conn CoreDB) (r : outcome error unit) :
  resv_wf (db c) -> ClaimForDispatch topic binID orderID n c = (r, c') ->
  let row := pending_row orderID (BinRef binID) "ClaimForDispatch" in
  match r with
  | Ok _ => holders (BinRef binID) (db c) = [] /\
      holders (BinRef binID) (db c') = [set_confirmed row] /\
      exists b, bins (db c') !! binID = Some b /\ b_claimed_by b = Some orderID
  | Err _ => db c' = db c \/
      (holders (BinRef binID) (db c) = [] /\
       db c' = set_reservations (fun l => l ++ [row]) (db c) /\
       exists c1 e, Release orderID binID c1 = (Err e, c'))
  end.
Proof.
  intros Hwf H row. unfold ClaimForDispatch, sbind in H.
  destruct (Acquire orderID binID "ClaimForDispatch" c) as [[[]|e] c0] eqn:Ha.
  2: { injection H as <- <-. left. apply sbind_err in Ha as [Ha|(k & c1 & Ha & Hk)].
       - by apply stmt_checked_err in Ha as [-> _].
       - apply stmt_checked_ok in Ha. unfold insert_on_conflict_nothing in Ha.
         destruct (existsb _ _); [injection Ha as <- ->|destruct (fk_ok _ _); [|done]];
           [by injection Hk as _ <-|]. by injection Ha as <- _. }
  apply acquire_ok in Ha as [He Hd0]. fold row in Hd0.
  apply conflict_iff_held in He; [|done..].
  assert (Hh0 : holders (BinRef binID) (db c0) = [row]) by
    (rewrite Hd0; unfold row; by rewrite holders_snoc, He).
  destruct (claimAndConfirm topic binID orderID n c0) as [[[]|e] c1] eqn:Hc; injection H as <- <-.
  - apply claim_and_confirm_ok in Hc as (d1 & [(b & Hb & _ & b' & Hb' & Hcl & _) Hr] & Hd).
    split_and!; [done| |exists b'; by rewrite Hd].
    rewrite Hd, holders_confirm. assert (holders (BinRef binID) d1 = [row]) as ->.
    { unfold holders in *. by rewrite Hr. }
    cbn [map]. assert (r_order row = orderID) as -> by done. by rewrite Z.eqb_refl.
  - apply tx_err in Hc. unfold slog. destruct (Release orderID binID c1) as [[[]|e'] c2] eqn:Hr; cbn.
    + left. apply exec_ok in Hr. rewrite Hr, Hc, Hd0. by apply release_undoes_acquire.
    + right. split; [done|]. split; [|by exists c1, e'].
      unfold Release, release, exec in Hr. apply stmt_err in Hr as [Hr _]. congruence.
Qed.

(** ** Release *)

(** What a release leaves of the load: nothing, or the remaining count of the
    bin's payload.  Position, lock, claim and type are not its business. *)
Definition released_load (n : Z) (b b' : Bin) : Prop :=
  b_node b' = b_node b /\ b_locked b' = b_locked b /\ b_claimed_by b' = b_claimed_by b /\
  b_type b' = b_type b /\ b_uop b' = n /\
  (n = 0%Z -> b_payload b' = "" /\ b_manifest b' = None /\ b_confirmed b' = false /\
     b_loaded_at b' = None) /\
  ((0 < n)%Z -> b_payload b' = b_payload b /\
     (b_payload b <> "" -> b_manifest b' = Some [(b_payload b, n)])).

Lemma released_update_load n b e : released_load n b (set_bin_epoch e (released_update n b)).
Proof.
  unfold released_load, released_update, partial_manifest, cleared.
  destruct (Z.eqb_spec n 0) as [->|Hn]; cbn; split_and!; try done; try lia.
  intros Hpos. split; [done|]. intros Hp. by rewrite (seqb_neq _ _ Hp).
Qed.

(** The operator's release count is what the bin carries.  A negative count
    is refused before any statement runs; no count is a no-op; otherwise a
    successful release of bin by order found the bin unlocked and claimed by
    that order, leaves it claimed, in place, with exactly the given count and -
    when something remains - a manifest of that many of its payload, and moves
    on to the next generation; a count that does not fit the column, or any
    other failure, leaves every table alone. *)
Theorem release_writes_count (topic : string) (binID orderID : Z) (n : option Z)
    (kind actor : string) (c c' : Conn CoreDB) (r : outcome error unit) :
  SyncOrClearForReleased topic binID orderID n kind actor c = (r, c') ->
  match n with
  | None => r = Ok () /\ c' = c
  | Some k =>
      ((k < 0)%Z -> r = Err ENegativeUOP /\ c' = c) /\
      match r with
      | Err _ => db c' = db c
      | Ok _ => (0 <= k <= 2147483647)%Z /\
          exists b b', bins (db c) !! binID = Some b /\ b_locked b = false /\
            b_claimed_by b = Some orderID /\
            bins (db c') = <[binID := b']> (bins (db c)) /\
            released_load k b b' /\ b_epoch b' = (b_epoch b + 1)%Z
      end
  end.
Proof.
  destruct n as [k|]; [|by intros [= <- <-]]. intros H. split.
  { intros Hk. unfold SyncOrClearForReleased, syncOrClearForReleased in H.
    rewrite (proj2 (Z.ltb_lt _ _) Hk) in H. by injection H as <- <-. }
  destruct r as [[]|e]; [|by apply (run_reset_err topic binID (RReleased orderID k kind actor)) in H].
  apply released_ok in H as (Hk & (b & Hb & Hrel) & [(b0 & Hb0 & Hbins & _) _ Hi]).
  assert (b0 = b) as -> by congruence. unfold int4, releasable in *. breflect. cbn [orb] in *.
  match goal with H : claimed_is _ _ = true |- _ => apply claimed_is_true in H end.
  split; [lia|]. exists b, (set_bin_epoch (b_epoch b + 1) (released_update k b)).
  do 4 (split; [done|]). split; [apply released_update_load|done].
Qed.

(** Releasing twice is releasing once, generation aside.  A second
    successful run with the same arguments leaves the bin's load, claim and
    position as the first left them; what it does add is another generation
    (and with it another ledger and boundary row). *)
Theorem release_rerun_same_load (topic : string) (binID orderID k : Z) (kind actor : string)
    (c c1 c2 : Conn CoreDB) :
  SyncOrClearForReleased topic binID orderID (Some k) kind actor c = (Ok (), c1) ->
  SyncOrClearForReleased topic binID orderID (Some k) kind actor c1 = (Ok (), c2) ->
  exists b1, bins (db c1) !! binID = Some b1 /\
    bins (db c2) !! binID = Some (set_bin_epoch (b_epoch b1 + 1) b1) /\
    length (ledger (db c2)) = S (length (ledger (db c1))) /\
    length (boundaries binID (db c2)) = S (length (boundaries binID (db c1))).
Proof.
  intros (_ & _ & [(b & Hb & Hbins & _) _ _])%released_ok.
  intros (_ & _ & [(b1 & Hb1 & Hbins1 & (lr & Hl & _) & _) (er & Hex & Her & _) _])%released_ok.
  exists b1. split; [done|]. rewrite Hl, (boundaries_snoc _ _ _ _ Hex), Her, !length_app. cbn [length].
  split_and!; [|lia|lia]. rewrite Hbins1, lookup_insert_eq. f_equal.
  rewrite Hbins, lookup_insert_eq in Hb1. injection Hb1 as <-.
  unfold released_update, partial_manifest, cleared.
  destruct (k =? 0)%Z; destruct b as [? ? ? ? pl mf]; cbn; [done|].
  by destruct (pl =s "").
Qed.

