(* ===== verification/UopApplier.v ===== *)
(** The Core side of consumption counting (shingo-core/uop/applier.go with
    audit.RecoverBinUOPOpenCrossing and bins.MarkAnomaly): a delta an Edge
    reports is validated, dropped when its generation has ended, applied at
    most once per sequence number and recorded; lineside buckets likewise.

    [announce] is the topic of the service's own replies, [binManifest] the
    manifest clearer it was constructed with ([None] is the nil of older
    compositions), given by that service's announcement topic. *)

From stdpp Require Import pretty.
From S2P Require Import Prelude Status Sql CoreDb Reservations OrderStore BinManifest.

(** ** Messages (protocol.BinUOPDelta, protocol.LinesideBucketDelta) *)

Record BinUOPDelta := mkDelta {
  dl_bin : Z;
  dl_payload : string;
  dl_delta : Z;
  dl_reason : string;
  dl_seq : Z;
  dl_epoch : Z
}.

Record LinesideBucketDelta := mkBucketDelta {
  bd_node : string;
  bd_pair : string;
  bd_style : Z;
  bd_part : string;
  bd_payload : string;
  bd_delta : Z;
  bd_seq : Z
}.

Definition ReasonProduceTick : string := "produce_tick".
Definition ReasonCaptureReduction : string := "capture_reduction".
Definition invDeltaScopeBin : string := "bin".
Definition invDeltaScopeBucket : string := "bucket".

Definition OpStaleEpochDropped : string := "stale_epoch_dropped".
Definition OpPayloadMismatchDropped : string := "payload_mismatch_dropped".
Definition OpPayloadBoundFirstDelta : string := "payload_bound_first_delta".
Definition OpPayloadReboundWithInventory : string := "payload_rebound_with_inventory".
Definition OpBinUOPDelta : string := "bin_uop_delta".
Definition ExcNegativeCrossing : string := "negative_crossing".
Definition ExcStaleEpoch : string := "stale_epoch".
Definition ExcPayloadMismatch : string := "payload_mismatch".

(** ** The exceptions ledger *)

(** MIN over an optional column: NULL for no row. *)
Definition min_opt (l : list Z) : option Z :=
  match l with [] => None | x :: r => Some (foldr Z.min x r) end.

Definition open_crossing (binID : Z) (e : Exc) : bool :=
  (ex_bin e =i binID) && (ex_kind e =s ExcNegativeCrossing) && bool_decide (ex_recovered e = None).

Definition deepest_since (d : CoreDB) (e : Exc) (now : Z) : option Z :=
  min_opt (map lg_after (List.filter (fun r =>
    (lg_bin r =i ex_bin e) && (ex_at e <=? lg_at r)%Z && (lg_at r <=? now)%Z) (ledger d))).

Definition recover_row (d : CoreDB) (now : Z) (e : Exc) : Exc :=
  mkExc (ex_kind e) (ex_bin e) (ex_payload e) (ex_actor e) (ex_seq e) (ex_before e) (ex_after e)
    (ex_op e) (ex_detail e) (ex_at e) (coalesce (deepest_since d e now) (ex_after e)) (Some now).

Definition RecoverBinUOPOpenCrossing (binID : Z) : CoreSQL unit :=
  exec (fun d => set_exceptions (map (fun e =>
    if open_crossing binID e then recover_row d (clock_now d) e else e)) d).

Definition MarkAnomaly (binID : Z) : CoreSQL unit :=
  exec (fun d => set_bins (alter (set_bin_anomaly (Some (clock_now d))) binID) d).

(** ** Deduplication *)

Definition claimDeltaSequence (station scopeKind scopeKey : string) (epoch seq : Z) : CoreSQL bool :=
  n <-- stmt (fun d =>
    match dedup d !! (station, scopeKind, scopeKey, epoch) with
    | None => (1, set_dedup <[(station, scopeKind, scopeKey, epoch) := seq]> d)
    | Some last =>
        if (last <? seq)%Z
        then (1, set_dedup <[(station, scopeKind, scopeKey, epoch) := seq]> d) else (0, d)
    end) ;;
  sret (0 <? n)%nat.

Definition bucketScopeKey (coreNodeName pairKey : string) (styleID : Z) (partNumber : string)
    : string :=
  coreNodeName +:+ "|" +:+ pairKey +:+ "|" +:+ pretty styleID +:+ "|" +:+ partNumber.

(** ** The service *)

Record InventoryDeltaService := mkIDS {
  iv_conn : Conn CoreDB;
  iv_repaired : gmap Z Z;              (** bin -> generation last replied with *)
  droppedStaleEpoch : Z;
  droppedPayloadMismatch : Z
}.

(** The map reads 0 for a missing bin. *)
Definition alreadyRepaired (repaired : gmap Z Z) (binID epoch : Z) : bool :=
  default 0%Z (repaired !! binID) =i epoch.

Definition markRepaired (binID epoch : Z) (repaired : gmap Z Z) : gmap Z Z :=
  <[binID := epoch]> repaired.

(** What the transaction of one delta came to. *)
Inductive Verdict :=
| VDropped (replied : bool) (epoch : Z)
| VMismatch (have : string) (valueBefore : Z) (anomalyFlagged : bool)
| VApplied.

Definition flag_anomaly (binID : Z) (d : CoreDB) : CoreDB :=
  set_bins (alter (fun b =>
    set_bin_anomaly (coalesce (b_anomaly_at b) (Some (db_now d))) b) binID) d.

Section Service.
Variables (announce : string) (binManifest : option string).

Definition repairEpoch (repaired : gmap Z Z) (binID currentEpoch : Z) : CoreSQL bool :=
  if negb (Wired announce) then sret false
  else if alreadyRepaired repaired binID currentEpoch then sret false
  else
    r <-- query (fun d => (fun b => node_name d (b_node b)) <$> bins d !! binID) ;;
    match r with
    | None => sfail ENoRows
    | Some nodeName =>
        if nodeName =s "" then sret false
        else
          exec (set_outbox (fun l => l ++ [mkOutMsg announce "inventory.bin_epoch_refresh" binID
            nodeName None currentEpoch ""])) ;;;
          sret true
    end.

(** A count stamped with a generation that has ended. *)
Definition drop_stale (repaired : gmap Z Z) (station : string) (m : BinUOPDelta) (currentEpoch : Z)
    : CoreSQL (Verdict * bool) :=
  r <-- query (fun d => b_uop <$> bins d !! dl_bin m) ;;
  match r with
  | None => sfail ENoRows
  | Some before =>
      let metadata := StaleDetail (dl_epoch m) currentEpoch (dl_seq m) (dl_delta m) in
      AppendBinUOPOverride (dl_bin m) before before OpStaleEpochDropped
        "service/inventory_delta_service.go:staleEpoch" None (dl_payload m) station metadata ;;;
      AppendBinUOPException ExcStaleEpoch (dl_bin m) (dl_payload m) station None (Some before)
        (Some before) None None OpStaleEpochDropped (Some metadata) ;;;
      exec (flag_anomaly (dl_bin m)) ;;;
      replied <-- repairEpoch repaired (dl_bin m) currentEpoch ;;
      commit (VDropped replied currentEpoch)
  end.

(** A produce tick names what the press is filling the bin with: the label
    follows it.  Returns the payload code the count is checked against. *)
Definition bind_payload (station : string) (m : BinUOPDelta) (have : string) (valueBefore : Z)
    : CoreSQL string :=
  if (dl_reason m =s ReasonProduceTick) && (dl_payload m <>s "") && (have <>s dl_payload m) then
    (if valueBefore =i 0 then
       exec (set_bins (alter (fun b => set_bin_load (dl_payload m) (b_manifest b) (b_uop b)
         (b_confirmed b) (b_loaded_at b) b) (dl_bin m))) ;;;
       AppendBinUOPOverride (dl_bin m) valueBefore valueBefore OpPayloadBoundFirstDelta
         "service/inventory_delta_service.go:firstDeltaBind" None (dl_payload m) station
         (BoundDetail have (dl_seq m))
     else
       exec (fun d => flag_anomaly (dl_bin m) (set_bins (alter (fun b => set_bin_load (dl_payload m)
         (b_manifest b) (b_uop b) (b_confirmed b) (b_loaded_at b) b) (dl_bin m)) d)) ;;;
       AppendBinUOPOverride (dl_bin m) valueBefore valueBefore OpPayloadReboundWithInventory
         "service/inventory_delta_service.go:reboundWithInventory" None (dl_payload m) station
         (ReboundDetail have valueBefore (dl_seq m) (dl_delta m))) ;;;
    sret (dl_payload m)
  else sret have.

(** UPDATE bins SET uop_remaining = uop_remaining + $1 on a 32-bit column. *)
Definition add_uop (binID delta : Z) (d : CoreDB) : option (unit * CoreDB) :=
  match bins d !! binID with
  | None => if int4 delta then Some ((), d) else None
  | Some b =>
      if int4 delta && int4 (b_uop b + delta)
      then Some ((), set_bins <[binID := set_bin_load (b_payload b) (b_manifest b) (b_uop b + delta)
             (b_confirmed b) (b_loaded_at b) b]> d)
      else None
  end.

(** INSERT INTO bin_uop_ledger of an applied delta. *)
Definition append_delta (station : string) (m : BinUOPDelta) (before after : Z) (metadata : Detail)
    : CoreSQL unit :=
  stmt_checked (fun d =>
    if int4 before && int4 after then
      Some ((), set_ledger (fun l => l ++ [mkLedger (dl_bin m) (Some before) after OpBinUOPDelta
        "service/inventory_delta_service.go" None (dl_payload m) station None None (Some metadata)
        (db_now d)]) d)
    else None).

Definition note_crossing (station : string) (m : BinUOPDelta) (valueBefore newValue : Z)
    (metadata : Detail) : CoreSQL unit :=
  if (0 <=? valueBefore)%Z && (newValue <? 0)%Z then
    AppendBinUOPException ExcNegativeCrossing (dl_bin m) (dl_payload m) station None
      (Some valueBefore) (Some newValue) None None OpBinUOPDelta (Some metadata)
  else if (valueBefore <? 0)%Z && (0 <=? newValue)%Z then RecoverBinUOPOpenCrossing (dl_bin m)
  else sret ().

(** A capture that empties the bin returns it to the empty pool. *)
Definition clear_captured (m : BinUOPDelta) (newValue : Z) : CoreSQL unit :=
  match binManifest with
  | Some topic =>
      if (dl_reason m =s ReasonCaptureReduction) && (newValue <=? 0)%Z then
        ClearForReuseTx topic (dl_bin m) None OpReleasedCaptureEmpty
          "service/inventory_delta_service.go:ApplyBinUOPDelta" ;;;
        sret ()
      else sret ()
  | None => sret ()
  end.

(** The count, its ledger row, the crossing and the clear, then commit. *)
Definition write_count (station : string) (m : BinUOPDelta) (valueBefore currentEpoch : Z)
    : CoreSQL (Verdict * bool) :=
  let newValue := (valueBefore + dl_delta m)%Z in
  let metadata := DeltaDetail (dl_reason m) (dl_delta m) (dl_seq m) (dl_epoch m) currentEpoch in
  stmt_checked (add_uop (dl_bin m) (dl_delta m)) ;;;
  append_delta station m valueBefore newValue metadata ;;;
  note_crossing station m valueBefore newValue metadata ;;;
  clear_captured m newValue ;;;
  commit VApplied.

Definition apply_fresh (station : string) (m : BinUOPDelta) (currentEpoch : Z)
    : CoreSQL (Verdict * bool) :=
  applied <-- claimDeltaSequence station invDeltaScopeBin (pretty (dl_bin m)) (dl_epoch m) (dl_seq m) ;;
  if negb applied then sfail EDeltaSkipped
  else
    r <-- query (fun d => bins d !! dl_bin m) ;;
    match r with
    | None => sfail (ENoSuchBin (dl_bin m))
    | Some b =>
        let valueBefore := b_uop b in
        have <-- bind_payload station m (b_payload b) valueBefore ;;
        if (dl_payload m <>s "") && (have <>s "") && (dl_payload m <>s have)
        then rollback (VMismatch have valueBefore (bool_decide (is_Some (b_anomaly_at b))))
        else write_count station m valueBefore currentEpoch
    end.

(** The transaction.  The generation guard runs only when the epoch could be
    read; a future epoch is only logged. *)
Definition delta_body (repaired : gmap Z Z) (station : string) (m : BinUOPDelta)
    : CoreSQL (Verdict * bool) :=
  r <-- slog (query (fun d => b_epoch <$> bins d !! dl_bin m)) ;;
  match r with
  | Some (Some currentEpoch) =>
      if (0 <? dl_epoch m)%Z && (dl_epoch m <? currentEpoch)%Z
      then drop_stale repaired station m currentEpoch
      else apply_fresh station m currentEpoch
  | _ => apply_fresh station m 0
  end.

Definition delta_tx (repaired : gmap Z Z) (station : string) (m : BinUOPDelta) : CoreSQL Verdict :=
  tx (delta_body repaired station m).

(** The observation of a payload mismatch: outside the rolled-back transaction,
    each write best-effort. *)
Definition recordRejectedDelta (station : string) (m : BinUOPDelta) (have : string)
    (valueBefore : Z) (anomalyFlagged : bool) : CoreSQL unit :=
  let metadata := MismatchDetail (dl_payload m) have (dl_seq m) (dl_delta m) in
  slog (AppendBinUOPOverride (dl_bin m) valueBefore valueBefore OpPayloadMismatchDropped
    "service/inventory_delta_service.go:payloadMismatch" None (dl_payload m) station metadata) ;;;
  slog (AppendBinUOPException ExcPayloadMismatch (dl_bin m) (dl_payload m) station None
    (Some valueBefore) (Some valueBefore) None None OpPayloadMismatchDropped (Some metadata)) ;;;
  (if anomalyFlagged then sret None else slog (MarkAnomaly (dl_bin m))) ;;;
  sret ().

(** A nil message, an empty station or a non-positive bin id is invalid. *)
Definition ApplyBinUOPDelta (station : string) (d : option BinUOPDelta) (s : InventoryDeltaService)
    : outcome error unit * InventoryDeltaService :=
  match d with
  | None => (Err EInvalidDelta, s)
  | Some m =>
      if (station =s "") || (dl_bin m <=? 0)%Z then (Err EInvalidDelta, s)
      else
        match delta_tx (iv_repaired s) station m (iv_conn s) with
        | (Err e, c) => (Err e, mkIDS c (iv_repaired s) (droppedStaleEpoch s) (droppedPayloadMismatch s))
        | (Ok (VDropped replied epoch), c) =>
            (Err EDeltaSkipped,
             mkIDS c (if replied then markRepaired (dl_bin m) epoch (iv_repaired s) else iv_repaired s)
               (droppedStaleEpoch s + 1) (droppedPayloadMismatch s))
        | (Ok (VMismatch have before flagged), c) =>
            (Err (EPayloadMismatch (dl_bin m)),
             mkIDS (recordRejectedDelta station m have before flagged c).2 (iv_repaired s)
               (droppedStaleEpoch s) (droppedPayloadMismatch s + 1))
        | (Ok VApplied, c) =>
            (Ok (), mkIDS c (iv_repaired s) (droppedStaleEpoch s) (droppedPayloadMismatch s))
        end
  end.

(** *** Lineside buckets *)

Definition bucket_key (m : LinesideBucketDelta) : BucketKey :=
  (bd_node m, bd_pair m, bd_style m, bd_part m).

(** INSERT ... ON CONFLICT DO UPDATE under CHECK (qty >= 0). *)
Definition upsert_bucket (station : string) (m : LinesideBucketDelta) (d : CoreDB)
    : option (nat * CoreDB) :=
  let key := bucket_key m in
  if int4 (bd_delta m) then
    match buckets d !! key with
    | None => Some (1, set_buckets <[key := mkBucket station (Z.max (bd_delta m) 0) (bd_payload m)]> d)
    | Some bk =>
        let qty := (bk_qty bk + bd_delta m)%Z in
        if int4 qty && (0 <=? qty)%Z then
          Some (1, set_buckets <[key := mkBucket station qty
            (if bd_payload m =s "" then bk_payload bk else bd_payload m)]> d)
        else None
    end
  else None.

(** DELETE ... AND qty=0. *)
Definition gc_bucket (m : LinesideBucketDelta) (d : CoreDB) : CoreDB :=
  let key := bucket_key m in
  match buckets d !! key with
  | Some bk => if bk_qty bk =i 0 then set_buckets (delete key) d else d
  | None => d
  end.

Definition node_named (name : string) (d : CoreDB) : bool :=
  existsb (fun kn => n_name kn.2 =s name) (map_to_list (nodes d)).

Definition bucket_tx (station : string) (m : LinesideBucketDelta) : CoreSQL unit :=
  tx (applied <-- claimDeltaSequence station invDeltaScopeBucket
        (bucketScopeKey (bd_node m) (bd_pair m) (bd_style m) (bd_part m)) 0 (bd_seq m) ;;
      if negb applied then sfail EDeltaSkipped
      else
        (if (bd_delta m <? 0)%Z then
           exists_ <-- query (fun d => bool_decide (is_Some (buckets d !! bucket_key m))) ;;
           if exists_ then sret () else sfail EBucketReduction
         else sret ()) ;;;
        n <-- stmt_checked (upsert_bucket station m) ;;
        if (n =? 0)%nat then sfail ENoRows
        else
          exec (gc_bucket m) ;;;
          commit ()).

Definition ApplyLinesideBucketDelta (station : string) (d : option LinesideBucketDelta)
    : CoreSQL unit :=
  match d with
  | None => sfail EInvalidDelta
  | Some m =>
      if (station =s "") || (bd_node m =s "") || (bd_part m =s "") then sfail EInvalidDelta
      else
        known <-- query (node_named (bd_node m)) ;;
        if known then bucket_tx station m else sfail EUnknownNode
  end.

(** *** Reads *)

Definition DroppedDeltaCounts (s : InventoryDeltaService) : Z * Z :=
  (droppedStaleEpoch s, droppedPayloadMismatch s).

Definition sum_bins (d : CoreDB) : Z :=
  foldr (fun kb acc => (b_uop kb.2 + acc)%Z) 0%Z (map_to_list (bins d)).
Definition sum_buckets (d : CoreDB) : Z :=
  foldr (fun kb acc => (bk_qty kb.2 + acc)%Z) 0%Z (map_to_list (buckets d)).

Record InventoryInvariant := mkInvariant { iv_total : Z; iv_bin_sum : Z; iv_bucket_sum : Z }.

Definition SumInvariant : CoreSQL InventoryInvariant :=
  binSum <-- query sum_bins ;;
  bucketSum <-- query sum_buckets ;;
  sret (mkInvariant (binSum + bucketSum) binSum bucketSum).

Record BinUOPRow := mkRow {
  br_bin : Z; br_node : string; br_payload : string; br_uop : Z; br_epoch : Z }.

(** In the database's row order. *)
Definition ListBinUOPForNodes (nodeNames : list string) : CoreSQL (list BinUOPRow) :=
  match nodeNames with
  | [] => sret []
  | _ =>
      query (fun d =>
        map (fun kb => mkRow kb.1 (node_name d (b_node kb.2)) (b_payload kb.2) (b_uop kb.2) (b_epoch kb.2))
          (List.filter (fun kb => match b_node kb.2 with
             | Some n => match nodes d !! n with
                         | Some nd => contains nodeNames (n_name nd) | None => false end
             | None => false end) (map_to_list (bins d))))
  end.
End Service.

(** ** What one delta does *)

Definition delta_row (r : Ledger) : bool := lg_op r =s OpBinUOPDelta.
Definition delta_rows (d : CoreDB) : list Ledger := List.filter delta_row (ledger d).

Definition bin_scope (station : string) (m : BinUOPDelta) : DedupKey :=
  (station, invDeltaScopeBin, pretty (dl_bin m), dl_epoch m).

(** The carrier's load: everything a count describes. *)
Definition load_of (b : Bin) : string * option Manifest * Z * Z :=
  (b_payload b, b_manifest b, b_uop b, b_epoch b).

(** Observability only: counts, labels, generations, sequences, buckets and
    applied rows are as they were. *)
Record counts_kept (d d' : CoreDB) : Prop := {
  ck_loads : forall i, load_of <$> bins d' !! i = load_of <$> bins d !! i;
  ck_dedup : dedup d' = dedup d;
  ck_buckets : buckets d' = buckets d;
  ck_rows : delta_rows d' = delta_rows d
}.

#[export] Instance counts_kept_preorder : PreOrder counts_kept.
Proof.
  split; [by intros d|]. intros d1 d2 d3 [A1 B1 C1 D1] [A2 B2 C2 D2].
  constructor; [|congruence..]. intros i. by rewrite A2, A1.
Qed.

(** A bin row changed in its label and flags only. *)
Lemma counts_kept_alter f binID d :
  (forall b, load_of (f b) = load_of b) -> counts_kept d (set_bins (alter f binID) d).
Proof.
  intros Hf. constructor; try done. intros i. cbn. destruct (decide (i = binID)) as [->|Hi].
  - rewrite lookup_alter_eq. destruct (bins d !! binID); cbn; by rewrite ?Hf.
  - by rewrite lookup_alter_ne.
Qed.

Lemma delta_rows_snoc row d :
  delta_rows (set_ledger (fun l => l ++ [row]) d) =
  delta_rows d ++ (if delta_row row then [row] else []).
Proof. unfold delta_rows. cbn. rewrite List.filter_app. cbn. by destruct (delta_row row). Qed.

Lemma counts_kept_ledger row d :
  delta_row row = false -> counts_kept d (set_ledger (fun l => l ++ [row]) d).
Proof. intros H. constructor; try done. by rewrite delta_rows_snoc, H, app_nil_r. Qed.

Lemma override_kept binID s n op source o part actor meta :
  (op =s OpBinUOPDelta) = false ->
  evolves counts_kept (AppendBinUOPOverride binID s n op source o part actor meta).
Proof.
  intros Hop. unfold AppendBinUOPOverride. evolve; intros d a d' [=]; simplify_eq.
  by apply counts_kept_ledger.
Qed.

Lemma exception_kept kind binID payload actor seq b a dp rc op detail :
  evolves counts_kept (AppendBinUOPException kind binID payload actor seq b a dp rc op detail).
Proof. unfold AppendBinUOPException. evolve. by intros d. Qed.

Lemma repair_kept announce repaired binID e : evolves counts_kept (repairEpoch announce repaired binID e).
Proof. unfold repairEpoch. evolve. by intros d. Qed.

Lemma flag_kept binID d : counts_kept d (flag_anomaly binID d).
Proof. by apply counts_kept_alter. Qed.

Lemma drop_stale_kept announce repaired station m e :
  evolves counts_kept (drop_stale announce repaired station m e).
Proof.
  unfold drop_stale. apply evolves_bind; [typeclasses eauto|evolve|intros [before|]]; [|by evolve].
  apply evolves_bind; [typeclasses eauto|by apply override_kept|intros []].
  apply evolves_bind; [typeclasses eauto|apply exception_kept|intros []].
  apply evolves_bind; [typeclasses eauto|evolve; apply flag_kept|intros []].
  apply evolves_bind; [typeclasses eauto|apply repair_kept|intros ?]. unfold commit. by evolve.
Qed.

Lemma rejected_kept station m have v flagged :
  evolves counts_kept (recordRejectedDelta station m have v flagged).
Proof.
  unfold recordRejectedDelta.
  apply evolves_bind; [typeclasses eauto|by apply evolves_log, override_kept|intros ?].
  apply evolves_bind; [typeclasses eauto|apply evolves_log, exception_kept|intros ?].
  apply evolves_bind; [typeclasses eauto| |intros ?; by evolve].
  destruct flagged; [by evolve|]. unfold MarkAnomaly. evolve. intros d. by apply counts_kept_alter.
Qed.

Lemma claim_sequence_ok station kind key epoch seq c r c' :
  claimDeltaSequence station kind key epoch seq c = (Ok r, c') ->
  let k := (station, kind, key, epoch) in
  if r then (forall last, dedup (db c) !! k = Some last -> (last < seq)%Z) /\
            db c' = set_dedup <[k := seq]> (db c)
  else db c' = db c /\ exists last, dedup (db c) !! k = Some last /\ (seq <= last)%Z.
Proof.
  unfold claimDeltaSequence. intros H. apply sbind_ok in H as (n & c1 & H1%stmt_ok & [= <- <-]).
  destruct (dedup (db c) !! _) as [last|] eqn:E; [destruct (Z.ltb_spec last seq)|];
    injection H1 as <- <-; cbn [Nat.ltb Nat.leb].
  - by split; [intros l [= <-]|].
  - split; [done|]. by exists last.
  - by split.
Qed.

(** The label a count is checked against. *)
Definition label (m : BinUOPDelta) (b : Bin) : string :=
  if (dl_reason m =s ReasonProduceTick) && (dl_payload m <>s "") then dl_payload m else b_payload b.

Definition emptied (binManifest : option string) (m : BinUOPDelta) (b : Bin) : bool :=
  match binManifest with
  | Some _ => (dl_reason m =s ReasonCaptureReduction) && (b_uop b + dl_delta m <=? 0)%Z
  | None => false
  end.

Lemma override_ok binID s n op source o part actor meta c c' :
  AppendBinUOPOverride binID s n op source o part actor meta c = (Ok (), c') ->
  (op =s OpBinUOPDelta) = false -> bins (db c') = bins (db c) /\ counts_kept (db c) (db c').
Proof.
  intros H Hop. split.
  - apply stmt_checked_ok in H. destruct (int4 s && int4 n); [|done]. by injection H as <-.
  - pose proof (override_kept binID s n op source o part actor meta Hop c) as Hk. by rewrite H in Hk.
Qed.

Lemma bind_payload_ok station m b c have c' :
  bind_payload station m (b_payload b) (b_uop b) c = (Ok have, c') ->
  bins (db c) !! dl_bin m = Some b ->
  have = label m b /\ exists b1, bins (db c') = <[dl_bin m := b1]> (bins (db c)) /\
    load_of b1 = (label m b, b_manifest b, b_uop b, b_epoch b) /\
    dedup (db c') = dedup (db c) /\ buckets (db c') = buckets (db c) /\
    delta_rows (db c') = delta_rows (db c).
Proof.
  unfold bind_payload, label. intros H Hb.
  destruct ((dl_reason m =s ReasonProduceTick) && (dl_payload m <>s "")); cbn [andb] in H.
  2: { injection H as <- <-. split; [done|]. exists b. by rewrite insert_id. }
  destruct (eqb_spec_s (b_payload b) (dl_payload m)) as [He|He]; cbn [negb] in H.
  { injection H as <- <-. split; [done|]. exists b. rewrite insert_id by done. by rewrite <- He. }
  apply sbind_ok in H as ([] & c2 & H & [= <- <-]). split; [done|].
  destruct (b_uop b =i 0);
    apply sbind_ok in H as ([] & c1 & H1%exec_ok & [Hb2 [_ K2 K3 K4]]%override_ok); [|done| |done];
    rewrite H1 in *; cbn in Hb2, K2, K3, K4.
  - eexists. rewrite Hb2, (alter_lookup_insert _ _ _ _ Hb). by split_and!.
  - eexists. rewrite Hb2, (alter_lookup_insert _ _ _ _ Hb).
    erewrite alter_lookup_insert by apply lookup_insert_eq. rewrite insert_insert_eq. by split_and!.
Qed.

(** The effect of one applied delta. *)
Record applied_delta (binManifest : option string) (station : string) (m : BinUOPDelta) (b : Bin)
    (d d' : CoreDB) : Prop := {
  ad_bin : bins d !! dl_bin m = Some b;
  ad_label : dl_payload m = "" \/ label m b = "" \/ label m b = dl_payload m;
  ad_fits : int4 (b_uop b + dl_delta m) = true;
  ad_fresh : forall last, dedup d !! bin_scope station m = Some last -> (last < dl_seq m)%Z;
  ad_dedup : dedup d' = <[bin_scope station m := dl_seq m]> (dedup d);
  ad_others : forall i, i <> dl_bin m -> bins d' !! i = bins d !! i;
  ad_row : exists row e, delta_rows d' = delta_rows d ++ [row] /\
    lg_bin row = dl_bin m /\ lg_actor row = station /\ lg_before row = Some (b_uop b) /\
    lg_after row = (b_uop b + dl_delta m)%Z /\
    lg_detail row = Some (DeltaDetail (dl_reason m) (dl_delta m) (dl_seq m) (dl_epoch m) e);
  ad_load : load_of <$> bins d' !! dl_bin m = Some
    (if emptied binManifest m b then ("", None, 0%Z, (b_epoch b + 1)%Z)
     else (label m b, b_manifest b, (b_uop b + dl_delta m)%Z, b_epoch b));
  ad_buckets : buckets d' = buckets d
}.

Lemma crossing_kept station m v n meta : evolves counts_kept (note_crossing station m v n meta).
Proof.
  unfold note_crossing. case_match; [apply exception_kept|]. case_match; [|by evolve].
  unfold RecoverBinUOPOpenCrossing. evolve. by intros d.
Qed.

(** Writes that leave sequences, buckets and applied rows alone. *)
Record side_kept (d d' : CoreDB) : Prop := {
  sk_dedup : dedup d' = dedup d; sk_buckets : buckets d' = buckets d;
  sk_rows : delta_rows d' = delta_rows d }.

#[export] Instance side_kept_preorder : PreOrder side_kept.
Proof.
  split; [by intros d|]. intros d1 d2 d3 [A1 B1 C1] [A2 B2 C2]. constructor; congruence.
Qed.

Lemma append_side binID before after op source o payload actor ctx :
  (op =s OpBinUOPDelta) = false ->
  evolves side_kept (AppendBinUOP binID before after op source o payload actor ctx).
Proof.
  intros Hop. unfold AppendBinUOP, NextBinUOPEpochSeq, AppendBinUOPException.
  evolve; try (by intros d); intros d a d' [=]; simplify_eq; constructor; try done;
    rewrite delta_rows_snoc; unfold delta_row; cbn [lg_op]; by rewrite Hop, app_nil_r.
Qed.

Lemma clear_side topic binID op source :
  (op =s OpBinUOPDelta) = false ->
  evolves side_kept (ClearForReuseTx topic binID None op source).
Proof.
  intros Hop. unfold ClearForReuseTx, readBinUOPInTx, read_old_type, dunnage_context, bumpEpoch,
    bumpEpochRaw, resolveBinUOPContext.
  apply evolves_bind; [typeclasses eauto|evolve|intros ?].
  apply evolves_bind; [typeclasses eauto|evolve|intros ?].
  apply evolves_bind; [typeclasses eauto| |intros ?].
  { evolve. intros d n d' [_ [(b & _ & _ & _ & ->)|(_ & -> & _)]]%update_bin_ok; done. }
  apply evolves_bind; [typeclasses eauto| |intros ?].
  { evolve; intros d; try done. by destruct (bins d !! binID). }
  apply evolves_bind; [typeclasses eauto|evolve|intros ?].
  apply evolves_bind; [typeclasses eauto|evolve|intros ?].
  apply evolves_bind; [typeclasses eauto|by apply append_side|intros ?]. evolve.
Qed.

Lemma clear_captured_ok binManifest m b2 n c c' :
  clear_captured binManifest m n c = (Ok (), c') -> bins (db c) !! dl_bin m = Some b2 ->
  side_kept (db c) (db c') /\ (forall i, i <> dl_bin m -> bins (db c') !! i = bins (db c) !! i) /\
  load_of <$> bins (db c') !! dl_bin m = Some
    (if match binManifest with
        | Some _ => (dl_reason m =s ReasonCaptureReduction) && (n <=? 0)%Z
        | None => false
        end then ("", None, 0%Z, (b_epoch b2 + 1)%Z) else load_of b2).
Proof.
  unfold clear_captured. intros H Hb. destruct binManifest as [topic|].
  2: { injection H as <-. by rewrite Hb. }
  destruct ((dl_reason m =s ReasonCaptureReduction) && (n <=? 0)%Z).
  2: { injection H as <-. by rewrite Hb. }
  apply sbind_ok in H as (e & c1 & H & [= <-]).
  pose proof (clear_side topic (dl_bin m) OpReleasedCaptureEmpty
    "service/inventory_delta_service.go:ApplyBinUOPDelta" eq_refl c) as Hs. rewrite H in Hs.
  split; [exact Hs|].
  apply clear_for_reuse_ok in H as [(b0 & Hb0 & -> & _) _ _]; [|done].
  assert (b0 = b2) as -> by congruence. split.
  - intros i Hi. by rewrite lookup_insert_ne.
  - by rewrite lookup_insert_eq.
Qed.

Lemma kept_bin {A} (m : CoreSQL A) c x c' i b :
  evolves counts_kept m -> m c = (Ok x, c') -> bins (db c) !! i = Some b ->
  exists b', bins (db c') !! i = Some b' /\ load_of b' = load_of b.
Proof.
  intros Hm H Hb. specialize (Hm c). rewrite H in Hm. destruct Hm as [Hl _ _ _].
  specialize (Hl i). cbn in Hl. rewrite Hb in Hl. destruct (bins (db c') !! i) as [b'|]; [|done].
  injection Hl as E. exists b'. split; [done|]. unfold load_of. congruence.
Qed.

(** The ledger writes between the count and the clear touch no bin row. *)
Definition bins_same (d d' : CoreDB) : Prop := bins d' = bins d.
#[export] Instance bins_same_preorder : PreOrder bins_same.
Proof. split; unfold bins_same; [done|congruence]. Qed.

Lemma crossing_bins station m v n meta : evolves bins_same (note_crossing station m v n meta).
Proof.
  unfold note_crossing, RecoverBinUOPOpenCrossing, AppendBinUOPException. by evolve.
Qed.

Lemma append_delta_ok station m before after meta c c' :
  append_delta station m before after meta c = (Ok (), c') ->
  exists row, db c' = set_ledger (fun l => l ++ [row]) (db c) /\ delta_row row = true /\
    lg_bin row = dl_bin m /\ lg_actor row = station /\ lg_before row = Some before /\
    lg_after row = after /\ lg_detail row = Some meta.
Proof.
  unfold append_delta. intros H%stmt_checked_ok. destruct (int4 before && int4 after); [|done].
  injection H as <-. eexists. split; [done|]. by split_and!.
Qed.

(** What [write_count] does to the tables, from a bin of known load. *)
Record count_written (binManifest : option string) (station : string) (m : BinUOPDelta) (b : Bin)
    (d d' : CoreDB) : Prop := {
  cw_fits : int4 (b_uop b + dl_delta m) = true;
  cw_dedup : dedup d' = dedup d;
  cw_buckets : buckets d' = buckets d;
  cw_others : forall i, i <> dl_bin m -> bins d' !! i = bins d !! i;
  cw_row : exists row e, delta_rows d' = delta_rows d ++ [row] /\
    lg_bin row = dl_bin m /\ lg_actor row = station /\ lg_before row = Some (b_uop b) /\
    lg_after row = (b_uop b + dl_delta m)%Z /\
    lg_detail row = Some (DeltaDetail (dl_reason m) (dl_delta m) (dl_seq m) (dl_epoch m) e);
  cw_load : load_of <$> bins d' !! dl_bin m = Some
    (if emptied binManifest m b then ("", None, 0%Z, (b_epoch b + 1)%Z)
     else (b_payload b, b_manifest b, (b_uop b + dl_delta m)%Z, b_epoch b))
}.

Lemma write_count_ok binManifest station m e b c v k c' :
  write_count binManifest station m (b_uop b) e c = (Ok (v, k), c') ->
  bins (db c) !! dl_bin m = Some b ->
  v = VApplied /\ k = true /\ count_written binManifest station m b (db c) (db c').
Proof.
  unfold write_count. intros H Hb.
  apply sbind_ok in H as ([] & c4 & H4%stmt_checked_ok & H).
  apply sbind_ok in H as ([] & c5 & (row & Hd5 & Hrow & R1 & R2 & R3 & R4 & R5)%append_delta_ok & H).
  apply sbind_ok in H as ([] & c6 & H6 & H). apply sbind_ok in H as ([] & c7 & H7 & H).
  unfold commit, sret in H. injection H as <- <- <-. split; [done|]. split; [done|].
  unfold add_uop in H4. rewrite Hb in H4. destruct (int4 (dl_delta m)); [|done].
  destruct (int4 (b_uop b + dl_delta m)) eqn:Hi; [|done]. injection H4 as H4.
  set (meta := DeltaDetail _ _ _ _ _) in *.
  pose proof (crossing_kept station m (b_uop b) (b_uop b + dl_delta m) meta c5) as [_ K2 K3 K4].
  pose proof (crossing_bins station m (b_uop b) (b_uop b + dl_delta m) meta c5) as K1.
  rewrite H6 in K1, K2, K3, K4. cbn in K1, K2, K3, K4. unfold bins_same in K1.
  assert (Hb6 : bins (db c6) = <[dl_bin m := set_bin_load (b_payload b) (b_manifest b)
    (b_uop b + dl_delta m) (b_confirmed b) (b_loaded_at b) b]> (bins (db c))).
  { by rewrite K1, Hd5, <- H4. }
  eapply clear_captured_ok in H7; [|rewrite Hb6; apply lookup_insert_eq].
  destruct H7 as ([S1 S2 S3] & Hoth & Hload). constructor; [done|..].
  - by rewrite S1, K2, Hd5, <- H4.
  - by rewrite S2, K3, Hd5, <- H4.
  - intros i Hne. rewrite Hoth by done. by rewrite Hb6, lookup_insert_ne.
  - exists row, e. split_and!; try done. by rewrite S3, K4, Hd5, delta_rows_snoc, Hrow, <- H4.
  - rewrite Hload. unfold emptied. by destruct binManifest; [destruct (_ && _)|].
Qed.

Lemma apply_fresh_ok binManifest station m e c v k c' :
  apply_fresh binManifest station m e c = (Ok (v, k), c') ->
  (v = VApplied /\ k = true /\ exists b, applied_delta binManifest station m b (db c) (db c')) \/
  (exists have before flagged, v = VMismatch have before flagged /\ k = false).
Proof.
  unfold apply_fresh. intros H.
  apply sbind_ok in H as (ap & c1 & H1%claim_sequence_ok & H). destruct ap; [|done].
  destruct H1 as [Hfresh Hd1]. cbn [negb] in H.
  apply sbind_ok in H as (r & c2 & [-> Hd2]%query_ok & H).
  destruct (bins (db c1) !! dl_bin m) as [b|] eqn:Hb; [|done].
  apply sbind_ok in H as (have & c3 & H3 & H).
  rewrite <- Hd2 in Hb. apply (bind_payload_ok _ _ _ _ _ _ H3) in Hb as Hb'.
  destruct Hb' as (-> & b1 & Hbins3 & Hl3 & Hdd3 & Hbk3 & Hrows3).
  destruct ((dl_payload m <>s "") && (label m b <>s "") && (dl_payload m <>s label m b)) eqn:Hmm.
  { unfold rollback in H. injection H as <- <- <-. right. eauto. }
  left. injection Hl3 as L1 L2 L3 L4. rewrite <- L3 in H.
  apply write_count_ok in H as (-> & -> & [W1 W2 W3 W4 W5 W6]);
    [|rewrite Hbins3; apply lookup_insert_eq].
  rewrite L3 in *. unfold emptied in W6. rewrite L1, L2, L3, L4 in W6.
  split; [done|]. split; [done|]. exists b. constructor.
  - by rewrite <- Hb, Hd2, Hd1.
  - destruct (eqb_spec_s (dl_payload m) ""); [by left|].
    destruct (eqb_spec_s (label m b) ""); [by right; left|].
    destruct (eqb_spec_s (dl_payload m) (label m b)); [by right; right|done].
  - done.
  - intros last Hl. by apply Hfresh.
  - by rewrite W2, Hdd3, Hd2, Hd1.
  - intros i Hne. rewrite W4, Hbins3, lookup_insert_ne by done. by rewrite Hd2, Hd1.
  - destruct W5 as (row & e' & E & F). exists row, e'. split; [|done].
    by rewrite E, Hrows3, Hd2, Hd1.
  - done.
  - by rewrite W3, Hbk3, Hd2, Hd1.
Qed.

Lemma drop_stale_ok announce repaired station m e c v k c' :
  drop_stale announce repaired station m e c = (Ok (v, k), c') ->
  k = true /\ exists replied, v = VDropped replied e.
Proof.
  unfold drop_stale. intros H. apply sbind_ok in H as (u & c3 & _ & H). destruct u; [|done].
  do 3 apply sbind_ok in H as ([] & ? & _ & H). apply sbind_ok in H as (w & ? & _ & [= <- <- _]).
  eauto.
Qed.

(** The three ends of the transaction's body. *)
Lemma delta_body_ok announce binManifest repaired station m c v k c' :
  delta_body announce binManifest repaired station m c = (Ok (v, k), c') ->
  match v with
  | VDropped _ e => k = true /\ counts_kept (db c) (db c') /\ (0 < dl_epoch m < e)%Z
  | VMismatch _ _ _ => k = false
  | VApplied => k = true /\ exists b, applied_delta binManifest station m b (db c) (db c') /\
      (faults c = [] -> (dl_epoch m <= 0)%Z \/ (b_epoch b <= dl_epoch m)%Z)
  end.
Proof.
  unfold delta_body. intros H. apply sbind_ok in H as (r & c1 & H1 & H).
  assert (Hr : faults c = [] -> r = Some (b_epoch <$> bins (db c) !! dl_bin m)).
  { intros F. unfold slog, query, stmt in H1. rewrite F in H1. by injection H1 as <- _. }
  assert (Hd1 : db c1 = db c) by (by apply slog_query in H1).
  assert (Hfresh : forall e, (forall b, faults c = [] -> bins (db c) !! dl_bin m = Some b ->
      (dl_epoch m <= 0)%Z \/ (b_epoch b <= dl_epoch m)%Z) ->
    apply_fresh binManifest station m e c1 = (Ok (v, k), c') ->
    (v = VApplied /\ k = true /\ exists b, applied_delta binManifest station m b (db c) (db c') /\
      (faults c = [] -> (dl_epoch m <= 0)%Z \/ (b_epoch b <= dl_epoch m)%Z)) \/
    (exists h b f, v = VMismatch h b f /\ k = false)).
  { intros e Hst [(-> & -> & b & Ha)|]%apply_fresh_ok; [left|by right].
    rewrite Hd1 in Ha. split_and!; [done..|]. exists b. split; [done|]. intros F.
    apply Hst; [done|apply Ha]. }
  destruct r as [[e|]|];
    [destruct (Z.ltb_spec 0 (dl_epoch m)) as [Hp|Hp]; [destruct (Z.ltb_spec (dl_epoch m) e) as [Hs|Hs]|]|..].
  - cbn [andb] in H. pose proof (drop_stale_kept announce repaired station m e c1) as Hk.
    rewrite H, Hd1 in Hk. apply drop_stale_ok in H as (-> & x & ->). by split_and!.
  - apply Hfresh in H as [(-> & -> & Ha)|(? & ? & ? & -> & ->)]; [done..|].
    intros b F Hbin. right. specialize (Hr F). rewrite Hbin in Hr. injection Hr as ->. lia.
  - apply Hfresh in H as [(-> & -> & Ha)|(? & ? & ? & -> & ->)]; [done..|]. intros b _ _. by left.
  - apply Hfresh in H as [(-> & -> & Ha)|(? & ? & ? & -> & ->)]; [done..|].
    intros b F Hbin. specialize (Hr F). by rewrite Hbin in Hr.
  - apply Hfresh in H as [(-> & -> & Ha)|(? & ? & ? & -> & ->)]; [done..|].
    intros b F Hbin. by specialize (Hr F).
Qed.

Lemma delta_tx_spec announce binManifest repaired station m c r c' :
  delta_tx announce binManifest repaired station m c = (r, c') ->
  match r with
  | Err _ | Ok (VMismatch _ _ _) => db c' = db c
  | Ok (VDropped _ _) => counts_kept (db c) (db c')
  | Ok VApplied => exists b, applied_delta binManifest station m b (db c) (db c') /\
      (faults c = [] -> (dl_epoch m <= 0)%Z \/ (b_epoch b <= dl_epoch m)%Z)
  end.
Proof.
  destruct r as [v|e]; [|apply tx_err].
  intros (k & c0 & c1 & Hd0 & Hf & Hb & Hd)%tx_ok_healthy. apply delta_body_ok in Hb.
  rewrite Hd0 in Hb. destruct v.
  - destruct Hb as (-> & Hk & _). by rewrite Hd.
  - by rewrite Hb in Hd.
  - destruct Hb as (-> & b & Ha & Hg). exists b. rewrite Hd. auto.
Qed.

Definition tables (s : InventoryDeltaService) : CoreDB := db (iv_conn s).

Lemma apply_delta_spec announce binManifest station d s r s' :
  ApplyBinUOPDelta announce binManifest station d s = (r, s') ->
  match r with
  | Ok _ => exists m b, d = Some m /\ applied_delta binManifest station m b (tables s) (tables s') /\
      (faults (iv_conn s) = [] -> (dl_epoch m <= 0)%Z \/ (b_epoch b <= dl_epoch m)%Z)
  | Err e => counts_kept (tables s) (tables s') /\
      (e <> EDeltaSkipped -> (forall i, e <> EPayloadMismatch i) -> tables s' = tables s)
  end.
Proof.
  unfold ApplyBinUOPDelta, tables. intros H. destruct d as [m|]; [|by injection H as <- <-].
  destruct (_ || _); [by injection H as <- <-|].
  destruct (delta_tx announce binManifest (iv_repaired s) station m (iv_conn s)) as [[v|e] c] eqn:E;
    apply delta_tx_spec in E; [destruct v|]; injection H as <- <-; cbn.
  - done.
  - split; [|by intros _ Hm; destruct (Hm (dl_bin m))].
    pose proof (rejected_kept station m have valueBefore anomalyFlagged c) as Hk. by rewrite E in Hk.
  - destruct E as (b & Ha & Hg). by exists m, b.
  - by rewrite E.
Qed.

(** One report, one effect.  An applied delta found its bin at a generation
    that has not ended (unless the generation could not be read), carrying the
    label it names, with a sequence number above every earlier one of that
    station, bin and generation; it then moved exactly that bin's count by
    exactly the reported amount within the column's range - or, for a capture
    that empties the bin, cleared it into a new generation -, consumed the
    sequence number and left one ledger row with the counts before and after.
    A delta that is refused - invalid, replayed, stale, mislabelled or hit by a
    driver fault anywhere - moved no count, label, generation, bucket, sequence
    number or applied row of any bin, and unless it was stale or mislabelled
    (which are recorded) changed nothing at all. *)
Theorem delta_one_effect (announce : string) (binManifest : option string) (station : string)
    (d : option BinUOPDelta) (s s' : InventoryDeltaService) (r : outcome error unit) :
  ApplyBinUOPDelta announce binManifest station d s = (r, s') ->
  match r with
  | Ok _ => exists m b, d = Some m /\ applied_delta binManifest station m b (tables s) (tables s') /\
      (faults (iv_conn s) = [] -> (dl_epoch m <= 0)%Z \/ (b_epoch b <= dl_epoch m)%Z)
  | Err e => counts_kept (tables s) (tables s') /\
      (e <> EDeltaSkipped -> (forall i, e <> EPayloadMismatch i) -> tables s' = tables s)
  end.
Proof. apply apply_delta_spec. Qed.

Definition demo_service : InventoryDeltaService := mkIDS (mkConn demo_db []) ∅ 0 0.
Definition demo_delta (delta seq epoch : Z) : BinUOPDelta :=
  mkDelta 10 "P1" delta "consume_tick" seq epoch.

(** ** Traces *)

(** Reports arrive from any station, in any order and number. *)
Fixpoint deliver (announce : string) (binManifest : option string)
    (msgs : list (string * BinUOPDelta)) (s : InventoryDeltaService) : InventoryDeltaService :=
  match msgs with
  | [] => s
  | (station, m) :: rest =>
      deliver announce binManifest rest
        (ApplyBinUOPDelta announce binManifest station (Some m) s).2
  end.

(** The identity of a report, as its applied row records it. *)
Definition row_id (r : Ledger) : option (string * Z * Z * Z) :=
  match lg_detail r with
  | Some (DeltaDetail _ _ seq epoch _) => Some (lg_actor r, lg_bin r, epoch, seq)
  | _ => None
  end.

(** Every applied row is one report's, no report has two, and each is covered by
    its scope's last sequence number. *)
Record applied_wf (d : CoreDB) : Prop := {
  aw_ids : forall r, r ∈ delta_rows d -> is_Some (row_id r);
  aw_once : NoDup (map row_id (delta_rows d));
  aw_claimed : forall r station bin epoch seq, r ∈ delta_rows d ->
    row_id r = Some (station, bin, epoch, seq) ->
    exists last, dedup d !! (station, invDeltaScopeBin, pretty bin, epoch) = Some last /\ (seq <= last)%Z
}.

Lemma applied_wf_kept d d' : counts_kept d d' -> applied_wf d -> applied_wf d'.
Proof.
  intros [_ Hd _ Hr] [A B C]. constructor; rewrite Hr; [done..|]. rewrite Hd. apply C.
Qed.

Lemma applied_wf_step binManifest station m b d d' :
  applied_delta binManifest station m b d d' -> applied_wf d -> applied_wf d'.
Proof.
  intros [_ _ _ Hfresh Hd _ (row & e & Hr & Hb & Ha & _ & _ & Hdet) _ _] [A B C].
  assert (Hid : row_id row = Some (station, dl_bin m, dl_epoch m, dl_seq m)).
  { unfold row_id. by rewrite Hdet, Ha, Hb. }
  constructor; rewrite Hr.
  - intros r [Hin| ->%list_elem_of_singleton]%elem_of_app; [by apply A|by rewrite Hid].
  - rewrite map_app. apply NoDup_app. split_and!; [done| |apply NoDup_singleton].
    intros x Hx ->%list_elem_of_singleton. apply list_elem_of_fmap in Hx as (r & Hx & Hin).
    rewrite Hid in Hx. destruct (C r _ _ _ _ Hin (eq_sym Hx)) as (last & Hl & Hle).
    specialize (Hfresh last Hl). lia.
  - intros r st bn ep sq [Hin| ->%list_elem_of_singleton]%elem_of_app Hr'; rewrite Hd.
    + destruct (C r st bn ep sq Hin Hr') as (last & Hl & Hle).
      destruct (decide ((st, invDeltaScopeBin, pretty bn, ep) = bin_scope station m)) as [He|He].
      * rewrite He, lookup_insert_eq. eexists. split; [done|].
        rewrite He in Hl. specialize (Hfresh last Hl). lia.
      * rewrite lookup_insert_ne by congruence. eauto.
    + rewrite Hid in Hr'. injection Hr' as <- <- <- <-. unfold bin_scope.
      rewrite lookup_insert_eq. eexists. by split.
Qed.

Lemma deliver_wf announce binManifest msgs s :
  applied_wf (tables s) -> applied_wf (tables (deliver announce binManifest msgs s)).
Proof.
  revert s. induction msgs as [|[station m] rest IH]; intros s Hwf; cbn [deliver]; [done|].
  apply IH. destruct (ApplyBinUOPDelta announce binManifest station (Some m) s) as [r s'] eqn:E.
  apply apply_delta_spec in E. cbn. destruct r as [[]|e].
  - destruct E as (m' & b & _ & Ha & _). by eapply applied_wf_step.
  - destruct E as [Hk _]. by eapply applied_wf_kept.
Qed.

(** At most once, under any delivery.  However the reports of any stations
    are duplicated, reordered or interleaved, and whatever driver faults strike,
    no report - station, bin, generation, sequence number - is ever applied
    twice, and nothing is applied that was not reported. *)
Theorem delta_at_most_once (announce : string) (binManifest : option string)
    (msgs : list (string * BinUOPDelta)) (s : InventoryDeltaService) :
  applied_wf (tables s) ->
  let s' := deliver announce binManifest msgs s in
  NoDup (map row_id (delta_rows (tables s'))) /\
  forall r, r ∈ delta_rows (tables s') -> r ∈ delta_rows (tables s) \/
    exists station m, (station, m) ∈ msgs /\
      row_id r = Some (station, dl_bin m, dl_epoch m, dl_seq m).
Proof.
  intros Hwf s'. split; [by apply deliver_wf|]. unfold s'. clear Hwf s'. revert s.
  induction msgs as [|[station m] rest IH]; intros s r; cbn [deliver]; [by left|].
  intros [Hin|(st & m' & Hin & Hid)]%IH; [|right; exists st, m'; set_solver].
  destruct (ApplyBinUOPDelta announce binManifest station (Some m) s) as [res s1] eqn:E.
  apply apply_delta_spec in E. cbn in Hin. destruct res as [[]|e].
  - destruct E as (m' & b & [= <-] & [_ _ _ _ _ _ (row & ep & Hr & Hb & Ha & _ & _ & Hdet) _ _] & _).
    rewrite Hr in Hin. apply elem_of_app in Hin as [Hin| ->%list_elem_of_singleton]; [by left|].
    right. exists station, m. split; [set_solver|]. unfold row_id. by rewrite Hdet, Ha, Hb.
  - destruct E as [[_ _ _ Hr] _]. rewrite Hr in Hin. by left.
Qed.

(** ** Healthy runs *)

(** A report that belongs to the bin as it stands. *)
Record acceptable (station : string) (m : BinUOPDelta) (b : Bin) (d : CoreDB) : Prop := {
  ac_station : station <> "";
  ac_bin : bins d !! dl_bin m = Some b;
  ac_positive : (0 < dl_bin m)%Z;
  ac_epoch : (dl_epoch m <= 0)%Z \/ (b_epoch b <= dl_epoch m)%Z;
  ac_reason : dl_reason m <> ReasonCaptureReduction;
  ac_payload : dl_payload m = "" \/ dl_payload m = b_payload b
}.

Lemma accept_guards announce binManifest station m b s :
  acceptable station m b (tables s) -> faults (iv_conn s) = [] ->
  ApplyBinUOPDelta announce binManifest station (Some m) s =
  match tx (apply_fresh binManifest station m (b_epoch b)) (iv_conn s) with
  | (Err e, c) => (Err e, mkIDS c (iv_repaired s) (droppedStaleEpoch s) (droppedPayloadMismatch s))
  | (Ok (VDropped replied epoch), c) =>
      (Err EDeltaSkipped,
       mkIDS c (if replied then markRepaired (dl_bin m) epoch (iv_repaired s) else iv_repaired s)
         (droppedStaleEpoch s + 1) (droppedPayloadMismatch s))
  | (Ok (VMismatch have before flagged), c) =>
      (Err (EPayloadMismatch (dl_bin m)),
       mkIDS (recordRejectedDelta station m have before flagged c).2 (iv_repaired s)
         (droppedStaleEpoch s) (droppedPayloadMismatch s + 1))
  | (Ok VApplied, c) =>
      (Ok (), mkIDS c (iv_repaired s) (droppedStaleEpoch s) (droppedPayloadMismatch s))
  end.
Proof.
  intros [Hs Hb Hp He _ _] Hf. unfold ApplyBinUOPDelta.
  rewrite (seqb_neq _ _ Hs), (proj2 (Z.leb_gt _ _) Hp). cbn [orb].
  assert (Ht : delta_tx announce binManifest (iv_repaired s) station m (iv_conn s) =
    tx (apply_fresh binManifest station m (b_epoch b)) (iv_conn s)); [|by rewrite Ht].
  unfold delta_tx, tx, delta_body, tables in *. destruct (iv_conn s) as [d fs]. cbn in Hf, Hb. subst fs.
  unfold sbind, slog, query, exec, stmt. cbn. rewrite Hb. cbn.
  assert (((0 <? dl_epoch m)%Z && (dl_epoch m <? b_epoch b)%Z) = false) as ->; [|done].
  destruct (Z.ltb_spec 0 (dl_epoch m)), (Z.ltb_spec (dl_epoch m) (b_epoch b)); try done; lia.
Qed.

Lemma bind_payload_same station m b c :
  dl_payload m = "" \/ dl_payload m = b_payload b ->
  bind_payload station m (b_payload b) (b_uop b) c = (Ok (b_payload b), c).
Proof.
  unfold bind_payload. intros [->| ->].
  - by rewrite andb_false_r.
  - by rewrite seqb_refl, !andb_false_r.
Qed.

Lemma healthy_crossing station m v n meta d :
  exists d', note_crossing station m v n meta (mkConn d []) = (Ok (), mkConn d' []).
Proof.
  unfold note_crossing, AppendBinUOPException, RecoverBinUOPOpenCrossing.
  destruct (_ && _); [by eexists|]. destruct (_ && _); by eexists.
Qed.

Lemma healthy_accept announce binManifest station m b s :
  acceptable station m b (tables s) -> faults (iv_conn s) = [] ->
  (forall last, dedup (tables s) !! bin_scope station m = Some last -> (last < dl_seq m)%Z) ->
  int4 (dl_delta m) = true -> int4 (b_uop b) = true -> int4 (b_uop b + dl_delta m) = true ->
  exists s', ApplyBinUOPDelta announce binManifest station (Some m) s = (Ok (), s') /\
    faults (iv_conn s') = [].
Proof.
  intros Ha Hf Hfresh I1 I2 I3. rewrite (accept_guards _ _ _ _ _ _ Ha Hf).
  destruct Ha as [_ Hb _ _ Hr Hpay]. unfold tables in *.
  destruct (iv_conn s) as [d fs] eqn:Ec. cbn in Hf, Hb, Hfresh. subst fs.
  assert (Hbody : exists d', apply_fresh binManifest station m (b_epoch b) (mkConn d []) =
    (Ok (VApplied, true), mkConn d' [])).
  { unfold apply_fresh, claimDeltaSequence. unfold sbind at 1 2, stmt. cbn [faults db].
    set (k := (station, invDeltaScopeBin, pretty (dl_bin m), dl_epoch m)).
    assert (match dedup d !! k with
      | Some last => if (last <? dl_seq m)%Z then (1, set_dedup <[k:=dl_seq m]> d) else (0, d)
      | None => (1, set_dedup <[k:=dl_seq m]> d)
      end = (1, set_dedup <[k:=dl_seq m]> d)) as ->.
    { destruct (dedup d !! k) as [last|] eqn:E; [|done]. apply Hfresh in E.
      by rewrite (proj2 (Z.ltb_lt _ _) E). }
    unfold sret. cbn [Nat.ltb Nat.leb negb]. unfold sbind at 1, query, stmt. cbn [faults db set_dedup bins].
    rewrite Hb. unfold sbind at 1. rewrite bind_payload_same by done.
    assert (((dl_payload m <>s "") && (b_payload b <>s "") && (dl_payload m <>s b_payload b)) = false) as ->.
    { destruct Hpay as [-> | ->]; [done|]. by rewrite seqb_refl, andb_false_r. }
    unfold write_count. unfold sbind at 1, stmt_checked. cbn [faults db].
    unfold add_uop. cbn [bins set_dedup]. rewrite Hb, I1, I3. cbn [andb].
    unfold sbind at 1, append_delta, stmt_checked. cbn [faults db]. rewrite I2, I3. cbn [andb].
    unfold sbind at 1. edestruct healthy_crossing as (d' & ->). unfold sbind at 1, clear_captured.
    destruct binManifest; [rewrite (seqb_neq _ _ Hr); cbn [andb]|]; by eexists. }
  destruct Hbody as (d' & Hbody). unfold tx, exec, stmt. cbn. rewrite Hbody. cbn. by eexists.
Qed.

Lemma healthy_replay announce binManifest station m b s last :
  acceptable station m b (tables s) -> faults (iv_conn s) = [] ->
  dedup (tables s) !! bin_scope station m = Some last -> (dl_seq m <= last)%Z ->
  exists s', ApplyBinUOPDelta announce binManifest station (Some m) s = (Err EDeltaSkipped, s') /\
    faults (iv_conn s') = [] /\ tables s' = tables s.
Proof.
  intros Ha Hf Hl Hle. rewrite (accept_guards _ _ _ _ _ _ Ha Hf). unfold tables in *.
  destruct (iv_conn s) as [d fs] eqn:Ec. cbn in Hf, Hl. subst fs.
  assert (Hbody : apply_fresh binManifest station m (b_epoch b) (mkConn d []) =
    (Err EDeltaSkipped, mkConn d [])).
  { unfold apply_fresh, claimDeltaSequence. unfold sbind at 1 2, stmt. cbn [faults db].
    set (k := (station, invDeltaScopeBin, pretty (dl_bin m), dl_epoch m)).
    assert (match dedup d !! k with
      | Some last => if (last <? dl_seq m)%Z then (1, set_dedup <[k:=dl_seq m]> d) else (0, d)
      | None => (1, set_dedup <[k:=dl_seq m]> d)
      end = (0, d)) as ->; [|done].
    assert (Hk : dedup d !! k = Some last) by exact Hl. by rewrite Hk, (proj2 (Z.ltb_ge _ _) Hle). }
  unfold tx, exec, stmt. cbn. rewrite Hbody. cbn. eexists. by split_and!.
Qed.

(** ** Replay *)

Definition total (ms : list BinUOPDelta) : Z := foldr (fun m acc => (dl_delta m + acc)%Z) 0%Z ms.
Definition volume (ms : list BinUOPDelta) : Z := foldr (fun m acc => (Z.abs (dl_delta m) + acc)%Z) 0%Z ms.

(** One stream: one bin, one generation, rising sequence numbers. *)
Record one_stream (bin epoch : Z) (label : string) (ms : list BinUOPDelta) : Prop := {
  os_same : Forall (fun m => dl_bin m = bin /\ dl_epoch m = epoch /\
    dl_reason m <> ReasonCaptureReduction /\ (dl_payload m = "" \/ dl_payload m = label)) ms;
  os_rising : StronglySorted (fun m m' => (dl_seq m < dl_seq m')%Z) ms
}.

Lemma volume_nonneg ms : (0 <= volume ms)%Z.
Proof. unfold volume. induction ms; cbn; lia. Qed.

(** What the deliveries so far have left behind. *)
Record caught_up (station : string) (bin epoch : Z) (lbl : string) (seen stream : list BinUOPDelta)
    (u : Z) (s : InventoryDeltaService) : Prop := {
  cu_healthy : faults (iv_conn s) = [];
  cu_bin : exists b, bins (tables s) !! bin = Some b /\ b_uop b = u /\ b_payload b = lbl /\
    ((epoch <= 0)%Z \/ (b_epoch b <= epoch)%Z);
  cu_seen : Forall (fun m => dl_bin m = bin /\ dl_epoch m = epoch /\
    dl_reason m <> ReasonCaptureReduction /\ (dl_payload m = "" \/ dl_payload m = lbl) /\
    exists last, dedup (tables s) !! bin_scope station m = Some last /\ (dl_seq m <= last)%Z) seen;
  cu_ahead : Forall (fun m => forall last, dedup (tables s) !! bin_scope station m = Some last ->
    (last < dl_seq m)%Z) stream
}.

Lemma caught_up_again announce binManifest station bin epoch lbl seen stream u s m :
  station <> "" -> (0 < bin)%Z -> m ∈ seen ->
  caught_up station bin epoch lbl seen stream u s ->
  caught_up station bin epoch lbl seen stream u
    (ApplyBinUOPDelta announce binManifest station (Some m) s).2.
Proof.
  intros Hs Hp Hin [Hf (b & Hb & Hu & Hl & He) Hseen Hah].
  rewrite Forall_forall in Hseen. destruct (Hseen m Hin) as (<- & <- & Hr & Hpay & last & Hd & Hle).
  destruct (healthy_replay announce binManifest station m b s last) as (s' & -> & Hf' & Ht);
    [by constructor; try rewrite Hl|done..|].
  constructor; cbn [snd]; rewrite ?Ht; [done|by exists b|by apply Forall_forall|done].
Qed.

Lemma caught_up_next announce binManifest station bin epoch lbl seen m stream u s :
  station <> "" -> (0 < bin)%Z -> one_stream bin epoch lbl (m :: stream) ->
  (Z.abs u + volume (m :: stream) <= 2147483647)%Z ->
  caught_up station bin epoch lbl seen (m :: stream) u s ->
  caught_up station bin epoch lbl (m :: seen) stream (u + dl_delta m)
    (ApplyBinUOPDelta announce binManifest station (Some m) s).2.
Proof.
  intros Hs Hp [Hsame Hris] Hv [Hf (b & Hb & Hu & Hl & He) Hseen Hah].
  apply Forall_cons in Hsame as [(<- & <- & Hr & Hpay) Hsame].
  apply Forall_cons in Hah as [Hfresh Hah]. apply StronglySorted_inv in Hris as [_ Hris].
  pose proof (volume_nonneg stream) as Hvn. cbn [volume foldr] in Hv. fold (volume stream) in Hv.
  assert (Hint : int4 (dl_delta m) = true /\ int4 (b_uop b) = true /\ int4 (b_uop b + dl_delta m) = true).
  { rewrite Hu. unfold int4. split_and!; apply andb_true_iff; split; apply Z.leb_le; lia. }
  destruct Hint as (I1 & I2 & I3).
  destruct (healthy_accept announce binManifest station m b s) as (s' & E & Hf'); [by constructor; try rewrite Hl|done..|].
  rewrite E. apply apply_delta_spec in E as (m' & b0 & [= <-] & [Hb0 _ _ _ Hd _ _ Hload _] & _).
  assert (b0 = b) as -> by congruence.
  assert (Hem : emptied binManifest m b = false).
  { unfold emptied. destruct binManifest; [|done]. by rewrite (seqb_neq _ _ Hr). }
  assert (Hlab : label m b = b_payload b).
  { unfold label. destruct Hpay as [-> | Hpay]; [by rewrite andb_false_r|]. rewrite Hpay, Hl.
    by destruct (_ && _). }
  rewrite Hem, Hlab in Hload. constructor; cbn [snd]; [done|..].
  - destruct (bins (tables s') !! dl_bin m) as [b'|]; [|done]. injection Hload as L1 _ L3 L4.
    exists b'. split_and!; [done|by rewrite L3, Hu|by rewrite L1|by rewrite L4].
  - constructor.
    + split_and!; [done..|]. rewrite Hd, lookup_insert_eq. by eexists.
    + apply (Forall_impl _ _ _ Hseen). intros m' (H1 & H2 & H3 & H4 & last & H5 & H6).
      split_and!; [done..|]. unfold bin_scope in *. rewrite H1, H2 in *. rewrite Hd, lookup_insert_eq.
      eexists. split; [done|]. specialize (Hfresh last H5). lia.
  - rewrite Forall_forall in Hris, Hsame |- *. intros m' Hin last Hl'.
    destruct (Hsame m' Hin) as (H1 & H2 & _). unfold bin_scope in *. rewrite H1, H2, Hd, lookup_insert_eq in Hl'.
    injection Hl' as <-. by apply Hris.
Qed.

(** The whole stream, delivered with repetitions. *)
Lemma stream_applied (announce : string) (binManifest : option string) (station : string)
    (bin epoch : Z) (stream msgs : list BinUOPDelta) (s : InventoryDeltaService) (b : Bin) :
  station <> "" -> (0 < bin)%Z -> faults (iv_conn s) = [] ->
  bins (tables s) !! bin = Some b -> (epoch <= 0 \/ b_epoch b <= epoch)%Z ->
  one_stream bin epoch (b_payload b) stream ->
  Forall (fun m => forall last, dedup (tables s) !! bin_scope station m = Some last ->
    (last < dl_seq m)%Z) stream ->
  (Z.abs (b_uop b) + volume stream <= 2147483647)%Z ->
  redelivery [] stream msgs ->
  let s' := deliver announce binManifest (map (pair station) msgs) s in
  b_uop <$> bins (tables s') !! bin = Some (b_uop b + total stream)%Z.
Proof.
  intros Hs Hp Hf Hb He Hst Hah Hv Hr.
  assert (Hcu : caught_up station bin epoch (b_payload b) [] stream (b_uop b) s).
  { constructor; [done| |by constructor|done]. by exists b. }
  clear Hf Hb He Hah. revert Hst Hv Hcu. generalize (b_uop b) as u. generalize (b_payload b) as lbl.
  clear b. revert s. induction Hr as [seen|seen m stream msgs Hr IH|seen m stream msgs Hin Hr IH];
    intros s lbl u Hst Hv Hcu; cbn [map deliver].
  - destruct Hcu as [_ (b & -> & <- & _) _ _]. cbn. f_equal. lia.
  - apply caught_up_next with (announce := announce) (binManifest := binManifest) in Hcu; [|done..].
    destruct Hst as [Hsame Hris]. apply Forall_cons in Hsame as [_ Hsame].
    apply StronglySorted_inv in Hris as [Hris _]. cbn [volume foldr] in Hv. fold (volume stream) in Hv.
    rewrite (IH _ lbl (u + dl_delta m)%Z); [|by constructor|lia|done].
    cbn [total foldr]. fold (total stream). f_equal. lia.
  - apply (IH _ lbl u); [done..|]. by apply caught_up_again.
Qed.

(** Exactly once, under retries.  When a station's stream of reports for one
    bin and one generation is delivered in order, each report any number of
    times again later, over a healthy connection, the bin ends at its count
    before plus the sum of the reports - none lost, none counted twice - as
    long as the sums stay within the column. *)
Theorem delta_exactly_once (announce : string) (binManifest : option string) (station : string)
    (bin epoch : Z) (stream msgs : list BinUOPDelta) (s : InventoryDeltaService) (b : Bin) :
  station <> "" -> (0 < bin)%Z -> faults (iv_conn s) = [] ->
  bins (tables s) !! bin = Some b -> (epoch <= 0 \/ b_epoch b <= epoch)%Z ->
  one_stream bin epoch (b_payload b) stream ->
  Forall (fun m => forall last, dedup (tables s) !! bin_scope station m = Some last ->
    (last < dl_seq m)%Z) stream ->
  (Z.abs (b_uop b) + volume stream <= 2147483647)%Z ->
  redelivery [] stream msgs ->
  let s' := deliver announce binManifest (map (pair station) msgs) s in
  b_uop <$> bins (tables s') !! bin = Some (b_uop b + total stream)%Z.
Proof. apply stream_applied. Qed.

(** ** Crossings

    A crossing is closed only by a delta that lands the bin back at zero or
    more; a reset that does so in between leaves it open. *)

(** A capture that overdraws the bin opens a crossing and clears the bin in one
    transaction: the bin reads 0 and the crossing stays open. *)
Example capture_leaves_crossing_open :
  let s' := (ApplyBinUOPDelta "t" (Some "t") "E"
    (Some (mkDelta 10 "P1" (-41) ReasonCaptureReduction 1 3)) demo_service).2 in
  b_uop <$> bins (tables s') !! 10%Z = Some 0%Z /\
  existsb (open_crossing 10) (exceptions (tables s')) = true.
Proof. split; vm_compute; reflexivity. Qed.

(** Loading a bin that ran negative and overdrawing it again opens a second
    crossing beside the first. *)
Example two_crossings_open :
  let s1 := (ApplyBinUOPDelta "t" (Some "t") "E" (Some (demo_delta (-50) 1 3)) demo_service).2 in
  let c2 := (SetForProduction "t" 10 [("P1", 40%Z)] "P1" 40 (iv_conn s1)).2 in
  let s3 := (ApplyBinUOPDelta "t" (Some "t") "E" (Some (demo_delta (-50) 2 4))
    (mkIDS c2 ∅ 0 0)).2 in
  length (List.filter (open_crossing 10) (exceptions (tables s3))) = 2.
Proof. vm_compute. reflexivity. Qed.

(** ** Lineside buckets *)

(** The separator, and texts without it. *)
Definition bar : Ascii.ascii := Ascii.ascii_of_nat 124.

Fixpoint no_bar (s : string) : bool :=
  match s with
  | EmptyString => true
  | String a r => negb (Ascii.eqb a bar) && no_bar r
  end.

Lemma bar_split a b x y :
  no_bar a = true -> no_bar b = true -> a +:+ "|" +:+ x = b +:+ "|" +:+ y -> a = b /\ x = y.
Proof.
  revert b. induction a as [|ca a IH]; intros [|cb b] Ha Hb H; cbn in Ha, Hb, H.
  - by injection H.
  - injection H as <- _. discriminate Hb.
  - injection H as -> _. discriminate Ha.
  - injection H as -> H. apply andb_true_iff in Ha as [_ Ha], Hb as [_ Hb].
    by destruct (IH b Ha Hb H) as [-> ->].
Qed.

Lemma no_bar_digits x s : no_bar s = true -> no_bar (pretty_N_go x s) = true.
Proof.
  revert s. induction (N.lt_wf_0 x) as [x _ IH]; intros s Hs.
  assert (x = 0 \/ 0 < x)%N as [->|Hx] by lia; [by rewrite pretty_N_go_0|].
  rewrite pretty_N_go_step by done. apply IH; [by apply N.div_lt|]. cbn.
  rewrite Hs, andb_true_r. unfold pretty_N_char. by repeat case_match.
Qed.

Lemma no_bar_pretty (z : Z) : no_bar (pretty z) = true.
Proof.
  assert (HN : forall n : N, no_bar (pretty n) = true).
  { intros n. unfold pretty, pretty_N. case_decide; [done|]. by apply no_bar_digits. }
  destruct z; [done|apply HN|]. unfold pretty, pretty_Z. cbn. apply HN.
Qed.

(** The scope key identifies the bucket, as long as node and pair names are
    free of the separator (part numbers may contain it). *)
Lemma bucket_scope_injective n p s q n' p' s' q' :
  no_bar n = true -> no_bar n' = true -> no_bar p = true -> no_bar p' = true ->
  bucketScopeKey n p s q = bucketScopeKey n' p' s' q' -> (n, p, s, q) = (n', p', s', q').
Proof.
  unfold bucketScopeKey. intros Hn Hn' Hp Hp' H.
  apply bar_split in H as [-> H]; [|done..]. apply bar_split in H as [-> H]; [|done..].
  apply bar_split in H as [H ->]; [|apply no_bar_pretty..]. by apply (inj pretty) in H as ->.
Qed.

(** Without that two buckets share one sequence. *)
Example bucket_scope_collision :
  bucketScopeKey "A|B" "C" 1 "P" = bucketScopeKey "A" "B|C" 1 "P".
Proof. reflexivity. Qed.

Definition bucket_qty (k : BucketKey) (d : CoreDB) : Z :=
  match buckets d !! k with Some bk => bk_qty bk | None => 0 end.

(** The upsert followed by the collection of an emptied row. *)
Lemma upsert_gc_ok station m d n d1 :
  ((bd_delta m < 0)%Z -> is_Some (buckets d !! bucket_key m)) ->
  upsert_bucket station m d = Some (n, d1) ->
  let q := (bucket_qty (bucket_key m) d + bd_delta m)%Z in
  (0 <= q)%Z /\ bins (gc_bucket m d1) = bins d /\ dedup (gc_bucket m d1) = dedup d /\
  (forall k, k <> bucket_key m -> buckets (gc_bucket m d1) !! k = buckets d !! k) /\
  if (q =? 0)%Z then buckets (gc_bucket m d1) !! bucket_key m = None
  else exists bk, buckets (gc_bucket m d1) !! bucket_key m = Some bk /\ bk_qty bk = q /\
         bk_station bk = station.
Proof.
  intros Hex H q. unfold upsert_bucket in H. destruct (int4 (bd_delta m)); [|done].
  assert (Hup : exists bk, d1 = set_buckets <[bucket_key m := bk]> d /\ bk_qty bk = q /\
    bk_station bk = station /\ (0 <= q)%Z).
  { unfold q, bucket_qty.
    destruct (buckets d !! bucket_key m) as [bk|] eqn:E.
    - destruct (int4 (bk_qty bk + bd_delta m) && (0 <=? bk_qty bk + bd_delta m)%Z) eqn:C; [|done].
      apply andb_true_iff in C as [_ C%Z.leb_le]. injection H as _ <-. eexists. by split_and!.
    - injection H as _ <-. destruct (decide (bd_delta m < 0)%Z) as [Hn|Hn].
      + destruct (Hex Hn). done.
      + eexists. split_and!; [done|cbn; lia|done|lia]. }
  destruct Hup as (bk & -> & Hq & Hs & Hge). split; [done|]. unfold gc_bucket.
  cbn [buckets set_buckets]. rewrite lookup_insert_eq, Hq.
  destruct (q =? 0)%Z; cbn [bins dedup buckets set_buckets]; split_and!; try done.
  - intros k Hk. rewrite lookup_delete_ne, lookup_insert_ne by congruence. done.
  - apply lookup_delete_eq.
  - intros k Hk. by rewrite lookup_insert_ne by congruence.
  - exists bk. by rewrite lookup_insert_eq.
Qed.

(** A lineside bucket moves by what was reported and never below zero.  An
    accepted bucket report names a node Core knows, carries a sequence number
    above every earlier one of its scope, and leaves that bucket - and no other
    bucket and no bin - at its quantity plus the reported amount, which is not
    negative, the row removed when it reaches zero; a refused one (a replay, a
    reduction of a missing bucket, an overdraw, an unknown node, a driver
    fault) changes nothing, so it may be retried. *)
Theorem bucket_one_effect (station : string) (d : option LinesideBucketDelta) (c c' : Conn CoreDB)
    (r : outcome error unit) :
  ApplyLinesideBucketDelta station d c = (r, c') ->
  match r with
  | Err _ => db c' = db c
  | Ok _ => exists m, d = Some m /\ node_named (bd_node m) (db c) = true /\
      let k := bucket_key m in
      let scope := (station, invDeltaScopeBucket,
        bucketScopeKey (bd_node m) (bd_pair m) (bd_style m) (bd_part m), 0%Z) in
      let q := (bucket_qty k (db c) + bd_delta m)%Z in
      (0 <= q)%Z /\ bucket_qty k (db c') = q /\
      (q = 0%Z -> buckets (db c') !! k = None) /\
      (forall k', k' <> k -> buckets (db c') !! k' = buckets (db c) !! k') /\
      bins (db c') = bins (db c) /\
      (forall last, dedup (db c) !! scope = Some last -> (last < bd_seq m)%Z) /\
      dedup (db c') = <[scope := bd_seq m]> (dedup (db c))
  end.
Proof.
  unfold ApplyLinesideBucketDelta. destruct d as [m|]; [|by intros [= <- <-]].
  destruct (_ || _ || _); [by intros [= <- <-]|]. intros H. destruct r as [[]|e].
  2: { apply sbind_err in H as [[H _]%stmt_err|(known & c1 & [_ H1]%query_ok & H)]; [done|].
       rewrite <- H1. destruct known; [by apply tx_err in H|by injection H as _ <-]. }
  apply sbind_ok in H as (known & c1 & [Hkn H1]%query_ok & H).
  destruct known; [|done]. exists m. split; [done|]. split; [done|]. cbv zeta.
  apply tx_ok in H as (k & c2 & c3 & Hd2 & Hb & Hd). rewrite H1 in *.
  apply sbind_ok in Hb as (ap & c4 & H4%claim_sequence_ok & Hb). destruct ap; [|done].
  destruct H4 as [Hfresh Hd4]. cbn [negb] in Hb.
  apply sbind_ok in Hb as ([] & c5 & H5 & Hb).
  assert (Hex : db c5 = db c4 /\ ((bd_delta m < 0)%Z -> is_Some (buckets (db c4) !! bucket_key m))).
  { destruct (Z.ltb_spec (bd_delta m) 0).
    - apply sbind_ok in H5 as (ex & c6 & [-> Hq]%query_ok & H5).
      destruct (bool_decide _) eqn:B; [|done]. apply bool_decide_eq_true in B.
      injection H5 as <-. by split.
    - injection H5 as <-. split; [done|lia]. }
  destruct Hex as [Hd5 Hex].
  apply sbind_ok in Hb as (n & c6 & H6%stmt_checked_ok & Hb). destruct (n =? 0)%nat; [done|].
  apply sbind_ok in Hb as ([] & c7 & H7%exec_ok & [= <- <-]).
  rewrite Hd5 in H6. apply upsert_gc_ok in H6 as (Hge & Hbins & Hdd & Hoth & Hq); [|done].
  rewrite <- H7, <- Hd in Hbins, Hdd, Hoth, Hq. rewrite Hd4, Hd2 in *. cbn [bins dedup set_dedup] in *.
  change (bucket_qty (bucket_key m) (set_dedup _ (db c))) with (bucket_qty (bucket_key m) (db c)) in *.
  split; [done|]. split_and!; [..|done|done|done|done].
  - unfold bucket_qty at 1. destruct (Z.eqb_spec (bucket_qty (bucket_key m) (db c) + bd_delta m) 0) as [E|E].
    + by rewrite Hq, E.
    + destruct Hq as (bk & -> & <- & _). done.
  - intros E. by rewrite E in Hq.
Qed.

