(* ===== verification/Accumulator.v ===== *)
(** The Edge's delta accumulator (shingo-edge/uop/accumulator.go): counts
    recorded by any number of callers are summed per scope in shared entries and
    shipped by one flush pass at a time, without ever holding a lock across the
    database work.  Callers, the flush pass and the eviction of idle entries
    interleave at every point where no lock is held, so the model is a step
    relation over a heap of entries: the map holds pointers, a caller may hold a
    pointer the map has already dropped, and the flush pass subtracts what it
    sent only after it has been enqueued.

    The bin and the bucket accumulator are the same machine over two scopes;
    [Scope] is what they differ in. *)

From stdpp Require Import pretty sorting.
From S2P Require Import Prelude.

(** ** Scopes *)

(** [L] is an entry's identity and metadata.  [sc_note first old new]: the
    metadata after a record, [first] when the entry's delta was zero;
    [sc_settle]: after a flush that left nothing; [sc_epoch]: the generation the
    sequence is allocated under; [sc_resolve]: the metadata to put on the wire;
    [sc_droppable]: it may be missing - not found, or the lookup failed - and
    then the delta is given up. *)
Record Scope (L : Type) := mkScope {
  sc_kind : string;
  sc_valid : L -> bool;
  sc_key : L -> string;
  sc_note : bool -> L -> L -> L;
  sc_settle : L -> L;
  sc_epoch : L -> Z;
  sc_resolve : L -> option L;
  sc_droppable : L -> bool
}.
Arguments sc_kind {L} s. Arguments sc_valid {L} s _. Arguments sc_key {L} s _.
Arguments sc_note {L} s _ _ _. Arguments sc_settle {L} s _. Arguments sc_epoch {L} s _.
Arguments sc_resolve {L} s _. Arguments sc_droppable {L} s _.

(** What the machine relies on: metadata updates keep an entry's key, and the
    wire carries the entry's own key and generation; only a droppable entry has
    no wire identity. *)
Class ScopeLaws {L} (sc : Scope L) : Prop := {
  note_key : forall first old new, sc_key sc (sc_note sc first old new) = sc_key sc old;
  settle_key : forall l, sc_key sc (sc_settle sc l) = sc_key sc l;
  resolve_key : forall l l', sc_resolve sc l = Some l' -> sc_key sc l' = sc_key sc l;
  resolve_epoch : forall l l', sc_resolve sc l = Some l' -> sc_epoch sc l' = sc_epoch sc l;
  resolve_none : forall l, sc_resolve sc l = None -> sc_droppable sc l = true
}.

(** *** Bins (binDeltaEntry) *)

Record BinLabel := mkBinLabel {
  bl_bin : Z; bl_payload : string; bl_reason : string; bl_epoch : Z }.

(** The first contribution anchors payload and epoch; a later one only rolls
    the epoch forward; the reason is always the latest. *)
Definition note_bin (first : bool) (old new : BinLabel) : BinLabel :=
  if first then mkBinLabel (bl_bin old) (bl_payload new) (bl_reason new) (bl_epoch new)
  else mkBinLabel (bl_bin old) (bl_payload old) (bl_reason new)
         (if (bl_epoch old <? bl_epoch new)%Z then bl_epoch new else bl_epoch old).

Definition binScope : Scope BinLabel :=
  mkScope _ "bin" (fun l => (0 <? bl_bin l)%Z) (fun l => pretty (bl_bin l)) note_bin
    (fun l => mkBinLabel (bl_bin l) (bl_payload l) "" (bl_epoch l)) bl_epoch Some
    (fun _ => false).

#[export] Instance bin_scope_laws : ScopeLaws binScope.
Proof. split; [by intros []|done|by intros l l' [= ->]..|done]. Qed.

(** *** Lineside buckets (bucketDeltaEntry) *)

Record BucketLabel := mkBucketLabel {
  kl_node : Z; kl_core : string; kl_pair : string; kl_style : Z; kl_part : string;
  kl_payload : string; kl_reason : string }.

Definition bucketScopeKey (nodeID : Z) (pairKey : string) (styleID : Z) (partNumber : string)
    : string :=
  pretty nodeID +:+ "|" +:+ pairKey +:+ "|" +:+ pretty styleID +:+ "|" +:+ partNumber.

(** An empty payload code never wipes a latched one. *)
Definition note_bucket (first : bool) (old new : BucketLabel) : BucketLabel :=
  mkBucketLabel (kl_node old) (kl_core old) (kl_pair old) (kl_style old) (kl_part old)
    (if kl_payload new =s "" then kl_payload old else kl_payload new) (kl_reason new).

(** The wire needs Core's name of the node: the entry's own, or the one
    [GetProcessNode] finds ([nodes]). *)
Definition resolve_bucket (nodes : gmap Z string) (l : BucketLabel) : option BucketLabel :=
  let core := if kl_core l =s "" then default "" (nodes !! kl_node l) else kl_core l in
  if core =s "" then None
  else Some (mkBucketLabel (kl_node l) core (kl_pair l) (kl_style l) (kl_part l) (kl_payload l)
    (kl_reason l)).

Definition bucketScope (nodes : gmap Z string) : Scope BucketLabel :=
  mkScope _ "bucket" (fun l => (0 <? kl_node l)%Z && (kl_part l <>s ""))
    (fun l => bucketScopeKey (kl_node l) (kl_pair l) (kl_style l) (kl_part l)) note_bucket
    (fun l => mkBucketLabel (kl_node l) (kl_core l) (kl_pair l) (kl_style l) (kl_part l)
      (kl_payload l) "") (fun _ => 0%Z) (resolve_bucket nodes)
    (fun l => kl_core l =s "").

#[export] Instance bucket_scope_laws nodes : ScopeLaws (bucketScope nodes).
Proof.
  split; [done|done|intros l l'; cbn; unfold resolve_bucket; by case_match; intros [= <-]..|].
  intros l. cbn. unfold resolve_bucket. destruct (kl_core l =s "") eqn:E; [done|]. by rewrite E.
Qed.

(** ** Entries *)

(** Times are [None] for Go's zero time. *)
Record Entry (L : Type) := mkEntry {
  en_lab : L;
  en_delta : Z;
  en_start : option Z;
  en_end : option Z;
  en_touched : option Z;
  en_evicted : bool
}.
Arguments mkEntry {L} _ _ _ _ _ _.
Arguments en_lab {L} e. Arguments en_delta {L} e. Arguments en_start {L} e.
Arguments en_end {L} e. Arguments en_touched {L} e. Arguments en_evicted {L} e.

(** An envelope in the outbox. *)
Record Msg (L : Type) := mkMsg {
  ms_lab : L; ms_delta : Z; ms_seq : Z; ms_start : option Z; ms_end : option Z }.
Arguments mkMsg {L} _ _ _ _ _.
Arguments ms_lab {L} m. Arguments ms_delta {L} m. Arguments ms_seq {L} m.
Arguments ms_start {L} m. Arguments ms_end {L} m.

Section Machine.
Context {L : Type} (sc : Scope L).

Definition new_entry (l : L) (now : Z) : Entry L :=
  mkEntry (sc_settle sc l) 0 (Some now) None None false.

(** The locked part of recordBin / recordBucket. *)
Definition add_record (l : L) (delta now : Z) (e : Entry L) : Entry L :=
  let first := en_delta e =i 0 in
  mkEntry (sc_note sc first (en_lab e) l) (en_delta e + delta)
    (if first then Some now else en_start e) (Some now) (Some now) (en_evicted e).

(** The locked commit of a flush: subtract the snapshot [snap]; [touch] is the
    time stamped, which the drop of an unsendable delta leaves alone. *)
Definition commit_entry (snap : Entry L) (touch : option Z) (e : Entry L) : Entry L :=
  let delta := (en_delta e - en_delta snap)%Z in
  let touched := match touch with Some t => Some t | None => en_touched e end in
  if delta =i 0 then mkEntry (sc_settle sc (en_lab e)) delta None None touched (en_evicted e)
  else mkEntry (en_lab e) delta (en_end snap) (en_end e) touched (en_evicted e).

Definition hour : Z := 3600.

Definition idle (cutoff : Z) (e : Entry L) : bool :=
  (en_delta e =i 0) &&
  match en_touched e with Some t => (t <? cutoff)%Z | None => false end.

Definition mark_evicted (e : Entry L) : Entry L :=
  mkEntry (en_lab e) (en_delta e) (en_start e) (en_end e) (en_touched e) true.

(** ** The shared state *)

(** Where a record call stands: before LoadOrStore, holding a pointer, or about
    to clear a stale pointer it found evicted. *)
Inductive Stage := RStart | RHas (p : nat) | RStale (p : nat).

Record Call := mkCall { ca_lab : L; ca_delta : Z; ca_now : Z; ca_stage : Stage }.

(** Where the flush pass stands; [seen] are the keys its Range has visited. *)
Inductive Flusher :=
| FIdle
| FPass (seen : list string)
| FSend (seen : list string) (k : string) (p : nat) (snap : Entry L)
| FSeq (seen : list string) (k : string) (p : nat) (snap : Entry L) (wire : L) (seq : Z)
| FSent (seen : list string) (k : string) (p : nat) (snap : Entry L)
| FEvict (cutoff : Z) (seen : list string)
| FMarked (cutoff : Z) (seen : list string) (k : string) (p : nat).

(** [recorded] and [dropped] are history, not state: every delta a call has
    added and every one the flush has given up on, with its label. *)
Record Acc := mkAcc {
  heap : list (Entry L);
  table : gmap string nat;
  calls : list Call;
  flusher : Flusher;
  seqs : gmap (string * Z) Z;
  outbox : list (Msg L);
  flushFailures : Z;
  now : Z;
  recorded : list (L * Z);
  dropped : list (L * Z)
}.

Definition init : Acc := mkAcc [] ∅ [] FIdle ∅ [] 0 0 [] [].

(** The process dies and comes back: the accumulator is memory, the sequence rows
    and the outbox are not, and the history begins again with what they hold. *)
Definition restart (s : Acc) : Acc :=
  mkAcc [] ∅ [] FIdle (seqs s) (outbox s) 0 (now s)
    (map (fun m => (ms_lab m, ms_delta m)) (outbox s)) [].

(** LoadOrStore. *)
Definition load_or_store (l : L) (t : Z) (s : Acc) : nat * list (Entry L) * gmap string nat :=
  match table s !! sc_key sc l with
  | Some p => (p, heap s, table s)
  | None => (length (heap s), heap s ++ [new_entry l t], <[sc_key sc l := length (heap s)]> (table s))
  end.

(** CompareAndDelete: only this pointer. *)
Definition compare_and_delete (k : string) (p : nat) (t : gmap string nat) : gmap string nat :=
  if bool_decide (t !! k = Some p) then delete k t else t.

(** The sequence number an allocation returns: next_seq starts at 1. *)
Definition next_seq (k : string) (epoch : Z) (s : Acc) : Z :=
  match seqs s !! (k, epoch) with Some n => n + 1 | None => 1 end.

Definition with_calls (cs : list Call) (s : Acc) : Acc :=
  mkAcc (heap s) (table s) cs (flusher s) (seqs s) (outbox s) (flushFailures s) (now s) (recorded s)
    (dropped s).
Definition with_flusher (f : Flusher) (s : Acc) : Acc :=
  mkAcc (heap s) (table s) (calls s) f (seqs s) (outbox s) (flushFailures s) (now s) (recorded s)
    (dropped s).
Definition with_heap (h : list (Entry L)) (s : Acc) : Acc :=
  mkAcc h (table s) (calls s) (flusher s) (seqs s) (outbox s) (flushFailures s) (now s) (recorded s)
    (dropped s).
Definition with_table (t : gmap string nat) (s : Acc) : Acc :=
  mkAcc (heap s) t (calls s) (flusher s) (seqs s) (outbox s) (flushFailures s) (now s) (recorded s)
    (dropped s).
Definition fail_flush (s : Acc) : Acc :=
  mkAcc (heap s) (table s) (calls s) (flusher s) (seqs s) (outbox s) (flushFailures s + 1) (now s)
    (recorded s) (dropped s).
Definition with_seq (k : string) (epoch n : Z) (s : Acc) : Acc :=
  mkAcc (heap s) (table s) (calls s) (flusher s) (<[(k, epoch) := n]> (seqs s)) (outbox s)
    (flushFailures s) (now s) (recorded s) (dropped s).
Definition enqueue (m : Msg L) (s : Acc) : Acc :=
  mkAcc (heap s) (table s) (calls s) (flusher s) (seqs s) (outbox s ++ [m]) (flushFailures s) (now s)
    (recorded s) (dropped s).
Definition note_recorded (l : L) (delta : Z) (s : Acc) : Acc :=
  mkAcc (heap s) (table s) (calls s) (flusher s) (seqs s) (outbox s) (flushFailures s) (now s)
    (recorded s ++ [(l, delta)]) (dropped s).
Definition note_dropped (l : L) (delta : Z) (s : Acc) : Acc :=
  mkAcc (heap s) (table s) (calls s) (flusher s) (seqs s) (outbox s) (flushFailures s) (now s)
    (recorded s) (dropped s ++ [(l, delta)]).
Definition with_now (t : Z) (s : Acc) : Acc :=
  mkAcc (heap s) (table s) (calls s) (flusher s) (seqs s) (outbox s) (flushFailures s) t (recorded s)
    (dropped s).

(** ** Steps

    One constructor per stretch of code between two points where another
    goroutine may run. *)
Inductive Step : Acc -> Acc -> Prop :=
(** Time passes. *)
| st_tick s t : (now s <= t)%Z -> Step s (with_now t s)
(** A record call begins; zero deltas and invalid scopes return at once. *)
| st_call s l delta :
    delta <> 0%Z -> sc_valid sc l = true ->
    Step s (with_calls (calls s ++ [mkCall l delta (now s) RStart]) s)
| st_load s cs1 cs2 l delta t p h tb :
    calls s = cs1 ++ mkCall l delta t RStart :: cs2 ->
    load_or_store l t s = (p, h, tb) ->
    Step s (with_table tb (with_heap h (with_calls (cs1 ++ mkCall l delta t (RHas p) :: cs2) s)))
| st_found_evicted s cs1 cs2 l delta t p e :
    calls s = cs1 ++ mkCall l delta t (RHas p) :: cs2 ->
    heap s !! p = Some e -> en_evicted e = true ->
    Step s (with_calls (cs1 ++ mkCall l delta t (RStale p) :: cs2) s)
| st_clear_stale s cs1 cs2 l delta t p :
    calls s = cs1 ++ mkCall l delta t (RStale p) :: cs2 ->
    Step s (with_table (compare_and_delete (sc_key sc l) p (table s))
      (with_calls (cs1 ++ mkCall l delta t RStart :: cs2) s))
| st_record s cs1 cs2 l delta t p e :
    calls s = cs1 ++ mkCall l delta t (RHas p) :: cs2 ->
    heap s !! p = Some e -> en_evicted e = false ->
    Step s (note_recorded l delta (with_heap (<[p := add_record l delta t e]> (heap s))
      (with_calls (cs1 ++ cs2) s)))
(** A flush pass; [flushMu] admits one at a time.  Range visits a key once, with
    any pointer stored under it at some point of the pass. *)
| st_flush s : flusher s = FIdle -> Step s (with_flusher (FPass []) s)
| st_skip s seen k p e :
    flusher s = FPass seen -> k ∉ seen -> heap s !! p = Some e -> sc_key sc (en_lab e) = k ->
    en_delta e = 0%Z -> Step s (with_flusher (FPass (k :: seen)) s)
| st_snapshot s seen k p e :
    flusher s = FPass seen -> k ∉ seen -> heap s !! p = Some e -> sc_key sc (en_lab e) = k ->
    en_delta e <> 0%Z -> Step s (with_flusher (FSend (k :: seen) k p e) s)
(** No wire identity: the delta is dropped for good. *)
| st_drop s seen k p snap e :
    flusher s = FSend seen k p snap -> sc_droppable sc (en_lab snap) = true ->
    heap s !! p = Some e ->
    Step s (note_dropped (en_lab snap) (en_delta snap)
      (with_heap (<[p := commit_entry snap None e]> (heap s))
        (with_flusher (FPass seen) (fail_flush s))))
| st_alloc_fails s seen k p snap wire :
    flusher s = FSend seen k p snap -> sc_resolve sc (en_lab snap) = Some wire ->
    Step s (with_flusher (FPass seen) s)
| st_alloc s seen k p snap wire :
    flusher s = FSend seen k p snap -> sc_resolve sc (en_lab snap) = Some wire ->
    let n := next_seq k (sc_epoch sc (en_lab snap)) s in
    Step s (with_seq k (sc_epoch sc (en_lab snap)) n (with_flusher (FSeq seen k p snap wire n) s))
(** Building or encoding the envelope fails: logged, not counted. *)
| st_encode_fails s seen k p snap wire n :
    flusher s = FSeq seen k p snap wire n -> Step s (with_flusher (FPass seen) s)
| st_enqueue_fails s seen k p snap wire n :
    flusher s = FSeq seen k p snap wire n -> Step s (fail_flush (with_flusher (FPass seen) s))
| st_enqueue s seen k p snap wire n :
    flusher s = FSeq seen k p snap wire n ->
    Step s (enqueue (mkMsg wire (en_delta snap) n (en_start snap) (en_end snap))
      (with_flusher (FSent seen k p snap) s))
| st_commit s seen k p snap e :
    flusher s = FSent seen k p snap -> heap s !! p = Some e ->
    Step s (with_heap (<[p := commit_entry snap (Some (now s)) e]> (heap s))
      (with_flusher (FPass seen) s))
(** The eviction that ends the pass. *)
| st_evict s seen :
    flusher s = FPass seen -> Step s (with_flusher (FEvict (now s - hour) []) s)
| st_keep s cutoff seen k p e :
    flusher s = FEvict cutoff seen -> k ∉ seen -> heap s !! p = Some e -> sc_key sc (en_lab e) = k ->
    idle cutoff e = false -> Step s (with_flusher (FEvict cutoff (k :: seen)) s)
| st_mark s cutoff seen k p e :
    flusher s = FEvict cutoff seen -> k ∉ seen -> heap s !! p = Some e -> sc_key sc (en_lab e) = k ->
    idle cutoff e = true ->
    Step s (with_heap (<[p := mark_evicted e]> (heap s))
      (with_flusher (FMarked cutoff (k :: seen) k p) s))
| st_remove s cutoff seen k p :
    flusher s = FMarked cutoff seen k p ->
    Step s (with_table (compare_and_delete k p (table s)) (with_flusher (FEvict cutoff seen) s))
| st_done s cutoff seen : flusher s = FEvict cutoff seen -> Step s (with_flusher FIdle s).

(** ** A call with nothing in between *)

(** The retry loop of recordBin / recordBucket: an evicted entry is cleared from
    the map and a fresh one stored. *)
Definition drop_stale (k : string) (s : Acc) : Acc :=
  match table s !! k with
  | Some p =>
      match heap s !! p with
      | Some e => if en_evicted e then with_table (compare_and_delete k p (table s)) s else s
      | None => s
      end
  | None => s
  end.

Definition record_call (l : L) (delta : Z) (s : Acc) : Acc :=
  if delta =i 0 then s
  else if negb (sc_valid sc l) then s
  else
    let s1 := drop_stale (sc_key sc l) s in
    let '(p, h, tb) := load_or_store l (now s1) s1 in
    match h !! p with
    | Some e => note_recorded l delta
        (with_heap (<[p := add_record l delta (now s1) e]> h) (with_table tb s1))
    | None => s
    end.

(** ** One pass with nothing in between

    The flush as one goroutine executes it when the database answers and no
    other step intervenes. *)

Definition flush_entry (k : string) (p : nat) (seen : list string) (s : Acc) : Acc :=
  match heap s !! p with
  | None => s
  | Some e =>
      if en_delta e =i 0 then with_flusher (FPass (k :: seen)) s else
      match sc_resolve sc (en_lab e) with
      | None => note_dropped (en_lab e) (en_delta e)
          (with_heap (<[p := commit_entry e None e]> (heap s))
            (with_flusher (FPass (k :: seen)) (fail_flush s)))
      | Some wire =>
          let n := next_seq k (sc_epoch sc (en_lab e)) s in
          with_heap (<[p := commit_entry e (Some (now s)) e]> (heap s))
            (with_flusher (FPass (k :: seen))
              (enqueue (mkMsg wire (en_delta e) n (en_start e) (en_end e))
                (with_seq k (sc_epoch sc (en_lab e)) n s)))
      end
  end.

Fixpoint flush_entries (l : list (string * nat)) (seen : list string) (s : Acc) : Acc :=
  match l with
  | [] => s
  | (k, p) :: rest => flush_entries rest (k :: seen) (flush_entry k p seen s)
  end.

Definition evict_entry (cutoff : Z) (k : string) (p : nat) (seen : list string) (s : Acc) : Acc :=
  match heap s !! p with
  | None => s
  | Some e =>
      if idle cutoff e
      then with_table (compare_and_delete k p (table s))
             (with_heap (<[p := mark_evicted e]> (heap s)) (with_flusher (FEvict cutoff (k :: seen)) s))
      else with_flusher (FEvict cutoff (k :: seen)) s
  end.

Fixpoint evictIdle (cutoff : Z) (l : list (string * nat)) (seen : list string) (s : Acc) : Acc :=
  match l with
  | [] => s
  | (k, p) :: rest => evictIdle cutoff rest (k :: seen) (evict_entry cutoff k p seen s)
  end.

Definition flush (s : Acc) : Acc :=
  let s1 := flush_entries (map_to_list (table s)) [] (with_flusher (FPass []) s) in
  let cutoff := (now s1 - hour)%Z in
  with_flusher FIdle
    (evictIdle cutoff (map_to_list (table s1)) [] (with_flusher (FEvict cutoff []) s1)).
End Machine.

(** *** The calls of the package *)

Definition recordBin (binID : Z) (payloadCode : string) (delta : Z) (reason : string) (epoch : Z)
    : @Acc BinLabel -> @Acc BinLabel :=
  record_call binScope (mkBinLabel binID payloadCode reason epoch) delta.

Definition recordBucket (nodes : gmap Z string) (nodeID : Z) (coreNodeName pairKey : string) (styleID : Z)
    (partNumber payloadCode : string) (delta : Z) (reason : string)
    : @Acc BucketLabel -> @Acc BucketLabel :=
  record_call (bucketScope nodes)
    (mkBucketLabel nodeID coreNodeName pairKey styleID partNumber payloadCode reason) delta.

(** ** The invariant *)

Section Correct.
Context {L : Type} (sc : Scope L) `{!ScopeLaws sc}.

Notation key e := (sc_key sc (en_lab e)).

(** Sums per key. *)
Definition pending (k : string) (h : list (Entry L)) : Z :=
  foldr (fun e acc => ((if key e =s k then en_delta e else 0) + acc)%Z) 0%Z h.
Definition shipped (k : string) (ms : list (Msg L)) : Z :=
  foldr (fun m acc => ((if sc_key sc (ms_lab m) =s k then ms_delta m else 0) + acc)%Z) 0%Z ms.
Definition booked (k : string) (rs : list (L * Z)) : Z :=
  foldr (fun r acc => ((if sc_key sc r.1 =s k then r.2 else 0) + acc)%Z) 0%Z rs.

Arguments pending : simpl never.
Arguments shipped : simpl never.
Arguments booked : simpl never.

(** Enqueued but not yet subtracted. *)
Definition in_flight (k : string) (f : @Flusher L) : Z :=
  match f with FSent _ k' _ snap => if k' =s k then en_delta snap else 0%Z | _ => 0%Z end.

(** A call's pointer is to an entry of its own key; a pointer found evicted is
    to an evicted entry. *)
Definition wf_call (h : list (Entry L)) (c : @Call L) : Prop :=
  match ca_stage c with
  | RStart => True
  | RHas p => exists e, h !! p = Some e /\ key e = sc_key sc (ca_lab c)
  | RStale p => exists e, h !! p = Some e /\ key e = sc_key sc (ca_lab c) /\ en_evicted e = true
  end.

Definition wf_flusher (h : list (Entry L)) (f : @Flusher L) : Prop :=
  match f with
  | FSend _ k p snap | FSent _ k p snap =>
      exists e, h !! p = Some e /\ key e = k /\ en_evicted e = false /\ key snap = k /\
        en_delta snap <> 0%Z
  | FSeq _ k p snap wire _ =>
      exists e, h !! p = Some e /\ key e = k /\ en_evicted e = false /\ key snap = k /\
        en_delta snap <> 0%Z /\ sc_key sc wire = k
  | FMarked _ _ k p => exists e, h !! p = Some e /\ key e = k /\ en_evicted e = true
  | _ => True
  end.

Record inv (s : @Acc L) : Prop := {
  iv_table : forall k p, table s !! k = Some p -> exists e, heap s !! p = Some e /\ key e = k;
  iv_orphan : forall p e, heap s !! p = Some e -> table s !! key e <> Some p -> en_evicted e = true;
  iv_evicted : forall p e, heap s !! p = Some e -> en_evicted e = true -> en_delta e = 0%Z;
  iv_calls : forall c, c ∈ calls s -> wf_call (heap s) c;
  iv_flusher : wf_flusher (heap s) (flusher s);
  iv_sum : forall k, booked k (recorded s) =
    (shipped k (outbox s) + booked k (dropped s) + pending k (heap s) - in_flight k (flusher s))%Z
}.

Lemma pending_app k h e : pending k (h ++ [e]) = (pending k h + if key e =s k then en_delta e else 0)%Z.
Proof. unfold pending. induction h; cbn in *; lia. Qed.

Lemma shipped_app k ms m :
  shipped k (ms ++ [m]) = (shipped k ms + if sc_key sc (ms_lab m) =s k then ms_delta m else 0)%Z.
Proof. unfold shipped. induction ms; cbn in *; lia. Qed.

Lemma booked_app k rs r :
  booked k (rs ++ [r]) = (booked k rs + if sc_key sc r.1 =s k then r.2 else 0)%Z.
Proof. unfold booked. induction rs; cbn in *; lia. Qed.

Lemma pending_cons k e h :
  pending k (e :: h) = ((if key e =s k then en_delta e else 0) + pending k h)%Z.
Proof. done. Qed.

Lemma pending_insert k h p e e' :
  h !! p = Some e -> key e' = key e ->
  pending k (<[p := e']> h) =
  (pending k h + if key e =s k then en_delta e' - en_delta e else 0)%Z.
Proof.
  intros Hp Hk. revert p Hp. induction h as [|x h IH]; intros [|p] Hp; cbn [lookup list_lookup] in Hp;
    try done.
  - injection Hp as ->. change (<[0 := e']> (e :: h)) with (e' :: h). rewrite !pending_cons, Hk.
    destruct (key e =s k); lia.
  - change (<[S p := e']> (x :: h)) with (x :: <[p := e']> h). rewrite !pending_cons, (IH p Hp). lia.
Qed.

(** Replacing an entry by one of the same key that is evicted only if it was or
    holds nothing. *)
Record replaces (e e' : Entry L) : Prop := {
  rp_key : key e' = key e;
  rp_evicted : en_evicted e = true -> en_evicted e' = true;
  rp_empty : en_evicted e' = true -> en_delta e' = 0%Z }.

Lemma wf_call_insert h p e e' c :
  h !! p = Some e -> replaces e e' -> wf_call h c -> wf_call (<[p := e']> h) c.
Proof.
  intros Hp [Hk He _]. unfold wf_call. destruct (ca_stage c) as [|q|q]; [done|..].
  - intros (x & Hx & Hkx). destruct (decide (q = p)) as [->|Hne].
    + exists e'. rewrite list_lookup_insert_eq by (by eapply lookup_lt_Some). split; [done|]. congruence.
    + exists x. by rewrite list_lookup_insert_ne.
  - intros (x & Hx & Hkx & Hev). destruct (decide (q = p)) as [->|Hne].
    + exists e'. rewrite list_lookup_insert_eq by (by eapply lookup_lt_Some).
      assert (x = e) as -> by congruence. split_and!; [done|congruence|auto].
    + exists x. by rewrite list_lookup_insert_ne.
Qed.

Lemma heap_insert_lookup (h : list (Entry L)) (p : nat) (e e' : Entry L) (q : nat) x :
  h !! p = Some e -> <[p := e']> h !! q = Some x -> (q = p /\ x = e') \/ (q <> p /\ h !! q = Some x).
Proof.
  intros Hp. destruct (decide (q = p)) as [->|Hne].
  - rewrite list_lookup_insert_eq by (by eapply lookup_lt_Some). intros [= <-]. by left.
  - rewrite list_lookup_insert_ne by done. by right.
Qed.

(** The pointer facts survive a replacement. *)
Lemma pointers_insert (h : list (Entry L)) (t : gmap string nat) p e e' :
  h !! p = Some e -> replaces e e' ->
  (forall k q, t !! k = Some q -> exists x, h !! q = Some x /\ key x = k) ->
  (forall q x, h !! q = Some x -> t !! key x <> Some q -> en_evicted x = true) ->
  (forall q x, h !! q = Some x -> en_evicted x = true -> en_delta x = 0%Z) ->
  (forall k q, t !! k = Some q -> exists x, <[p := e']> h !! q = Some x /\ key x = k) /\
  (forall q x, <[p := e']> h !! q = Some x -> t !! key x <> Some q -> en_evicted x = true) /\
  (forall q x, <[p := e']> h !! q = Some x -> en_evicted x = true -> en_delta x = 0%Z).
Proof.
  intros Hp [Hk He Hz] Ht Ho Hv. split_and!.
  - intros k q Hq. destruct (Ht k q Hq) as (x & Hx & Hkx). destruct (decide (q = p)) as [->|Hne].
    + exists e'. rewrite list_lookup_insert_eq by (by eapply lookup_lt_Some). split; [done|]. congruence.
    + exists x. by rewrite list_lookup_insert_ne.
  - intros q x [[-> ->]|[Hne Hx]]%(heap_insert_lookup _ _ e); [| |done].
    + rewrite Hk. intros Hno. by eapply He, Ho.
    + by eapply Ho.
  - intros q x [[-> ->]|[Hne Hx]]%(heap_insert_lookup _ _ e); [done| |done]. by eapply Hv.
Qed.
(** A state that differs in its calls and flusher only. *)
Lemma inv_control s s' :
  inv s -> heap s' = heap s -> table s' = table s -> outbox s' = outbox s ->
  recorded s' = recorded s -> dropped s' = dropped s ->
  (forall c, c ∈ calls s' -> wf_call (heap s) c) -> wf_flusher (heap s) (flusher s') ->
  (forall k, in_flight k (flusher s') = in_flight k (flusher s)) -> inv s'.
Proof.
  intros [I1 I2 I3 I4 I5 I6] Hh Ht Ho Hr Hd Hc Hf Hi.
  constructor; rewrite ?Hh, ?Ht, ?Ho, ?Hr, ?Hd; try done. intros k. by rewrite Hi, I6.
Qed.

(** A state with one entry replaced; [gain k] is what the books moved by. *)
Lemma inv_replace s s' p e e' :
  inv s -> heap s !! p = Some e -> replaces e e' ->
  heap s' = <[p := e']> (heap s) -> table s' = table s ->
  (forall c, c ∈ calls s' -> wf_call (heap s) c) -> wf_flusher (<[p := e']> (heap s)) (flusher s') ->
  (forall k, booked k (recorded s') = (shipped k (outbox s') + booked k (dropped s') +
    (pending k (heap s) + if key e =s k then en_delta e' - en_delta e else 0) -
    in_flight k (flusher s'))%Z) -> inv s'.
Proof.
  intros [I1 I2 I3 I4 I5 I6] Hp Hr Hh Ht Hc Hf Hs.
  destruct (pointers_insert (heap s) (table s) p e e' Hp Hr I1 I2 I3) as (J1 & J2 & J3).
  constructor; rewrite ?Hh, ?Ht; try done.
  - intros c Hin. eapply wf_call_insert; [done..|]. by apply Hc.
  - intros k. rewrite Hs, (pending_insert k _ p e e'); [done|done|by destruct Hr].
Qed.

(** A stale pointer leaves the table. *)
Lemma inv_unlink s s' k p e :
  inv s -> heap s !! p = Some e -> key e = k -> en_evicted e = true ->
  heap s' = heap s -> table s' = compare_and_delete k p (table s) -> outbox s' = outbox s ->
  recorded s' = recorded s -> dropped s' = dropped s ->
  (forall c, c ∈ calls s' -> wf_call (heap s) c) -> wf_flusher (heap s) (flusher s') ->
  (forall q, in_flight q (flusher s') = in_flight q (flusher s)) -> inv s'.
Proof.
  intros [I1 I2 I3 I4 I5 I6] Hp Hk Hev Hh Ht Ho Hr Hd Hc Hf Hi.
  constructor; rewrite ?Hh, ?Ht, ?Ho, ?Hr, ?Hd; try done; unfold compare_and_delete.
  - intros q x Hq. destruct (bool_decide _); [|by apply I1].
    apply lookup_delete_Some in Hq as [_ Hq]. by apply I1.
  - intros q x Hq Hno. destruct (decide (table s !! key x = Some q)) as [Hyes|?]; [|by eapply I2].
    destruct (bool_decide (table s !! k = Some p)) eqn:B; [|done]. apply bool_decide_eq_true in B.
    destruct (decide (key x = k)) as [Hkx|Hne]; [|by rewrite lookup_delete_ne in Hno].
    assert (q = p) as -> by congruence. congruence.
  - intros q. by rewrite Hi, I6.
Qed.

(** A fresh entry enters heap and table together. *)
Lemma inv_store s s' l t p :
  inv s -> load_or_store sc l t s = (p, heap s', table s') ->
  outbox s' = outbox s -> recorded s' = recorded s -> dropped s' = dropped s ->
  flusher s' = flusher s ->
  (forall c, c ∈ calls s' -> ca_stage c = RHas p /\ ca_lab c = l \/ wf_call (heap s) c) -> inv s'.
Proof.
  intros [I1 I2 I3 I4 I5 I6] Hl Ho Hr Hd Hf Hc. unfold load_or_store in Hl.
  destruct (table s !! sc_key sc l) as [q|] eqn:Hq.
  - injection Hl as Hp Hh Ht. subst q. symmetry in Hh, Ht.
    constructor; rewrite ?Hh, ?Ht, ?Ho, ?Hr, ?Hd, ?Hf; try done.
    intros c [[Hs <-]|Hw]%Hc; [|done]. unfold wf_call. rewrite Hs. by apply I1.
  - injection Hl as <- Hh Ht. symmetry in Hh, Ht.
    assert (Hfresh : heap s' !! length (heap s) = Some (new_entry sc l t)).
    { rewrite Hh, lookup_app_r, Nat.sub_diag by lia. done. }
    assert (Hold : forall r x, heap s !! r = Some x -> heap s' !! r = Some x).
    { intros r x Hx. rewrite Hh. by apply lookup_app_l_Some. }
    assert (Hkey : key (new_entry sc l t) = sc_key sc l) by apply settle_key.
    constructor; rewrite ?Ho, ?Hr, ?Hd, ?Hf.
    + intros k r. rewrite Ht. intros [[<- <-]|[_ Hk]]%lookup_insert_Some; [by eexists|].
      destruct (I1 k r Hk) as (x & Hx & Hkx). eauto.
    + intros r x Hx Hno. rewrite Hh in Hx. apply lookup_app_Some in Hx as [Hx|[Hge Hx]].
      * eapply I2; [done|]. intros Hy. apply Hno. rewrite Ht, lookup_insert_ne; [done|]. congruence.
      * apply list_lookup_singleton_Some in Hx as [Hz <-]. exfalso. apply Hno.
        rewrite Hkey, Ht, lookup_insert_eq. f_equal. lia.
    + intros r x Hx. rewrite Hh in Hx. apply lookup_app_Some in Hx as [Hx|[Hge Hx]]; [by eapply I3|].
      by apply list_lookup_singleton_Some in Hx as [_ <-].
    + intros c [[Hs <-]|Hw]%Hc; unfold wf_call in *.
      * rewrite Hs. eauto.
      * destruct (ca_stage c); [done|..]; naive_solver.
    + unfold wf_flusher in *. destruct (flusher s); try done; naive_solver.
    + intros k. rewrite Hh, pending_app. cbn [new_entry en_delta]. rewrite I6. destruct (_ =s _); lia.
Qed.

Lemma commit_replaces snap touch e :
  en_evicted e = false -> replaces e (commit_entry sc snap touch e).
Proof.
  intros Hev. unfold commit_entry. destruct (_ =i 0) eqn:Hz; constructor; cbn; try congruence.
  apply settle_key.
Qed.

Lemma commit_delta snap touch e :
  en_delta (commit_entry sc snap touch e) = (en_delta e - en_delta snap)%Z.
Proof. unfold commit_entry. by destruct (_ =i 0). Qed.

Lemma record_replaces l delta t e : en_evicted e = false -> replaces e (add_record sc l delta t e).
Proof. intros Hev. constructor; cbn; try congruence. apply note_key. Qed.

Lemma mark_replaces e : en_delta e = 0%Z -> replaces e (mark_evicted e).
Proof. by constructor. Qed.

(** The step of one call leaves the others well-formed. *)
Lemma calls_step s cs1 c cs2 (cs : list (@Call L)) :
  inv s -> calls s = cs1 ++ c :: cs2 -> (forall x, x ∈ cs -> wf_call (heap s) x) ->
  forall x, x ∈ cs1 ++ cs ++ cs2 -> wf_call (heap s) x.
Proof.
  intros I Hc Hcs x. rewrite !elem_of_app. pose proof (iv_calls s I x) as Hx.
  rewrite Hc in Hx. set_solver.
Qed.

Lemma call_wf s cs1 c cs2 : inv s -> calls s = cs1 ++ c :: cs2 -> wf_call (heap s) c.
Proof. intros I Hc. apply (iv_calls s I). rewrite Hc. set_solver. Qed.

(** *** Steps of record calls *)

Lemma inv_call_stage s cs1 cs2 c c' :
  inv s -> calls s = cs1 ++ c :: cs2 -> wf_call (heap s) c' ->
  inv (with_calls (cs1 ++ c' :: cs2) s).
Proof.
  intros I Hc Hw. apply (inv_control s); try done; [|exact (iv_flusher s I)].
  apply (calls_step s cs1 c cs2 [c']); [done..|]. by intros x ->%list_elem_of_singleton.
Qed.

Lemma inv_load s cs1 cs2 l delta t p h tb :
  inv s -> calls s = cs1 ++ mkCall l delta t RStart :: cs2 -> load_or_store sc l t s = (p, h, tb) ->
  inv (with_table tb (with_heap h (with_calls (cs1 ++ mkCall l delta t (RHas p) :: cs2) s))).
Proof.
  intros I Hc Hl. apply (inv_store s _ l t p); try done. cbn. intros c Hin.
  pose proof (iv_calls s I c) as Hw. rewrite Hc in Hw.
  rewrite elem_of_app, elem_of_cons in Hin, Hw. destruct Hin as [?|[->|?]]; [|by left|]; right; tauto.
Qed.

Lemma inv_clear_stale s cs1 cs2 l delta t p :
  inv s -> calls s = cs1 ++ mkCall l delta t (RStale p) :: cs2 ->
  inv (with_table (compare_and_delete (sc_key sc l) p (table s))
    (with_calls (cs1 ++ mkCall l delta t RStart :: cs2) s)).
Proof.
  intros I Hc. destruct (call_wf s cs1 _ cs2 I Hc) as (e & He & Hk & Hev); cbn in *.
  eapply (inv_unlink s); try done; [|exact (iv_flusher s I)].
  apply (calls_step s cs1 _ cs2 [mkCall l delta t RStart] I Hc). by intros x ->%list_elem_of_singleton.
Qed.

(** An entry replaced under the flush pass keeps the pass well-formed. *)
Lemma wf_flusher_insert h p e e' f :
  h !! p = Some e -> replaces e e' -> (en_evicted e = false -> en_evicted e' = false) ->
  wf_flusher h f -> wf_flusher (<[p := e']> h) f.
Proof.
  intros Hp [Hk He _] Hn. unfold wf_flusher.
  destruct f as [|?|? k q ?|? k q ? ? ?|? k q ?|?|? ? k q]; try done; intros (x & Hx & Hrest);
    (destruct (decide (q = p)) as [->|Hne];
      [exists e'; rewrite list_lookup_insert_eq by (by eapply lookup_lt_Some);
       assert (x = e) as -> by congruence; naive_solver congruence
      |exists x; by rewrite list_lookup_insert_ne]).
Qed.

Lemma inv_record s cs1 cs2 l delta t p e :
  inv s -> calls s = cs1 ++ mkCall l delta t (RHas p) :: cs2 ->
  heap s !! p = Some e -> en_evicted e = false ->
  inv (note_recorded l delta (with_heap (<[p := add_record sc l delta t e]> (heap s))
    (with_calls (cs1 ++ cs2) s))).
Proof.
  intros I Hc Hp Hev. destruct (call_wf s cs1 _ cs2 I Hc) as (x & Hx & Hk); cbn in *.
  assert (x = e) as -> by congruence.
  apply (inv_replace s _ p e (add_record sc l delta t e)); try done; cbn.
  - by apply record_replaces.
  - apply (calls_step s cs1 _ cs2 [] I Hc). by intros y Hy%elem_of_nil.
  - eapply wf_flusher_insert; [done|by apply record_replaces|done|exact (iv_flusher s I)].
  - intros k. rewrite booked_app, (iv_sum s I). cbn. rewrite Hk. destruct (_ =s _); lia.
Qed.

(** *** Steps of the flush pass *)

Lemma inv_pass s f :
  inv s -> wf_flusher (heap s) f -> (forall k, in_flight k f = in_flight k (flusher s)) ->
  inv (with_flusher f s).
Proof. intros I Hf Hi. apply (inv_control s); try done. exact (iv_calls s I). Qed.

Lemma inv_fail s : inv s -> inv (fail_flush s).
Proof. intros I. apply (inv_control s); try done; [exact (iv_calls s I)|exact (iv_flusher s I)]. Qed.

Lemma inv_seq s k ep n : inv s -> inv (with_seq k ep n s).
Proof. intros I. apply (inv_control s); try done; [exact (iv_calls s I)|exact (iv_flusher s I)]. Qed.

Lemma pending_snapshot s p e :
  inv s -> heap s !! p = Some e -> en_delta e <> 0%Z -> en_evicted e = false.
Proof.
  intros I Hp Hd. destruct (en_evicted e) eqn:Hev; [|done]. by destruct Hd; eapply (iv_evicted s I).
Qed.

Lemma inv_drop s seen k p snap e :
  inv s -> flusher s = FSend seen k p snap -> heap s !! p = Some e ->
  inv (note_dropped (en_lab snap) (en_delta snap)
    (with_heap (<[p := commit_entry sc snap None e]> (heap s)) (with_flusher (FPass seen) s))).
Proof.
  intros I Hf Hp. pose proof (iv_flusher s I) as Hw. rewrite Hf in Hw.
  destruct Hw as (x & Hx & Hk & Hev & Hks & _). assert (x = e) as -> by congruence.
  apply (inv_replace s _ p e (commit_entry sc snap None e)); try done; cbn.
  - by apply commit_replaces.
  - exact (iv_calls s I).
  - intros q. rewrite booked_app, (iv_sum s I), Hf, commit_delta. cbn. rewrite Hk, Hks.
    destruct (_ =s _); lia.
Qed.

Lemma inv_enqueue s seen k p snap wire n :
  inv s -> flusher s = FSeq seen k p snap wire n ->
  inv (enqueue (mkMsg wire (en_delta snap) n (en_start snap) (en_end snap))
    (with_flusher (FSent seen k p snap) s)).
Proof.
  intros I Hf. pose proof (iv_flusher s I) as Hw. rewrite Hf in Hw.
  destruct Hw as (e & Hp & Hk & Hev & Hks & Hd & Hwk).
  destruct I as [I1 I2 I3 I4 I5 I6]. constructor; try done; cbn; [by exists e|].
  intros q. rewrite shipped_app, I6, Hf. cbn. rewrite Hwk. destruct (_ =s _); lia.
Qed.

Lemma inv_commit s seen k p snap t e :
  inv s -> flusher s = FSent seen k p snap -> heap s !! p = Some e ->
  inv (with_heap (<[p := commit_entry sc snap (Some t) e]> (heap s)) (with_flusher (FPass seen) s)).
Proof.
  intros I Hf Hp. pose proof (iv_flusher s I) as Hw. rewrite Hf in Hw.
  destruct Hw as (x & Hx & Hk & Hev & Hks & _). assert (x = e) as -> by congruence.
  apply (inv_replace s _ p e (commit_entry sc snap (Some t) e)); try done; cbn.
  - by apply commit_replaces.
  - exact (iv_calls s I).
  - intros q. rewrite (iv_sum s I), Hf, commit_delta. cbn. rewrite Hk. destruct (_ =s _); lia.
Qed.

Lemma inv_mark s cutoff seen k p e :
  inv s -> flusher s = FEvict cutoff seen -> heap s !! p = Some e -> key e = k ->
  idle cutoff e = true ->
  inv (with_heap (<[p := mark_evicted e]> (heap s)) (with_flusher (FMarked cutoff (k :: seen) k p) s)).
Proof.
  intros I Hf Hp Hk Hi. unfold idle in Hi. apply andb_prop in Hi as [Hz%Z.eqb_eq _].
  apply (inv_replace s _ p e (mark_evicted e)); try done; cbn.
  - exact (iv_calls s I).
  - exists (mark_evicted e). by rewrite list_lookup_insert_eq by (by eapply lookup_lt_Some).
  - intros q. rewrite (iv_sum s I), Hf. cbn. destruct (_ =s _); lia.
Qed.

Lemma inv_remove s cutoff seen k p :
  inv s -> flusher s = FMarked cutoff seen k p ->
  inv (with_table (compare_and_delete k p (table s)) (with_flusher (FEvict cutoff seen) s)).
Proof.
  intros I Hf. pose proof (iv_flusher s I) as Hw. rewrite Hf in Hw. destruct Hw as (e & He & Hk & Hev).
  eapply (inv_unlink s); try done; [exact (iv_calls s I)|]. intros q. by rewrite Hf.
Qed.

Lemma acc_inv_init : inv init.
Proof. split; cbn; try done; set_solver. Qed.

Lemma flusher_wf s f : inv s -> flusher s = f -> wf_flusher (heap s) f.
Proof. intros I <-. exact (iv_flusher s I). Qed.

(** Leaving a send unfinished. *)
Lemma inv_abandon s seen :
  inv s -> (forall k, in_flight k (flusher s) = 0%Z) -> inv (with_flusher (FPass seen) s).
Proof. intros I Hi. by apply inv_pass. Qed.

Lemma step_inv s s' : inv s -> Step sc s s' -> inv s'.
Proof.
  intros I H.
  destruct H as [s t Ht|s l delta Hd Hv|s cs1 cs2 l delta t p h tb Hc Hl|s cs1 cs2 l delta t p e Hc Hp Hev
    | s cs1 cs2 l delta t p Hc| s cs1 cs2 l delta t p e Hc Hp Hev| s Hf| s seen k p e Hf _ Hp Hk Hz
    | s seen k p e Hf _ Hp Hk Hz| s seen k p snap e Hf Hdr Hp| s seen k p snap wire Hf Hw
    | s seen k p snap wire Hf Hw n | s seen k p snap wire n Hf| s seen k p snap wire n Hf
    | s seen k p snap wire n Hf| s seen k p snap e Hf Hp| s seen Hf| s cutoff seen k p e Hf _ Hp Hk Hi
    | s cutoff seen k p e Hf _ Hp Hk Hi| s cutoff seen k p Hf| s cutoff seen Hf].
  - apply (inv_control s); try done; [exact (iv_calls s I)|exact (iv_flusher s I)].
  - apply (inv_control s); try done; [|exact (iv_flusher s I)]. cbn. intros c.
    rewrite elem_of_app. intros [? | ->%list_elem_of_singleton]; [by apply (iv_calls s I)|done].
  - by eapply inv_load.
  - eapply inv_call_stage; [done..|]. destruct (call_wf s cs1 _ cs2 I Hc) as (x & Hx & Hk).
    exists e. assert (x = e) as -> by (cbn in Hx; congruence). done.
  - by eapply inv_clear_stale.
  - by eapply inv_record.
  - apply inv_pass; [done..|]. by rewrite Hf.
  - apply inv_abandon; [done|]. by rewrite Hf.
  - apply inv_pass; [done| |by rewrite Hf]. exists e. split_and!; try done. by eapply pending_snapshot.
  - apply inv_fail in I. exact (inv_drop (fail_flush s) _ k _ _ _ I Hf Hp).
  - apply inv_abandon; [done|]. by rewrite Hf.
  - apply inv_seq. apply inv_pass; [done| |by rewrite Hf].
    destruct (flusher_wf s _ I Hf) as (e & H1 & H2 & H3 & H4 & H5). exists e.
    split_and!; try done. rewrite <- H4. by apply resolve_key.
  - apply inv_abandon; [done|]. by rewrite Hf.
  - apply inv_fail, inv_abandon; [done|]. by rewrite Hf.
  - by apply inv_enqueue.
  - by eapply inv_commit.
  - apply inv_pass; [done..|]. by rewrite Hf.
  - apply inv_pass; [done..|]. by rewrite Hf.
  - by apply inv_mark.
  - by apply inv_remove.
  - apply inv_pass; [done..|]. by rewrite Hf.
Qed.

Definition reachable (s : @Acc L) : Prop := rtc (Step sc) init s.

(** Rule induction on reachable states. *)
Lemma reachable_ind (P : @Acc L -> Prop) :
  P init -> (forall s s', reachable s -> P s -> Step sc s s' -> P s') ->
  forall s, reachable s -> P s.
Proof. intros H0 Hs. apply rtc_ind_r; [done|]. intros; by eapply Hs. Qed.

Lemma reachable_inv s : reachable s -> inv s.
Proof. revert s. apply reachable_ind; [apply acc_inv_init|]. intros; by eapply step_inv. Qed.

(** C11. No count is lost or sent twice.  Whatever the interleaving of record
    calls, flush passes with any failures, and evictions: for every scope the
    counts recorded are exactly the counts put in the outbox, plus those given
    up on for want of a wire identity, plus what the entries still hold (less
    what is enqueued but not yet subtracted); and an entry holding a count is
    always the one the map has for its key, so the next pass finds it. *)
Theorem accumulator_conserves (s : @Acc L) :
  reachable s ->
  (forall k, booked k (recorded s) =
    (shipped k (outbox s) + booked k (dropped s) + pending k (heap s) - in_flight k (flusher s))%Z) /\
  (forall p e, heap s !! p = Some e -> en_delta e <> 0%Z -> table s !! key e = Some p).
Proof.
  intros I%reachable_inv. split; [by apply iv_sum|]. intros p e Hp Hd.
  destruct (decide (table s !! key e = Some p)) as [?|Hno]; [done|].
  destruct Hd. eapply (iv_evicted s I); [done|]. by eapply (iv_orphan s I).
Qed.

(** ** Sequence numbers *)

Definition of_stream (k : string) (ep : Z) (l : L) : bool :=
  (sc_key sc l =s k) && (sc_epoch sc l =i ep).

(** The sequence numbers sent for one scope and generation, in outbox order. *)
Definition stream_seqs (k : string) (ep : Z) (ms : list (Msg L)) : list Z :=
  map ms_seq (List.filter (fun m => of_stream k ep (ms_lab m)) ms).

Arguments stream_seqs : simpl never.

Definition last_seq (k : string) (ep : Z) (s : @Acc L) : Z := default 0%Z (seqs s !! (k, ep)).

(** The number allocated and not yet enqueued, if it is of this stream. *)
Definition held_seq (k : string) (ep : Z) (f : @Flusher L) : list Z :=
  match f with
  | FSeq _ _ _ _ wire n => if of_stream k ep wire then [n] else []
  | _ => []
  end.

Record seq_inv (s : @Acc L) : Prop := {
  sq_sorted : forall k ep,
    StronglySorted Z.lt (stream_seqs k ep (outbox s) ++ held_seq k ep (flusher s));
  sq_bound : forall k ep, (0 <= last_seq k ep s)%Z /\
    Forall (fun n => n <= last_seq k ep s)%Z
      (stream_seqs k ep (outbox s) ++ held_seq k ep (flusher s)) }.

Lemma stream_seqs_app k ep ms m :
  stream_seqs k ep (ms ++ [m]) =
  stream_seqs k ep ms ++ (if of_stream k ep (ms_lab m) then [ms_seq m] else []).
Proof.
  unfold stream_seqs. rewrite List.filter_app, map_app. cbn. by destruct (of_stream k ep _).
Qed.

(** Neither outbox nor allocations move, and no number is picked up. *)
Lemma seq_keep s s' :
  seq_inv s -> outbox s' = outbox s -> seqs s' = seqs s ->
  (forall k ep, held_seq k ep (flusher s') = held_seq k ep (flusher s) \/
    held_seq k ep (flusher s') = []) -> seq_inv s'.
Proof.
  intros [Hs Hb] Ho Hq Hh. split; intros k ep; rewrite Ho; unfold last_seq; rewrite ?Hq;
    specialize (Hs k ep); destruct (Hb k ep) as [Hn Hf]; destruct (Hh k ep) as [->| ->]; try done;
    rewrite app_nil_r; [by apply StronglySorted_app in Hs as (_ & ? & _)|].
  split; [done|]. by apply Forall_app in Hf as [? _].
Qed.

Lemma sorted_snoc (l : list Z) n :
  StronglySorted Z.lt l -> Forall (fun x => x < n)%Z l -> StronglySorted Z.lt (l ++ [n]).
Proof.
  induction 1 as [|x l Hl IH Hx]; intros Hn; cbn; [by repeat constructor|].
  apply Forall_cons in Hn as [Hxn Hn]. constructor; [by apply IH|].
  apply Forall_app. by split; [|constructor].
Qed.

Lemma seq_alloc s seen k p snap wire :
  seq_inv s -> (forall k ep, held_seq k ep (flusher s) = []) ->
  sc_key sc wire = k -> sc_epoch sc wire = sc_epoch sc (en_lab snap) ->
  let n := next_seq k (sc_epoch sc (en_lab snap)) s in
  seq_inv (with_seq k (sc_epoch sc (en_lab snap)) n (with_flusher (FSeq seen k p snap wire n) s)).
Proof.
  intros [Hs Hb] Hh Hk He n. set (ep := sc_epoch sc (en_lab snap)) in *.
  assert (Hn : n = (last_seq k ep s + 1)%Z).
  { unfold n, next_seq, last_seq. by destruct (seqs s !! (k, ep)). }
  assert (Hl : forall k' ep', last_seq k' ep' (with_seq k ep n (with_flusher (FSeq seen k p snap wire n) s))
    = if of_stream k' ep' wire then n else last_seq k' ep' s).
  { intros k' ep'. unfold last_seq, of_stream. cbn. rewrite Hk, He. fold ep.
    destruct (bool_decide_reflect ((k', ep') = (k, ep))) as [[= -> ->]|Hne].
    - rewrite lookup_insert_eq, seqb_refl, Z.eqb_refl. done.
    - rewrite lookup_insert_ne by congruence. destruct (k =s k') eqn:E1; [|done].
      destruct (ep =i ep') eqn:E2; [|done]. apply String.eqb_eq in E1 as ->. apply Z.eqb_eq in E2 as ->. done. }
  split; intros k' ep'; specialize (Hs k' ep'); destruct (Hb k' ep') as [Hz Hf];
    rewrite Hh, app_nil_r in Hs, Hf; cbn [held_seq flusher with_seq with_flusher outbox];
    rewrite ?Hl; destruct (of_stream k' ep' wire) eqn:E; rewrite ?app_nil_r; try done;
    unfold of_stream in E; rewrite Hk, He in E; apply andb_prop in E as [<-%String.eqb_eq <-%Z.eqb_eq].
  - apply sorted_snoc; [done|]. eapply Forall_impl; [done|]. cbn. lia.
  - split; [lia|]. apply Forall_app. split; [|repeat constructor; lia].
    eapply Forall_impl; [done|]. cbn. lia.
Qed.

Lemma seq_enqueue s seen k p snap wire n :
  seq_inv s -> flusher s = FSeq seen k p snap wire n ->
  seq_inv (enqueue (mkMsg wire (en_delta snap) n (en_start snap) (en_end snap))
    (with_flusher (FSent seen k p snap) s)).
Proof.
  intros [Hs Hb] Hf. rewrite Hf in *.
  split; intros k' ep'; cbn; rewrite stream_seqs_app, app_nil_r; [apply Hs|apply Hb].
Qed.

Lemma step_seq s s' : inv s -> seq_inv s -> Step sc s s' -> seq_inv s'.
Proof.
  intros I Q H. destruct H;
    try (apply (seq_keep s); cbn; [done..|]; intros; repeat (simplify_eq || match goal with
      | E : flusher _ = _ |- _ => rewrite E end); by (left + right)).
  - match goal with E : flusher _ = _, E' : sc_resolve _ _ = _ |- _ =>
      destruct (flusher_wf s _ I E) as (e & _ & _ & _ & <- & _); apply seq_alloc;
      [done|intros; by rewrite E|by apply resolve_key|by apply resolve_epoch] end.
  - by apply seq_enqueue.
Qed.

Lemma restart_inv s : inv (restart s).
Proof.
  split; cbn; try done; [set_solver|]. intros k. unfold booked, shipped, pending. cbn.
  induction (outbox s) as [|m ms IH]; cbn; [done|]. rewrite IH. lia.
Qed.

(** Both invariants, across restarts. *)
Lemma restarts_inv s : rtc (fun a b => Step sc a b \/ b = restart a) init s -> inv s /\ seq_inv s.
Proof.
  revert s. apply rtc_ind_r.
  - split; [apply acc_inv_init|split; cbn; by repeat constructor].
  - intros s s' _ [Hst| ->] [I Q].
    + split; [by eapply step_inv|by eapply step_seq].
    + split; [apply restart_inv|]. apply (seq_keep s); auto.
Qed.

Lemma sorted_seqs k ep s : seq_inv s -> StronglySorted Z.lt (stream_seqs k ep (outbox s)).
Proof. intros [Hs _]. specialize (Hs k ep). by apply StronglySorted_app in Hs as (_ & ? & _). Qed.

Lemma reachable_seqs k ep s : reachable s -> StronglySorted Z.lt (stream_seqs k ep (outbox s)).
Proof.
  intros Hr. apply sorted_seqs, restarts_inv. eapply (rtc_congruence id); [|exact Hr]. by left.
Qed.

(** Sequence numbers rise.  Across flush failures, interleaved record calls
    and restarts of the process, the envelopes put in the outbox for one scope
    and generation carry strictly increasing sequence numbers in outbox order:
    a number burnt by a failed send is never used again, so a receiver that
    keeps the highest number seen takes every envelope exactly once. *)
Theorem stream_seqs_rise (k : string) (ep : Z) (s : @Acc L) :
  rtc (fun a b => Step sc a b \/ b = restart a) init s ->
  StronglySorted Z.lt (stream_seqs k ep (outbox s)).
Proof. intros H. by apply sorted_seqs, restarts_inv. Qed.

(** ** An undisturbed pass *)

Definition zero_at (s : @Acc L) (p : nat) : Prop :=
  forall e, heap s !! p = Some e -> en_delta e = 0%Z.

(** What one visit of the pass does to the rest of the state. *)
Record visited (p : nat) (s s' : @Acc L) : Prop := {
  vi_run : rtc (Step sc) s s';
  vi_zero : forall q, q = p \/ zero_at s q -> zero_at s' q;
  vi_heap : length (heap s') = length (heap s);
  vi_calls : calls s' = calls s;
  vi_recorded : recorded s' = recorded s }.

Lemma zero_insert s s' p e' :
  heap s' = <[p := e']> (heap s) -> en_delta e' = 0%Z ->
  forall q, q = p \/ zero_at s q -> zero_at s' q.
Proof.
  intros Hh Hz q Hq x. rewrite Hh. destruct (decide (q = p)) as [->|Hne].
  - intros Hx. pose proof (lookup_lt_Some _ _ _ Hx) as Hlt. rewrite length_insert in Hlt.
    rewrite list_lookup_insert_eq in Hx by done. by injection Hx as <-.
  - rewrite list_lookup_insert_ne by done. destruct Hq as [?|Hq]; [done|]. apply Hq.
Qed.

Lemma flush_entry_visits k p seen s :
  inv s -> flusher s = FPass seen -> k ∉ seen -> table s !! k = Some p ->
  let s' := flush_entry sc k p seen s in
  visited p s s' /\ flusher s' = FPass (k :: seen) /\ table s' = table s.
Proof.
  intros I Hf Hk Ht. destruct (iv_table s I k p Ht) as (e & He & Hke). unfold flush_entry. rewrite He.
  destruct (Z.eqb_spec (en_delta e) 0) as [Hz|Hz].
  { split_and!; [split|..]; try done.
    - apply rtc_once. by eapply st_skip.
    - intros q [->|Hq]; [|done]. intros x Hx. cbn in Hx. congruence. }
  assert (Hc : forall t, en_delta (commit_entry sc e t e) = 0%Z) by (intros t; rewrite commit_delta; lia).
  destruct (sc_resolve sc (en_lab e)) as [wire|] eqn:Hr; (split_and!; [split|..]; try done);
    cbn; try apply length_insert; try by eapply zero_insert.
  - eapply rtc_l; [by eapply st_snapshot|]. eapply rtc_l; [by eapply st_alloc|].
    eapply rtc_l; [by eapply st_enqueue|]. apply rtc_once.
    by refine (st_commit sc _ (k :: seen) k p e e _ _).
  - eapply rtc_l; [by eapply st_snapshot|]. apply rtc_once.
    refine (st_drop sc _ (k :: seen) k p e e _ _ _); try done. by apply resolve_none.
Qed.

Lemma rtc_inv s s' : inv s -> rtc (Step sc) s s' -> inv s'.
Proof. intros I H. induction H as [|s1 s2 s3 H _ IH]; [done|]. by apply IH; eapply step_inv. Qed.

Lemma flush_entries_visit l seen s :
  inv s -> flusher s = FPass seen -> NoDup l.*1 -> (forall k, k ∈ l.*1 -> k ∉ seen) ->
  (forall k p, (k, p) ∈ l -> table s !! k = Some p) ->
  let s' := flush_entries sc l seen s in
  rtc (Step sc) s s' /\ (exists seen', flusher s' = FPass seen') /\ table s' = table s /\
  (forall q, q ∈ l.*2 \/ zero_at s q -> zero_at s' q) /\ length (heap s') = length (heap s) /\
  calls s' = calls s /\ recorded s' = recorded s.
Proof.
  revert seen s. induction l as [|[k p] l IH]; intros seen s I Hf Hnd Hns Ht; cbn.
  { split_and!; eauto; [done|]. intros q [[]%elem_of_nil|?]; done. }
  apply NoDup_cons in Hnd as [Hk Hnd].
  destruct (flush_entry_visits k p seen s I Hf) as ([Hrun Hz Hlen Hcl Hrec] & Hf' & Ht');
    [apply Hns; set_solver|apply Ht; set_solver|].
  destruct (IH (k :: seen) (flush_entry sc k p seen s)) as (R & F & T & Z & H & C & B);
    [by eapply rtc_inv|done|done| |intros k' p' Hin; rewrite Ht'; apply Ht; set_solver|].
  { intros k' Hin. rewrite not_elem_of_cons. split; [by intros ->|]. apply Hns. set_solver. }
  split_and!; [by etrans|done|congruence| |congruence..].
  intros q Hq. apply Z. destruct Hq as [[->|Hq]%elem_of_cons|Hq]; [right|by left|right]; apply Hz; auto.
Qed.

Lemma evict_entry_visits cutoff k p seen s :
  inv s -> flusher s = FEvict cutoff seen -> k ∉ seen -> 
  (forall e, heap s !! p = Some e -> key e = k) -> p < length (heap s) ->
  let s' := evict_entry cutoff k p seen s in
  rtc (Step sc) s s' /\ flusher s' = FEvict cutoff (k :: seen) /\
  en_delta <$> heap s' = en_delta <$> heap s /\
  en_lab <$> heap s' = en_lab <$> heap s /\
  calls s' = calls s /\ recorded s' = recorded s.
Proof.
  intros I Hf Hk Hke Hp. unfold evict_entry.
  destruct (lookup_lt_is_Some_2 (heap s) p Hp) as [e He]. rewrite He.
  destruct (idle cutoff e) eqn:Hi; split_and!; try done.
  - eapply rtc_l; [by eapply st_mark; eauto|]. apply rtc_once.
    by refine (st_remove sc _ cutoff (k :: seen) k p _).
  - cbn. rewrite list_fmap_insert. apply list_insert_id. by rewrite list_lookup_fmap, He.
  - cbn. rewrite list_fmap_insert. apply list_insert_id. by rewrite list_lookup_fmap, He.
  - apply rtc_once. eapply st_keep; eauto.
Qed.

Lemma heap_label (h h' : list (Entry L)) p e' :
  en_lab <$> h' = en_lab <$> h -> h' !! p = Some e' -> exists e, h !! p = Some e /\ en_lab e' = en_lab e.
Proof.
  intros Hl Hp. assert (H : (en_lab <$> h') !! p = Some (en_lab e')) by (by rewrite list_lookup_fmap, Hp).
  rewrite Hl, list_lookup_fmap in H. destruct (h !! p) as [e|]; [|done]. injection H as H. eauto.
Qed.

Lemma evictIdle_visits cutoff l seen s :
  inv s -> flusher s = FEvict cutoff seen -> NoDup l.*1 -> (forall k, k ∈ l.*1 -> k ∉ seen) ->
  (forall k p, (k, p) ∈ l -> exists e, heap s !! p = Some e /\ key e = k) ->
  let s' := evictIdle cutoff l seen s in
  rtc (Step sc) s s' /\ (exists seen', flusher s' = FEvict cutoff seen') /\
  en_delta <$> heap s' = en_delta <$> heap s /\ calls s' = calls s /\ recorded s' = recorded s.
Proof.
  revert seen s. induction l as [|[k p] l IH]; intros seen s I Hf Hnd Hns Ht; cbn.
  { split_and!; eauto; done. }
  apply NoDup_cons in Hnd as [Hk Hnd]. destruct (Ht k p) as (e & He & Hke); [set_solver|].
  destruct (evict_entry_visits cutoff k p seen s I Hf) as (R & F & D & B & C & G);
    [apply Hns; set_solver|by intros x Hx; simplify_eq|by eapply lookup_lt_Some|].
  destruct (IH (k :: seen) (evict_entry cutoff k p seen s)) as (R' & F' & D' & C' & G');
    [by eapply rtc_inv|done|done|..].
  { intros k' Hin. rewrite not_elem_of_cons. split; [by intros ->|]. apply Hns. set_solver. }
  { intros k' p' Hin. destruct (Ht k' p') as (x & Hx & Hkx); [set_solver|].
    destruct (heap_label (heap (evict_entry cutoff k p seen s)) (heap s) p' x) as (y & Hy & Hl);
      [done|done|]. exists y. split; [done|]. by rewrite <- Hl. }
  split_and!; [by etrans|done|congruence..].
Qed.

Lemma pending_zero h k : (forall p e, h !! p = Some e -> en_delta e = 0%Z) -> pending k h = 0%Z.
Proof.
  induction h as [|e h IH]; intros Hz; [done|]. rewrite pending_cons, IH.
  - rewrite (Hz 0 e eq_refl). by destruct (_ =s _).
  - intros p x Hx. by apply (Hz (S p)).
Qed.

Lemma map_pairs_nodup (t : gmap string nat) : NoDup (map_to_list t).*1.
Proof. apply NoDup_fst_map_to_list. Qed.

Lemma flush_run (s : @Acc L) :
  inv s -> flusher s = FIdle ->
  let s' := flush sc s in
  rtc (Step sc) s s' /\ flusher s' = FIdle /\ calls s' = calls s /\ recorded s' = recorded s /\
  (forall k, pending k (heap s') = 0%Z) /\
  (forall k, booked k (recorded s) = (shipped k (outbox s') + booked k (dropped s'))%Z).
Proof.
  intros I Hf. unfold flush.
  assert (R0 : rtc (Step sc) s (with_flusher (FPass []) s)) by (apply rtc_once; by apply st_flush).
  set (s0 := with_flusher (FPass []) s) in *.
  destruct (flush_entries_visit (map_to_list (table s)) [] s0) as (R1 & [seen F1] & T1 & Z1 & H1 & C1 & B1);
    [by eapply rtc_inv|done|apply map_pairs_nodup|set_solver|by intros k p Hin%elem_of_map_to_list|].
  set (s1 := flush_entries sc (map_to_list (table s)) [] s0) in *.
  assert (I1 : inv s1) by (eapply rtc_inv; [done|by etrans]).
  set (cutoff := (now s1 - hour)%Z). set (s2 := with_flusher (FEvict cutoff []) s1).
  assert (R2 : rtc (Step sc) s1 s2) by (apply rtc_once; by eapply st_evict).
  destruct (evictIdle_visits cutoff (map_to_list (table s1)) [] s2) as (R3 & [seen' F3] & D3 & C3 & B3);
    [by eapply rtc_inv|done|apply map_pairs_nodup|set_solver| |].
  { intros k p Hin%elem_of_map_to_list. exact (iv_table s1 I1 k p Hin). }
  set (s3 := evictIdle cutoff (map_to_list (table s1)) [] s2) in *.
  assert (R : rtc (Step sc) s (with_flusher FIdle s3)).
  { etrans; [done|]. etrans; [done|]. etrans; [done|]. etrans; [done|]. apply rtc_once.
    by eapply st_done. }
  assert (Hz1 : forall p e, heap s1 !! p = Some e -> en_delta e = 0%Z).
  { intros p e Hp. destruct (decide (table s1 !! key e = Some p)) as [Ht|Hno].
    - apply (Z1 p); [|done]. left. apply list_elem_of_fmap. exists (key e, p). split; [done|].
      apply elem_of_map_to_list. by rewrite T1 in Ht.
    - eapply (iv_evicted s1 I1); [done|]. by eapply (iv_orphan s1 I1). }
  assert (Hz : forall k, pending k (heap s3) = 0%Z).
  { intros k. apply pending_zero. intros p e Hp.
    assert (H : (en_delta <$> heap s3) !! p = Some (en_delta e)) by (by rewrite list_lookup_fmap, Hp).
    rewrite D3, list_lookup_fmap in H. destruct (heap s2 !! p) as [x|] eqn:Hx; [|done].
    injection H as <-. by eapply Hz1. }
  split_and!; [done|done|cbn; by rewrite C3; cbn; rewrite C1|cbn; by rewrite B3; cbn; rewrite B1|done|].
  intros k. pose proof (iv_sum _ (rtc_inv _ _ I R) k) as Hs. cbn in Hs.
  rewrite B3 in Hs. cbn in Hs. rewrite B1, Hz in Hs. cbn in Hs. rewrite Hs. cbn. lia.
Qed.
(** A pass ships everything.  From every reachable state in which no pass is
    under way, the flush that runs undisturbed over a healthy database is a run
    of the machine that ends idle with every entry empty: for each scope, all
    that was ever recorded is in the outbox or was given up for want of a wire
    identity, and nothing is recorded or taken from the callers in between. *)
Theorem flush_ships_all (s : @Acc L) :
  reachable s -> flusher s = FIdle ->
  let s' := flush sc s in
  rtc (Step sc) s s' /\ flusher s' = FIdle /\ calls s' = calls s /\ recorded s' = recorded s /\
  (forall k, pending k (heap s') = 0%Z) /\
  (forall k, booked k (recorded s) = (shipped k (outbox s') + booked k (dropped s'))%Z).
Proof. intros Hr Hf. apply flush_run; [by apply reachable_inv|done]. Qed.
(** ** An undisturbed call *)

Lemma record_live l delta s cs1 cs2 :
  inv s -> calls s = cs1 ++ mkCall l delta (now s) RStart :: cs2 ->
  (forall p e, table s !! sc_key sc l = Some p -> heap s !! p = Some e -> en_evicted e = false) ->
  let '(p, h, tb) := load_or_store sc l (now s) s in
  exists e, h !! p = Some e /\
    rtc (Step sc) s (note_recorded l delta (with_heap (<[p := add_record sc l delta (now s) e]> h)
      (with_table tb (with_calls (cs1 ++ cs2) s)))).
Proof.
  intros I Hc Hlive. destruct (load_or_store sc l (now s) s) as [[p h] tb] eqn:El.
  assert (He : exists e, h !! p = Some e /\ en_evicted e = false).
  { unfold load_or_store in El. destruct (table s !! sc_key sc l) as [q|] eqn:Hq;
      injection El as <- <- <-.
    - destruct (iv_table s I _ _ Hq) as (e & He & _). exists e. eauto.
    - exists (new_entry sc l (now s)). by rewrite lookup_app_r, Nat.sub_diag by lia. }
  destruct He as (e & He & Hev). exists e. split; [done|].
  eapply rtc_l; [by apply (st_load sc s cs1 cs2 l delta (now s) p h tb)|].
  apply rtc_once. by refine (st_record sc _ cs1 cs2 l delta (now s) p e _ _ _).
Qed.

Lemma record_call_run l delta s : inv s -> rtc (Step sc) s (record_call sc l delta s).
Proof.
  intros I. unfold record_call. destruct (Z.eqb_spec delta 0) as [|Hd]; [done|].
  destruct (sc_valid sc l) eqn:Hv; [|done]. cbn [negb].
  assert (H0 : Step sc s (with_calls (calls s ++ [mkCall l delta (now s) RStart]) s)) by by constructor.
  set (s0 := with_calls _ s) in *. assert (I0 : inv s0) by (by eapply step_inv).
  assert (Hst : exists s1, rtc (Step sc) s0 s1 /\
    s1 = with_calls (calls s ++ [mkCall l delta (now s) RStart]) (drop_stale (sc_key sc l) s) /\
    (forall p e, table s1 !! sc_key sc l = Some p -> heap s1 !! p = Some e -> en_evicted e = false)).
  { unfold drop_stale. destruct (table s !! sc_key sc l) as [p|] eqn:Hp.
    2: { exists s0. split_and!; [done..|]. intros p e. cbn. by rewrite Hp. }
    destruct (iv_table s I _ _ Hp) as (e & He & Hk). rewrite He.
    destruct (en_evicted e) eqn:Hev.
    2: { exists s0. split_and!; [done..|]. intros q x. cbn. intros. by simplify_eq. }
    eexists. split_and!; [|done|].
    - eapply rtc_l; [apply (st_load sc s0 (calls s) [] l delta (now s) p (heap s) (table s)); [done|]|].
      { unfold load_or_store. cbn. by rewrite Hp. }
      eapply rtc_l; [by apply (st_found_evicted sc _ (calls s) [] l delta (now s) p e)|].
      apply rtc_once. by refine (st_clear_stale sc _ (calls s) [] l delta (now s) p _).
    - cbn. intros q x. unfold compare_and_delete. rewrite bool_decide_true by done.
      by rewrite lookup_delete_eq. }
  destruct Hst as (s1 & R1 & Es1 & Hlive). assert (I1 : inv s1) by (by eapply rtc_inv).
  pose proof (record_live l delta s1 (calls s) [] I1) as Hrun.
  assert (Hnow : now (drop_stale (sc_key sc l) s) = now s).
  { unfold drop_stale. by repeat case_match. }
  assert (Hcalls : calls (drop_stale (sc_key sc l) s) = calls s).
  { unfold drop_stale. by repeat case_match. }
  assert (Hls : load_or_store sc l (now (drop_stale (sc_key sc l) s)) (drop_stale (sc_key sc l) s) =
    load_or_store sc l (now s1) s1) by (by rewrite Es1).
  rewrite Hls. destruct (load_or_store sc l (now s1) s1) as [[p h] tb].
  destruct Hrun as (e & He & R2); [by rewrite Es1; cbn; rewrite Hnow|done|]. rewrite He.
  eapply rtc_l; [exact H0|]. etrans; [exact R1|].
  match goal with |- rtc _ _ ?y => match type of R2 with rtc _ _ ?x => assert (y = x) as -> end end;
    [|exact R2].
  rewrite Es1, app_nil_r. unfold note_recorded, with_heap, with_table, with_calls. cbn. by rewrite Hcalls.
Qed.

(** What a call books. *)
Lemma record_call_books l delta s :
  inv s -> recorded (record_call sc l delta s) =
  recorded s ++ (if negb (delta =i 0) && sc_valid sc l then [(l, delta)] else []).
Proof.
  intros I. unfold record_call. destruct (delta =i 0); cbn [negb andb]; [by rewrite app_nil_r|].
  destruct (sc_valid sc l); cbn [negb andb]; [|by rewrite app_nil_r].
  assert (Hrec : recorded (drop_stale (sc_key sc l) s) = recorded s).
  { unfold drop_stale. by repeat case_match. }
  unfold load_or_store. destruct (table (drop_stale (sc_key sc l) s) !! sc_key sc l) as [p|] eqn:Hp.
  - assert (He : exists e, heap (drop_stale (sc_key sc l) s) !! p = Some e).
    { unfold drop_stale in *. destruct (table s !! sc_key sc l) as [q|] eqn:Hq; [|congruence].
      destruct (iv_table s I _ _ Hq) as (e & He & _). rewrite He in *. destruct (en_evicted e).
      - cbn in Hp. unfold compare_and_delete in Hp. rewrite bool_decide_true in Hp by done.
        by rewrite lookup_delete_eq in Hp.
      - exists e. congruence. }
    destruct He as [e He]. rewrite He. cbn. by rewrite Hrec.
  - rewrite lookup_app_r, Nat.sub_diag by lia. cbn. by rewrite Hrec.
Qed.

Lemma record_call_flusher l delta s : flusher (record_call sc l delta s) = flusher s.
Proof.
  unfold record_call. destruct (delta =i 0); [done|]. destruct (sc_valid sc l); [|done]. cbn [negb].
  assert (Hd : flusher (drop_stale (sc_key sc l) s) = flusher s) by (unfold drop_stale; by repeat case_match).
  destruct (load_or_store _ _ _ _) as [[p h] tb]. by destruct (h !! p).
Qed.

Lemma record_reachable l delta s : reachable s -> reachable (record_call sc l delta s).
Proof. intros Hr. unfold reachable. etrans; [exact Hr|]. by apply record_call_run, reachable_inv. Qed.

Lemma flush_reachable s : reachable s -> flusher s = FIdle -> reachable (flush sc s).
Proof.
  intros Hr Hf. unfold reachable. etrans; [exact Hr|]. exact (proj1 (flush_run s (reachable_inv s Hr) Hf)).
Qed.
End Correct.

(** ** A run *)

Definition demo_label : BinLabel := mkBinLabel 7 "P1" "consume_tick" 3.

(** Two counts for bin 7. *)
Definition demo_acc : @Acc BinLabel :=
  recordBin 7 "P1" (-5) "consume_tick" 3 (recordBin 7 "P1" (-2) "consume_tick" 3 init).

Lemma demo_reachable : reachable binScope demo_acc.
Proof. do 2 apply (record_reachable binScope). apply rtc_refl. Qed.

Lemma accumulator_conserves_witness :
  booked binScope "7" (recorded demo_acc) = (-7)%Z /\ pending binScope "7" (heap demo_acc) = (-7)%Z /\
  booked binScope "7" (recorded demo_acc) =
    (shipped binScope "7" (outbox demo_acc) + booked binScope "7" (dropped demo_acc) +
     pending binScope "7" (heap demo_acc) - in_flight "7" (flusher demo_acc))%Z.
Proof.
  split; [vm_compute; reflexivity|]. split; [vm_compute; reflexivity|].
  exact (proj1 (accumulator_conserves binScope demo_acc demo_reachable) "7").
Defined.

