(* ===== verification/Outbox.v ===== *)
(** The durable outbox and its drainer (protocol/outbox/drainer.go, over
    store/messaging/messaging.go of shingo-edge and of shingo-core, whose
    statements are the same): rows are published in id order, acked when the
    broker took them, retried a bounded number of times, and purged by age.

    A pass is executed against a script of what the broker and the database do:
    per message, whether [Publish] returned, errored or panicked, whether the
    broker nevertheless has the message, and whether the write that follows
    succeeds.  The wake and the ticker arm of [run] are signals; [Notify] and the
    settle timer only decide when they arrive. *)

From stdpp Require Import sorting.
From S2P Require Import Prelude.

(** ** The table *)

Definition MaxRetries : Z := 10.
Definition PurgeCycleInterval : Z := 100.
Definition MessageRetentionPeriod : Z := 24 * 3600.
Definition DeadLetterRetentionPeriod : Z := 7 * 24 * 3600.

Definition SubjectLinesideLevelReport : string := "inventory.lineside_level_report".
Definition SubjectPlantClaims : string := "plant.claims".

Definition coalescableSubjects (msgType : string) : bool :=
  (msgType =s SubjectLinesideLevelReport) || (msgType =s SubjectPlantClaims).

(** One outbox row; [P] is the envelope. *)
Record OutRow (P : Type) := mkOut {
  ob_id : Z;
  ob_topic : string;
  ob_payload : P;
  ob_type : string;
  ob_retries : Z;
  ob_created : Z;
  ob_sent : option Z
}.
Arguments mkOut {P} _ _ _ _ _ _ _.
Arguments ob_id {P} o. Arguments ob_topic {P} o. Arguments ob_payload {P} o.
Arguments ob_type {P} o. Arguments ob_retries {P} o. Arguments ob_created {P} o.
Arguments ob_sent {P} o.

(** The table in id order, and the id sequence. *)
Record Outbox (P : Type) := mkOutbox { ob_rows : list (OutRow P); ob_next : Z }.
Arguments mkOutbox {P} _ _. Arguments ob_rows {P} o. Arguments ob_next {P} o.

Section Table.
Context {P : Type}.

Definition insert_row (topic : string) (payload : P) (msgType : string) (now : Z) (o : Outbox P)
    : Outbox P :=
  mkOutbox (ob_rows o ++ [mkOut (ob_next o) topic payload msgType 0 now None]) (ob_next o + 1).

(** The Edge's Enqueue: the topic is always [orders]. *)
Definition Enqueue (payload : P) (msgType : string) (now : Z) (o : Outbox P) : Z * Outbox P :=
  (ob_next o, insert_row "orders" payload msgType now o).

(** Core's EnqueueOutbox; the station column is not read back. *)
Definition EnqueueOutbox (topic : string) (payload : P) (msgType : string) (now : Z) (o : Outbox P)
    : Outbox P :=
  insert_row topic payload msgType now o.

Definition unsent (r : OutRow P) : bool := negb (bool_decide (is_Some (ob_sent r))).

(** EnqueueSnapshot: delete and inserts in one transaction; refused for a type
    that is not a full snapshot. *)
Definition EnqueueSnapshot (payloads : list P) (msgType : string) (now : Z) (o : Outbox P)
    : option (Outbox P) :=
  if negb (coalescableSubjects msgType) then None
  else match payloads with
  | [] => Some o
  | _ => Some (foldl (fun o p => insert_row "orders" p msgType now o)
      (mkOutbox (List.filter (fun r => negb (unsent r && (ob_type r =s msgType))) (ob_rows o)) (ob_next o))
      payloads)
  end.

Definition pending_row (r : OutRow P) : bool := unsent r && (ob_retries r <? MaxRetries)%Z.
Definition dead_row (r : OutRow P) : bool := unsent r && (MaxRetries <=? ob_retries r)%Z.

Definition ListPending (limit : nat) (o : Outbox P) : list (OutRow P) :=
  take limit (List.filter pending_row (ob_rows o)).
Definition ListDeadLetter (limit : nat) (o : Outbox P) : list (OutRow P) :=
  take limit (List.filter dead_row (ob_rows o)).
Definition ListUnsentByType (msgTypes : list string) (o : Outbox P) : list (OutRow P) :=
  List.filter (fun r => unsent r && existsb (fun t => ob_type r =s t) msgTypes) (ob_rows o).
Definition Get (id : Z) (o : Outbox P) : option (OutRow P) :=
  List.find (fun r => ob_id r =i id) (ob_rows o).
Definition CountPendingOutbox (o : Outbox P) : nat := length (List.filter pending_row (ob_rows o)).
Definition CountDeadLetterOutbox (o : Outbox P) : nat := length (List.filter dead_row (ob_rows o)).

Definition update_row (id : Z) (f : OutRow P -> OutRow P) (o : Outbox P) : Outbox P :=
  mkOutbox (map (fun r => if ob_id r =i id then f r else r) (ob_rows o)) (ob_next o).

Definition with_retries (n : Z) (r : OutRow P) : OutRow P :=
  mkOut (ob_id r) (ob_topic r) (ob_payload r) (ob_type r) n (ob_created r) (ob_sent r).
Definition with_sent (t : Z) (r : OutRow P) : OutRow P :=
  mkOut (ob_id r) (ob_topic r) (ob_payload r) (ob_type r) (ob_retries r) (ob_created r) (Some t).

Definition Ack (id now : Z) : Outbox P -> Outbox P := update_row id (with_sent now).
Definition IncrementRetries (id : Z) : Outbox P -> Outbox P :=
  update_row id (fun r => with_retries (ob_retries r + 1) r).
Definition MarkExhausted (id : Z) : Outbox P -> Outbox P := update_row id (with_retries MaxRetries).
Definition Requeue (id : Z) : Outbox P -> Outbox P :=
  update_row id (fun r => if unsent r then with_retries 0 r else r).

(** Which rows PurgeOld removes at [now]. *)
Definition purgeable (delivered deadLetter now : Z) (r : OutRow P) : bool :=
  match ob_sent r with
  | Some t => (t <? now - delivered)%Z
  | None => (MaxRetries <=? ob_retries r)%Z && (ob_created r <? now - deadLetter)%Z
  end.

Definition PurgeOld (delivered deadLetter now : Z) (o : Outbox P) : nat * Outbox P :=
  let keep := List.filter (fun r => negb (purgeable delivered deadLetter now r)) (ob_rows o) in
  ((length (ob_rows o) - length keep)%nat, mkOutbox keep (ob_next o)).
End Table.

(** ** The drainer *)

Inductive PubOutcome := PubOk | PubErr | PubPanic.

(** One publication: what it returned, whether an errored one reached the
    broker all the same, and whether the store write after it succeeds. *)
Record Attempt := mkAttempt { at_result : PubOutcome; at_landed : bool; at_write : bool }.

Definition landed (a : Attempt) : bool :=
  match at_result a with PubOk => true | _ => at_landed a end.

(** One pass: the broker flag, whether the listing succeeds, the attempt for
    each row id, whether a purge succeeds, and the clock. *)
Record Pass := mkPass {
  ps_connected : bool; ps_listed : bool; ps_plan : Z -> Attempt; ps_purge : bool; ps_now : Z }.

Record Drainer (P : Type) := mkDrainer {
  dr_box : Outbox P;
  dr_broker : list (Z * string * P);
  dr_muted : bool;
  dr_cycles : Z
}.
Arguments mkDrainer {P} _ _ _ _.
Arguments dr_box {P} d. Arguments dr_broker {P} d. Arguments dr_muted {P} d. Arguments dr_cycles {P} d.

(** The two store adapters (messaging/outbox.go of each side): the Edge's blanks
    the row's topic, Core's keeps it. *)
Inductive Side := EdgeSide | CoreSide.

Definition adapt {P} (side : Side) (r : OutRow P) : OutRow P :=
  match side with
  | EdgeSide => mkOut (ob_id r) "" (ob_payload r) (ob_type r) (ob_retries r) (ob_created r) (ob_sent r)
  | CoreSide => r
  end.

Section Drain.
Context {P : Type} (side : Side) (topic : string) (limit : nat).

Definition with_box (o : Outbox P) (d : Drainer P) : Drainer P :=
  mkDrainer o (dr_broker d) (dr_muted d) (dr_cycles d).

Definition write_box (ok : bool) (f : Outbox P -> Outbox P) (d : Drainer P) : Drainer P :=
  if ok then with_box (f (dr_box d)) d else d.

(** The broker takes the message. *)
Definition deliver_to (a : Attempt) (msg : OutRow P) (d : Drainer P) : Drainer P :=
  if landed a then
    mkDrainer (dr_box d)
      (dr_broker d ++ [(ob_id msg, (if ob_topic msg =s "" then topic else ob_topic msg), ob_payload msg)])
      (dr_muted d) (dr_cycles d)
  else d.

Definition publishOne (ps : Pass) (msg : OutRow P) (d : Drainer P) : bool * Drainer P :=
  let a := ps_plan ps (ob_id msg) in
  let d1 := deliver_to a msg d in
  match at_result a with
  | PubOk => (true, write_box (at_write a) (Ack (ob_id msg) (ps_now ps)) d1)
  | PubErr => (false, write_box (at_write a) (IncrementRetries (ob_id msg)) d1)
  | PubPanic => (false, write_box (at_write a) (MarkExhausted (ob_id msg)) d1)
  end.

(** The loop of a pass; [true] when some publication failed. *)
Fixpoint publish_each (ps : Pass) (msgs : list (OutRow P)) (d : Drainer P) : bool * Drainer P :=
  match msgs with
  | [] => (false, d)
  | msg :: rest =>
      let '(ok, d1) := publishOne ps msg d in
      let '(failed, d2) := publish_each ps rest d1 in
      (negb ok || failed, d2)
  end.

Definition drain (ps : Pass) (d : Drainer P) : bool * Drainer P :=
  if negb (ps_connected ps) then (false, d)
  else if negb (ps_listed ps) then (false, d)
  else publish_each ps (map (adapt side) (ListPending limit (dr_box d))) d.

Inductive Signal := SWake | STick.

Definition with_muted (m : bool) (d : Drainer P) : Drainer P :=
  mkDrainer (dr_box d) (dr_broker d) m (dr_cycles d).

(** One turn of [run]'s loop. *)
Definition run_turn (sig : Signal) (ps : Pass) (d : Drainer P) : Drainer P :=
  match sig with
  | SWake => if dr_muted d then d else let '(failed, d1) := drain ps d in with_muted failed d1
  | STick =>
      let '(failed, d1) := drain ps d in
      let d2 := mkDrainer (dr_box d1) (dr_broker d1) failed (dr_cycles d1 + 1) in
      if (dr_cycles d2 mod PurgeCycleInterval =i 0) && ps_purge ps
      then with_box (PurgeOld MessageRetentionPeriod DeadLetterRetentionPeriod (ps_now ps) (dr_box d2)).2 d2
      else d2
  end.

(** What happens to the table: producers, the operator's replay button, and the
    drainer's own turns, in any order. *)
Inductive Op :=
| OEnqueue (payload : P) (msgType : string) (now : Z)
| OSnapshot (payloads : list P) (msgType : string) (now : Z)
| ORequeue (id : Z)
| OTurn (sig : Signal) (ps : Pass).

Definition do_op (op : Op) (d : Drainer P) : Drainer P :=
  match op with
  | OEnqueue p ty now => with_box (Enqueue p ty now (dr_box d)).2 d
  | OSnapshot ps ty now =>
      match EnqueueSnapshot ps ty now (dr_box d) with Some o => with_box o d | None => d end
  | ORequeue id => with_box (Requeue id (dr_box d)) d
  | OTurn sig ps => run_turn sig ps d
  end.

Definition run (ops : list Op) (d : Drainer P) : Drainer P := foldl (fun d op => do_op op d) d ops.
End Drain.

Definition fresh_drainer {P} : Drainer P := mkDrainer (mkOutbox [] 1) [] false 0.

(** ** What a pass does *)

Section Pass.
Context {P : Type} (side : Side) (topic : string) (limit : nat).

Definition entry_of (m : OutRow P) : Z * string * P :=
  (ob_id m, (if ob_topic m =s "" then topic else ob_topic m), ob_payload m).

Definition pub_failed (ps : Pass) (m : OutRow P) : bool :=
  match at_result (ps_plan ps (ob_id m)) with PubOk => false | _ => true end.

Definition lands (ps : Pass) (m : OutRow P) : bool := landed (ps_plan ps (ob_id m)).

(** The row after its attempt. *)
Definition attempted (ps : Pass) (r : OutRow P) : OutRow P :=
  let a := ps_plan ps (ob_id r) in
  if at_write a then
    match at_result a with
    | PubOk => with_sent (ps_now ps) r
    | PubErr => with_retries (ob_retries r + 1) r
    | PubPanic => with_retries MaxRetries r
    end
  else r.

Definition after_pass (ps : Pass) (ids : list Z) (o : Outbox P) : Outbox P :=
  mkOutbox (map (fun r => if bool_decide (ob_id r ∈ ids) then attempted ps r else r) (ob_rows o)) (ob_next o).

Lemma publishOne_spec ps m (d : Drainer P) :
  publishOne topic ps m d =
  (negb (pub_failed ps m),
   mkDrainer (after_pass ps [ob_id m] (dr_box d))
     (dr_broker d ++ map entry_of (List.filter (lands ps) [m])) (dr_muted d) (dr_cycles d)).
Proof.
  assert (Hrow : forall f, (forall r, ob_id r = ob_id m -> attempted ps r = f r) ->
    map (fun r => if ob_id r =i ob_id m then f r else r) (ob_rows (dr_box d)) =
    map (fun r => if bool_decide (ob_id r ∈ [ob_id m]) then attempted ps r else r) (ob_rows (dr_box d))).
  { intros f Hf. apply map_ext. intros r. destruct (Z.eqb_spec (ob_id r) (ob_id m)) as [E|E].
    - rewrite bool_decide_true by set_solver. symmetry. by apply Hf.
    - by rewrite bool_decide_false by set_solver. }
  assert (Hid : map (fun r => if ob_id r =i ob_id m then r else r) (ob_rows (dr_box d)) =
    ob_rows (dr_box d)).
  { erewrite map_ext; [apply map_id|]. intros r. by destruct (_ =i _). }
  unfold publishOne, pub_failed, write_box, deliver_to, after_pass, lands, landed, entry_of.
  destruct (ps_plan ps (ob_id m)) as [res ld wr] eqn:Hp. cbn [at_result at_landed at_write].
  destruct d as [[rows next] br mu cy]. cbn [dr_box ob_rows ob_next dr_broker dr_muted dr_cycles] in *.
  cbn [List.filter]. rewrite Hp. cbn [at_result at_landed at_write].
  destruct res, wr, ld; cbn [map]; unfold with_box, Ack, IncrementRetries, MarkExhausted, update_row;
    cbn [dr_box ob_rows ob_next dr_broker dr_muted dr_cycles negb]; rewrite ?app_nil_r;
    first
      [ rewrite <- (Hrow (with_sent (ps_now ps))) by
          (intros r Hr; unfold attempted; rewrite Hr, Hp; done)
      | rewrite <- (Hrow (fun r => with_retries (ob_retries r + 1) r)) by
          (intros r Hr; unfold attempted; rewrite Hr, Hp; done)
      | rewrite <- (Hrow (with_retries MaxRetries)) by
          (intros r Hr; unfold attempted; rewrite Hr, Hp; done)
      | rewrite <- (Hrow (fun r => r)), Hid by
          (intros r Hr; unfold attempted; rewrite Hr, Hp; done) ]; done.
Qed.

Lemma attempted_id ps (r : OutRow P) : ob_id (attempted ps r) = ob_id r.
Proof. unfold attempted. destruct (at_write _); [|done]. by destruct (at_result _). Qed.

Lemma after_pass_app ps ids ids' (o : Outbox P) :
  (forall i, i ∈ ids -> i ∉ ids') ->
  after_pass ps ids' (after_pass ps ids o) = after_pass ps (ids ++ ids') o.
Proof.
  intros Hd. unfold after_pass. cbn. f_equal. rewrite map_map. apply map_ext. intros r.
  repeat case_bool_decide; rewrite ?attempted_id in *; set_solver.
Qed.

Lemma after_pass_nil ps (o : Outbox P) : after_pass ps [] o = o.
Proof.
  unfold after_pass. destruct o as [rows next]. cbn. f_equal. erewrite map_ext; [apply map_id|].
  intros r. by rewrite bool_decide_false by set_solver.
Qed.

Lemma publish_each_spec ps msgs (d : Drainer P) :
  NoDup (map ob_id msgs) ->
  publish_each topic ps msgs d =
  (existsb (pub_failed ps) msgs,
   mkDrainer (after_pass ps (map ob_id msgs) (dr_box d))
     (dr_broker d ++ map entry_of (List.filter (lands ps) msgs)) (dr_muted d) (dr_cycles d)).
Proof.
  revert d. induction msgs as [|m msgs IH]; intros d Hnd; cbn [publish_each map existsb].
  - rewrite after_pass_nil. cbn. rewrite app_nil_r. by destruct d.
  - apply NoDup_cons in Hnd as [Hm Hnd]. rewrite publishOne_spec, (IH _ Hnd). cbn [dr_box dr_broker dr_muted dr_cycles].
    rewrite negb_involutive, after_pass_app, <- app_assoc, <- map_app by set_solver.
    cbn [List.filter]. by destruct (lands ps m).
Qed.

(** The listing of a pass, as the drainer sees it. *)
Definition listing (d : Drainer P) : list (OutRow P) := map (adapt side) (ListPending limit (dr_box d)).

Lemma adapt_id (r : OutRow P) : ob_id (adapt side r) = ob_id r.
Proof. by destruct side. Qed.
Lemma adapt_payload (r : OutRow P) : ob_payload (adapt side r) = ob_payload r.
Proof. by destruct side. Qed.

Lemma listing_ids (d : Drainer P) : map ob_id (listing d) = map ob_id (ListPending limit (dr_box d)).
Proof. unfold listing. rewrite map_map. apply map_ext. intros r. apply adapt_id. Qed.

(** Ids ascend and the next one is fresh. *)
Record table_ok (o : Outbox P) : Prop := {
  tk_sorted : StronglySorted Z.lt (map ob_id (ob_rows o));
  tk_next : Forall (fun i => i < ob_next o)%Z (map ob_id (ob_rows o)) }.

Lemma sorted_sublist {A} (R : A -> A -> Prop) (l k : list A) :
  l `sublist_of` k -> StronglySorted R k -> StronglySorted R l.
Proof.
  induction 1 as [|x l k Hs IH|x l k Hs IH]; intros H; [done|..]; apply StronglySorted_inv in H as [Hk Hx].
  - constructor; [by apply IH|]. rewrite Forall_forall in *. intros y Hy.
    apply Hx. by eapply elem_of_submseteq, sublist_submseteq.
  - by apply IH.
Qed.

Lemma map_sublist {A B} (f : A -> B) (l k : list A) : l `sublist_of` k -> map f l `sublist_of` map f k.
Proof. induction 1; cbn; by constructor. Qed.

Lemma filter_sublist {A} (f : A -> bool) (l : list A) : List.filter f l `sublist_of` l.
Proof. induction l; cbn; [done|]. destruct (f _); by constructor. Qed.

Lemma take_sublist {A} n (l : list A) : take n l `sublist_of` l.
Proof. rewrite <- (take_drop n l) at 2. apply sublist_inserts_r. done. Qed.

Lemma sorted_nodup (l : list Z) : StronglySorted Z.lt l -> NoDup l.
Proof.
  induction 1 as [|x l Hs IH Hx]; constructor; [|done]. intros Hin.
  rewrite Forall_forall in Hx. specialize (Hx x Hin). lia.
Qed.

Lemma listing_sorted (d : Drainer P) :
  table_ok (dr_box d) -> StronglySorted Z.lt (map ob_id (listing d)).
Proof.
  intros [Hs _]. rewrite listing_ids. eapply sorted_sublist; [|exact Hs].
  apply map_sublist. etrans; [apply take_sublist|apply filter_sublist].
Qed.

(** A pass in closed form. *)
Lemma drain_spec ps (d : Drainer P) :
  table_ok (dr_box d) ->
  drain side topic limit ps d =
  if ps_connected ps && ps_listed ps then
    (existsb (pub_failed ps) (listing d),
     mkDrainer (after_pass ps (map ob_id (listing d)) (dr_box d))
       (dr_broker d ++ map entry_of (List.filter (lands ps) (listing d))) (dr_muted d) (dr_cycles d))
  else (false, d).
Proof.
  intros Hok. unfold drain. destruct (ps_connected ps), (ps_listed ps); cbn; try done.
  apply publish_each_spec. by apply sorted_nodup, listing_sorted.
Qed.

(** *** The table stays ordered *)

Lemma table_ok_ids (o o' : Outbox P) :
  map ob_id (ob_rows o') `sublist_of` map ob_id (ob_rows o) -> ob_next o' = ob_next o ->
  table_ok o -> table_ok o'.
Proof.
  intros Hs Hn [H1 H2]. split; [by eapply sorted_sublist|]. rewrite Hn.
  rewrite Forall_forall in *. intros i Hi. apply H2. by eapply elem_of_submseteq, sublist_submseteq.
Qed.

Lemma update_ids id f (o : Outbox P) :
  (forall r, ob_id (f r) = ob_id r) -> map ob_id (ob_rows (update_row id f o)) = map ob_id (ob_rows o).
Proof. intros Hf. cbn. rewrite map_map. apply map_ext. intros r. by destruct (_ =i _). Qed.

Lemma after_pass_ids ps ids (o : Outbox P) :
  map ob_id (ob_rows (after_pass ps ids o)) = map ob_id (ob_rows o).
Proof.
  cbn. rewrite map_map. apply map_ext. intros r. destruct (bool_decide _); [apply attempted_id|done].
Qed.

Lemma sorted_app_one (l : list Z) n :
  StronglySorted Z.lt l -> Forall (fun i => i < n)%Z l -> StronglySorted Z.lt (l ++ [n]).
Proof.
  induction 1 as [|x l Hl IH Hx]; intros Hn; cbn; [by repeat constructor|].
  apply Forall_cons in Hn as [Hxn Hn]. constructor; [by apply IH|]. apply Forall_app. by repeat constructor.
Qed.

Lemma insert_ok t p ty now (o : Outbox P) : table_ok o -> table_ok (insert_row t p ty now o).
Proof.
  intros [H1 H2]. split; cbn; rewrite map_app; cbn.
  - by apply sorted_app_one.
  - apply Forall_app. split; [|repeat constructor; lia].
    eapply Forall_impl; [done|]. cbn. lia.
Qed.

Lemma fold_insert_ok ps ty now (o : Outbox P) :
  table_ok o -> table_ok (foldl (fun o p => insert_row "orders" p ty now o) o ps).
Proof. revert o. induction ps as [|p ps IH]; intros o Ho; cbn; [done|]. by apply IH, insert_ok. Qed.

(** The rows of [o] survive the inserts. *)
Lemma fold_insert_keeps ps ty now (o : Outbox P) r :
  r ∈ ob_rows o -> r ∈ ob_rows (foldl (fun o p => insert_row "orders" p ty now o) o ps).
Proof. revert o. induction ps as [|p ps IH]; intros o Ho; cbn; [done|]. apply IH. cbn. set_solver. Qed.

(** ** Fate of a message *)

(** The same message, whatever became of it. *)
Definition same_msg (r r' : OutRow P) : Prop :=
  ob_id r' = ob_id r /\ ob_payload r' = ob_payload r /\ ob_type r' = ob_type r /\
  ob_created r' = ob_created r.

Lemma same_msg_trans r1 r2 r3 : same_msg r1 r2 -> same_msg r2 r3 -> same_msg r1 r3.
Proof. unfold same_msg. intuition congruence. Qed.

Definition on_broker (r : OutRow P) (d : Drainer P) : Prop :=
  exists t, (ob_id r, t, ob_payload r) ∈ dr_broker d.

(** A row marked sent is on the broker. *)
Record box_inv (d : Drainer P) : Prop := {
  bi_table : table_ok (dr_box d);
  bi_sent : forall r, r ∈ ob_rows (dr_box d) -> is_Some (ob_sent r) -> on_broker r d }.

(** The possible fates of a row across some operations. *)
Definition fate (r : OutRow P) (d' : Drainer P) (purges : list Z) : Prop :=
  (exists r', r' ∈ ob_rows (dr_box d') /\ same_msg r r') \/ on_broker r d' \/
  coalescableSubjects (ob_type r) = true \/
  exists now, now ∈ purges /\ (ob_created r < now - DeadLetterRetentionPeriod)%Z.

Lemma unique_id (o : Outbox P) r r' :
  table_ok o -> r ∈ ob_rows o -> r' ∈ ob_rows o -> ob_id r = ob_id r' -> r = r'.
Proof.
  intros [Hs _]. apply sorted_nodup in Hs. revert Hs. induction (ob_rows o) as [|x l IH]; cbn; [set_solver|].
  intros [Hx Hnd]%NoDup_cons Hr Hr' Hid.
  assert (Hin : forall y, y ∈ l -> ob_id y ∈ map ob_id l) by (intros y Hy; by apply list_elem_of_fmap_2).
  rewrite elem_of_cons in Hr, Hr'. destruct Hr as [->|Hr], Hr' as [->|Hr']; [done|..].
  - destruct Hx. rewrite Hid. by apply Hin.
  - destruct Hx. rewrite <- Hid. by apply Hin.
  - by apply IH.
Qed.

Lemma listing_in (d : Drainer P) m :
  m ∈ listing d -> exists r, r ∈ ob_rows (dr_box d) /\ m = adapt side r /\ pending_row r = true.
Proof.
  unfold listing, ListPending. intros (r & -> & Hr)%list_elem_of_fmap.
  assert (Hf : r ∈ List.filter pending_row (ob_rows (dr_box d))).
  { eapply elem_of_submseteq; [exact Hr|]. apply sublist_submseteq, take_sublist. }
  apply list_elem_of_In, filter_In in Hf as [Hin Hp]. exists r. split; [by apply list_elem_of_In|done].
Qed.

Lemma attempted_same ps (r : OutRow P) : same_msg r (attempted ps r).
Proof. unfold attempted. destruct (at_write _); [|done]. by destruct (at_result _). Qed.

(** A pass keeps every row's message and acks only what landed. *)
Lemma drain_inv ps (d : Drainer P) :
  box_inv d ->
  let d' := (drain side topic limit ps d).2 in
  box_inv d' /\ (forall r, r ∈ ob_rows (dr_box d) -> exists r', r' ∈ ob_rows (dr_box d') /\ same_msg r r') /\
  (forall r, on_broker r d -> on_broker r d').
Proof.
  intros [Hok Hsent]. rewrite drain_spec by done. destruct (_ && _); cbn.
  2: { split_and!; [by split|intros r Hr; by exists r|done]. }
  assert (Hbr : forall r, on_broker r d -> exists t, (ob_id r, t, ob_payload r) ∈
    dr_broker d ++ map entry_of (List.filter (lands ps) (listing d))).
  { intros r [t Ht]. exists t. set_solver. }
  split_and!; [split|..]; cbn; try done.
  - apply (table_ok_ids (dr_box d)); [by rewrite after_pass_ids|done..].
  - intros r' (r & -> & Hr)%list_elem_of_fmap Hs. unfold on_broker. cbn.
    destruct (bool_decide_reflect (ob_id r ∈ map ob_id (listing d))) as [Hin|Hin]; [|by apply Hbr, Hsent].
    destruct (attempted_same ps r) as (E1 & E2 & _). rewrite E1, E2.
    destruct (decide (is_Some (ob_sent r))) as [Hold|Hnew]; [by apply Hbr, Hsent|].
    apply list_elem_of_fmap in Hin as (m & Hm & Hml). destruct (listing_in d m Hml) as (x & Hx & -> & _).
    rewrite adapt_id in Hm. assert (x = r) as -> by (symmetry; by eapply unique_id).
    eexists. apply elem_of_app. right. apply list_elem_of_fmap. exists (adapt side r).
    split; [unfold entry_of; by rewrite adapt_id, adapt_payload|].
    apply list_elem_of_In, filter_In. split; [by apply list_elem_of_In|]. unfold lands. rewrite adapt_id.
    unfold attempted in Hs. destruct (at_write _); [|done]. unfold landed. by destruct (at_result _).
  - intros r Hr. exists (if bool_decide (ob_id r ∈ map ob_id (listing d)) then attempted ps r else r).
    split; [apply list_elem_of_fmap; eauto|]. destruct (bool_decide _); [apply attempted_same|done].
Qed.

(** The clock readings of the ticks, at which a purge may run. *)
Definition op_tick (op : @Op P) : list Z :=
  match op with OTurn STick ps => [ps_now ps] | _ => [] end.

Definition ticks (ops : list (@Op P)) : list Z := ops ≫= op_tick.

Record op_safe (d d' : Drainer P) (purges : list Z) : Prop := {
  os_inv : box_inv d';
  os_fate : forall r, r ∈ ob_rows (dr_box d) -> fate r d' purges;
  os_broker : forall r, on_broker r d -> on_broker r d' }.

Lemma safe_refl (d : Drainer P) : box_inv d -> op_safe d d [].
Proof. split; [done| |done]. intros r Hr. left. by exists r. Qed.

Lemma fate_more r (d : Drainer P) l l' : (forall x, x ∈ l -> x ∈ l') -> fate r d l -> fate r d l'.
Proof. intros Hl [?|[?|[?|(now & ? & ?)]]]; [by left|right; by left|by do 2 right; left|]. do 3 right. eauto. Qed.

Lemma same_fate r r' (d : Drainer P) l : same_msg r r' -> fate r' d l -> fate r d l.
Proof.
  intros (E1 & E2 & E3 & E4) [(x & Hx & Hs)|[(t & Ht)|[Hc|(now & Hn & Hlt)]]].
  - left. exists x. split; [done|]. by eapply same_msg_trans.
  - right. left. exists t. by rewrite <- E1, <- E2.
  - do 2 right. left. by rewrite <- E3.
  - do 3 right. exists now. by rewrite <- E4.
Qed.

Lemma safe_trans (d1 d2 d3 : Drainer P) l l' :
  op_safe d1 d2 l -> op_safe d2 d3 l' -> op_safe d1 d3 (l ++ l').
Proof.
  intros [I1 F1 B1] [I2 F2 B2]. split; [done| |auto]. intros r Hr.
  destruct (F1 r Hr) as [(r' & Hr' & Hs)|[Hb|[Hc|(now & Hn & Hlt)]]].
  - eapply same_fate; [done|]. eapply fate_more; [|by apply F2]. set_solver.
  - right. left. auto.
  - by do 2 right; left.
  - do 3 right. exists now. set_solver.
Qed.

(** An update of one row that neither changes the message nor marks it sent. *)
Lemma requeue_safe id (d : Drainer P) : box_inv d -> op_safe d (with_box (Requeue id (dr_box d)) d) [].
Proof.
  intros [Hok Hs]. split; [split|..]; cbn.
  - apply (table_ok_ids (dr_box d)); [|done..]. unfold Requeue. rewrite update_ids; [done|].
    intros r. by destruct (unsent r).
  - intros r' (r & -> & Hr)%list_elem_of_fmap. destruct (_ =i _); [|by apply Hs]. unfold unsent.
    destruct (bool_decide_reflect (is_Some (ob_sent r))) as [E|E]; cbn; [by intros; apply Hs|done].
  - intros r Hr. left. eexists. split; [apply list_elem_of_fmap; by exists r|].
    destruct (_ =i _); [|done]. by destruct (unsent r).
  - done.
Qed.

Lemma insert_safe t p ty now (d : Drainer P) :
  box_inv d -> op_safe d (with_box (insert_row t p ty now (dr_box d)) d) [].
Proof.
  intros [Hok Hs]. split; [split|..]; cbn; [by apply insert_ok|..|done].
  - intros r. rewrite elem_of_app, list_elem_of_singleton. intros [Hr| ->]; [by apply Hs|by intros []].
  - intros r Hr. left. exists r. split; [cbn; set_solver|done].
Qed.

Lemma fold_insert_safe ps ty now (d : Drainer P) :
  box_inv d -> op_safe d (with_box (foldl (fun o p => insert_row "orders" p ty now o) (dr_box d) ps) d) [].
Proof.
  revert d. induction ps as [|p ps IH]; intros d Hd; cbn; [by destruct d; apply safe_refl|].
  pose proof (insert_safe "orders" p ty now d Hd) as H1.
  exact (safe_trans _ _ _ [] [] H1 (IH _ (os_inv _ _ _ H1))).
Qed.

(** Rows removed by a filter, each with its excuse. *)
Lemma filter_safe keep (d : Drainer P) purges :
  box_inv d ->
  (forall r, r ∈ ob_rows (dr_box d) -> keep r = false ->
    is_Some (ob_sent r) \/ coalescableSubjects (ob_type r) = true \/
    exists now, now ∈ purges /\ (ob_created r < now - DeadLetterRetentionPeriod)%Z) ->
  op_safe d (with_box (mkOutbox (List.filter keep (ob_rows (dr_box d))) (ob_next (dr_box d))) d) purges.
Proof.
  intros [Hok Hs] Hk. split; [split|..]; cbn; [..|done].
  - apply (table_ok_ids (dr_box d)); [|done..]. cbn. apply map_sublist, filter_sublist.
  - intros r [Hr _]%list_elem_of_In%filter_In. by apply Hs, list_elem_of_In.
  - intros r Hr. destruct (keep r) eqn:E.
    + left. exists r. split; [|done]. apply list_elem_of_In, filter_In. split; [by apply list_elem_of_In|done].
    + right. destruct (Hk r Hr E) as [Hsn|[?|?]]; [left; by apply Hs|right; by left|by do 2 right].
Qed.

Lemma snapshot_safe ps ty now (d : Drainer P) o :
  box_inv d -> EnqueueSnapshot ps ty now (dr_box d) = Some o -> op_safe d (with_box o d) [].
Proof.
  intros Hd H. unfold EnqueueSnapshot in H. destruct (coalescableSubjects ty) eqn:Hc; [|done].
  destruct ps as [|p ps]; cbn in H; injection H as <-; [by destruct d; apply safe_refl|].
  pose proof (filter_safe (fun r => negb (unsent r && (ob_type r =s ty))) d [] Hd) as H1.
  assert (H2 : op_safe d _ []) by (apply H1; intros r Hr Hk; right; left;
    apply negb_false_iff, andb_prop in Hk as [_ ->%String.eqb_eq]; done).
  exact (safe_trans _ _ _ [] [] H2 (fold_insert_safe (p :: ps) ty now _ (os_inv _ _ _ H2))).
Qed.

Lemma turn_safe sig ps (d : Drainer P) :
  box_inv d -> op_safe d (run_turn side topic limit sig ps d) (op_tick (OTurn sig ps)).
Proof.
  intros Hd. destruct (drain_inv ps d Hd) as (Hi & Hf & Hb).
  destruct (drain side topic limit ps d) as [failed d1] eqn:E. cbn [snd] in Hi, Hf, Hb.
  assert (H1 : forall m c, op_safe d (mkDrainer (dr_box d1) (dr_broker d1) m c) []).
  { intros m c. destruct Hi as [T1 T2]. split; [by split| |done]. intros r Hr. by left; apply Hf. }
  unfold run_turn. destruct sig; rewrite ?E.
  - destruct (dr_muted d); [by apply safe_refl|]. apply H1.
  - set (d2 := mkDrainer (dr_box d1) (dr_broker d1) failed (dr_cycles d1 + 1)).
    assert (H2 : op_safe d d2 []) by apply H1.
    destruct (_ && _).
    + apply (safe_trans d d2 _ [] [ps_now ps]); [done|].
      apply (filter_safe _ d2); [by apply (os_inv _ _ _ H2)|]. intros r Hr Hk%negb_false_iff.
      unfold purgeable in Hk. destruct (ob_sent r) as [t|]; [left; by eexists|].
      do 2 right. exists (ps_now ps). apply andb_prop in Hk as [_ Hk%Z.ltb_lt]. split; [set_solver|done].
    + destruct H2 as [I2 F2 B2]. split; [done| |done]. intros r Hr.
      eapply fate_more; [|by apply F2]. set_solver.
Qed.

Lemma run_safe ops (d : Drainer P) :
  box_inv d -> op_safe d (run side topic limit ops d) (ticks ops).
Proof.
  revert d. induction ops as [|op ops IH]; intros d Hd; cbn; [by apply safe_refl|].
  assert (H1 : op_safe d (do_op side topic limit op d) (op_tick op)).
  { destruct op as [p ty now|ps ty now|id|sig ps]; cbn.
    - by apply insert_safe.
    - destruct (EnqueueSnapshot _ _ _ _) eqn:E; [by eapply snapshot_safe|by apply safe_refl].
    - by apply requeue_safe.
    - by apply turn_safe. }
  exact (safe_trans _ _ _ _ _ H1 (IH _ (os_inv _ _ _ H1))).
Qed.

Lemma fresh_inv : box_inv (@fresh_drainer P).
Proof. split; [split; by repeat constructor|]. intros r Hr. by apply elem_of_nil in Hr. Qed.

Lemma run_app ops ops' (d : Drainer P) :
  run side topic limit (ops ++ ops') d = run side topic limit ops' (run side topic limit ops d).
Proof. apply foldl_app. Qed.

(** C13. A message is never dropped silently.  Whatever publications, acks, retry
    counts and listings do - errors, panics, lost writes, replays by hand - a
    message put in the outbox is on the broker, or its row is still there
    unsent with its payload, for at least the seven days a dead letter is kept;
    only the snapshot types, whose newer message contains the older, may be
    superseded earlier. *)
Theorem outbox_keeps_message (ops1 ops2 : list (@Op P)) (p : P) (ty : string) (now : Z) :
  coalescableSubjects ty = false ->
  (forall t, t ∈ ticks ops2 -> (t <= now + DeadLetterRetentionPeriod)%Z) ->
  let id := ob_next (dr_box (run side topic limit ops1 fresh_drainer)) in
  let d := run side topic limit (ops1 ++ OEnqueue p ty now :: ops2) fresh_drainer in
  (exists t, (id, t, p) ∈ dr_broker d) \/
  (exists r, r ∈ ob_rows (dr_box d) /\ ob_id r = id /\ ob_payload r = p /\ unsent r = true).
Proof.
  intros Hty Ht id d. unfold d. rewrite run_app. set (d1 := run side topic limit ops1 fresh_drainer) in *.
  assert (I1 : box_inv d1) by apply (os_inv _ _ _ (run_safe ops1 _ fresh_inv)).
  cbn [run foldl do_op]. set (d2 := with_box _ d1).
  assert (I2 : box_inv d2) by apply (os_inv _ _ _ (insert_safe "orders" p ty now d1 I1)).
  change (foldl _ d2 ops2) with (run side topic limit ops2 d2).
  destruct (run_safe ops2 d2 I2) as [I3 F3 _].
  destruct (F3 (mkOut id "orders" p ty 0 now None)) as [(r & Hr & E1 & E2 & _)|[Hb|[Hc|(t & Hin & Hlt)]]].
  - cbn. set_solver.
  - destruct (unsent r) eqn:Hu; [right; eauto|left]. cbn in E1, E2. rewrite <- E1, <- E2.
    apply (bi_sent _ I3 r Hr). unfold unsent in Hu. apply negb_false_iff, bool_decide_eq_true in Hu. done.
  - by left.
  - cbn in Hc. congruence.
  - cbn in Hlt. specialize (Ht t Hin). lia.
Qed.

(** ** The retry budget in an outage *)

(** A pass against a dead broker: everything is listed, every publication errors
    and every retry count is written. *)
Definition outage (ps : Pass) : Prop :=
  ps_connected ps = true /\ ps_listed ps = true /\
  forall id, at_result (ps_plan ps id) = PubErr /\ at_write (ps_plan ps id) = true.

(** Producers and the drainer's turns during an outage. *)
Definition outage_op (op : @Op P) : Prop :=
  match op with OEnqueue _ _ _ => True | OTurn _ ps => outage ps | _ => False end.

(** The retries a row has spent or is about to spend without a tick. *)
Definition committed (d : Drainer P) (r : OutRow P) : Z :=
  (ob_retries r + if pending_row r && negb (dr_muted d) then 1 else 0)%Z.

Lemma pending_listed (d : Drainer P) r :
  0 < limit -> r ∈ ob_rows (dr_box d) -> pending_row r = true -> exists m, m ∈ listing d.
Proof.
  intros Hl Hr Hp. unfold listing, ListPending.
  assert (Hf : r ∈ List.filter pending_row (ob_rows (dr_box d))).
  { apply list_elem_of_In, filter_In. split; [by apply list_elem_of_In|done]. }
  destruct (List.filter _ _) as [|x l]; [by apply elem_of_nil in Hf|].
  destruct limit as [|n]; [lia|]. cbn. exists (adapt side x). set_solver.
Qed.

Lemma outage_drain ps (d : Drainer P) :
  0 < limit -> box_inv d -> outage ps ->
  let res := drain side topic limit ps d in
  forall r', r' ∈ ob_rows (dr_box res.2) ->
  exists r, r ∈ ob_rows (dr_box d) /\ ob_id r = ob_id r' /\ unsent r' = unsent r /\
    (ob_retries r' = ob_retries r \/ pending_row r = true /\ ob_retries r' = ob_retries r + 1)%Z /\
    (pending_row r = true -> res.1 = true).
Proof.
  intros Hl [Hok _] (Hc & Hls & Hp). cbn zeta. rewrite drain_spec, Hc, Hls by done. cbn.
  intros r' (r & -> & Hr)%list_elem_of_fmap. exists r. split; [done|].
  assert (Hfail : pending_row r = true -> existsb (pub_failed ps) (listing d) = true).
  { intros Hpr. destruct (pending_listed d r Hl Hr Hpr) as [m Hm]. apply existsb_exists. exists m.
    split; [by apply list_elem_of_In|]. unfold pub_failed. by destruct (Hp (ob_id m)) as [-> _]. }
  destruct (bool_decide_reflect (ob_id r ∈ map ob_id (listing d))) as [Hin|Hin]; [|by eauto 8].
  apply list_elem_of_fmap in Hin as (m & Hm & Hml). destruct (listing_in d m Hml) as (x & Hx & -> & Hpx).
  rewrite adapt_id in Hm. assert (x = r) as -> by (symmetry; by eapply unique_id).
  unfold attempted. destruct (Hp (ob_id r)) as [-> ->]. cbn. eauto 8.
Qed.

Lemma committed_turn sig ps (d : Drainer P) r' :
  0 < limit -> box_inv d -> outage ps ->
  let d' := run_turn side topic limit sig ps d in
  r' ∈ ob_rows (dr_box d') ->
  exists r, r ∈ ob_rows (dr_box d) /\ ob_id r = ob_id r' /\
    (committed d' r' <= committed d r + match sig with STick => 1 | SWake => 0 end)%Z.
Proof.
  intros Hl Hd Hps. cbn zeta. pose proof (outage_drain ps d Hl Hd Hps) as Hdr. unfold run_turn.
  destruct (drain side topic limit ps d) as [failed d1]. cbn [fst snd] in Hdr.
  assert (Hstep : forall d', dr_muted d' = failed -> r' ∈ ob_rows (dr_box d1) ->
    exists r, r ∈ ob_rows (dr_box d) /\ ob_id r = ob_id r' /\
      (committed d' r' <= ob_retries r + if pending_row r then 1 else 0)%Z).
  { intros d' Hm Hr'. destruct (Hdr r' Hr') as (r & Hr & Hid & Hu & Hret & Hfail). exists r.
    split_and!; [done..|]. unfold committed. rewrite Hm. destruct (pending_row r) eqn:Hpr.
    - rewrite (Hfail eq_refl), andb_false_r. destruct Hret as [|[_ ?]]; lia.
    - destruct Hret as [Hret|[? _]]; [|done].
      assert (pending_row r' = false) as -> by (unfold pending_row in *; by rewrite Hu, Hret). cbn. lia. }
  destruct sig.
  - destruct (dr_muted d) eqn:Hm; intros Hr'; [exists r'; split_and!; [done..|lia]|].
    destruct (Hstep (with_muted failed d1) eq_refl Hr') as (r & Hr & Hid & Hc). exists r. split_and!; [done..|].
    unfold committed at 2. rewrite Hm, andb_true_r. lia.
  - set (d2 := mkDrainer (dr_box d1) (dr_broker d1) failed (dr_cycles d1 + 1)). intros Hr'.
    assert (Hin : r' ∈ ob_rows (dr_box d1)).
    { destruct (_ && _); [|done]. cbn in Hr'. by apply list_elem_of_In, filter_In in Hr' as [?%list_elem_of_In _]. }
    destruct (Hstep d2 eq_refl Hin) as (r & Hr & Hid & Hc). exists r. split_and!; [done..|].
    assert (committed (if (dr_cycles d2 mod PurgeCycleInterval =i 0) && ps_purge ps then
      with_box (PurgeOld MessageRetentionPeriod DeadLetterRetentionPeriod (ps_now ps) (dr_box d2)).2 d2
      else d2) r' = committed d2 r') as -> by (by destruct (_ && _)).
    unfold committed at 2. destruct (pending_row r), (dr_muted d); cbn; lia.
Qed.

Lemma committed_op op (d : Drainer P) r' :
  0 < limit -> box_inv d -> outage_op op ->
  let d' := do_op side topic limit op d in
  r' ∈ ob_rows (dr_box d') -> (ob_id r' < ob_next (dr_box d))%Z ->
  exists r, r ∈ ob_rows (dr_box d) /\ ob_id r = ob_id r' /\
    (committed d' r' <= committed d r + Z.of_nat (length (op_tick op)))%Z.
Proof.
  intros Hl Hd Ho. destruct op as [p ty now|ps ty now|id|sig ps]; cbn [do_op op_tick] in *; try done.
  - cbn. rewrite elem_of_app, list_elem_of_singleton. intros [Hr| ->] Hlt; [|cbn in Hlt; lia].
    exists r'. split_and!; [done..|]. unfold committed. cbn. destruct (_ && _); lia.
  - intros Hr _. destruct (committed_turn sig ps d r' Hl Hd Ho Hr) as (r & Hin & Hid & Hc).
    exists r. split_and!; [done..|]. destruct sig; cbn [length]; lia.
Qed.

Lemma next_grows op (d : Drainer P) :
  outage_op op -> (ob_next (dr_box d) <= ob_next (dr_box (do_op side topic limit op d)))%Z.
Proof.
  destruct op as [p ty now|ps ty now|id|sig ps]; cbn; try done; [lia|]. intros _. unfold run_turn.
  assert (Hn : forall msgs (d : Drainer P),
    ob_next (dr_box (publish_each topic ps msgs d).2) = ob_next (dr_box d)).
  { induction msgs as [|m msgs IH]; intros d0; cbn; [done|].
    rewrite publishOne_spec. destruct (publish_each _ _ _ _) as [f d2] eqn:E. cbn.
    pose proof (IH (mkDrainer (after_pass ps [ob_id m] (dr_box d0)) (dr_broker d0 ++ map entry_of
      (List.filter (lands ps) [m])) (dr_muted d0) (dr_cycles d0))) as H. rewrite E in H. by cbn in H. }
  assert (Hd : ob_next (dr_box (drain side topic limit ps d).2) = ob_next (dr_box d)).
  { unfold drain. destruct (ps_connected ps), (ps_listed ps); cbn; try done. }
  destruct (drain side topic limit ps d) as [failed d1]. cbn in Hd.
  destruct sig; [destruct (dr_muted d); cbn; lia|]. destruct (_ && _); cbn; lia.
Qed.

(** A row of the final table that is not newer than [d] was in [d]. *)
Lemma back_run ops (d : Drainer P) r' :
  0 < limit -> box_inv d -> Forall outage_op ops ->
  r' ∈ ob_rows (dr_box (run side topic limit ops d)) -> (ob_id r' < ob_next (dr_box d))%Z ->
  exists r, r ∈ ob_rows (dr_box d) /\ ob_id r = ob_id r'.
Proof.
  intros Hl Hd Ho. revert d Hd. induction Ho as [|op ops Hop Ho IH]; intros d Hd Hr' Hlt; [by exists r'|].
  change (run side topic limit (op :: ops) d) with (run side topic limit ops (do_op side topic limit op d)) in *.
  pose proof (run_safe [op] d Hd) as [Hd1 _ _]. cbn in Hd1.
  destruct (IH _ Hd1 Hr') as (r1 & Hr1 & Hid1); [pose proof (next_grows op d Hop); lia|].
  destruct (committed_op op d r1 Hl Hd Hop Hr1) as (r & Hr & Hid & _); [lia|]. exists r. split; [done|lia].
Qed.

End Pass.

(** ** Order *)

Section Order.
Context {P : Type} (side : Side) (topic : string) (limit : nat).
Notation run := (run side topic limit).
Notation listing := (listing side limit).

(** A broker that, once it refuses a message of a pass, has none of the later
    ones of that pass. *)
Definition fail_stop (ps : Pass) : Prop :=
  exists cut, forall id, landed (ps_plan ps id) = (id <? cut)%Z.

(** Producers and fail-stop passes that exhaust no message; no replay by hand,
    no superseding snapshot. *)
Fixpoint orderly (ops : list (@Op P)) (d : Drainer P) : Prop :=
  match ops with
  | [] => True
  | op :: rest =>
      match op with
      | OEnqueue _ _ _ => True
      | OTurn _ ps => fail_stop ps /\
          Forall (fun r => dead_row r = false) (ob_rows (dr_box (drain side topic limit ps d).2))
      | _ => False
      end /\ orderly rest (do_op side topic limit op d)
  end.

Definition enqueued (ops : list (@Op P)) : list P :=
  omap (fun op => match op with OEnqueue p _ _ => Some p | _ => None end) ops.

Definition payloads (log : list (Z * string * P)) : list P := map snd log.

(** [k] messages have arrived, each first after its predecessors; the others are
    waiting in the table. *)
Record in_order (enq : list P) (k : nat) (d : Drainer P) : Prop := {
  io_inv : box_inv d;
  io_next : ob_next (dr_box d) = (Z.of_nat (length enq) + 1)%Z;
  io_rows : forall r, r ∈ ob_rows (dr_box d) ->
    exists i, ob_id r = (Z.of_nat i + 1)%Z /\ enq !! i = Some (ob_payload r);
  io_alive : Forall (fun r => dead_row r = false) (ob_rows (dr_box d));
  io_sent : forall r, r ∈ ob_rows (dr_box d) -> unsent r = false -> (ob_id r <= Z.of_nat k)%Z;
  io_waiting : forall i, k <= i < length enq ->
    exists r, r ∈ ob_rows (dr_box d) /\ ob_id r = (Z.of_nat i + 1)%Z;
  io_log : k <= length enq /\ redelivery [] (take k enq) (payloads (dr_broker d)) }.

(** Rows landing in id order, with none missing above [k]. *)
Lemma land_rows enq (ms : list (OutRow P)) k log :
  k <= length enq -> redelivery [] (take k enq) log ->
  StronglySorted Z.lt (map ob_id ms) ->
  (forall m, m ∈ ms -> exists i, ob_id m = (Z.of_nat i + 1)%Z /\ enq !! i = Some (ob_payload m)) ->
  (forall m i, m ∈ ms -> (Z.of_nat k < Z.of_nat i + 1 < ob_id m)%Z ->
    exists m', m' ∈ ms /\ ob_id m' = (Z.of_nat i + 1)%Z) ->
  exists k', k <= k' <= length enq /\ redelivery [] (take k' enq) (log ++ map ob_payload ms) /\
    (forall m, m ∈ ms -> (ob_id m <= Z.of_nat k')%Z) /\
    (forall i, k <= i < k' -> exists m, m ∈ ms /\ ob_id m = (Z.of_nat i + 1)%Z).
Proof.
  revert k log. induction ms as [|m ms IH]; intros k log Hk Hrd Hs Hpay Hgap.
  { exists k. rewrite app_nil_r. split_and!; [lia|lia|done|set_solver|lia]. }
  cbn in Hs. apply StronglySorted_inv in Hs as [Hs Hm]. rewrite Forall_forall in Hm.
  assert (Hlt : forall x, x ∈ ms -> (ob_id m < ob_id x)%Z) by (intros x Hx; by apply Hm, list_elem_of_fmap_2).
  destruct (Hpay m) as (i & Hid & Hi); [set_solver|].
  assert (Hlen : i < length enq) by (by eapply lookup_lt_Some).
  assert (Hik : i <= k).
  { destruct (decide (i <= k)) as [|Hgt]; [done|]. exfalso.
    destruct (Hgap m k) as (m' & Hm' & Hid'); [set_solver|lia|].
    apply elem_of_cons in Hm' as [->|Hm']; [lia|]. specialize (Hlt m' Hm'). lia. }
  set (k1 := if decide (i = k) then S k else k).
  destruct (IH k1 (log ++ [ob_payload m])) as (k' & Hk' & Hrd' & Hle & Hall).
  - unfold k1. case_decide; lia.
  - unfold k1. case_decide as E.
    + subst i. rewrite (take_S_r _ _ _ Hi). by apply rd_snoc_next.
    + apply rd_snoc_again; [|done]. right. apply list_elem_of_lookup. exists i.
      rewrite lookup_take_lt by lia. done.
  - done.
  - intros x Hx. apply Hpay. set_solver.
  - intros x j Hx Hj. destruct (Hgap x j) as (m' & Hm' & Hid'); [set_solver|unfold k1 in Hj; case_decide; lia|].
    exists m'. apply elem_of_cons in Hm' as [->|Hm']; [|done]. exfalso. unfold k1 in Hj. case_decide; lia.
  - exists k'. assert (k <= k1) by (unfold k1; case_decide; lia). split_and!; [lia|lia|..].
    + cbn. by rewrite <- app_assoc in Hrd'.
    + intros x [->|Hx]%elem_of_cons; [|by apply Hle]. unfold k1 in *. case_decide; lia.
    + intros j Hj. destruct (decide (k1 <= j)) as [Hge|Hlt1].
      * destruct (Hall j) as (x & Hx & ?); [lia|]. exists x. split; [set_solver|done].
      * exists m. split; [set_solver|]. unfold k1 in Hlt1. case_decide; lia.
Qed.

Lemma take_earlier (l : list (OutRow P)) n x m :
  StronglySorted Z.lt (map ob_id l) -> m ∈ take n l -> x ∈ l -> (ob_id x < ob_id m)%Z -> x ∈ take n l.
Proof.
  revert n. induction l as [|y l IH]; intros n Hs Hm Hx Hlt; [by apply elem_of_nil in Hx|].
  destruct n as [|n]; [by apply elem_of_nil in Hm|]. cbn in Hs, Hm |- *.
  apply StronglySorted_inv in Hs as [Hs Hy]. rewrite Forall_forall in Hy.
  apply elem_of_cons in Hx as [->|Hx]; [set_solver|]. apply elem_of_cons. right.
  apply elem_of_cons in Hm as [->|Hm]; [|by apply IH].
  specialize (Hy (ob_id x)). rewrite list_elem_of_fmap in Hy. assert (ob_id y < ob_id x)%Z by eauto. lia.
Qed.
(** The rows of the table that land in a pass. *)
Lemma landing_no_gap enq k ps (d : Drainer P) m i :
  in_order enq k d -> fail_stop ps ->
  m ∈ List.filter (lands ps) (listing d) -> (Z.of_nat k < Z.of_nat i + 1 < ob_id m)%Z ->
  exists m', m' ∈ List.filter (lands ps) (listing d) /\ ob_id m' = (Z.of_nat i + 1)%Z.
Proof.
  intros I [cut Hcut] Hm Hi. apply list_elem_of_In, filter_In in Hm as [Hm%list_elem_of_In Hl].
  unfold lands in Hl. rewrite Hcut in Hl. apply Z.ltb_lt in Hl.
  destruct (listing_in side limit d m Hm) as (x & Hx & -> & _). rewrite adapt_id in *.
  destruct (io_rows _ _ _ I x Hx) as (j & Hj & Hlook). apply lookup_lt_Some in Hlook.
  destruct (io_waiting _ _ _ I i) as (r & Hr & Hid); [lia|].
  assert (Hu : unsent r = true).
  { destruct (unsent r) eqn:E; [done|]. pose proof (io_sent _ _ _ I r Hr E). lia. }
  assert (Hp : pending_row r = true).
  { pose proof (io_alive _ _ _ I) as Ha. rewrite Forall_forall in Ha. specialize (Ha r Hr).
    unfold pending_row, dead_row in *. rewrite Hu in *. cbn in *.
    apply Z.leb_gt in Ha. by apply Z.ltb_lt. }
  exists (adapt side r). rewrite adapt_id. split; [|done].
  apply list_elem_of_In, filter_In. split.
  - apply list_elem_of_In. unfold Outbox.listing in *. apply list_elem_of_fmap_2.
    apply list_elem_of_fmap in Hm as (y & Hy & Hyin).
    assert (Hyid : ob_id y = ob_id x) by (rewrite <- (adapt_id side y), <- Hy; apply adapt_id).
    eapply take_earlier; [|exact Hyin| |lia].
    + eapply sorted_sublist; [apply map_sublist, filter_sublist|apply I].
    + apply list_elem_of_In, filter_In. split; [by apply list_elem_of_In|done].
  - unfold lands. rewrite adapt_id, Hcut. apply Z.ltb_lt. lia.
Qed.

Lemma drain_in_order enq k ps (d : Drainer P) :
  in_order enq k d -> fail_stop ps ->
  Forall (fun r => dead_row r = false) (ob_rows (dr_box (drain side topic limit ps d).2)) ->
  exists k', k <= k' /\ in_order enq k' (drain side topic limit ps d).2.
Proof.
  intros I Hfs Hdead. destruct (drain_inv side topic limit ps d (io_inv _ _ _ I)) as (Hinv & _ & _).
  pose proof (bi_table _ (io_inv _ _ _ I)) as Hok. rewrite drain_spec in * by done.
  destruct (ps_connected ps && ps_listed ps) eqn:Hgo; cbn [snd] in *; [|by exists k].
  set (ms := List.filter (lands ps) (listing d)) in *.
  destruct (land_rows enq ms k (payloads (dr_broker d))) as (k' & Hk' & Hrd & Hle & Hall).
  - apply I.
  - apply I.
  - eapply sorted_sublist; [apply map_sublist, filter_sublist|by apply listing_sorted].
  - intros m [Hm%list_elem_of_In _]%list_elem_of_In%filter_In.
    destruct (listing_in side limit d m Hm) as (x & Hx & -> & _). rewrite adapt_id, adapt_payload.
    by apply (io_rows _ _ _ I).
  - intros m i Hm Hi. by eapply landing_no_gap.
  - exists k'. split; [lia|]. split; cbn [dr_box dr_broker ob_next after_pass]; [done|apply I| |done|..].
    + intros r' (r & -> & Hr)%list_elem_of_fmap. destruct (bool_decide _); [|by apply (io_rows _ _ _ I)].
      destruct (attempted_same ps r) as (-> & -> & _). by apply (io_rows _ _ _ I).
    + intros r' (r & -> & Hr)%list_elem_of_fmap.
      destruct (bool_decide_reflect (ob_id r ∈ map ob_id (listing d))) as [Hin|Hin].
      2: { intros Hu. pose proof (io_sent _ _ _ I r Hr Hu). lia. }
      rewrite attempted_id. apply list_elem_of_fmap in Hin as (m & Hm & Hml).
      unfold attempted. destruct (at_write _); [|intros Hu; pose proof (io_sent _ _ _ I r Hr Hu); lia].
      destruct (at_result (ps_plan ps (ob_id r))) eqn:E;
        try (intros Hu; pose proof (io_sent _ _ _ I r Hr Hu); lia).
      intros _. rewrite Hm. apply Hle. apply list_elem_of_In, filter_In. split; [by apply list_elem_of_In|].
      unfold lands, landed. by rewrite <- Hm, E.
    + intros i Hi. destruct (io_waiting _ _ _ I i) as (r & Hr & Hid); [lia|].
      exists (if bool_decide (ob_id r ∈ map ob_id (listing d)) then attempted ps r else r).
      split; [apply list_elem_of_fmap; eauto|]. destruct (bool_decide _); [by rewrite attempted_id|done].
    + split; [lia|]. unfold payloads in *. rewrite map_app, map_map. exact Hrd.
Qed.

(** Purging the delivered rows, or nothing. *)
Lemma purge_in_order enq k (d d' : Drainer P) keep :
  in_order enq k d -> dr_broker d' = dr_broker d -> ob_next (dr_box d') = ob_next (dr_box d) ->
  ob_rows (dr_box d') = List.filter keep (ob_rows (dr_box d)) ->
  (forall r, r ∈ ob_rows (dr_box d) -> unsent r = true -> keep r = true) -> in_order enq k d'.
Proof.
  intros I Hb Hn Hr Hk.
  assert (Hsub : forall r, r ∈ ob_rows (dr_box d') -> r ∈ ob_rows (dr_box d)).
  { intros r. rewrite Hr. by intros [?%list_elem_of_In _]%list_elem_of_In%filter_In. }
  destruct I as [[I1 I2] I3 I4 I5 I6 I7 I8]. split; rewrite ?Hb, ?Hn; try by auto.
  - split.
    + apply (table_ok_ids (dr_box d)); [|done..]. rewrite Hr. apply map_sublist, filter_sublist.
    + intros r Hin Hs. unfold on_broker. rewrite Hb. by apply I2; auto.
  - rewrite Forall_forall in *. auto.
  - intros i Hi. destruct (I7 i Hi) as (r & Hin & Hid). exists r. split; [|done]. rewrite Hr.
    apply list_elem_of_In, filter_In. split; [by apply list_elem_of_In|]. apply Hk; [done|].
    destruct (unsent r) eqn:E; [done|]. specialize (I6 r Hin E). lia.
Qed.

Lemma filter_all {A} (l : list A) : List.filter (fun _ => true) l = l.
Proof. induction l; cbn; congruence. Qed.

Lemma turn_in_order enq k sig ps (d : Drainer P) :
  in_order enq k d -> fail_stop ps ->
  Forall (fun r => dead_row r = false) (ob_rows (dr_box (drain side topic limit ps d).2)) ->
  exists k', k <= k' /\ in_order enq k' (run_turn side topic limit sig ps d).
Proof.
  intros I Hfs Hdead. destruct (drain_in_order enq k ps d I Hfs Hdead) as (k' & Hk & I').
  unfold run_turn. destruct (drain side topic limit ps d) as [failed d1]. cbn [snd] in *.
  assert (Hsame : forall m c, in_order enq k' (mkDrainer (dr_box d1) (dr_broker d1) m c)).
  { intros m c. apply (purge_in_order enq k' d1 _ (fun _ => true)); try done. by rewrite filter_all. }
  destruct sig; [destruct (dr_muted d); [by exists k|by exists k'; split; [|apply Hsame]]|].
  exists k'. split; [done|]. set (d2 := mkDrainer _ _ failed _). destruct (_ && _); [|apply Hsame].
  eapply (purge_in_order enq k' d2); [apply Hsame|done..|]. intros r Hr Hu. cbn in Hr.
  pose proof (io_alive _ _ _ I') as Ha. rewrite Forall_forall in Ha. specialize (Ha r Hr).
  unfold purgeable, dead_row, unsent in *. destruct (ob_sent r) as [t|]; [done|]. cbn in Ha. by rewrite Ha.
Qed.

Lemma enqueue_in_order enq k p ty now (d : Drainer P) :
  in_order enq k d -> in_order (enq ++ [p]) k (with_box (insert_row "orders" p ty now (dr_box d)) d).
Proof.
  intros I. pose proof (os_inv _ _ _ (insert_safe "orders" p ty now d (io_inv _ _ _ I))) as Hinv.
  destruct I as [I1 I2 I3 I4 I5 I6 [I7 I8]]. split; cbn; [done|..].
  - rewrite I2, length_app. cbn. lia.
  - intros r. rewrite elem_of_app, list_elem_of_singleton. intros [Hr| ->].
    + destruct (I3 r Hr) as (i & Hid & Hi). exists i. split; [done|]. by apply lookup_app_l_Some.
    + exists (length enq). split; [cbn; lia|]. by rewrite lookup_app_r, Nat.sub_diag by lia.
  - apply Forall_app. split; [done|]. by repeat constructor.
  - intros r. rewrite elem_of_app, list_elem_of_singleton. intros [Hr| ->]; [by apply I5|done].
  - intros i. rewrite length_app. cbn. intros Hi. destruct (decide (i = length enq)) as [->|Hne].
    + eexists. split; [apply elem_of_app; right; by apply list_elem_of_singleton|]. cbn. lia.
    + destruct (I6 i) as (r & Hr & Hid); [lia|]. exists r. split; [set_solver|done].
  - rewrite length_app, take_app_le by lia. split; [lia|done].
Qed.

Lemma run_in_order ops enq k (d : Drainer P) :
  in_order enq k d -> orderly ops d ->
  exists k', k <= k' /\ in_order (enq ++ enqueued ops) k' (run ops d).
Proof.
  revert enq k d. induction ops as [|op ops IH]; intros enq k d I Ho; cbn in *.
  { rewrite app_nil_r. eauto. }
  destruct Ho as [Hop Ho]. destruct op as [p ty now|ps ty now|id|sig ps]; try done.
  - destruct (IH (enq ++ [p]) k _ (enqueue_in_order enq k p ty now d I) Ho) as (k' & Hk & I').
    exists k'. split; [done|]. cbn. by rewrite <- app_assoc in I'.
  - destruct Hop as [Hfs Hdead]. destruct (turn_in_order enq k sig ps d I Hfs Hdead) as (k1 & Hk1 & I1).
    destruct (IH enq k1 _ I1 Ho) as (k' & Hk & I'). exists k'. split; [lia|done].
Qed.

Lemma fresh_in_order : in_order [] 0 (@fresh_drainer P).
Proof.
  split; cbn; [apply fresh_inv|done|set_solver|by constructor|set_solver|lia|]. split; [lia|constructor].
Qed.

(** Everything after the first [k] is still there. *)
Lemma waiting_row enq k (d : Drainer P) i p :
  in_order enq k d -> k <= i -> enq !! i = Some p ->
  exists r, r ∈ ob_rows (dr_box d) /\ ob_id r = (Z.of_nat i + 1)%Z /\ ob_payload r = p /\ unsent r = true.
Proof.
  intros I Hi Hp. destruct (io_waiting _ _ _ I i) as (r & Hr & Hid); [apply lookup_lt_Some in Hp; done|].
  exists r. destruct (io_rows _ _ _ I r Hr) as (j & Hj & Hlook).
  assert (j = i) as -> by lia. split_and!; [done|done|congruence|].
  destruct (unsent r) eqn:E; [done|]. pose proof (io_sent _ _ _ I r Hr E). lia.
Qed.

(** C12. Without snapshots and replays the broker gets the messages in order, at
    least once.  Take any run of plain enqueues and passes of the drainer in which
    every pass is fail-stop and no message exhausts its retries; no snapshot is
    enqueued (it would delete the waiting messages of its type: see
    [snapshot_drops_waiting]) and nothing is replayed by hand.  Acks may be lost, and
    passes cut short anywhere, woken or ticked.  Then what the broker holds is the
    first [k] messages enqueued, in that order, with repetitions only of messages
    already delivered, and every later message is still in the table, unsent. *)
Theorem outbox_in_order (ops : list (@Op P)) :
  orderly ops fresh_drainer ->
  let d := run ops fresh_drainer in
  exists k, k <= length (enqueued ops) /\
    redelivery [] (take k (enqueued ops)) (payloads (dr_broker d)) /\
    forall i p, k <= i -> enqueued ops !! i = Some p ->
      exists r, r ∈ ob_rows (dr_box d) /\ ob_id r = (Z.of_nat i + 1)%Z /\ ob_payload r = p /\
        unsent r = true.
Proof.
  intros Ho d. destruct (run_in_order ops [] 0 _ fresh_in_order Ho) as (k & _ & I). exists k.
  destruct (io_log _ _ _ I) as [Hk Hrd]. split_and!; [done..|]. intros i p Hi Hp.
  by eapply waiting_row.
Qed.
End Order.

(** ** Runs *)

(** A pass in which every publication ends as [a]. *)
Definition pass_all (a : Attempt) (now : Z) : Pass := mkPass true true (fun _ => a) true now.
Definition broker_down : Attempt := mkAttempt PubErr false true.
Definition broker_up : Attempt := mkAttempt PubOk true true.

(** A snapshot deletes the waiting message of its type, and only that. *)
Example snapshot_drops_waiting :
  let d := run EdgeSide "orders" 50
    [OEnqueue "a" "bin_uop_delta" 5; OSnapshot ["s1"] SubjectPlantClaims 6; OSnapshot ["s2"] SubjectPlantClaims 7] fresh_drainer in
  map ob_payload (ob_rows (dr_box d)) = ["a"; "s2"] /\ dr_broker d = [].
Proof. by vm_compute. Qed.

Lemma outbox_keeps_message_witness :
  let ops1 := [OEnqueue "a" "bin_uop_delta" 5] in
  let ops2 := [OTurn SWake (pass_all broker_down 6); OTurn STick (pass_all broker_down 7)] in
  let d := run EdgeSide "orders" 50 (ops1 ++ OEnqueue "b" "bin_uop_delta" 6 :: ops2) fresh_drainer in
  dr_broker d = [] /\ map ob_retries (ob_rows (dr_box d)) = [2; 2]%Z /\
  ((exists t, (2%Z, t, "b") ∈ dr_broker d) \/
   (exists r, r ∈ ob_rows (dr_box d) /\ ob_id r = 2%Z /\ ob_payload r = "b" /\ unsent r = true)).
Proof.
  split; [vm_compute; reflexivity|]. split; [vm_compute; reflexivity|].
  apply (outbox_keeps_message EdgeSide "orders" 50 [OEnqueue "a" "bin_uop_delta" 5]); [reflexivity|].
  intros t Ht. cbn in Ht. apply list_elem_of_singleton in Ht as ->. vm_compute. discriminate.
Defined.


(** The broker takes the rows below [cut]; acks are written as [ack] says. *)
Definition pass_to (cut : Z) (ack : bool) (now : Z) : Pass :=
  mkPass true true (fun id => if (id <? cut)%Z then mkAttempt PubOk true ack else broker_down) true now.

Lemma pass_to_fail_stop cut ack now : fail_stop (pass_to cut ack now).
Proof. exists cut. intros id. cbn. by destruct (id <? cut)%Z. Qed.

(** "a" is delivered but its ack is lost, so it is sent again before "b". *)
Lemma outbox_in_order_witness :
  let ops := [OEnqueue "a" "x" 1; OEnqueue "b" "x" 1; OTurn SWake (pass_to 2 false 2);
    OEnqueue "c" "x" 3; OTurn STick (pass_to 3 true 4)] in
  let d := run EdgeSide "orders" 50 ops fresh_drainer in
  payloads (dr_broker d) = ["a"; "a"; "b"] /\
  exists k, k <= 3 /\ redelivery [] (take k ["a"; "b"; "c"]) ["a"; "a"; "b"] /\
    forall i p, k <= i -> ["a"; "b"; "c"] !! i = Some p ->
      exists r, r ∈ ob_rows (dr_box d) /\ ob_id r = (Z.of_nat i + 1)%Z /\ ob_payload r = p /\
        unsent r = true.
Proof.
  split; [vm_compute; reflexivity|].
  apply (outbox_in_order EdgeSide "orders" 50 [OEnqueue "a" "x" 1; OEnqueue "b" "x" 1;
    OTurn SWake (pass_to 2 false 2); OEnqueue "c" "x" 3; OTurn STick (pass_to 3 true 4)]).
  cbn [orderly]. repeat split; try apply pass_to_fail_stop; vm_compute; repeat constructor.
Defined.
