(* ===== verification/UopFlow.v ===== *)
(** The count of a bin end to end: the Edge's accumulator (Accumulator.v) feeds
    the outbox, whose envelopes Core's applier (UopApplier.v) consumes, each at
    least once and - while the broker is fail-stop - in order (Outbox.v).  The
    sections below show which labels reach the wire and compose the three. *)

From stdpp Require Import pretty sorting.
From S2P Require Import Prelude Sql CoreDb UopApplier Accumulator Outbox.

(** ** Which labels reach the wire *)

Section Labels.
Context {L : Type} (sc : Scope L) `{!ScopeLaws sc} (k : string) (Q : L -> Prop).
Hypothesis Q_note : forall first old new,
  sc_key sc old = sc_key sc new -> Q old -> Q new -> Q (sc_note sc first old new).
Hypothesis Q_settle : forall l, Q l -> Q (sc_settle sc l).
Hypothesis Q_resolve : forall l l', sc_resolve sc l = Some l' -> Q l -> Q l'.

(** Every label a call was made with, finished or not. *)
Definition made (s : @Acc L) : list L := map fst (recorded s) ++ map ca_lab (calls s).

Definition says (l : L) : Prop := sc_key sc l = k -> Q l.

Definition flusher_says (f : @Flusher L) : Prop :=
  match f with
  | FSend _ _ _ snap | FSent _ _ _ snap => says (en_lab snap)
  | FSeq _ _ _ snap wire _ => says (en_lab snap) /\ says wire
  | _ => True
  end.

Record labels (s : @Acc L) : Prop := {
  lb_heap : forall p e, heap s !! p = Some e -> says (en_lab e);
  lb_flusher : flusher_says (flusher s);
  lb_outbox : Forall (fun m => says (ms_lab m)) (outbox s) }.

(** Calls are never forgotten. *)
Lemma made_step s s' l : Step sc s s' -> l ∈ made s -> l ∈ made s'.
Proof.
  unfold made. destruct 1; cbn; try done;
    try match goal with H : calls _ = _ |- _ => rewrite H end;
    rewrite ?map_app; cbn [map ca_lab]; rewrite ?elem_of_app, ?elem_of_cons; cbn; tauto.
Qed.

Lemma labels_insert s s' p e e' :
  labels s -> heap s !! p = Some e -> says (en_lab e') -> heap s' = <[p := e']> (heap s) ->
  flusher_says (flusher s') -> outbox s' = outbox s -> labels s'.
Proof.
  intros [H1 H2 H3] Hp He Hh Hf Ho. split; [|done|by rewrite Ho].
  intros q x. rewrite Hh. intros [[-> ->]|[_ ?]]%(heap_insert_lookup _ _ e); [done|by eapply H1|done].
Qed.

Lemma labels_control s s' :
  labels s -> heap s' = heap s -> flusher_says (flusher s') -> outbox s' = outbox s -> labels s'.
Proof. intros [H1 H2 H3] Hh Hf Ho. split; [by rewrite Hh|done|by rewrite Ho]. Qed.

Lemma commit_says snap t e : says (en_lab e) -> says (en_lab (commit_entry sc snap t e)).
Proof.
  unfold commit_entry, says. destruct (_ =i 0); cbn; [|done]. rewrite settle_key. auto.
Qed.

Lemma step_labels s s' :
  inv sc s -> (forall l, l ∈ made s' -> says l) -> labels s -> Step sc s s' -> labels s'.
Proof.
  intros I Hm B H. pose proof (lb_flusher s B) as Hfl.
  destruct H as [s t Ht|s l delta Hd Hv|s cs1 cs2 l delta t p h tb Hc Hl|s cs1 cs2 l delta t p e Hc Hp Hev
    |s cs1 cs2 l delta t p Hc|s cs1 cs2 l delta t p e Hc Hp Hev|s Hf|s seen k' p e Hf _ Hp Hk Hz
    |s seen k' p e Hf _ Hp Hk Hz|s seen k' p snap e Hf Hdr Hp|s seen k' p snap wire Hf Hw
    |s seen k' p snap wire Hf Hw n|s seen k' p snap wire n Hf|s seen k' p snap wire n Hf
    |s seen k' p snap wire n Hf|s seen k' p snap e Hf Hp|s seen Hf|s cutoff seen k' p e Hf _ Hp Hk Hi
    |s cutoff seen k' p e Hf _ Hp Hk Hi|s cutoff seen k' p Hf|s cutoff seen Hf];
    try (by apply (labels_control s)); try rewrite Hf in Hfl.
  - unfold load_or_store in Hl. destruct (table s !! sc_key sc l).
    + injection Hl as _ <- _. by apply (labels_control s).
    + injection Hl as _ <- _. destruct B as [H1 H2 H3]. split; [|done..]. cbn. intros q x Hx.
      apply lookup_app_Some in Hx as [Hx|[_ [_ <-]%list_lookup_singleton_Some]]; [by eapply H1|].
      unfold says. cbn. rewrite settle_key. intros Hk. apply Q_settle. apply (Hm l); [|done].
      unfold made. cbn. rewrite map_app. cbn. set_solver.
  - eapply (labels_insert s _ p e (add_record sc l delta t e)); try done. cbn. unfold says. rewrite note_key. intros Hk.
    assert (Hl : says l) by (apply Hm; unfold made; cbn; rewrite map_app; cbn; set_solver).
    destruct (call_wf sc s cs1 _ cs2 I Hc) as (x & Hx & Hkx). cbn in Hx, Hkx.
    assert (x = e) as -> by congruence.
    apply Q_note; [done|by apply (lb_heap s B p e)|]. apply Hl. congruence.
  - apply (labels_control s); try done. cbn. by apply (lb_heap s B p e).
  - eapply (labels_insert s _ p e (commit_entry sc snap _ e)); try done. by apply commit_says, (lb_heap s B p e).
  - apply (labels_control s); try done. cbn. split; [done|]. intros Hk. eapply Q_resolve; [done|].
    apply Hfl. rewrite <- Hk. symmetry. by apply resolve_key.
  - destruct Hfl as [Hs Hw]. destruct B as [H1 H2 H3]. split; [done..|]. cbn.
    apply Forall_app. split; [done|]. by repeat constructor.
  - eapply (labels_insert s _ p e (commit_entry sc snap _ e)); try done. by apply commit_says, (lb_heap s B p e).
  - eapply (labels_insert s _ p e (mark_evicted e)); try done. by apply (lb_heap s B p e).
Qed.

Lemma reachable_labels s : reachable sc s -> (forall l, l ∈ made s -> says l) -> labels s.
Proof.
  revert s. apply (reachable_ind sc (fun s => (forall l, l ∈ made s -> says l) -> labels s)).
  - intros _. split; by repeat constructor.
  - intros s s' Hr IH Hst Hm. apply (step_labels s); [|done| |done].
    + by apply (reachable_inv sc).
    + apply IH. intros l Hl. apply Hm. by eapply made_step.
Qed.
End Labels.

(** ** Edge to Core *)

(** The envelope of a bin count on the wire. *)
Definition to_delta (m : Msg BinLabel) : BinUOPDelta :=
  mkDelta (bl_bin (ms_lab m)) (bl_payload (ms_lab m)) (ms_delta m) (bl_reason (ms_lab m)) (ms_seq m)
    (bl_epoch (ms_lab m)).

(** The envelopes of one bin, in outbox order. *)
Definition bin_stream (bin : Z) (ms : list (Msg BinLabel)) : list BinUOPDelta :=
  map to_delta (List.filter (fun m => sc_key binScope (ms_lab m) =s pretty bin) ms).

Lemma bin_key (bin : Z) l : (sc_key binScope l =s pretty bin) = (bl_bin l =i bin).
Proof.
  destruct (Z.eqb_spec (bl_bin l) bin) as [<-|Hne]; [apply seqb_refl|].
  apply seqb_neq. cbn. by intros ?%(inj pretty).
Qed.

Lemma stream_total bin ms : total (bin_stream bin ms) = shipped binScope (pretty bin) ms.
Proof.
  unfold bin_stream, shipped. induction ms as [|m ms IH]; [done|]. cbn [List.filter foldr].
  destruct (_ =s pretty bin); cbn [map total foldr]; [|lia]. fold (total (map to_delta (List.filter
    (fun m => sc_key binScope (ms_lab m) =s pretty bin) ms))). rewrite IH. done.
Qed.

(** Bins are never given up on. *)
Lemma bins_not_dropped s : reachable binScope s -> dropped s = [].
Proof.
  revert s. apply (reachable_ind binScope (fun s => dropped s = [])); [done|].
  intros s s' _ IH Hst. by destruct Hst.
Qed.

Lemma stream_map_seq bin ep ms :
  Forall (fun m => bl_bin (ms_lab m) = bin -> bl_epoch (ms_lab m) = ep) ms ->
  map dl_seq (bin_stream bin ms) = stream_seqs binScope (pretty bin) ep ms.
Proof.
  unfold bin_stream, stream_seqs, of_stream. induction 1 as [|m ms Hm Hms IH]; [done|].
  cbn [List.filter]. rewrite bin_key. destruct (Z.eqb_spec (bl_bin (ms_lab m)) bin) as [E|E]; cbn [andb].
  - cbn [sc_epoch binScope]. rewrite (Hm E), Z.eqb_refl. cbn [map]. by rewrite IH.
  - done.
Qed.

Lemma seq_sorted_stream (ms : list BinUOPDelta) :
  StronglySorted Z.lt (map dl_seq ms) -> StronglySorted (fun a b => dl_seq a < dl_seq b)%Z ms.
Proof.
  induction ms as [|m ms IH]; cbn; intros H; [by constructor|].
  apply StronglySorted_inv in H as [Hs Hf].
  constructor; [by apply IH|]. by rewrite List.Forall_map in Hf.
Qed.

(** The labels that Core adds to one load of one bin: its generation, its payload
    or none, and not a capture reduction.  The Edge records those for the bin too,
    but Core clamps the bin at zero after one instead of adding it. *)
Definition of_load (bin epoch : Z) (label : string) (l : BinLabel) : Prop :=
  bl_bin l = bin /\ bl_epoch l = epoch /\ bl_reason l <> ReasonCaptureReduction /\
  (bl_payload l = "" \/ bl_payload l = label).

Lemma load_labels bin epoch label s :
  reachable binScope s ->
  (forall l, l ∈ made s -> bl_bin l = bin -> of_load bin epoch label l) ->
  Forall (fun m => bl_bin (ms_lab m) = bin -> of_load bin epoch label (ms_lab m)) (outbox s).
Proof.
  intros Hr Hm. destruct (reachable_labels binScope (pretty bin) (of_load bin epoch label)) with (s := s)
    as [_ _ Ho]; try done.
  - intros [] old new _ (H1 & H2 & H3 & H4) (N1 & N2 & N3 & N4); unfold of_load; cbn; split_and!; try done.
    rewrite H2, N2. by destruct (_ <? _)%Z.
  - intros l (H1 & H2 & H3 & H4). unfold of_load. cbn. by split_and!.
  - by intros l l' [= <-].
  - intros l Hl Hk. apply Hm; [done|]. cbn in Hk. by apply (inj pretty) in Hk.
  - eapply Forall_impl; [done|]. intros m Hs Hb. apply Hs. cbn. by rewrite Hb.
Qed.

Lemma filter_Forall {A} (f : A -> bool) (P : A -> Prop) l :
  Forall (fun x => f x = true -> P x) l -> Forall P (List.filter f l).
Proof.
  induction 1 as [|x l Hx Hl IH]; cbn; [done|]. destruct (f x) eqn:E; [|done]. by constructor; auto.
Qed.

Lemma bin_stream_one bin epoch label s :
  reachable binScope s ->
  (forall l, l ∈ made s -> bl_bin l = bin -> of_load bin epoch label l) ->
  one_stream bin epoch label (bin_stream bin (outbox s)).
Proof.
  intros Hr Hm. pose proof (load_labels bin epoch label s Hr Hm) as Hl. split.
  - unfold bin_stream. apply List.Forall_map, filter_Forall. eapply Forall_impl; [done|].
    intros m Hs. rewrite bin_key. intros Hb%Z.eqb_eq. exact (Hs Hb).
  - apply seq_sorted_stream. rewrite (stream_map_seq bin epoch).
    + apply (reachable_seqs binScope), Hr.
    + eapply Forall_impl; [done|]. intros m Hs Hb. by destruct (Hs Hb) as (_ & ? & _).
Qed.

Lemma one_stream_prefix bin epoch label ms ms' :
  one_stream bin epoch label (ms ++ ms') -> one_stream bin epoch label ms.
Proof.
  intros [Hs Hr]. split; [by apply Forall_app in Hs as [? _]|]. eapply sorted_sublist; [|exact Hr].
  by apply sublist_inserts_r.
Qed.

Lemma volume_app ms ms' : volume (ms ++ ms') = (volume ms + volume ms')%Z.
Proof. induction ms as [|m ms IH]; cbn; [done|]. fold (volume (ms ++ ms')) (volume ms). lia. Qed.

Lemma bin_stream_app bin ms ms' : bin_stream bin (ms ++ ms') = bin_stream bin ms ++ bin_stream bin ms'.
Proof. unfold bin_stream. by rewrite List.filter_app, map_app. Qed.

Lemma shipped_split k (ms ms' : list (Msg BinLabel)) :
  shipped binScope k (ms ++ ms') = (shipped binScope k ms + shipped binScope k ms')%Z.
Proof. unfold shipped. induction ms as [|m ms IH]; cbn [app foldr]; [done|]. rewrite IH. lia. Qed.

(** What the Edge's outbox carries: bin counts among other envelopes. *)
Inductive Envelope := BinCount (m : Msg BinLabel) | OtherEnvelope (body : string).

Definition bin_count (e : Envelope) : option (Msg BinLabel) :=
  match e with BinCount m => Some m | OtherEnvelope _ => None end.

(** The reports of one bin among the envelopes received. *)
Definition reports_of (bin : Z) (es : list Envelope) : list BinUOPDelta :=
  bin_stream bin (omap bin_count es).

Lemma reports_of_omap bin es :
  reports_of bin es = omap (fun e => match e with
    | BinCount m => if sc_key binScope (ms_lab m) =s pretty bin then Some (to_delta m) else None
    | OtherEnvelope _ => None end) es.
Proof.
  unfold reports_of. induction es as [|[m|body] es IH]; [done| |].
  - change (omap bin_count (BinCount m :: es)) with ([m] ++ omap bin_count es).
    rewrite bin_stream_app, IH. unfold bin_stream. cbn [List.filter omap list_omap].
    by destruct (_ =s pretty bin).
  - exact IH.
Qed.

(** C1. A bin's count is the same at both ends, while one load is counted down.
    Take any reachable state of an Edge's accumulator - whatever the interleaving of
    record calls, flushes, failed sends, lost acks and evictions was - in which every
    count made for the bin belongs to one load: the same generation, the load's
    payload or none, and none of them a capture reduction, which Core does not add
    but clamps at zero ([UopApplier.capture_leaves_crossing_open]).  Its envelopes
    stand in the outbox among others, and the outbox has been run by plain enqueues
    and fail-stop passes, with no superseding snapshot, no replay by hand and no
    message out of retries.  Let Core, on a connection on which no statement fails,
    apply what the broker then holds for the bin: a bin that it knows, has not moved
    on to a newer generation (a count for a superseded load is dropped) and has
    applied no count of this generation from this station to yet, and whose count
    stays within int4 whichever of the counts have arrived; the station has a name
    and the bin id is positive.  Then Core's count, plus the envelopes still in the
    outbox - all there, unsent -, plus what the accumulator has not sent, is what
    the bin held before plus every count recorded for it. *)
Theorem bin_count_end_to_end (announce : string) (binManifest : option string) (station topic : string)
    (limit : nat) (bin epoch : Z) (s : @Acc BinLabel) (ops : list (@Op Envelope))
    (c : InventoryDeltaService) (b : Bin) :
  reachable binScope s ->
  (forall l, l ∈ made s -> bl_bin l = bin -> of_load bin epoch (b_payload b) l) ->
  orderly EdgeSide topic limit ops fresh_drainer -> omap bin_count (enqueued ops) = outbox s ->
  station <> "" -> (0 < bin)%Z -> faults (iv_conn c) = [] ->
  bins (tables c) !! bin = Some b -> (epoch <= 0 \/ b_epoch b <= epoch)%Z ->
  dedup (tables c) !! (station, invDeltaScopeBin, pretty bin, epoch) = None ->
  (Z.abs (b_uop b) + volume (bin_stream bin (outbox s)) <= 2147483647)%Z ->
  let d := run EdgeSide topic limit ops fresh_drainer in
  let c' := deliver announce binManifest
    (map (pair station) (reports_of bin (payloads (dr_broker d)))) c in
  exists n sent waiting, outbox s = sent ++ waiting /\
    b_uop <$> bins (tables c') !! bin = Some n /\
    (n + shipped binScope (pretty bin) waiting + pending binScope (pretty bin) (heap s)
       - in_flight (pretty bin) (flusher s)
     = b_uop b + booked binScope (pretty bin) (recorded s))%Z /\
    forall m, m ∈ waiting ->
      exists r, r ∈ ob_rows (dr_box d) /\ ob_payload r = BinCount m /\ unsent r = true.
Proof.
  intros Hr Hm Ho Hq Hst Hb Hf Hbin He Hd Hv d c'.
  destruct (run_in_order EdgeSide topic limit ops [] 0 _ (fresh_in_order) Ho) as (k & _ & I).
  change ([] ++ enqueued ops) with (enqueued ops) in I.
  set (sent := omap bin_count (take k (enqueued ops))).
  set (waiting := omap bin_count (drop k (enqueued ops))).
  assert (Hsplit : outbox s = sent ++ waiting).
  { rewrite <- Hq. unfold sent, waiting. by rewrite <- omap_app, take_drop. }
  assert (Hone : one_stream bin epoch (b_payload b) (bin_stream bin sent)).
  { eapply (one_stream_prefix _ _ _ _ (bin_stream bin waiting)). rewrite <- bin_stream_app, <- Hsplit.
    by apply bin_stream_one. }
  exists (b_uop b + total (bin_stream bin sent))%Z, sent, waiting. split_and!; [done|..].
  - apply (stream_applied announce binManifest station bin epoch _ _ c b); try done.
    + eapply Forall_impl; [exact (os_same _ _ _ _ Hone)|]. intros m (H1 & H2 & _) last Hl.
      unfold bin_scope in Hl. rewrite H1, H2 in Hl.
      assert (None = Some last) by (etrans; [symmetry; exact Hd|exact Hl]). done.
    + rewrite Hsplit, bin_stream_app, volume_app in Hv. pose proof (volume_nonneg (bin_stream bin waiting)). lia.
    + change (bin_stream bin sent) with (reports_of bin (take k (enqueued ops))).
      rewrite !reports_of_omap. apply rd_omap with (seen := []). apply I.
  - rewrite stream_total, (iv_sum binScope s (reachable_inv binScope s Hr)), (bins_not_dropped s Hr), Hsplit,
      shipped_split. cbn. lia.
  - intros m Hw. apply list_elem_of_omap in Hw as (e & He' & Hbc).
    destruct e as [m'|]; [|done]. injection Hbc as ->. apply list_elem_of_lookup in He' as [i Hi].
    rewrite lookup_drop in Hi. destruct (waiting_row (enqueued ops) k d (k + i) (BinCount m) I) as (r & ? & _ & ? & ?); [lia|done|].
    by exists r.
Qed.

(** Two flushed counts and one still held. *)
Definition flow_label : BinLabel := mkBinLabel 10 "P1" "consume_tick" 3.
Definition flow_acc1 : @Acc BinLabel := flush binScope (record_call binScope flow_label (-2) init).
Definition flow_acc2 : @Acc BinLabel := flush binScope (record_call binScope flow_label (-5) flow_acc1).
Definition flow_acc : @Acc BinLabel := record_call binScope flow_label (-1) flow_acc2.

Lemma flow_reachable : reachable binScope flow_acc.
Proof.
  unfold flow_acc, flow_acc2, flow_acc1.
  apply (record_reachable binScope), (flush_reachable binScope); [|vm_compute; reflexivity].
  apply (record_reachable binScope), (flush_reachable binScope); [|vm_compute; reflexivity].
  apply (record_reachable binScope), rtc_refl.
Qed.

(** The accumulator's two envelopes and another message in the outbox; the first
    envelope's ack is lost, the second has not been sent. *)
Definition flow_ops : list (@Op Envelope) :=
  map (fun m => OEnqueue (BinCount m) "bin_uop_delta" 1) (outbox flow_acc1) ++
  [OEnqueue (OtherEnvelope "order.request") "order.request" 1; OTurn SWake (pass_to 2 false 2)] ++
  map (fun m => OEnqueue (BinCount m) "bin_uop_delta" 3) (drop 1 (outbox flow_acc)) ++
  [OTurn STick (pass_to 3 true 4)].

Lemma flow_labels l : l ∈ made flow_acc -> bl_bin l = 10%Z -> of_load 10 3 "P1" l.
Proof.
  intros Hl _. assert (l = flow_label) as ->.
  { change (made flow_acc) with [flow_label; flow_label; flow_label] in Hl. set_solver. }
  repeat split; cbn; [discriminate|by right].
Qed.

Lemma bin_count_end_to_end_witness :
  let d := run EdgeSide "orders" 50 flow_ops fresh_drainer in
  let c' := deliver "t" None (map (pair "E") (reports_of 10 (payloads (dr_broker d)))) demo_service in
  reports_of 10 (payloads (dr_broker d)) = [demo_delta (-2) 1 3; demo_delta (-2) 1 3] /\
  exists n sent waiting, outbox flow_acc = sent ++ waiting /\
    b_uop <$> bins (tables c') !! 10%Z = Some n /\
    (n + shipped binScope "10" waiting + pending binScope "10" (heap flow_acc)
       - in_flight "10" (flusher flow_acc) = 40 + booked binScope "10" (recorded flow_acc))%Z /\
    forall m, m ∈ waiting ->
      exists r, r ∈ ob_rows (dr_box d) /\ ob_payload r = BinCount m /\ unsent r = true.
Proof.
  split; [vm_compute; reflexivity|].
  apply (bin_count_end_to_end "t" None "E" "orders" 50 10 3 flow_acc flow_ops demo_service (demo_bin 20 None)).
  - exact flow_reachable.
  - exact flow_labels.
  - change (orderly EdgeSide "orders" 50 [OEnqueue (BinCount (mkMsg flow_label (-2) 1 (Some 0%Z) (Some 0%Z)))
      "bin_uop_delta" 1; OEnqueue (OtherEnvelope "order.request") "order.request" 1;
      OTurn SWake (pass_to 2 false 2);
      OEnqueue (BinCount (mkMsg flow_label (-5) 2 (Some 0%Z) (Some 0%Z))) "bin_uop_delta" 3;
      OTurn STick (pass_to 3 true 4)] fresh_drainer).
    cbn [orderly]. repeat split; try apply pass_to_fail_stop; vm_compute; repeat constructor.
  - vm_compute. reflexivity.
  - done.
  - done.
  - reflexivity.
  - reflexivity.
  - cbn. lia.
  - reflexivity.
  - vm_compute. discriminate.
Defined.

(** ** Overtaking *)

(** A pass in which the broker refuses one row and takes the others. *)
Definition pass_but (id : Z) (now : Z) : Pass :=
  mkPass true true (fun i => if i =i id then broker_down else broker_up) true now.

(** C14. A count that is overtaken is lost.  A pass goes on to the next row when
    one is refused, so two counts of a bin can reach Core in the other order;
    Core keeps only the highest sequence number it has seen and discards the
    earlier count as a replay.  From a healthy Core the bin then holds the
    second count only, the first is refused for good, and both rows are marked
    as delivered on the Edge. *)
Theorem overtaken_count_lost (announce : string) (binManifest : option string) (station topic : string)
    (m1 m2 : Msg BinLabel) (bin epoch : Z) (c : InventoryDeltaService) (b : Bin) :
  station <> "" -> (0 < bin)%Z -> faults (iv_conn c) = [] ->
  bins (tables c) !! bin = Some b -> (epoch <= 0 \/ b_epoch b <= epoch)%Z ->
  of_load bin epoch (b_payload b) (ms_lab m1) -> of_load bin epoch (b_payload b) (ms_lab m2) ->
  (ms_seq m1 < ms_seq m2)%Z ->
  dedup (tables c) !! (station, invDeltaScopeBin, pretty bin, epoch) = None ->
  (Z.abs (b_uop b) + Z.abs (ms_delta m2) <= 2147483647)%Z ->
  let d := run EdgeSide topic 50 [OEnqueue (BinCount m1) "bin_uop_delta" 1;
    OEnqueue (BinCount m2) "bin_uop_delta" 6; OTurn STick (pass_but 1 10);
    OTurn STick (pass_all broker_up 15)] fresh_drainer in
  let c1 := (ApplyBinUOPDelta announce binManifest station (Some (to_delta m2)) c).2 in
  let res := ApplyBinUOPDelta announce binManifest station (Some (to_delta m1)) c1 in
  payloads (dr_broker d) = [BinCount m2; BinCount m1] /\
  map (fun r => unsent r) (ob_rows (dr_box d)) = [false; false] /\
  res.1 = Err EDeltaSkipped /\
  b_uop <$> bins (tables res.2) !! bin = Some (b_uop b + ms_delta m2)%Z.
Proof.
  intros Hst Hb Hf Hbin He (B1 & E1 & R1 & P1) (B2 & E2 & R2 & P2) Hlt Hd Hv d c1 res.
  split; [reflexivity|]. split; [reflexivity|].
  assert (Hcu : caught_up station bin epoch (b_payload b) [to_delta m2] [] (b_uop b + ms_delta m2) c1).
  { apply (caught_up_next announce binManifest station bin epoch (b_payload b) [] (to_delta m2) [] (b_uop b) c).
    - done.
    - done.
    - split; [apply Forall_singleton; by split_and!|by repeat constructor].
    - cbn. lia.
    - split; [done|by exists b|done|]. apply Forall_singleton. intros last Hl. unfold bin_scope in Hl.
      change (dl_bin (to_delta m2)) with (bl_bin (ms_lab m2)) in Hl.
      change (dl_epoch (to_delta m2)) with (bl_epoch (ms_lab m2)) in Hl. rewrite B2, E2 in Hl.
      assert (None = Some last) by (etrans; [symmetry; exact Hd|exact Hl]). done. }
  destruct Hcu as [Hf1 (b1 & Hb1 & Hu & Hp & He1) Hseen _].
  apply Forall_cons in Hseen as [(_ & _ & _ & _ & last & Hl & Hle) _].
  destruct (healthy_replay announce binManifest station (to_delta m1) b1 c1 last) as (s' & Hres & _ & Ht).
  - split; cbn; [done|by rewrite B1|by rewrite B1|by rewrite E1|done|by rewrite Hp].
  - done.
  - unfold bin_scope in *. cbn in *. by rewrite B1, E1, <- B2, <- E2.
  - cbn in *. lia.
  - unfold res. rewrite Hres. cbn. split; [done|]. by rewrite Ht, Hb1, <- Hu.
Qed.

Lemma overtaken_count_lost_witness :
  let m1 := mkMsg flow_label (-2) 1 None None in
  let m2 := mkMsg flow_label (-5) 2 None None in
  let c1 := (ApplyBinUOPDelta "t" None "E" (Some (to_delta m2)) demo_service).2 in
  let res := ApplyBinUOPDelta "t" None "E" (Some (to_delta m1)) c1 in
  res.1 = Err EDeltaSkipped /\ b_uop <$> bins (tables res.2) !! 10%Z = Some 35%Z.
Proof.
  destruct (overtaken_count_lost "t" None "E" "orders" (mkMsg flow_label (-2) 1 None None)
    (mkMsg flow_label (-5) 2 None None) 10 3 demo_service (demo_bin 20 None)) as (_ & _ & H1 & H2).
  - done.
  - done.
  - reflexivity.
  - reflexivity.
  - cbn. lia.
  - apply flow_labels; [vm_compute; left|reflexivity].
  - apply flow_labels; [vm_compute; left|reflexivity].
  - cbn. lia.
  - reflexivity.
  - vm_compute. discriminate.
  - exact (conj H1 H2).
Defined.
