(* ===== verification/EdgeStore.v ===== *)
(** The Edge tables a count touches: the lineside buckets
    (store/lineside/lineside.go) and the runtime row of a process node
    (store/processes/processes.go), with the in-memory accumulators beside them.

    [lside_wf] is what the schema and the code keep of the bucket table; every
    store operation preserves it whatever the driver does, and the [_healthy]
    lemmas say what each operation does to a pile when the driver answers. *)

From S2P Require Import Prelude Sql Accumulator.

(** ** Tables *)

(** One row of node_lineside_bucket. *)
Record LBucket := mkLB {
  lk_id : Z; lk_node : Z; lk_pair : string; lk_style : Z; lk_part : string; lk_qty : Z;
  lk_active : bool; lk_updated : Z }.

#[export] Instance lbucket_eq_dec : EqDecision LBucket.
Proof. solve_decision. Defined.

(** One row of process_node_runtime_states; the order pointers are not read
    here. *)
Record Runtime := mkRT {
  rt_claim : option Z; rt_bin : option Z; rt_epoch : Z; rt_uop : Z; rt_pending : Z; rt_pull : bool }.

Record PNode := mkPNode { pn_id : Z; pn_process : Z; pn_core : string }.

Record NodeClaim := mkClaim {
  nc_id : Z; nc_style : Z; nc_role : string; nc_swap : string; nc_paired : string;
  nc_payload : string; nc_allowed : list string }.

(** A process: its active style and the target of a changeover. *)
Record Process := mkProc { pr_active : option Z; pr_target : option Z }.

Record EdgeState := mkES {
  es_buckets : list LBucket;
  es_next : Z;
  es_runtime : gmap Z Runtime;
  es_nodes : list PNode;
  es_processes : gmap Z Process;
  es_claims : gmap (Z * string) NodeClaim;
  es_now : Z;
  es_bins : @Acc BinLabel;
  es_lineside : @Acc BucketLabel
}.

Inductive EdgeError := EeDriver | EeNoRows.
#[export] Instance edge_driver_error : DriverError EdgeError := { driver_error := EeDriver }.

Notation EdgeSQL := (SQL EdgeState EdgeError).

Definition set_rows (f : list LBucket -> list LBucket) (s : EdgeState) : EdgeState :=
  mkES (f (es_buckets s)) (es_next s) (es_runtime s) (es_nodes s) (es_processes s) (es_claims s) (es_now s)
    (es_bins s) (es_lineside s).
Definition add_lrow (r : LBucket) (s : EdgeState) : EdgeState :=
  mkES (es_buckets s ++ [r]) (es_next s + 1) (es_runtime s) (es_nodes s) (es_processes s) (es_claims s)
    (es_now s) (es_bins s) (es_lineside s).
Definition set_runtime (id : Z) (f : Runtime -> Runtime) (s : EdgeState) : EdgeState :=
  mkES (es_buckets s) (es_next s) (alter f id (es_runtime s)) (es_nodes s) (es_processes s) (es_claims s)
    (es_now s) (es_bins s) (es_lineside s).
Definition set_accs (f : @Acc BinLabel -> @Acc BinLabel) (g : @Acc BucketLabel -> @Acc BucketLabel)
    (s : EdgeState) : EdgeState :=
  mkES (es_buckets s) (es_next s) (es_runtime s) (es_nodes s) (es_processes s) (es_claims s) (es_now s)
    (f (es_bins s)) (g (es_lineside s)).

(** A change to memory. *)
Definition remember (f : EdgeState -> EdgeState) : EdgeSQL unit := fun c =>
  (Ok (), mkConn (f (db c)) (faults c)).

(** ** Lineside buckets *)

Definition on_pile (nodeID : Z) (part : string) (r : LBucket) : bool :=
  (lk_node r =i nodeID) && (lk_part r =s part).

(** ORDER BY active first, most recently updated; [a] stays ahead of [b] on a
    tie. *)
Definition ahead (a b : LBucket) : bool :=
  match lk_active a, lk_active b with
  | true, false => true
  | false, true => false
  | _, _ => (lk_updated b <=? lk_updated a)%Z
  end.

Fixpoint first_of (l : list LBucket) : option LBucket :=
  match l with
  | [] => None
  | r :: rest => match first_of rest with
      | None => Some r
      | Some b => if ahead r b then Some r else Some b
      end
  end.

Definition with_qty (q : Z) (style : Z) (active : bool) (now : Z) (r : LBucket) : LBucket :=
  mkLB (lk_id r) (lk_node r) (lk_pair r) style (lk_part r) q active now.

Definition update_lrow (id : Z) (f : LBucket -> LBucket) : list LBucket -> list LBucket :=
  map (fun r => if lk_id r =i id then f r else r).

(** The merge of a capture into the most relevant row of (node, part). *)
Definition merge_capture (nodeID styleID : Z) (part : string) (qty : Z) (s : EdgeState) : nat * EdgeState :=
  match first_of (List.filter (on_pile nodeID part) (es_buckets s)) with
  | None => (0%nat, s)
  | Some b => (1%nat,
      set_rows (update_lrow (lk_id b) (fun r => with_qty (lk_qty r + qty) styleID true (es_now s) r)) s)
  end.

(** The partial unique index on (node, part) of active rows. *)
Definition active_on (nodeID : Z) (part : string) (s : EdgeState) : bool :=
  existsb (fun r => on_pile nodeID part r && lk_active r) (es_buckets s).

Definition insert_or_ignore (nodeID : Z) (pair : string) (styleID : Z) (part : string) (qty : Z) (s : EdgeState)
    : nat * EdgeState :=
  if active_on nodeID part s then (0%nat, s)
  else (1%nat, add_lrow (mkLB (es_next s) nodeID pair styleID part qty true (es_now s)) s).

(** The query orders by state only, so SQL may return rows of one state in
    any order; the model takes the first. *)
Definition findOne (nodeID styleID : Z) (part : string) : EdgeSQL LBucket :=
  r <-- query (fun s => first_of (List.filter (fun r => on_pile nodeID part r && (lk_style r =i styleID))
    (es_buckets s))) ;;
  match r with Some b => sret b | None => sfail EeNoRows end.

Definition Capture (nodeID : Z) (pairKey : string) (styleID : Z) (partNumber : string) (qty : Z)
    : EdgeSQL (option LBucket) :=
  if (qty <=? 0)%Z then sret None
  else
    n <-- stmt (merge_capture nodeID styleID partNumber qty) ;;
    if (0 <? n)%nat then (b <-- findOne nodeID styleID partNumber ;; sret (Some b))
    else
      n2 <-- stmt (insert_or_ignore nodeID pairKey styleID partNumber qty) ;;
      if (0 <? n2)%nat then (b <-- findOne nodeID styleID partNumber ;; sret (Some b))
      else
        exec (fun s => set_rows (map (fun r => if on_pile nodeID partNumber r && lk_active r
          then with_qty (lk_qty r + qty) styleID true (es_now s) r else r)) s) ;;;
        b <-- findOne nodeID styleID partNumber ;; sret (Some b).

Definition other_style (nodeID keepStyleID : Z) (r : LBucket) : bool :=
  (lk_node r =i nodeID) && lk_active r && negb (lk_style r =i keepStyleID).

Definition DeactivateOtherStyles (nodeID keepStyleID : Z) : EdgeSQL unit :=
  exec (set_rows (List.filter (fun r => negb (other_style nodeID keepStyleID r && (lk_qty r <=? 0)%Z)))) ;;;
  exec (fun s => set_rows (map (fun r => if other_style nodeID keepStyleID r
    then with_qty (lk_qty r) (lk_style r) false (es_now s) r else r)) s).

Definition Drain (nodeID : Z) (partNumber : string) (delta : Z) : EdgeSQL (Z * Z) :=
  if (delta <=? 0)%Z then sret (0, 0)%Z
  else
    r <-- query (fun s => first_of (List.filter (fun r => on_pile nodeID partNumber r && lk_active r)
      (es_buckets s))) ;;
    match r with
    | None => sret (0, 0)%Z
    | Some b =>
        let take := if (lk_qty b <? delta)%Z then lk_qty b else delta in
        let newQty := (lk_qty b - take)%Z in
        if newQty =i 0 then
          exec (set_rows (List.filter (fun r => negb (lk_id r =i lk_id b)))) ;;; sret (take, lk_style b)
        else
          exec (fun s => set_rows (update_lrow (lk_id b) (fun r =>
            with_qty newQty (lk_style r) (lk_active r) (es_now s) r)) s) ;;; sret (take, lk_style b)
    end.

(** The UPDATE reactivates every row of (node, style, part): the unique index
    refuses it when the pile is active under another style, or when two rows
    match. *)
Definition SetForReconcile (nodeID : Z) (pairKey : string) (styleID : Z) (partNumber : string) (qty : Z)
    : EdgeSQL unit :=
  let hit r := on_pile nodeID partNumber r && (lk_style r =i styleID) in
  if (qty <=? 0)%Z then exec (set_rows (List.filter (fun r => negb (hit r))))
  else
    n <-- stmt_checked (fun s =>
      let s' := set_rows (map (fun r => if hit r then with_qty qty (lk_style r) true (es_now s) r else r)) s in
      if (1 <? length (List.filter (fun r => on_pile nodeID partNumber r && lk_active r) (es_buckets s')))%nat
         && existsb hit (es_buckets s)
      then None else Some (length (List.filter hit (es_buckets s)), s')) ;;
    if (0 <? n)%nat then sret ()
    else stmt_checked (fun s =>
      if active_on nodeID partNumber s then None
      else Some ((), add_lrow (mkLB (es_next s) nodeID pairKey styleID partNumber qty true (es_now s)) s)).

Definition ListForNode (nodeID : Z) : EdgeSQL (list LBucket) :=
  query (fun s => isort ahead (List.filter (fun r => lk_node r =i nodeID) (es_buckets s))).

(** ** Runtime rows *)

Definition with_uop (u : Z) (r : Runtime) : Runtime :=
  mkRT (rt_claim r) (rt_bin r) (rt_epoch r) u (rt_pending r) (rt_pull r).
Definition with_pending (p : Z) (r : Runtime) : Runtime :=
  mkRT (rt_claim r) (rt_bin r) (rt_epoch r) (rt_uop r) p (rt_pull r).

Definition UpdateRuntimeUOP (id uop : Z) : EdgeSQL unit := exec (set_runtime id (with_uop uop)).
Definition AddPendingUOPDelta (id delta : Z) : EdgeSQL unit :=
  exec (set_runtime id (fun r => with_pending (rt_pending r + delta) r)).
Definition SetRuntimeUOPClearPending (id uop : Z) : EdgeSQL unit :=
  exec (set_runtime id (fun r => with_pending 0 (with_uop uop r))).
Definition GetRuntime (id : Z) : EdgeSQL (option Runtime) := query (fun s => es_runtime s !! id).
Definition SetActivePull (id : Z) (active : bool) : EdgeSQL unit :=
  exec (set_runtime id (fun r => mkRT (rt_claim r) (rt_bin r) (rt_epoch r) (rt_uop r) (rt_pending r) active)).

(** The stamp on a write that binds a bin: never backwards for the same bin. *)
Definition epochAssignOnBind (bin : option Z) (epoch : Z) (r : Runtime) : Z :=
  if bool_decide (rt_bin r = bin) && (epoch <? rt_epoch r)%Z then rt_epoch r else epoch.
(** The stamp on a write that does not: only for the bin at the slot, forwards. *)
Definition epochAssignForBoundBin (bin : option Z) (epoch : Z) (r : Runtime) : Z :=
  if bool_decide (rt_bin r = bin) && (rt_epoch r <? epoch)%Z then epoch else rt_epoch r.

Definition SetRuntime (id : Z) (claim : option Z) (uop : Z) : EdgeSQL unit :=
  exec (set_runtime id (fun r => mkRT claim (rt_bin r) (rt_epoch r) uop (rt_pending r) (rt_pull r))).
Definition SetRuntimeClaimCountAndEpoch (id : Z) (claim : option Z) (uop binID epoch : Z) : EdgeSQL unit :=
  exec (set_runtime id (fun r => mkRT claim (rt_bin r) (epochAssignForBoundBin (Some binID) epoch r) uop
    (rt_pending r) (rt_pull r))).
Definition SetRuntimeWithBin (id : Z) (claim bin : option Z) (uop : Z) : EdgeSQL unit :=
  exec (set_runtime id (fun r => mkRT claim bin (rt_epoch r) uop (rt_pending r) (rt_pull r))).
Definition SetRuntimeWithBinAndEpoch (id : Z) (claim bin : option Z) (epoch uop : Z) : EdgeSQL unit :=
  exec (set_runtime id (fun r => mkRT claim bin (epochAssignOnBind bin epoch r) uop (rt_pending r) (rt_pull r))).
Definition SetActiveBinID (id : Z) (bin : option Z) : EdgeSQL unit :=
  exec (set_runtime id (fun r => mkRT (rt_claim r) bin (rt_epoch r) (rt_uop r) (rt_pending r) (rt_pull r))).
Definition SetActiveBinIDAndEpoch (id : Z) (bin : option Z) (epoch : Z) : EdgeSQL unit :=
  exec (set_runtime id (fun r => mkRT (rt_claim r) bin (epochAssignOnBind bin epoch r) (rt_uop r) (rt_pending r)
    (rt_pull r))).

(** ** Well-formed rows *)

(** Ids are unique, a pile has at most one active row, no row is empty. *)
Record lside_wf (s : EdgeState) : Prop := {
  lw_ids : NoDup (map lk_id (es_buckets s));
  lw_next : Forall (fun r => lk_id r < es_next s)%Z (es_buckets s);
  lw_active : forall r r', r ∈ es_buckets s -> r' ∈ es_buckets s -> lk_active r = true -> lk_active r' = true ->
    lk_node r = lk_node r' -> lk_part r = lk_part r' -> r = r';
  lw_qty : Forall (fun r => 0 < lk_qty r)%Z (es_buckets s) }.

Definition row_sum (w : LBucket -> Z) (l : list LBucket) : Z := foldr (fun r acc => (w r + acc)%Z) 0%Z l.

Arguments row_sum : simpl never.

(** The parts on a pile: its active rows; with the rows set aside for another
    style, the stock. *)
Definition on_rack (n : Z) (p : string) (r : LBucket) : Z :=
  if on_pile n p r && lk_active r then lk_qty r else 0.
Definition in_stock (n : Z) (p : string) (r : LBucket) : Z := if on_pile n p r then lk_qty r else 0.

Definition pile (nodeID : Z) (part : string) (s : EdgeState) : Z := row_sum (on_rack nodeID part) (es_buckets s).
Definition stock (nodeID : Z) (part : string) (s : EdgeState) : Z := row_sum (in_stock nodeID part) (es_buckets s).

Lemma on_pile_true n p r : on_pile n p r = true <-> lk_node r = n /\ lk_part r = p.
Proof. unfold on_pile. rewrite andb_true_iff, Z.eqb_eq, String.eqb_eq. done. Qed.

Lemma first_of_in l b : first_of l = Some b -> b ∈ l.
Proof.
  revert b. induction l as [|r l IH]; intros b; cbn; [done|].
  destruct (first_of l) as [x|]; [destruct (ahead r x)|]; intros [= <-]; [set_solver| |set_solver].
  right. by apply IH.
Qed.

Lemma first_of_none l : first_of l = None -> l = [].
Proof. destruct l as [|r l]; [done|]. cbn. destruct (first_of l); [destruct (ahead _ _)|]; done. Qed.

Lemma row_sum_ext w l f : (forall r, r ∈ l -> w (f r) = w r) -> row_sum w (map f l) = row_sum w l.
Proof.
  unfold row_sum. induction l as [|r l IH]; cbn; [done|]. intros H. rewrite H by set_solver.
  rewrite IH; [done|]. set_solver.
Qed.

Lemma row_sum_zero w l : (forall r, r ∈ l -> w r = 0%Z) -> row_sum w l = 0%Z.
Proof.
  unfold row_sum. induction l as [|r l IH]; cbn; [done|]. intros H. rewrite H by set_solver.
  rewrite IH; [done|]. set_solver.
Qed.

Lemma row_sum_filter w f l :
  (forall r, r ∈ l -> f r = false -> w r = 0%Z) -> row_sum w (List.filter f l) = row_sum w l.
Proof.
  unfold row_sum. induction l as [|r l IH]; cbn; [done|]. intros H. destruct (f r) eqn:E; cbn.
  - rewrite IH; [done|]. set_solver.
  - rewrite (H r) by (done || set_solver). apply IH. set_solver.
Qed.

(** Row [b] is the only one with its id. *)
Lemma by_id l b r : NoDup (map lk_id l) -> b ∈ l -> r ∈ l -> lk_id r = lk_id b -> r = b.
Proof.
  induction l as [|x l IH]; [set_solver|]. cbn. intros [Hx Hnd]%NoDup_cons Hb Hr E.
  apply elem_of_cons in Hb as [->|Hb], Hr as [->|Hr]; [done| | |by apply IH].
  - destruct Hx. rewrite <- E. by apply list_elem_of_fmap_2.
  - destruct Hx. rewrite E. by apply list_elem_of_fmap_2.
Qed.

(** Rows that agree off the id of [b] differ on the sums by [b] only. *)
Lemma row_sum_update w b f l :
  NoDup (map lk_id l) -> b ∈ l ->
  row_sum w (update_lrow (lk_id b) f l) = (row_sum w l - w b + w (f b))%Z.
Proof.
  unfold update_lrow. induction l as [|r l IH]; intros Hnd Hb; [by apply elem_of_nil in Hb|].
  cbn in Hnd. pose proof (proj1 (NoDup_cons _ _) Hnd) as [Hr Hnd']. cbn [map].
  unfold row_sum. cbn [foldr]. fold (row_sum w l). apply elem_of_cons in Hb as [<-|Hb].
  - rewrite Z.eqb_refl.
    match goal with |- (_ + foldr _ _ ?l')%Z = _ => change (foldr _ _ l') with (row_sum w l') end.
    rewrite row_sum_ext; [lia|]. intros x Hx. destruct (Z.eqb_spec (lk_id x) (lk_id b)) as [E|E]; [|done].
    destruct Hr. rewrite <- E. by apply list_elem_of_fmap_2.
  - match goal with |- (_ + foldr _ _ ?l')%Z = _ => change (foldr _ _ l') with (row_sum w l') end.
    rewrite IH by done. destruct (Z.eqb_spec (lk_id r) (lk_id b)) as [E|E]; [|lia].
    destruct Hr. rewrite E. by apply list_elem_of_fmap_2.
Qed.

Lemma row_sum_filter_all w b l :
  lk_id b ∉ map lk_id l -> row_sum w (List.filter (fun r => negb (lk_id r =i lk_id b)) l) = row_sum w l.
Proof.
  induction l as [|x l IH]; [done|]. cbn. intros H.
  destruct (Z.eqb_spec (lk_id x) (lk_id b)) as [E|E]; [destruct H; rewrite E; set_solver|].
  cbn. unfold row_sum in *. cbn. rewrite IH by set_solver. done.
Qed.

Lemma row_sum_remove w b l :
  NoDup (map lk_id l) -> b ∈ l ->
  row_sum w (List.filter (fun r => negb (lk_id r =i lk_id b)) l) = (row_sum w l - w b)%Z.
Proof.
  induction l as [|r l IH]; intros Hnd Hb; [by apply elem_of_nil in Hb|].
  cbn in Hnd. pose proof (proj1 (NoDup_cons _ _) Hnd) as [Hr Hnd']. cbn [List.filter].
  apply elem_of_cons in Hb as [<-|Hb].
  - rewrite Z.eqb_refl. cbn [negb]. rewrite (row_sum_filter_all w b l Hr). unfold row_sum. cbn. lia.
  - destruct (Z.eqb_spec (lk_id r) (lk_id b)) as [E|E].
    + destruct Hr. rewrite E. by apply list_elem_of_fmap_2.
    + cbn [negb]. specialize (IH Hnd' Hb). unfold row_sum in *. cbn. rewrite IH. lia.
Qed.

(** A pile is its active row. *)
Lemma pile_row n p s b :
  lside_wf s -> b ∈ es_buckets s -> on_pile n p b = true -> lk_active b = true -> pile n p s = lk_qty b.
Proof.
  intros [Hids _ Hact _] Hb Hp Ha. unfold pile.
  pose proof (row_sum_remove (on_rack n p) b _ Hids Hb) as H.
  rewrite row_sum_zero in H; [unfold on_rack in H at 2; rewrite Hp, Ha in H; cbn in H; lia|].
  intros r Hr%list_elem_of_In. apply filter_In in Hr as [Hr%list_elem_of_In Hne]. unfold on_rack.
  destruct (on_pile n p r && lk_active r) eqn:E; [|done]. apply andb_prop in E as [Hpr Har].
  apply on_pile_true in Hp as [E1 E2], Hpr as [E3 E4]. assert (r = b) as -> by (apply Hact; congruence).
  by rewrite Z.eqb_refl in Hne.
Qed.

Lemma pile_none n p s :
  List.filter (fun r => on_pile n p r && lk_active r) (es_buckets s) = [] -> pile n p s = 0%Z.
Proof.
  intros H. apply row_sum_zero. intros r Hr%list_elem_of_In. unfold on_rack.
  destruct (on_pile n p r && lk_active r) eqn:E; [|done].
  assert (Hin : In r (List.filter (fun r => on_pile n p r && lk_active r) (es_buckets s))) by by apply filter_In.
  by rewrite H in Hin.
Qed.

(** ** Draining *)

Definition same_books (s s' : EdgeState) : Prop :=
  es_bins s' = es_bins s /\ es_lineside s' = es_lineside s /\ es_runtime s' = es_runtime s /\
  es_nodes s' = es_nodes s.

(** What a drain of [delta] off a pile did. *)
Record drained_pile (nodeID : Z) (part : string) (delta t : Z) (s s' : EdgeState) : Prop := {
  dn_amount : t = Z.min delta (pile nodeID part s);
  dn_pile : pile nodeID part s' = (pile nodeID part s - t)%Z;
  dn_other : forall n p, (n, p) <> (nodeID, part) -> pile n p s' = pile n p s;
  dn_wf : lside_wf s';
  dn_books : same_books s s' }.

Lemma filter_wf f s : lside_wf s -> lside_wf (set_rows (List.filter f) s).
Proof.
  intros [H1 H2 H3 H4]. assert (Hin : forall r, r ∈ List.filter f (es_buckets s) -> r ∈ es_buckets s).
  { intros r [Hr _]%list_elem_of_In%filter_In. by apply list_elem_of_In. }
  split; cbn.
  - clear -H1. induction (es_buckets s) as [|r l IH]; [done|]. cbn in *. apply NoDup_cons in H1 as [Hr H1].
    destruct (f r); [|by apply IH]. cbn. apply NoDup_cons. split; [|by apply IH]. intros Hx. destruct Hr.
    apply list_elem_of_fmap in Hx as (x & -> & Hx). apply list_elem_of_fmap_2.
    apply list_elem_of_In, filter_In in Hx as [Hx _]. by apply list_elem_of_In.
  - rewrite Forall_forall in *. auto.
  - auto.
  - rewrite Forall_forall in *. auto.
Qed.

(** An update that keeps ids and piles. *)
Lemma map_wf_active f s :
  (forall r, lk_id (f r) = lk_id r) -> (forall r, lk_node (f r) = lk_node r) ->
  (forall r, lk_part (f r) = lk_part r) ->
  (forall r r', r ∈ es_buckets s -> r' ∈ es_buckets s -> lk_active (f r) = true -> lk_active (f r') = true ->
    lk_node r = lk_node r' -> lk_part r = lk_part r' -> r = r') ->
  (forall r, r ∈ es_buckets s -> (0 < lk_qty (f r))%Z) ->
  lside_wf s -> lside_wf (set_rows (map f) s).
Proof.
  intros Hid Hn Hp Ha Hq [H1 H2 H3 H4]. rewrite !Forall_forall in *. split; cbn; rewrite ?Forall_forall.
  - rewrite map_map. by rewrite (map_ext _ lk_id).
  - intros r' (r & -> & Hr)%list_elem_of_fmap. rewrite Hid. auto.
  - intros r1' r2' (r1 & -> & Hr1)%list_elem_of_fmap (r2 & -> & Hr2)%list_elem_of_fmap. rewrite !Hn, !Hp.
    intros A1 A2 En Ep. f_equal. by apply Ha.
  - intros r' (r & -> & Hr)%list_elem_of_fmap. auto.
Qed.

(** An update that activates no row. *)
Lemma map_wf f s :
  (forall r, lk_id (f r) = lk_id r) -> (forall r, lk_node (f r) = lk_node r) ->
  (forall r, lk_part (f r) = lk_part r) ->
  (forall r, r ∈ es_buckets s -> lk_active (f r) = true -> lk_active r = true) ->
  (forall r, r ∈ es_buckets s -> (0 < lk_qty (f r))%Z) ->
  lside_wf s -> lside_wf (set_rows (map f) s).
Proof. intros ??? Ha ? Hwf. apply map_wf_active; try done. intros. apply Hwf; auto. Qed.

Lemma lw_pos s r : lside_wf s -> r ∈ es_buckets s -> (0 < lk_qty r)%Z.
Proof. intros [_ _ _ Hq] Hr. rewrite Forall_forall in Hq. auto. Qed.

Lemma pile_nonneg n p s : lside_wf s -> (0 <= pile n p s)%Z.
Proof.
  intros [_ _ _ Hq]. unfold pile, row_sum. induction Hq as [|r l Hr Hl IH]; cbn; [done|].
  unfold on_rack at 1. destruct (_ && _); lia.
Qed.

Lemma Drain_healthy nodeID part delta s :
  lside_wf s -> (0 < delta)%Z ->
  exists t style s', Drain nodeID part delta (mkConn s []) = (Ok (t, style), mkConn s' []) /\
    drained_pile nodeID part delta t s s'.
Proof.
  intros Hwf Hd. unfold Drain. rewrite (proj2 (Z.leb_gt delta 0)) by done. cbn.
  destruct (first_of _) as [b|] eqn:Hf.
  2: { exists 0%Z, 0%Z, s. split; [done|]. apply first_of_none, pile_none in Hf.
       split; [rewrite Hf; lia|rewrite Hf; lia|done..]. }
  apply first_of_in, list_elem_of_In, filter_In in Hf as [Hb%list_elem_of_In [Hp Ha]%andb_prop].
  pose proof (pile_row nodeID part s b Hwf Hb Hp Ha) as Hpile.
  pose proof (lw_pos s b Hwf Hb) as Hpos.
  set (t := if (lk_qty b <? delta)%Z then lk_qty b else delta).
  assert (Ht : t = Z.min delta (lk_qty b)) by (unfold t; destruct (Z.ltb_spec (lk_qty b) delta); lia).
  assert (Hother : forall n p, (n, p) <> (nodeID, part) -> on_pile n p b = false).
  { intros n p Hne. destruct (on_pile n p b) eqn:E; [|done]. apply on_pile_true in E, Hp.
    destruct Hne. f_equal; intuition congruence. }
  destruct (Z.eqb_spec (lk_qty b - t) 0) as [E|E]; cbn; eexists t, (lk_style b), _; (split; [done|]).
  - split; try done.
    + by rewrite Hpile.
    + unfold pile in *. cbn. rewrite row_sum_remove by (done || apply Hwf). unfold on_rack at 2.
      rewrite Hp, Ha. cbn. lia.
    + intros n p Hne. unfold pile. cbn. rewrite row_sum_remove by (done || apply Hwf). unfold on_rack at 2.
      rewrite (Hother n p Hne). cbn. lia.
    + by apply filter_wf.
  - split; try done.
    + by rewrite Hpile.
    + unfold pile in *. cbn. rewrite row_sum_update by (done || apply Hwf). unfold on_rack at 2 3.
      change (on_pile nodeID part (with_qty _ _ _ _ b)) with (on_pile nodeID part b). cbn [lk_active with_qty].
      rewrite Hp, Ha. cbn. lia.
    + intros n p Hne. unfold pile. cbn. rewrite row_sum_update by (done || apply Hwf). unfold on_rack at 2 3.
      change (on_pile n p (with_qty _ _ _ _ b)) with (on_pile n p b). rewrite (Hother n p Hne). cbn. lia.
    + apply map_wf; try (intros r; by destruct (_ =i _)); [|done].
      intros r Hr. pose proof (lw_pos s r Hwf Hr). destruct (_ =i _); [cbn; lia|done].
Qed.


(** ** Frames *)

Lemma foldr_snoc {A} (f : A -> Z) l x :
  foldr (fun r acc => (f r + acc)%Z) 0%Z (l ++ [x]) = (foldr (fun r acc => (f r + acc)%Z) 0%Z l + f x)%Z.
Proof. induction l; cbn; lia. Qed.

Lemma same_books_trans s1 s2 s3 : same_books s1 s2 -> same_books s2 s3 -> same_books s1 s3.
Proof. unfold same_books. intuition congruence. Qed.

#[export] Instance same_books_preorder : PreOrder same_books.
Proof. split; [done|]. intros ???. apply same_books_trans. Qed.

Lemma pile_same n p s s' : es_buckets s' = es_buckets s -> pile n p s' = pile n p s.
Proof. unfold pile. by intros ->. Qed.
Lemma lside_wf_same s s' : es_buckets s' = es_buckets s -> es_next s' = es_next s -> lside_wf s -> lside_wf s'.
Proof. intros E1 E2 [H1 H2 H3 H4]. split; by rewrite ?E1, ?E2. Qed.


(** ** Rows stay well formed *)

Lemma first_of_active l b r : first_of l = Some b -> r ∈ l -> lk_active r = true -> lk_active b = true.
Proof.
  revert b. induction l as [|x l IH]; intros b; cbn; [set_solver|].
  intros Hf [->|Hr]%elem_of_cons Ha; destruct (first_of l) as [y|] eqn:Hy.
  - unfold ahead in Hf. rewrite Ha in Hf. repeat case_match; by simplify_eq.
  - by simplify_eq.
  - pose proof (IH y eq_refl Hr Ha) as Hay. unfold ahead in Hf. rewrite Hay in Hf.
    repeat case_match; by simplify_eq.
  - apply first_of_none in Hy as ->. set_solver.
Qed.

Lemma merge_wf n style p qty s :
  (0 < qty)%Z -> lside_wf s -> lside_wf (merge_capture n style p qty s).2.
Proof.
  intros Hq Hwf. unfold merge_capture. destruct (first_of _) as [b|] eqn:Hf; [|done]. cbn.
  pose proof Hf as Hb. apply first_of_in, list_elem_of_In, filter_In in Hb as [Hb%list_elem_of_In Hp].
  assert (Hact : forall r, r ∈ es_buckets s -> lk_active r = true -> lk_node r = lk_node b ->
    lk_part r = lk_part b -> r = b).
  { intros r Hr Ha En Ep. apply Hwf; try done. eapply first_of_active; [exact Hf| |exact Ha].
    apply list_elem_of_In, filter_In. split; [by apply list_elem_of_In|].
    apply on_pile_true in Hp. apply on_pile_true. intuition congruence. }
  apply map_wf_active; try (intros r; by destruct (_ =i _)); [| |done].
  - intros r r' Hr Hr'. destruct (Z.eqb_spec (lk_id r) (lk_id b)) as [E|E], (Z.eqb_spec (lk_id r') (lk_id b)) as [E'|E'];
      cbn.
    + intros. apply (by_id (es_buckets s)); try done; [apply Hwf|congruence].
    + intros _ Ha En Ep. assert (r = b) as -> by (by apply (by_id (es_buckets s)); [apply Hwf|..]).
      by rewrite (Hact r').
    + intros Ha _ En Ep. assert (r' = b) as -> by (by apply (by_id (es_buckets s)); [apply Hwf|..]).
      by rewrite (Hact r).
    + by apply Hwf.
  - intros r Hr. pose proof (lw_pos s r Hwf Hr). destruct (_ =i _); cbn; lia.
Qed.

(** A new row, where the index admits it. *)
Lemma add_wf n pair style p qty s :
  (0 < qty)%Z -> active_on n p s = false -> lside_wf s ->
  lside_wf (add_lrow (mkLB (es_next s) n pair style p qty true (es_now s)) s).
Proof.
  intros Hq Hno [H1 H2 H3 H4].
  assert (Hnone : forall r, r ∈ es_buckets s -> lk_active r = true -> lk_node r = n -> lk_part r = p -> False).
  { intros r Hr Ha En Ep. assert (Ht : active_on n p s = true); [|congruence]. apply existsb_exists. exists r.
    split; [by apply list_elem_of_In|]. rewrite Ha, andb_true_r. by apply on_pile_true. }
  split; cbn.
  - rewrite map_app. apply NoDup_app. split_and!; [done| |apply NoDup_singleton]. intros x Hx Hx'.
    apply list_elem_of_singleton in Hx' as ->. apply list_elem_of_fmap in Hx as (r & E & Hr).
    rewrite Forall_forall in H2. specialize (H2 r Hr). cbn in E. lia.
  - apply Forall_app. split; [|by constructor; cbn; [lia|constructor]].
    eapply Forall_impl; [exact H2|]. intros; cbn in *; lia.
  - intros r r' [Hr| ->%list_elem_of_singleton]%elem_of_app [Hr'| ->%list_elem_of_singleton]%elem_of_app; cbn; try done.
    + by apply H3.
    + intros Ha _ En Ep. by destruct (Hnone r).
    + intros _ Ha En Ep. by destruct (Hnone r').
  - apply Forall_app. split; [done|]. by repeat constructor.
Qed.

Lemma keeps_wf_runtime id f s : keeps lside_wf s (set_runtime id f s).
Proof. intros H. by eapply lside_wf_same; [| |exact H]. Qed.
Lemma keeps_wf_accs f g s : keeps lside_wf s (set_accs f g s).
Proof. intros H. by eapply lside_wf_same; [| |exact H]. Qed.

Lemma evolves_remember {R : EdgeState -> EdgeState -> Prop} f : (forall s, R s (f s)) -> evolves R (remember f).
Proof. intros H c. apply H. Qed.

Lemma findOne_wf n st p : evolves (keeps lside_wf) (findOne n st p).
Proof. unfold findOne. evolve. Qed.

(** The third statement of Capture. *)
Lemma bump_wf n st p qty s : (0 < qty)%Z ->
  keeps lside_wf s (set_rows (map (fun r => if on_pile n p r && lk_active r
    then with_qty (lk_qty r + qty) st true (es_now s) r else r)) s).
Proof.
  intros Hq Hwf. apply map_wf; try (intros r; by destruct (_ && _)); [| |done].
  - intros r Hr. destruct (on_pile n p r && lk_active r) eqn:E; [|done]. by apply andb_prop in E as [_ ->].
  - intros r Hr. pose proof (lw_pos s r Hwf Hr). destruct (_ && _); cbn; lia.
Qed.

Lemma Capture_wf n pair st p qty : evolves (keeps lside_wf) (Capture n pair st p qty).
Proof.
  unfold Capture. destruct (Z.leb_spec qty 0) as [|Hq]; evolve; try apply findOne_wf.
  - intros d Hwf. by apply merge_wf.
  - intros d Hwf. unfold insert_or_ignore. destruct (active_on n p d) eqn:E; [done|]. by apply add_wf.
  - intros d. by apply bump_wf.
Qed.

Lemma Deactivate_wf n st : evolves (keeps lside_wf) (DeactivateOtherStyles n st).
Proof.
  unfold DeactivateOtherStyles. evolve; intros d Hwf; [by apply filter_wf|].
  apply map_wf; try (intros r; by destruct (other_style _ _ r)); [|done].
  intros r Hr. pose proof (lw_pos d r Hwf Hr). by destruct (other_style n st r).
Qed.

Lemma Drain_wf n p delta : evolves (keeps lside_wf) (Drain n p delta).
Proof.
  unfold Drain. destruct (Z.leb_spec delta 0) as [|Hd]; [evolve|].
  apply evolves_query_bind; [typeclasses eauto|]. intros c.
  destruct (first_of _) as [b|]; [|apply evolves_ret; typeclasses eauto].
  revert c. match goal with |- forall c, keeps _ _ (db (?m c).2) => change (evolves (keeps lside_wf) m) end.
  destruct (Z.eqb_spec (lk_qty b - (if (lk_qty b <? delta)%Z then lk_qty b else delta)) 0) as [E|E].
  { evolve; intros d Hwf; by apply filter_wf. }
  assert (Hq : (0 < lk_qty b - if lk_qty b <? delta then lk_qty b else delta)%Z).
  { destruct (Z.ltb_spec (lk_qty b) delta); lia. }
  revert Hq. clear E. generalize (lk_qty b - if (lk_qty b <? delta)%Z then lk_qty b else delta)%Z. intros q Hq.
  evolve. intros d Hwf. apply map_wf; try (intros r; by destruct (_ =i _)); [|done].
  intros r Hr. pose proof (lw_pos d r Hwf Hr). by destruct (_ =i _).
Qed.

Lemma SetForReconcile_wf n pair st p qty : evolves (keeps lside_wf) (SetForReconcile n pair st p qty).
Proof.
  unfold SetForReconcile. destruct (Z.leb_spec qty 0) as [|Hq]; evolve.
  - intros d Hwf. by apply filter_wf.
  - intros s x s'. set (hit r := on_pile n p r && (lk_style r =i st)).
    set (f r := if hit r then with_qty qty (lk_style r) true (es_now s) r else r).
    destruct (_ && existsb hit (es_buckets s)) eqn:Hg; [done|]. intros [= <- <-] Hwf.
    apply (map_wf_active f); try (intros r; unfold f; by destruct (hit r)); [| |done].
    2: { intros r Hr. pose proof (lw_pos s r Hwf Hr). unfold f. by destruct (hit r). }
    intros r r' Hr Hr' Ha Ha' En Ep. destruct (existsb hit (es_buckets s)) eqn:Hex.
    2: { assert (Hid : forall x, x ∈ es_buckets s -> f x = x).
         { intros y Hy. unfold f. destruct (hit y) eqn:Ey; [|done].
           assert (existsb hit (es_buckets s) = true); [|congruence]. apply existsb_exists. exists y.
           split; [by apply list_elem_of_In|done]. }
         rewrite !Hid in * by done. by apply Hwf. }
    rewrite andb_true_r in Hg. apply Nat.ltb_ge in Hg.
    destruct (on_pile n p r) eqn:Hp.
    2: { assert (Hp' : on_pile n p r' = false).
         { destruct (on_pile n p r') eqn:E; [|done]. apply on_pile_true in E as [].
           rewrite (proj2 (on_pile_true n p r)) in Hp; [done|split; congruence]. }
         unfold f, hit in Ha, Ha'. rewrite Hp in Ha. rewrite Hp' in Ha'. cbn in Ha, Ha'. by apply Hwf. }
    apply (by_id (es_buckets s)); [apply Hwf|done..|].
    assert (Hp' : on_pile n p r' = true).
    { apply on_pile_true in Hp as []. apply on_pile_true. split; congruence. }
    assert (Hid : forall x, lk_id (f x) = lk_id x /\ on_pile n p (f x) = on_pile n p x).
    { intros y. unfold f. by destruct (hit y). }
    rewrite <- (proj1 (Hid r)), <- (proj1 (Hid r')). f_equal.
    assert (Hin : forall x, x ∈ es_buckets s -> on_pile n p x = true -> lk_active (f x) = true ->
      f x ∈ List.filter (fun r => on_pile n p r && lk_active r) (map f (es_buckets s))).
    { intros y Hy Hpy Hay. apply list_elem_of_In, filter_In. split.
      - apply in_map. by apply list_elem_of_In.
      - by rewrite (proj2 (Hid y)), Hpy, Hay. }
    pose proof (Hin r Hr Hp Ha) as I1. pose proof (Hin r' Hr' Hp' Ha') as I2.
    change (es_buckets (set_rows _ s)) with (map f (es_buckets s)) in Hg.
    destruct (List.filter _ (map f (es_buckets s))) as [|x1 [|]]; [set_solver| |cbn in Hg; lia].
    apply list_elem_of_singleton in I1, I2. congruence.
  - intros s x s'. destruct (active_on n p s) eqn:E; [done|]. intros [= _ <-] Hwf. by apply add_wf.
Qed.

Create HintDb edge_rows.
#[export] Hint Resolve Drain_wf Capture_wf Deactivate_wf SetForReconcile_wf keeps_wf_runtime keeps_wf_accs : edge_rows.

(** ** Capture *)

Definition parts_at (n : Z) (p : string) (n' : Z) (p' : string) (q : Z) : Z :=
  if (n =i n') && (p =s p') then q else 0.

Lemma in_stock_with n p q st a now r : in_stock n p (with_qty q st a now r) = if on_pile n p r then q else 0%Z.
Proof. done. Qed.

Lemma on_pile_at n p n' p' r : on_pile n p r = true -> on_pile n' p' r = (n =i n') && (p =s p').
Proof. unfold on_pile. by intros [->%Z.eqb_eq ->%String.eqb_eq]%andb_prop. Qed.

Lemma findOne_found n st p s r :
  r ∈ es_buckets s -> on_pile n p r = true -> lk_style r = st ->
  exists b, findOne n st p (mkConn s []) = (Ok b, mkConn s []).
Proof.
  intros Hr Hp Hst. unfold findOne, query, sbind, stmt. cbn.
  destruct (first_of _) as [b|] eqn:Hf; [by exists b|]. apply first_of_none in Hf.
  assert (Hin : In r (List.filter (fun r => on_pile n p r && (lk_style r =i st)) (es_buckets s))).
  { apply filter_In. split; [by apply list_elem_of_In|]. by rewrite Hp, Hst, Z.eqb_refl. }
  by rewrite Hf in Hin.
Qed.

Lemma Capture_healthy n pair st p qty s :
  lside_wf s -> (0 < qty)%Z ->
  exists b s', Capture n pair st p qty (mkConn s []) = (Ok b, mkConn s' []) /\ lside_wf s' /\ same_books s s' /\
    forall n' p', stock n' p' s' = (stock n' p' s + parts_at n p n' p' qty)%Z.
Proof.
  intros Hwf Hq. assert (Hw : lside_wf (db (Capture n pair st p qty (mkConn s [])).2)) by by apply Capture_wf.
  unfold Capture in *. rewrite (proj2 (Z.leb_gt qty 0)) in * by done.
  unfold sbind at 1. unfold sbind at 1 in Hw. cbn [stmt faults db] in *. unfold merge_capture in *.
  destruct (first_of _) as [b|] eqn:Hf.
  - apply first_of_in, list_elem_of_In, filter_In in Hf as [Hb%list_elem_of_In Hp]. cbn [Nat.ltb Nat.leb] in *.
    match goal with |- context [mkConn ?x []] => set (s1 := x) in * end.
    destruct (findOne_found n st p s1 (with_qty (lk_qty b + qty) st true (es_now s) b)) as [b' Hb'].
    { unfold s1. cbn. apply list_elem_of_fmap. exists b. split; [by rewrite Z.eqb_refl|done]. }
    { done. }
    { done. }
    unfold sbind in *. rewrite Hb' in *. cbn in Hw. exists (Some b'), s1. split_and!; [done|done|done|].
    intros n' p'. unfold stock, s1. cbn. rewrite row_sum_update by (done || apply Hwf).
    rewrite in_stock_with. unfold in_stock at 2. rewrite (on_pile_at n p) by done. unfold parts_at.
    destruct (_ && _); lia.
  - apply first_of_none in Hf. cbn [Nat.ltb Nat.leb] in *.
    assert (Hno : active_on n p s = false).
    { destruct (active_on n p s) eqn:E; [|done]. apply existsb_exists in E as (r & Hr & Hx).
      apply andb_prop in Hx as [Hx _].
      assert (Hin : In r (List.filter (on_pile n p) (es_buckets s))) by by apply filter_In. by rewrite Hf in Hin. }
    unfold sbind at 1. unfold sbind at 1 in Hw. cbn [stmt faults db] in *. unfold insert_or_ignore in *.
    rewrite Hno in *. cbn [Nat.ltb Nat.leb] in *.
    match goal with |- context [mkConn ?x []] => set (s1 := x) in * end.
    destruct (findOne_found n st p s1 (mkLB (es_next s) n pair st p qty true (es_now s))) as [b' Hb'].
    { unfold s1. cbn. set_solver. }
    { by apply on_pile_true. }
    { done. }
    unfold sbind in *. rewrite Hb' in *. cbn in Hw. exists (Some b'), s1. split_and!; [done|done|done|].
    intros n' p'. unfold stock, s1, row_sum. cbn.
    rewrite (foldr_snoc (in_stock n' p')). unfold in_stock at 2, on_pile, parts_at. cbn. done.
Qed.

Lemma Deactivate_healthy n st s :
  lside_wf s -> exists s', DeactivateOtherStyles n st (mkConn s []) = (Ok (), mkConn s' []) /\ lside_wf s' /\
    same_books s s' /\ forall n' p', stock n' p' s' = stock n' p' s.
Proof.
  intros Hwf. pose proof (Deactivate_wf n st (mkConn s []) Hwf) as H1. eexists. split; [reflexivity|].
  split; [exact H1|]. split; [done|]. intros n' p'. unfold stock. cbn. rewrite row_sum_ext, row_sum_filter; [done| |].
  - intros r Hr Hx. apply negb_false_iff, andb_prop in Hx as [_ Hx%Z.leb_le]. pose proof (lw_pos s r Hwf Hr). lia.
  - intros r _. by destruct (other_style n st r).
Qed.

Lemma Capture_books n pair st p qty : evolves same_books (Capture n pair st p qty).
Proof.
  unfold Capture, findOne. evolve; try done.
  - intros s. unfold merge_capture. by destruct (first_of _).
  - intros s. unfold insert_or_ignore. by destruct (active_on _ _ _).
Qed.
