(* ===== verification/EdgeCounts.v ===== *)
(** Counting on the Edge: what a counter tick of the line does to the lineside
    buckets (store/lineside/lineside.go), to the runtime row of the node
    (store/processes/processes.go) and to the delta accumulators (uop/tick.go,
    uop/capture.go, uop/backfill.go, uop/mutator.go), as the engine drives them
    (engine/wiring_counter_delta.go), and what a release click declares about
    the bin (uop/release.go).

    The accumulators are memory beside the SQLite tables: a record call cannot
    fail.  Calls run undisturbed here; Accumulator.v shows every interleaving
    books the same counts. *)

From S2P Require Import Prelude Sql BinManifest Accumulator EdgeStore.

(** ** Recording *)

Definition ReasonConsumeTick : string := "consume_tick".
Definition ReasonABFallthrough : string := "ab_fallthrough".
Definition ReasonCaptureFill : string := "capture_fill".
Definition ReasonConsumeDrain : string := "consume_drain".
Definition ReasonProduced : string := "produce_tick".
Definition ReasonCaptured : string := "capture_reduction".

(** What GetProcessNode finds. *)
Definition node_names (s : EdgeState) : gmap Z string :=
  list_to_map (map (fun n => (pn_id n, pn_core n)) (es_nodes s)).

Definition record_bin (binID : Z) (payload : string) (delta : Z) (reason : string) (epoch : Z)
    (s : EdgeState) : EdgeState :=
  set_accs (recordBin binID payload delta reason epoch) id s.
Definition record_bucket (nodeID : Z) (core pair : string) (styleID : Z) (part payload : string) (delta : Z)
    (reason : string) (s : EdgeState) : EdgeState :=
  set_accs id (recordBucket (node_names s) nodeID core pair styleID part payload delta reason) s.
Definition flush_accs (s : EdgeState) : EdgeState :=
  set_accs (flush binScope) (flush (bucketScope (node_names s))) s.

Record TickEvent := mkTick {
  tk_node : Z; tk_style : Z; tk_pair : string; tk_core : string; tk_bin : Z; tk_payload : string;
  tk_epoch : Z; tk_drains : gmap string (Z * Z); tk_remainder : Z }.

(** One bucket count per drained part; a part without a style takes the tick's. *)
Definition emit_drain (ev : TickEvent) (s : EdgeState) (pd : string * (Z * Z)) : EdgeState :=
  let '(part, (qty, style)) := pd in
  if (0 <? qty)%Z then
    record_bucket (tk_node ev) (tk_core ev) (tk_pair ev) (if style =i 0 then tk_style ev else style) part
      (tk_payload ev) (- qty) ReasonConsumeDrain s
  else s.

Definition emit_drains (ev : TickEvent) (s : EdgeState) : EdgeState :=
  foldl (emit_drain ev) s (map_to_list (tk_drains ev)).

Definition emit_bin (ev : TickEvent) (delta : Z) (reason : string) (s : EdgeState) : EdgeState :=
  if (0 <? tk_remainder ev)%Z && (0 <? tk_bin ev)%Z
  then record_bin (tk_bin ev) (tk_payload ev) delta reason (tk_epoch ev) s else s.

Definition Consumed (ev : TickEvent) : EdgeSQL unit :=
  remember (fun s => emit_bin ev (- tk_remainder ev) ReasonConsumeTick (emit_drains ev s)).
Definition Produced (ev : TickEvent) : EdgeSQL unit :=
  remember (emit_bin ev (tk_remainder ev) ReasonProduced).
Definition Fallthrough (ev : TickEvent) : EdgeSQL unit :=
  remember (fun s => emit_bin ev (- tk_remainder ev) ReasonABFallthrough (emit_drains ev s)).

(** ** A release click *)

Inductive DispositionMode := DispositionCaptureLineside | DispositionSendPartialBack
  | DispositionUnderpack | DispositionNone.

Record ReleaseDisposition := mkRD {
  rd_mode : DispositionMode;
  rd_capture : gmap string Z;
  rd_suggested : gmap string Z;
  rd_partial : option Z;
  rd_partial_suggested : option Z;
  rd_by : string }.

Record CaptureEvent := mkCE {
  ce_node : Z; ce_style : Z; ce_pair : string; ce_core : string; ce_disp : ReleaseDisposition;
  ce_bin : Z; ce_payload : string; ce_epoch : Z; ce_suppress : bool }.

(** The capture loop; [Err] carries nothing, the total so far is the first
    result. *)
Fixpoint capture_parts (ev : CaptureEvent) (parts : list (string * Z)) (total : Z) (c : Conn EdgeState)
    : Z * outcome EdgeError unit * Conn EdgeState :=
  match parts with
  | [] => (total, Ok (), c)
  | (part, qty) :: rest =>
      if (qty <=? 0)%Z || (part =s "") then capture_parts ev rest total c
      else match Capture (ce_node ev) (ce_pair ev) (ce_style ev) part qty c with
        | (Err e, c1) => (total, Err e, c1)
        | (Ok _, c1) =>
            let c2 := (remember (record_bucket (ce_node ev) (ce_core ev) (ce_pair ev) (ce_style ev) part
              (ce_payload ev) qty ReasonCaptureFill) c1).2 in
            capture_parts ev rest (total + qty) c2
        end
  end.

Definition CaptureToLineside (ev : CaptureEvent) (c : Conn EdgeState)
    : Z * outcome EdgeError unit * Conn EdgeState :=
  let '(total, r, c1) :=
    match rd_mode (ce_disp ev) with
    | DispositionCaptureLineside => capture_parts ev (map_to_list (rd_capture (ce_disp ev))) 0 c
    | _ => (0%Z, Ok (), c)
    end in
  match r with
  | Err e => (total, Err e, c1)
  | Ok _ =>
      match DeactivateOtherStyles (ce_node ev) (ce_style ev) c1 with
      | (Err e, c2) => (total, Err e, c2)
      | (Ok _, c2) =>
          let c3 := if (0 <? total)%Z && negb (ce_suppress ev) && (0 <? ce_bin ev)%Z
            then (remember (record_bin (ce_bin ev) (ce_payload ev) (- total) ReasonCaptured (ce_epoch ev)) c2).2
            else c2 in
          (total, Ok (), c3)
      end
  end.

(** [runtime] is the node's row when there is one. *)
Definition partial_count (disp : ReleaseDisposition) (runtime : option Runtime) : Z :=
  match rd_partial disp with
  | Some n => if (0 <? n)%Z then n
      else match runtime with Some r => if (0 <? rt_uop r)%Z then rt_uop r else 0 | None => 0 end
  | None => match runtime with Some r => if (0 <? rt_uop r)%Z then rt_uop r else 0 | None => 0 end
  end%Z.

Definition ComputeReleaseRemainingUOP (disp : ReleaseDisposition) (runtime : option Runtime) (resolvedBinID : Z)
    : option Z :=
  match rd_mode disp with
  | DispositionCaptureLineside =>
      if (size (rd_capture disp) =? 0)%nat then Some 0%Z
      else if resolvedBinID =i 0 then Some 0%Z else None
  | DispositionSendPartialBack => Some (partial_count disp runtime)
  | DispositionUnderpack => Some 0%Z
  | DispositionNone => None
  end.

Definition BuildProtocolDisposition (disp : ReleaseDisposition) (runtime : option Runtime)
    : option UOPDisposition :=
  match rd_mode disp with
  | DispositionCaptureLineside =>
      if (size (rd_capture disp) =? 0)%nat then Some (mkDisp "release_empty" 0 ∅ None ∅)
      else Some (mkDisp "pull_parts" 0 (rd_capture disp) None (rd_suggested disp))
  | DispositionSendPartialBack =>
      Some (mkDisp "release_partial" (partial_count disp runtime) ∅ (rd_partial_suggested disp) ∅)
  | DispositionUnderpack => Some (mkDisp "release_underpack" 0 ∅ (rt_uop <$> runtime) ∅)
  | DispositionNone => None
  end.

(** ** Backfill and administration *)

Definition seed_bucket (core : string) (s : EdgeState) (b : LBucket) : EdgeState :=
  if (lk_qty b <=? 0)%Z then s
  else record_bucket (lk_node b) core (lk_pair b) (lk_style b) (lk_part b) "" (lk_qty b) ReasonCaptureFill s.

Fixpoint backfill_nodes (ns : list PNode) (emitted : nat) : EdgeSQL nat :=
  match ns with
  | [] => sret emitted
  | n :: rest =>
      bs <-- slog (ListForNode (pn_id n)) ;;
      match bs with
      | None => backfill_nodes rest emitted
      | Some bs =>
          remember (fun s => foldl (seed_bucket (pn_core n)) s bs) ;;;
          backfill_nodes rest (emitted + length (List.filter (fun b => (0 <? lk_qty b)%Z) bs))
      end
  end.

Definition Backfill (force : bool) : EdgeSQL nat :=
  ns <-- query es_nodes ;;
  n <-- backfill_nodes ns 0 ;;
  (if force then remember flush_accs else sret ()) ;;; sret n.

Definition AdjustBucket (nodeID : Z) (core pair : string) (styleID : Z) (part : string) (currentQty newQty : Z)
    (reason : string) : EdgeSQL unit :=
  let delta := (newQty - currentQty)%Z in
  (if negb (delta =i 0) then remember (record_bucket nodeID core pair styleID part "" delta reason)
   else sret ()) ;;;
  SetForReconcile nodeID pair styleID part newQty ;;;
  remember flush_accs.

Definition BindActiveBin (nodeID binID epoch : Z) : EdgeSQL unit :=
  SetActiveBinIDAndEpoch nodeID (Some binID) epoch.
Definition ClearActiveBin (nodeID : Z) : EdgeSQL unit := SetActiveBinID nodeID None.
Definition ClearActiveAndReset (nodeID : Z) (claim : option Z) : EdgeSQL unit :=
  SetRuntimeWithBin nodeID claim None 0.
Definition SetClaimAndCount (nodeID : Z) (claim : option Z) (uop : Z) : EdgeSQL unit :=
  SetRuntime nodeID claim uop.
Definition SetClaimCountAndEpoch (nodeID : Z) (claim : option Z) (uop binID epoch : Z) : EdgeSQL unit :=
  SetRuntimeClaimCountAndEpoch nodeID claim uop binID epoch.
Definition OnDelivered (nodeID : Z) (claim : option Z) (binID epoch uop : Z) : EdgeSQL unit :=
  SetRuntimeWithBinAndEpoch nodeID claim (Some binID) epoch uop.
Definition ManualLoad (nodeID : Z) (claim bin : option Z) (epoch uop : Z) : EdgeSQL unit :=
  SetRuntimeWithBinAndEpoch nodeID claim bin epoch uop.
Definition OnBinPickedUp : EdgeSQL unit := remember flush_accs.
Definition MarkAttributionBoundary : EdgeSQL unit := remember flush_accs.

(** ** A counter tick *)

Definition AllowedPayloads (c : NodeClaim) : list string :=
  match nc_allowed c with
  | [] => if nc_payload c <>s "" then [nc_payload c] else []
  | l => l
  end.

Fixpoint drain_secondary (nodeID : Z) (claim : NodeClaim) (delta : Z) (parts : list string)
    (drains : gmap string (Z * Z)) : EdgeSQL (gmap string (Z * Z)) :=
  match parts with
  | [] => sret drains
  | part :: rest =>
      if (part =s "") || (part =s nc_payload claim) then drain_secondary nodeID claim delta rest drains
      else
        r <-- slog (Drain nodeID part delta) ;;
        drain_secondary nodeID claim delta rest
          match r with
          | Some (drained, style) => if (0 <? drained)%Z then <[part := (drained, style)]> drains else drains
          | None => drains
          end
  end.

Definition drainLinesideFirst (nodeID : Z) (claim : NodeClaim) (delta : Z)
    : EdgeSQL (gmap string (Z * Z) * Z) :=
  if (delta <=? 0)%Z then sret (∅, delta)
  else
    pr <-- (if nc_payload claim <>s "" then slog (Drain nodeID (nc_payload claim) delta) else sret None) ;;
    let '(drains, remainder) :=
      match pr with
      | Some (drained, style) =>
          (if (0 <? drained)%Z then <[nc_payload claim := (drained, style)]> ∅ else ∅, (delta - drained)%Z)
      | None => (∅, delta)
      end in
    drains' <-- drain_secondary nodeID claim delta (AllowedPayloads claim) drains ;;
    sret (drains', remainder).

(** [sign] is +1 for produce and -1 for consume; the writes' errors are logged. *)
Definition applyHoldAndReplay (nodeID : Z) (runtime : Runtime) (input sign : Z) : EdgeSQL (bool * Z * Z) :=
  match rt_bin runtime with
  | Some _ =>
      let attributed := (input + rt_pending runtime)%Z in
      let newRemaining := (rt_uop runtime + sign * attributed)%Z in
      slog (if negb (rt_pending runtime =i 0) then SetRuntimeUOPClearPending nodeID newRemaining
            else UpdateRuntimeUOP nodeID newRemaining) ;;;
      sret (true, attributed, newRemaining)
  | None =>
      (if negb (input =i 0) then slog (AddPendingUOPDelta nodeID input) ;;; sret () else sret ()) ;;;
      sret (false, input, rt_uop runtime)
  end.

Definition binAtNode (runtime : Runtime) (claim : NodeClaim) : Z * string * Z :=
  match rt_bin runtime with
  | None => (0%Z, "", 0%Z)
  | Some b => (b, nc_payload claim, rt_epoch runtime)
  end.

Definition tick_event (node : PNode) (runtime : Runtime) (claim : NodeClaim) (core : string)
    (drains : gmap string (Z * Z)) (remainder : Z) : TickEvent :=
  let '(binID, payload, epoch) := binAtNode runtime claim in
  mkTick (pn_id node) (nc_style claim) (nc_paired claim) core binID payload epoch drains remainder.

(** The counting part of handleConsumeTick; its result is what the reorder check
    that follows looks at. *)
Definition consume_tick (node : PNode) (runtime : Runtime) (claim : NodeClaim) (delta : Z)
    : EdgeSQL (bool * Z) :=
  dr <-- drainLinesideFirst (pn_id node) claim delta ;;
  hr <-- applyHoldAndReplay (pn_id node) runtime dr.2 (-1) ;;
  let '(bound, attributed, newRemaining) := hr in
  Consumed (tick_event node runtime claim (pn_core node) dr.1 attributed) ;;;
  sret (bound, newRemaining).

(** The counting part of handleProduceTick. *)
Definition produce_tick (node : PNode) (runtime : Runtime) (claim : NodeClaim) (delta : Z)
    : EdgeSQL (bool * Z) :=
  hr <-- applyHoldAndReplay (pn_id node) runtime delta 1 ;;
  let '(bound, attributed, newRemaining) := hr in
  (if (0 <? attributed)%Z then Produced (tick_event node runtime claim "" ∅ attributed) else sret ()) ;;;
  sret (bound, newRemaining).

Definition handleABFallthrough (node : PNode) (runtime : Runtime) (claim : NodeClaim) (delta : Z)
    : EdgeSQL unit :=
  dr <-- drainLinesideFirst (pn_id node) claim delta ;;
  hr <-- applyHoldAndReplay (pn_id node) runtime dr.2 (-1) ;;
  Fallthrough (tick_event node runtime claim (pn_core node) dr.1 hr.1.2).

Definition isInactivePairedNode (claim : NodeClaim) (runtime : Runtime) : bool :=
  (nc_paired claim <>s "") && negb (rt_pull runtime).

(** The claim of the active style, else of the changeover's target; failed
    lookups read as absent. *)
Definition claim_by_node (style : option Z) (core : string) : EdgeSQL (option NodeClaim) :=
  match style with
  | None => sret None
  | Some st => c <-- slog (query (fun s => es_claims s !! (st, core))) ;; sret (mjoin c)
  end.

Definition findActiveClaim (node : PNode) : EdgeSQL (option NodeClaim) :=
  p <-- slog (query (fun s => es_processes s !! pn_process node)) ;;
  match mjoin p with
  | None => sret None
  | Some pr =>
      a <-- claim_by_node (pr_active pr) (pn_core node) ;;
      match a with Some c => sret (Some c) | None => claim_by_node (pr_target pr) (pn_core node) end
  end.

Record CounterDelta := mkCD { cd_process : Z; cd_style : Z; cd_delta : Z; cd_anomaly : string }.

Fixpoint tick_nodes (ns : list PNode) (cd : CounterDelta) (handled : bool)
    (fallback : option (PNode * Runtime * NodeClaim)) : EdgeSQL (bool * option (PNode * Runtime * NodeClaim)) :=
  match ns with
  | [] => sret (handled, fallback)
  | node :: rest =>
      r <-- slog (GetRuntime (pn_id node)) ;;
      match mjoin r with
      | None => tick_nodes rest cd handled fallback
      | Some runtime =>
          c <-- findActiveClaim node ;;
          match c with
          | None => tick_nodes rest cd handled fallback
          | Some claim =>
              if negb (nc_style claim =i cd_style cd) || (nc_swap claim =s "manual_swap")
              then tick_nodes rest cd handled fallback
              else if nc_role claim =s "consume" then
                if isInactivePairedNode claim runtime
                then tick_nodes rest cd handled
                       match fallback with None => Some (node, runtime, claim) | Some f => Some f end
                else consume_tick node runtime claim (cd_delta cd) ;;;
                     tick_nodes rest cd (handled || (nc_paired claim <>s "")) fallback
              else if nc_role claim =s "produce" then
                if isInactivePairedNode claim runtime then tick_nodes rest cd handled fallback
                else produce_tick node runtime claim (cd_delta cd) ;;; tick_nodes rest cd handled fallback
              else tick_nodes rest cd handled fallback
          end
      end
  end.

Definition handleCounterDelta (cd : CounterDelta) : EdgeSQL unit :=
  if (cd_process cd =i 0) || (cd_style cd =i 0) || (cd_delta cd <=? 0)%Z then sret ()
  else if cd_anomaly cd =s "reset" then sret ()
  else
    ns <-- slog (query (fun s => List.filter (fun n => pn_process n =i cd_process cd) (es_nodes s))) ;;
    match ns with
    | None => sret ()
    | Some ns =>
        hf <-- tick_nodes ns cd false None ;;
        match hf with
        | (false, Some (node, runtime, claim)) => handleABFallthrough node runtime claim (cd_delta cd)
        | _ => sret ()
        end
    end.

(** ** The books *)

Definition accs_ok (s : EdgeState) : Prop :=
  inv binScope (es_bins s) /\ inv (bucketScope (node_names s)) (es_lineside s) /\
  flusher (es_bins s) = FIdle /\ flusher (es_lineside s) = FIdle.

(** Everything booked to a bin; everything booked to one part's buckets at a
    node. *)
Definition bin_total (b : Z) (s : EdgeState) : Z :=
  foldr (fun r acc => ((if bl_bin r.1 =i b then r.2 else 0) + acc)%Z) 0%Z (recorded (es_bins s)).
Definition part_total (nodeID : Z) (part : string) (s : EdgeState) : Z :=
  foldr (fun r acc => ((if (kl_node r.1 =i nodeID) && (kl_part r.1 =s part) then r.2 else 0) + acc)%Z) 0%Z
    (recorded (es_lineside s)).
Definition bucket_total (s : EdgeState) : Z :=
  foldr (fun r acc => (r.2 + acc)%Z) 0%Z (recorded (es_lineside s)).

(** Nothing but the accumulators moved. *)
Record only_accs (s s' : EdgeState) : Prop := {
  oa_rows : es_buckets s' = es_buckets s; oa_next : es_next s' = es_next s;
  oa_runtime : es_runtime s' = es_runtime s; oa_nodes : es_nodes s' = es_nodes s;
  oa_accs : accs_ok s -> accs_ok s' }.

#[export] Instance only_accs_preorder : PreOrder only_accs.
Proof.
  split; [by split|]. intros s1 s2 s3 [] []. split; [congruence..|auto].
Qed.

Lemma record_bin_books binID payload delta reason epoch s :
  accs_ok s -> let s' := record_bin binID payload delta reason epoch s in
  only_accs s s' /\ es_lineside s' = es_lineside s /\
  forall b, bin_total b s' = (bin_total b s + if (binID =i b) && (0 <? binID)%Z then delta else 0)%Z.
Proof.
  intros (I1 & I2 & Q1 & Q2). split; [split; try done|split; [done|]].
  - intros _. split_and!; [|done| |done]; [|by cbn; unfold recordBin; rewrite record_call_flusher].
    apply (rtc_inv binScope (es_bins s)); [done|]. by apply (record_call_run binScope).
  - intros b. unfold bin_total, record_bin, recordBin. cbn. rewrite (record_call_books binScope) by done. cbn.
    destruct (Z.eqb_spec delta 0) as [->|Hd]; cbn; [rewrite app_nil_r; by destruct (_ && _); rewrite Z.add_0_r|].
    destruct (0 <? binID)%Z; [|by rewrite app_nil_r, andb_false_r, Z.add_0_r].
    rewrite (foldr_snoc (fun r : BinLabel * Z => if bl_bin r.1 =i b then r.2 else 0%Z)). cbn.
    by rewrite andb_true_r.
Qed.

Lemma record_bucket_books nodeID core pair style part payload delta reason s :
  accs_ok s -> let s' := record_bucket nodeID core pair style part payload delta reason s in
  let booked := if (0 <? nodeID)%Z && (part <>s "") then delta else 0%Z in
  only_accs s s' /\ es_bins s' = es_bins s /\ bucket_total s' = (bucket_total s + booked)%Z /\
  forall n p, part_total n p s' =
    (part_total n p s + if (nodeID =i n) && (part =s p) then booked else 0)%Z.
Proof.
  intros (I1 & I2 & Q1 & Q2).
  assert (Hrec := record_call_books (bucketScope (node_names s))
    (mkBucketLabel nodeID core pair style part payload reason) delta _ I2). cbn [sc_valid bucketScope kl_node kl_part] in Hrec.
  split; [split; try done|split; [done|split]].
  - intros _. split_and!; [done| |done|by cbn; unfold recordBucket; rewrite record_call_flusher].
    apply (rtc_inv (bucketScope (node_names s)) (es_lineside s)); [done|].
    by apply (record_call_run (bucketScope (node_names s))).
  - unfold bucket_total, record_bucket, recordBucket. cbn. rewrite Hrec. clear Hrec.
    destruct (Z.eqb_spec delta 0) as [->|Hd]; cbn; [rewrite app_nil_r; destruct (_ && _); lia|].
    destruct (_ && _); [by rewrite (foldr_snoc snd)|by rewrite app_nil_r, Z.add_0_r].
  - intros n p. unfold part_total, record_bucket, recordBucket. cbn. rewrite Hrec. clear Hrec.
    destruct (Z.eqb_spec delta 0) as [->|Hd]; cbn.
    { rewrite app_nil_r. repeat case_match; lia. }
    destruct ((0 <? nodeID)%Z && (part <>s "")); [|rewrite app_nil_r; repeat case_match; lia].
    rewrite (foldr_snoc (fun r : BucketLabel * Z =>
      if (kl_node r.1 =i n) && (kl_part r.1 =s p) then r.2 else 0%Z)). done.
Qed.

Definition drained_of (part : string) (l : list (string * (Z * Z))) : Z :=
  foldr (fun pd acc => ((if (pd.1 =s part) && (0 <? pd.2.1)%Z then pd.2.1 else 0) + acc)%Z) 0%Z l.

Lemma emit_drains_books ev l s :
  accs_ok s -> (0 < tk_node ev)%Z ->
  let s' := foldl (emit_drain ev) s l in
  only_accs s s' /\ es_bins s' = es_bins s /\
  forall part, part <> "" -> part_total (tk_node ev) part s' = (part_total (tk_node ev) part s - drained_of part l)%Z.
Proof.
  intros Hok Hn. revert s Hok. induction l as [|[part [q st]] l IH]; intros s Hok; cbn [foldl].
  { split; [done|]. split; [done|]. intros. cbn. lia. }
  assert (H1 : let s1 := emit_drain ev s (part, (q, st)) in only_accs s s1 /\ es_bins s1 = es_bins s /\
    forall p, p <> "" -> part_total (tk_node ev) p s1 = (part_total (tk_node ev) p s -
      if (part =s p) && (0 <? q)%Z then q else 0)%Z).
  { unfold emit_drain. destruct (0 <? q)%Z eqn:Hq; cbv zeta.
    2: { split; [done|]. split; [done|]. intros. rewrite andb_false_r. lia. }
    destruct (record_bucket_books (tk_node ev) (tk_core ev) (tk_pair ev) (if st =i 0 then tk_style ev else st)
      part (tk_payload ev) (- q) ReasonConsumeDrain s Hok) as (A & B & _ & C).
    split; [exact A|]. split; [exact B|]. intros p Hp. rewrite C, Z.eqb_refl. cbn [andb].
    apply Z.ltb_lt in Hn. rewrite Hn. cbn [andb].
    destruct (eqb_spec_s part p) as [->|Hne]; cbn [andb]; [|lia].
    rewrite (seqb_neq p "") by done. cbn [negb]. lia. }
  destruct H1 as (A & B & C). destruct (IH _ (oa_accs _ _ A Hok)) as (A' & B' & C').
  split; [by etrans|]. split; [congruence|]. intros p Hp. rewrite C', C by done. cbn [drained_of foldr fst snd]. fold (drained_of p l). lia.
Qed.

Lemma drained_of_map part (m : gmap string (Z * Z)) :
  drained_of part (map_to_list m) =
  match m !! part with Some (q, _) => if (0 <? q)%Z then q else 0%Z | None => 0%Z end.
Proof.
  assert (H : forall l : list (string * (Z * Z)), NoDup l.*1 -> drained_of part l =
    match (list_to_map l : gmap string (Z * Z)) !! part with
    | Some (q, _) => if (0 <? q)%Z then q else 0%Z | None => 0%Z end).
  { induction l as [|[p [q st]] l IH]; cbn; [done|]. intros [Hp Hnd]%NoDup_cons.
    fold (drained_of part l). rewrite IH by done. destruct (eqb_spec_s p part) as [->|Hne]; cbn.
    - rewrite lookup_insert_eq. rewrite not_elem_of_list_to_map_1 by done. destruct (0 <? q)%Z; lia.
    - by rewrite lookup_insert_ne. }
  rewrite H by apply NoDup_fst_map_to_list. by rewrite list_to_map_to_list.
Qed.

(** ** A tick on a healthy store *)

Lemma drain_secondary_healthy nodeID claim delta parts drains s :
  lside_wf s -> (0 < delta)%Z ->
  exists drains' s', drain_secondary nodeID claim delta parts drains (mkConn s []) = (Ok drains', mkConn s' []) /\
    lside_wf s' /\ same_books s s' /\
    pile nodeID (nc_payload claim) s' = pile nodeID (nc_payload claim) s /\
    drains' !! nc_payload claim = drains !! nc_payload claim.
Proof.
  intros Hwf Hd. revert drains s Hwf. induction parts as [|part parts IH]; intros drains s Hwf; cbn.
  { exists drains, s. by split_and!. }
  destruct ((part =s "") || (part =s nc_payload claim)) eqn:Hskip; [by apply IH|].
  apply orb_false_iff in Hskip as [_ Hne%String.eqb_neq].
  destruct (Drain_healthy nodeID part delta s Hwf Hd) as (t & st & s1 & Hdr & [_ _ Hoth Hwf1 Hb1]).
  unfold sbind, slog. rewrite Hdr.
  destruct (IH (if (0 <? t)%Z then <[part:=(t, st)]> drains else drains) s1 Hwf1)
    as (drains' & s' & -> & Hwf' & Hb' & Hp' & Hl').
  exists drains', s'. split_and!; [done|done|by eapply same_books_trans| |].
  - rewrite Hp'. apply Hoth. congruence.
  - rewrite Hl'. destruct (0 <? t)%Z; [by rewrite lookup_insert_ne|done].
Qed.

Lemma drainLinesideFirst_healthy nodeID claim delta s :
  lside_wf s -> (0 < delta)%Z -> nc_payload claim <> "" ->
  exists drains t s',
    drainLinesideFirst nodeID claim delta (mkConn s []) = (Ok (drains, (delta - t)%Z), mkConn s' []) /\
    t = Z.min delta (pile nodeID (nc_payload claim) s) /\
    pile nodeID (nc_payload claim) s' = (pile nodeID (nc_payload claim) s - t)%Z /\
    lside_wf s' /\ same_books s s' /\
    drained_of (nc_payload claim) (map_to_list drains) = t.
Proof.
  intros Hwf Hd Hpay. unfold drainLinesideFirst. rewrite (proj2 (Z.leb_gt delta 0)) by done.
  rewrite (seqb_neq _ _ Hpay). cbn [negb].
  destruct (Drain_healthy nodeID (nc_payload claim) delta s Hwf Hd) as (t & st & s1 & Hdr & [Ht Hp1 _ Hwf1 Hb1]).
  unfold sbind at 1. unfold slog. rewrite Hdr.
  set (drains := if (0 <? t)%Z then <[nc_payload claim:=(t, st)]> ∅ else (∅ : gmap string (Z * Z))).
  destruct (drain_secondary_healthy nodeID claim delta (AllowedPayloads claim) drains s1 Hwf1 Hd)
    as (drains' & s' & Hs & Hwf' & Hb' & Hp' & Hl').
  unfold sbind. rewrite Hs. exists drains', t, s'. split_and!; try done.
  - by rewrite Hp'.
  - by eapply same_books_trans.
  - rewrite drained_of_map, Hl'. unfold drains. pose proof (pile_nonneg nodeID (nc_payload claim) s Hwf).
    destruct (Z.ltb_spec 0 t) as [Hlt|Hge].
    + rewrite lookup_insert_eq. by rewrite (proj2 (Z.ltb_lt 0 t)).
    + rewrite lookup_empty. lia.
Qed.

(** The runtime row after [input] units were charged or held. *)
Definition held (input sign : Z) (r : Runtime) : Runtime :=
  match rt_bin r with
  | Some _ => with_pending 0 (with_uop (rt_uop r + sign * (input + rt_pending r)) r)
  | None => with_pending (rt_pending r + input) r
  end.

(** What of it was charged to the bin [b]. *)
Definition charged (input : Z) (r : Runtime) (b : Z) : Z :=
  match rt_bin r with Some b' => if b' =i b then input + rt_pending r else 0 | None => 0 end.

Lemma set_runtime_lookup id f s r :
  es_runtime s !! id = Some r -> es_runtime (set_runtime id f s) !! id = Some (f r).
Proof. intros H. cbn. by rewrite lookup_alter_eq, H. Qed.

Lemma hold_healthy nodeID r input sign s :
  es_runtime s !! nodeID = Some r ->
  exists s', applyHoldAndReplay nodeID r input sign (mkConn s []) =
    (Ok (bool_decide (is_Some (rt_bin r)),
         match rt_bin r with Some _ => input + rt_pending r | None => input end,
         match rt_bin r with Some _ => rt_uop r + sign * (input + rt_pending r) | None => rt_uop r end)%Z,
     mkConn s' []) /\
    es_runtime s' !! nodeID = Some (held input sign r) /\
    (forall i, i <> nodeID -> es_runtime s' !! i = es_runtime s !! i) /\
    es_buckets s' = es_buckets s /\ es_next s' = es_next s /\ es_nodes s' = es_nodes s /\
    es_bins s' = es_bins s /\ es_lineside s' = es_lineside s.
Proof.
  intros Hr. unfold applyHoldAndReplay, held. destruct (rt_bin r) as [b|] eqn:Hb.
  - destruct (Z.eqb_spec (rt_pending r) 0) as [E|E]; cbn; eexists; split_and!; try done.
    + cbn. rewrite lookup_alter_eq, Hr. cbn. f_equal. unfold with_pending, with_uop. cbn. by rewrite E.
    + intros i Hi. cbn. by rewrite lookup_alter_ne.
    + cbn. by rewrite lookup_alter_eq, Hr.
    + intros i Hi. cbn. by rewrite lookup_alter_ne.
  - destruct (Z.eqb_spec input 0) as [->|E]; cbn; eexists; split_and!; try done.
    + rewrite Hr. f_equal. unfold with_pending. rewrite Z.add_0_r. by destruct r.
    + cbn. by rewrite lookup_alter_eq, Hr.
    + intros i Hi. cbn. by rewrite lookup_alter_ne.
Qed.

Record node_ok (nodeID : Z) (r : Runtime) (s : EdgeState) : Prop := {
  no_wf : lside_wf s;
  no_accs : accs_ok s;
  no_node : (0 < nodeID)%Z;
  no_runtime : es_runtime s !! nodeID = Some r;
  no_pending : (0 <= rt_pending r)%Z;
  no_bin : forall b, rt_bin r = Some b -> (0 < b)%Z }.

Lemma accs_ok_same s s' :
  es_bins s' = es_bins s -> es_lineside s' = es_lineside s -> es_nodes s' = es_nodes s -> accs_ok s -> accs_ok s'.
Proof. intros E1 E2 E4 (I1 & I2 & Q1 & Q2). unfold accs_ok, node_names. by rewrite E1, E2, E4. Qed.

Lemma bin_total_same b s s' : es_bins s' = es_bins s -> bin_total b s' = bin_total b s.
Proof. unfold bin_total. by intros ->. Qed.
Lemma part_total_same n p s s' : es_lineside s' = es_lineside s -> part_total n p s' = part_total n p s.
Proof. unfold part_total. by intros ->. Qed.
Lemma node_names_same s s' : es_nodes s' = es_nodes s -> node_names s' = node_names s.
Proof. unfold node_names. by intros ->. Qed.

(** Booking a tick's drains and its charge. *)
Lemma emit_books ev delta reason s :
  accs_ok s -> (0 < tk_node ev)%Z ->
  let s' := emit_bin ev delta reason (emit_drains ev s) in
  only_accs s s' /\
  (forall b, bin_total b s' = (bin_total b s +
    if (0 <? tk_remainder ev)%Z && (0 <? tk_bin ev)%Z && (tk_bin ev =i b) then delta else 0)%Z) /\
  forall part, part <> "" -> part_total (tk_node ev) part s' =
    (part_total (tk_node ev) part s - drained_of part (map_to_list (tk_drains ev)))%Z.
Proof.
  intros Hok Hn. cbv zeta.
  destruct (emit_drains_books ev (map_to_list (tk_drains ev)) s Hok Hn) as (A & B & C).
  fold (emit_drains ev s) in A, B, C. unfold emit_bin.
  destruct ((0 <? tk_remainder ev)%Z && (0 <? tk_bin ev)%Z) eqn:E.
  - apply andb_prop in E as [_ E].
    destruct (record_bin_books (tk_bin ev) (tk_payload ev) delta reason (tk_epoch ev) _ (oa_accs _ _ A Hok))
      as (A' & B' & C').
    split_and!; [by etrans| |].
    + intros b. rewrite C', (bin_total_same b _ _ B). rewrite E. by rewrite andb_true_r.
    + intros part Hp. rewrite (part_total_same _ _ _ _ B'). by apply C.
  - split_and!; [done| |done]. intros b. rewrite (bin_total_same b _ _ B). cbn. lia.
Qed.

(** What one tick of [delta] did at a node: [t] units came off the pile of
    lineside parts, the rest was charged to the bin or held. *)
Record ticked (nodeID : Z) (part : string) (delta t : Z) (r : Runtime) (s s' : EdgeState) : Prop := {
  ti_take : t = Z.min delta (pile nodeID part s);
  ti_pile : pile nodeID part s' = (pile nodeID part s - t)%Z;
  ti_part : part_total nodeID part s' = (part_total nodeID part s - t)%Z;
  ti_bin : forall b, bin_total b s' = (bin_total b s - charged (delta - t) r b)%Z;
  ti_ok : node_ok nodeID (held (delta - t) (-1) r) s' }.

Lemma held_ok input sign r :
  (0 <= input)%Z -> (0 <= rt_pending r)%Z ->
  (0 <= rt_pending (held input sign r))%Z /\ rt_bin (held input sign r) = rt_bin r.
Proof. intros. unfold held. destruct (rt_bin r) eqn:E; cbn; rewrite ?E; split; lia || done. Qed.

(** The steps a consume tick and an A/B fallthrough share. *)
Lemma tick_steps node r claim delta reason s :
  node_ok (pn_id node) r s -> (0 < delta)%Z -> nc_payload claim <> "" ->
  exists drains rem res s1 s2 t,
    drainLinesideFirst (pn_id node) claim delta (mkConn s []) = (Ok (drains, rem), mkConn s1 []) /\
    applyHoldAndReplay (pn_id node) r rem (-1) (mkConn s1 []) = (Ok res, mkConn s2 []) /\
    let ev := tick_event node r claim (pn_core node) drains res.1.2 in
    ticked (pn_id node) (nc_payload claim) delta t r s
      (emit_bin ev (- tk_remainder ev) reason (emit_drains ev s2)).
Proof.
  intros [Hwf Hacc Hn Hr Hpend Hbin] Hd Hpay.
  destruct (drainLinesideFirst_healthy (pn_id node) claim delta s Hwf Hd Hpay)
    as (drains & t & s1 & Hdr & Ht & Hp1 & Hwf1 & Hb1 & Hof).
  pose proof Hb1 as (Eb & El & Er & En).
  destruct (hold_healthy (pn_id node) r (delta - t) (-1) s1) as (s2 & Hh & Hr2 & _ & F1 & F2 & F3 & F4 & F5).
  { by rewrite Er. }
  exists drains, (delta - t)%Z. do 2 eexists. exists s2, t. split; [exact Hdr|]. split; [exact Hh|]. cbv zeta.
  cbn [fst snd]. set (att := match rt_bin r with Some _ => _ | None => _ end).
  set (ev := tick_event _ _ _ _ _ _).
  assert (Hev : tk_node ev = pn_id node /\ tk_drains ev = drains /\ tk_remainder ev = att /\
    tk_bin ev = from_option id 0%Z (rt_bin r)).
  { unfold ev, tick_event, binAtNode. by destruct (rt_bin r). }
  destruct Hev as (V1 & V2 & V3 & V4).
  assert (Hacc2 : accs_ok s2) by (apply (accs_ok_same s); congruence).
  destruct (emit_books ev (- tk_remainder ev) reason s2 Hacc2) as (A & B & C); [by rewrite V1|].
  rewrite V1, V2 in C. pose proof (pile_nonneg (pn_id node) (nc_payload claim) s Hwf).
  assert (Hin : (0 <= delta - t)%Z) by lia.
  destruct (held_ok (delta - t) (-1) r Hin Hpend) as [P1 P2].
  split; [done| | | |split].
  - rewrite (pile_same _ _ _ _ (oa_rows _ _ A)). by rewrite (pile_same _ _ _ _ F1).
  - rewrite C, Hof by done. rewrite (part_total_same _ _ s); congruence.
  - intros x. rewrite B, (bin_total_same x s), V3, V4 by congruence. unfold att, charged.
    destruct (rt_bin r) as [b|] eqn:Eb'; cbn [from_option id]; [|rewrite andb_false_r; cbn; lia].
    rewrite (proj2 (Z.ltb_lt 0 b)) by by apply Hbin. rewrite andb_true_r.
    destruct (Z.ltb_spec 0 (delta - t + rt_pending r)), (b =i x); cbn; lia.
  - eapply lside_wf_same; [apply A..|]. by eapply lside_wf_same; [| |exact Hwf1].
  - by apply A.
  - done.
  - rewrite (oa_runtime _ _ A). exact Hr2.
  - done.
  - by rewrite P2.
Qed.

Lemma consume_tick_healthy node r claim delta s :
  node_ok (pn_id node) r s -> (0 < delta)%Z -> nc_payload claim <> "" ->
  exists res s' t, consume_tick node r claim delta (mkConn s []) = (Ok res, mkConn s' []) /\
    ticked (pn_id node) (nc_payload claim) delta t r s s'.
Proof.
  intros Hok Hd Hpay.
  destruct (tick_steps node r claim delta ReasonConsumeTick s Hok Hd Hpay)
    as (drains & rem & [[bound att] u] & s1 & s2 & t & Hdr & Hh & Ht).
  unfold consume_tick, sbind. rewrite Hdr. cbn [fst snd]. rewrite Hh. cbn in *. do 3 eexists. split; [done|].
  exact Ht.
Qed.

Lemma fallthrough_healthy node r claim delta s :
  node_ok (pn_id node) r s -> (0 < delta)%Z -> nc_payload claim <> "" ->
  exists s' t, handleABFallthrough node r claim delta (mkConn s []) = (Ok (), mkConn s' []) /\
    ticked (pn_id node) (nc_payload claim) delta t r s s'.
Proof.
  intros Hok Hd Hpay.
  destruct (tick_steps node r claim delta ReasonABFallthrough s Hok Hd Hpay)
    as (drains & rem & [[bound att] u] & s1 & s2 & t & Hdr & Hh & Ht).
  unfold handleABFallthrough, sbind. rewrite Hdr. cbn [fst snd]. rewrite Hh. cbn in *. do 2 eexists.
  split; [done|]. exact Ht.
Qed.

Lemma produce_tick_healthy node r claim delta s :
  node_ok (pn_id node) r s -> (0 < delta)%Z ->
  exists res s', produce_tick node r claim delta (mkConn s []) = (Ok res, mkConn s' []) /\
    (forall b, bin_total b s' = (bin_total b s + charged delta r b)%Z) /\ es_lineside s' = es_lineside s /\
    es_buckets s' = es_buckets s /\ node_ok (pn_id node) (held delta 1 r) s'.
Proof.
  intros [Hwf Hacc Hn Hr Hpend Hbin] Hd.
  destruct (hold_healthy (pn_id node) r delta 1 s Hr) as (s2 & Hh & Hr2 & _ & F1 & F2 & F3 & F4 & F5).
  destruct (held_ok delta 1 r) as [P1 P2]; [lia|done|].
  assert (Hacc2 : accs_ok s2) by (apply (accs_ok_same s); congruence).
  unfold produce_tick, sbind. rewrite Hh. unfold charged. destruct (rt_bin r) as [b|] eqn:Eb.
  - assert (Hpos : (0 <? delta + rt_pending r)%Z = true) by (apply Z.ltb_lt; lia). rewrite Hpos.
    unfold Produced, remember, tick_event, binAtNode, emit_bin. rewrite Eb. cbn [db faults tk_remainder tk_bin].
    rewrite Hpos, (proj2 (Z.ltb_lt 0 b)) by by apply Hbin. cbn [andb tk_payload tk_epoch].
    destruct (record_bin_books b (nc_payload claim) (delta + rt_pending r) ReasonProduced (rt_epoch r) s2 Hacc2)
      as (A & B & C). rewrite (proj2 (Z.ltb_lt 0 b)) in C by by apply Hbin.
    do 2 eexists. split; [reflexivity|]. split_and!.
    + intros x. rewrite C, (bin_total_same x s), andb_true_r; [done|congruence].
    + congruence.
    + rewrite (oa_rows _ _ A). done.
    + split; [|by apply A|done|by rewrite (oa_runtime _ _ A)|done|by rewrite P2].
      eapply lside_wf_same; [apply A..|]. by eapply lside_wf_same; [| |exact Hwf].
  - rewrite (proj2 (Z.ltb_lt 0 delta)) by done.
    unfold Produced, remember, tick_event, binAtNode, emit_bin. rewrite Eb. cbn [db faults tk_remainder tk_bin].
    change (0 <? 0)%Z with false. rewrite andb_false_r. do 2 eexists. split; [reflexivity|].
    split_and!; [|done..|].
    + intros x. rewrite (bin_total_same x s); [lia|congruence].
    + split; [by eapply lside_wf_same; [| |exact Hwf]|done..|by rewrite P2].
Qed.

Lemma emit_drain_rows ev s pd : es_buckets (emit_drain ev s pd) = es_buckets s /\ es_next (emit_drain ev s pd) = es_next s.
Proof. destruct pd as [part [q st]]. unfold emit_drain. by destruct (0 <? q)%Z. Qed.

Lemma emit_drains_rows ev s : es_buckets (emit_drains ev s) = es_buckets s /\ es_next (emit_drains ev s) = es_next s.
Proof.
  unfold emit_drains. generalize (map_to_list (tk_drains ev)). intros l. revert s.
  induction l as [|pd l IH]; intros s; [done|]. cbn [foldl].
  destruct (IH (emit_drain ev s pd)) as [-> ->]. apply emit_drain_rows.
Qed.

Lemma emit_wf ev delta reason : evolves (keeps lside_wf)
  (remember (fun s => emit_bin ev delta reason (emit_drains ev s))).
Proof.
  apply evolves_remember. intros s Hwf. destruct (emit_drains_rows ev s) as [E1 E2].
  eapply lside_wf_same; [| |exact Hwf]; unfold emit_bin; by destruct (_ && _).
Qed.

Lemma Consumed_wf ev : evolves (keeps lside_wf) (Consumed ev).
Proof. apply emit_wf. Qed.
Lemma Fallthrough_wf ev : evolves (keeps lside_wf) (Fallthrough ev).
Proof. apply emit_wf. Qed.
Lemma Produced_wf ev : evolves (keeps lside_wf) (Produced ev).
Proof. apply evolves_remember. intros s Hwf. unfold emit_bin. destruct (_ && _); [by apply keeps_wf_accs|done]. Qed.

Lemma drain_secondary_wf n claim delta parts drains :
  evolves (keeps lside_wf) (drain_secondary n claim delta parts drains).
Proof.
  revert drains. induction parts as [|p parts IH]; intros drains; cbn [drain_secondary]; [evolve|].
  destruct (_ || _); [apply IH|]. apply evolves_bind; [typeclasses eauto| |intros ?; apply IH].
  apply evolves_log. eauto with edge_rows.
Qed.

Lemma drainLinesideFirst_wf n claim delta : evolves (keeps lside_wf) (drainLinesideFirst n claim delta).
Proof.
  unfold drainLinesideFirst. destruct (delta <=? 0)%Z; [evolve|].
  apply evolves_bind; [typeclasses eauto| |].
  - destruct (_ <>s _); [|evolve]. apply evolves_log. eauto with edge_rows.
  - intros pr. destruct (match pr with Some _ => _ | None => _ end) as [drains rem].
    apply evolves_bind; [typeclasses eauto|apply drain_secondary_wf|evolve].
Qed.

Lemma hold_wf n r input sign : evolves (keeps lside_wf) (applyHoldAndReplay n r input sign).
Proof.
  unfold applyHoldAndReplay, SetRuntimeUOPClearPending, UpdateRuntimeUOP, AddPendingUOPDelta.
  destruct (rt_bin r); evolve; eauto with edge_rows.
Qed.

#[export] Hint Resolve Consumed_wf Fallthrough_wf Produced_wf drain_secondary_wf drainLinesideFirst_wf hold_wf : edge_rows.

Lemma consume_tick_wf node r claim delta : evolves (keeps lside_wf) (consume_tick node r claim delta).
Proof. unfold consume_tick. evolve; eauto with edge_rows. Qed.
Lemma produce_tick_wf node r claim delta : evolves (keeps lside_wf) (produce_tick node r claim delta).
Proof. unfold produce_tick. evolve; eauto with edge_rows. Qed.
Lemma fallthrough_wf node r claim delta : evolves (keeps lside_wf) (handleABFallthrough node r claim delta).
Proof. unfold handleABFallthrough. evolve; eauto with edge_rows. Qed.

#[export] Hint Resolve consume_tick_wf produce_tick_wf fallthrough_wf : edge_rows.

Lemma findActiveClaim_wf node : evolves (keeps lside_wf) (findActiveClaim node).
Proof. unfold findActiveClaim, claim_by_node. evolve. Qed.

Lemma tick_nodes_wf ns cd handled fb : evolves (keeps lside_wf) (tick_nodes ns cd handled fb).
Proof.
  revert handled fb. induction ns as [|node ns IH]; intros handled fb; cbn [tick_nodes]; [evolve|].
  unfold GetRuntime. apply evolves_bind; [typeclasses eauto|evolve|]. intros r. destruct (mjoin r) as [rt|]; [|done].
  apply evolves_bind; [typeclasses eauto|apply findActiveClaim_wf|]. intros [claim|]; [|done].
  repeat (case_match; try apply IH).
  all: apply evolves_bind; [typeclasses eauto|eauto with edge_rows|intros ?; apply IH].
Qed.

Lemma handleCounterDelta_wf cd : evolves (keeps lside_wf) (handleCounterDelta cd).
Proof.
  unfold handleCounterDelta. do 2 (case_match; [evolve|]).
  apply evolves_bind; [typeclasses eauto|evolve|]. intros [ns|]; [|evolve].
  apply evolves_bind; [typeclasses eauto|apply tick_nodes_wf|]. intros [[] [[[node r] claim]|]]; [evolve..| |evolve].
  eauto with edge_rows.
Qed.

Lemma AdjustBucket_wf n core pair st part cur new reason :
  evolves (keeps lside_wf) (AdjustBucket n core pair st part cur new reason).
Proof.
  unfold AdjustBucket. evolve; eauto with edge_rows; apply evolves_remember; intros s; apply keeps_wf_accs.
Qed.

Lemma seed_rows core bs s :
  es_buckets (foldl (seed_bucket core) s bs) = es_buckets s /\ es_next (foldl (seed_bucket core) s bs) = es_next s.
Proof.
  revert s. induction bs as [|b bs IH]; intros s; [done|]. cbn [foldl]. destruct (IH (seed_bucket core s b)) as [-> ->].
  unfold seed_bucket. by destruct (_ <=? _)%Z.
Qed.

Lemma Backfill_wf force : evolves (keeps lside_wf) (Backfill force).
Proof.
  unfold Backfill. apply evolves_bind; [typeclasses eauto|evolve|]. intros ns.
  apply evolves_bind; [typeclasses eauto| |].
  - generalize 0%nat. induction ns as [|n ns IH]; intros k; cbn [backfill_nodes]; [evolve|].
    apply evolves_bind; [typeclasses eauto|unfold ListForNode; evolve|]. intros [bs|]; [|done].
    apply evolves_bind; [typeclasses eauto| |done]. apply evolves_remember. intros s Hwf.
    destruct (seed_rows (pn_core n) bs s) as [E1 E2]. by eapply lside_wf_same; [| |exact Hwf].
  - intros k. evolve. apply evolves_remember. intros s. apply keeps_wf_accs.
Qed.

Lemma capture_parts_wf ev parts total c :
  lside_wf (db c) -> lside_wf (db (capture_parts ev parts total c).2).
Proof.
  revert total c. induction parts as [|[p q] parts IH]; intros total c Hwf; cbn [capture_parts]; [done|].
  destruct (_ || _); [by apply IH|].
  pose proof (Capture_wf (ce_node ev) (ce_pair ev) (ce_style ev) p q c Hwf) as H1.
  destruct (Capture _ _ _ _ _ c) as [[r|e] c1]; cbn in H1; [|done]. apply IH. cbn. by apply keeps_wf_accs.
Qed.

Lemma CaptureToLineside_wf ev c : lside_wf (db c) -> lside_wf (db (CaptureToLineside ev c).2).
Proof.
  intros Hwf. unfold CaptureToLineside.
  set (x := match rd_mode (ce_disp ev) with DispositionCaptureLineside => _ | _ => _ end).
  assert (Hx : lside_wf (db x.2)) by (unfold x; destruct (rd_mode _); [by apply capture_parts_wf|done..]).
  destruct x as [[total [u|e]] c1]; cbn in Hx; [|done].
  pose proof (Deactivate_wf (ce_node ev) (ce_style ev) c1 Hx) as H1.
  destruct (DeactivateOtherStyles _ _ c1) as [[v|e] c2]; cbn in H1; [|done].
  cbn. destruct (_ && _); [by apply keeps_wf_accs|done].
Qed.

(** What a capture list takes of a part, and in all. *)
Definition captured (p : string) (parts : list (string * Z)) : Z :=
  foldr (fun pq acc => ((if (pq.1 =s p) && (0 <? pq.2)%Z then pq.2 else 0) + acc)%Z) 0%Z parts.
Definition captured_all (parts : list (string * Z)) : Z :=
  foldr (fun pq acc => ((if (0 <? pq.2)%Z && (pq.1 <>s "") then pq.2 else 0) + acc)%Z) 0%Z parts.

Lemma capture_parts_healthy ev parts total s :
  lside_wf s -> accs_ok s -> (0 < ce_node ev)%Z ->
  exists s', capture_parts ev parts total (mkConn s []) = ((total + captured_all parts)%Z, Ok (), mkConn s' []) /\
    lside_wf s' /\ accs_ok s' /\ es_bins s' = es_bins s /\ es_nodes s' = es_nodes s /\
    forall p, p <> "" -> stock (ce_node ev) p s' = (stock (ce_node ev) p s + captured p parts)%Z /\
      part_total (ce_node ev) p s' = (part_total (ce_node ev) p s + captured p parts)%Z.
Proof.
  intros Hwf Hacc Hn. revert total s Hwf Hacc.
  induction parts as [|[p q] parts IH]; intros total s Hwf Hacc; cbn [capture_parts].
  { exists s. cbn. rewrite Z.add_0_r. split_and!; try done. intros; lia. }
  cbn [captured_all foldr fst snd]. fold (captured_all parts).
  destruct ((q <=? 0)%Z || (p =s "")) eqn:Hskip.
  - destruct (IH total s Hwf Hacc) as (s' & -> & ? & ? & ? & ? & Hp). exists s'.
    assert (Hz : (if (0 <? q)%Z && (p <>s "") then q else 0%Z) = 0%Z).
    { apply orb_true_iff in Hskip as [Hq%Z.leb_le| ->]; [|by rewrite andb_false_r].
      by rewrite (proj2 (Z.ltb_ge 0 q)). }
    rewrite Hz, Z.add_0_l. split_and!; try done. intros x Hx. destruct (Hp x Hx) as [-> ->].
    cbn [captured foldr fst snd]. fold (captured x parts).
    enough ((if (p =s x) && (0 <? q)%Z then q else 0%Z) = 0%Z) as -> by lia.
    destruct (eqb_spec_s p x) as [->|]; [|done]. cbn.
    apply orb_true_iff in Hskip as [Hq%Z.leb_le|E%String.eqb_eq]; [|done]. by rewrite (proj2 (Z.ltb_ge 0 q)).
  - apply orb_false_iff in Hskip as [Hq%Z.leb_gt Hpe%String.eqb_neq].
    destruct (Capture_healthy (ce_node ev) (ce_pair ev) (ce_style ev) p q s Hwf Hq)
      as (b & s1 & -> & Hwf1 & (B1 & B2 & B3 & B4) & Hst).
    cbn [remember snd db faults].
    assert (Hacc1 : accs_ok s1) by by apply (accs_ok_same s).
    destruct (record_bucket_books (ce_node ev) (ce_core ev) (ce_pair ev) (ce_style ev) p (ce_payload ev) q
      ReasonCaptureFill s1 Hacc1) as (A & Eb & _ & Hpt).
    destruct (IH (total + q)%Z _ (lside_wf_same _ _ (oa_rows _ _ A) (oa_next _ _ A) Hwf1) (oa_accs _ _ A Hacc1))
      as (s' & -> & ? & ? & Hb' & Hn' & Hp). exists s'.
    rewrite (proj2 (Z.ltb_lt 0 q) Hq), (seqb_neq p "" Hpe). cbn [andb negb].
    split_and!; [f_equal; f_equal; lia|done|done|congruence|rewrite Hn', (oa_nodes _ _ A); done|].
    intros x Hx. destruct (Hp x Hx) as [-> ->]. cbn [captured foldr fst snd]. fold (captured x parts).
    rewrite Hpt. unfold stock. rewrite (oa_rows _ _ A). fold (stock (ce_node ev) x s1). rewrite Hst.
    rewrite (part_total_same _ _ s s1 B2). unfold parts_at.
    rewrite Z.eqb_refl, (proj2 (Z.ltb_lt 0 q) Hq), (proj2 (Z.ltb_lt 0 (ce_node ev)) Hn), (seqb_neq p "" Hpe).
    fold (stock (ce_node ev) x s). cbn [andb negb]. rewrite andb_true_r. destruct (p =s x); cbn; lia.
Qed.

(** ** A line position over time *)

(** What happens at one position: a tick of the line's counter, a bin bound by
    a report, delivered, loaded by hand, taken away, and a flush of the
    counts. *)
Inductive NodeEvent :=
| NTick (delta : Z)
| NBind (binID epoch : Z)
| NDelivered (claimID : option Z) (binID epoch uop : Z)
| NLoaded (claimID : option Z) (binID epoch uop : Z)
| NCleared
| NReset (claimID : option Z)
| NFlushed.

Definition node_tick (node : PNode) (claim : NodeClaim) (delta : Z) : EdgeSQL unit :=
  r <-- slog (GetRuntime (pn_id node)) ;;
  match mjoin r with
  | None => sret ()
  | Some runtime =>
      (if nc_role claim =s "produce" then produce_tick node runtime claim delta
       else consume_tick node runtime claim delta) ;;; sret ()
  end.

Definition node_event (node : PNode) (claim : NodeClaim) (e : NodeEvent) : EdgeSQL unit :=
  match e with
  | NTick delta => node_tick node claim delta
  | NBind b ep => BindActiveBin (pn_id node) b ep
  | NDelivered cl b ep u => OnDelivered (pn_id node) cl b ep u
  | NLoaded cl b ep u => ManualLoad (pn_id node) cl (Some b) ep u
  | NCleared => ClearActiveBin (pn_id node)
  | NReset cl => ClearActiveAndReset (pn_id node) cl
  | NFlushed => remember flush_accs
  end.

Fixpoint run_events (node : PNode) (claim : NodeClaim) (evs : list NodeEvent) : EdgeSQL unit :=
  match evs with
  | [] => sret ()
  | e :: rest => node_event node claim e ;;; run_events node claim rest
  end.

(** The promise: a position has at most one bin, a rack of loose parts, a tally
    of units no bin has taken yet, the count shown to the operator, and the
    net units charged to each bin and to the rack. *)
Record Slot := mkSlot {
  sl_bin : option Z; sl_held : Z; sl_shown : Z; sl_rack : Z; sl_rack_books : Z; sl_books : Z -> Z }.

Definition charge (b d : Z) (f : Z -> Z) : Z -> Z := fun x => (f x + if b =i x then d else 0)%Z.

(** [units] go to the bin that is there, after whatever was held; [sign] is +1
    when the line fills bins. *)
Definition slot_charge (sign units : Z) (a : Slot) : Slot :=
  match sl_bin a with
  | Some b => let u := (sign * (units + sl_held a))%Z in
      mkSlot (Some b) 0 (sl_shown a + u) (sl_rack a) (sl_rack_books a) (charge b u (sl_books a))
  | None => mkSlot None (sl_held a + units) (sl_shown a) (sl_rack a) (sl_rack_books a) (sl_books a)
  end.

Definition slot_take (t : Z) (a : Slot) : Slot :=
  mkSlot (sl_bin a) (sl_held a) (sl_shown a) (sl_rack a - t) (sl_rack_books a - t) (sl_books a).
Definition slot_put (b : option Z) (shown : Z) (a : Slot) : Slot :=
  mkSlot b (sl_held a) shown (sl_rack a) (sl_rack_books a) (sl_books a).

Definition slot_event (fills : bool) (a : Slot) (e : NodeEvent) : Slot :=
  match e with
  | NTick delta =>
      if fills then slot_charge 1 delta a
      else let t := Z.min delta (sl_rack a) in slot_charge (-1) (delta - t) (slot_take t a)
  | NBind b _ => slot_put (Some b) (sl_shown a) a
  | NDelivered _ b _ u | NLoaded _ b _ u => slot_put (Some b) u a
  | NCleared => slot_put None (sl_shown a) a
  | NReset _ => slot_put None 0 a
  | NFlushed => a
  end.

(** Ticks count forwards and bins have ids. *)
Definition event_ok (e : NodeEvent) : bool :=
  match e with
  | NTick delta => (0 <? delta)%Z
  | NBind b _ | NDelivered _ b _ _ | NLoaded _ b _ _ => (0 <? b)%Z
  | _ => true
  end.

(** The state shows the slot [a] at [nodeID] for the parts [part]. *)
Definition shows (nodeID : Z) (part : string) (s : EdgeState) (a : Slot) : Prop :=
  exists r, node_ok nodeID r s /\ rt_bin r = sl_bin a /\ rt_pending r = sl_held a /\ rt_uop r = sl_shown a /\
    pile nodeID part s = sl_rack a /\ part_total nodeID part s = sl_rack_books a /\
    forall b, bin_total b s = sl_books a b.

Lemma shows_consume node claim delta s a r :
  node_ok (pn_id node) r s -> (0 < delta)%Z -> nc_payload claim <> "" ->
  shows (pn_id node) (nc_payload claim) s a -> es_runtime s !! pn_id node = Some r ->
  exists res s', consume_tick node r claim delta (mkConn s []) = (Ok res, mkConn s' []) /\
    shows (pn_id node) (nc_payload claim) s' (slot_event false a (NTick delta)).
Proof.
  intros Hok Hd Hpay (r' & Hok' & E1 & E2 & E3 & E4 & E5 & E6) Hr.
  assert (r' = r) as -> by (pose proof (no_runtime _ _ _ Hok'); congruence).
  destruct (consume_tick_healthy node r claim delta s Hok Hd Hpay) as (res & s' & t & H & [T1 T2 T3 T4 T5]).
  exists res, s'. split; [done|]. exists (held (delta - t) (-1) r). split; [done|].
  unfold slot_event, slot_charge, slot_take, held, charged in *. cbn [sl_bin sl_held sl_rack]. cbv zeta.
  rewrite <- E4, <- T1, <- E1. destruct (rt_bin r) as [b|] eqn:Eb; cbn; split_and!; try done; try lia.
  - intros x. rewrite T4, E6. unfold charge. rewrite E2. destruct (b =i x); lia.
  - intros x. rewrite T4, E6. lia.
Qed.

Lemma shows_produce node claim delta s a r :
  node_ok (pn_id node) r s -> (0 < delta)%Z ->
  shows (pn_id node) (nc_payload claim) s a -> es_runtime s !! pn_id node = Some r ->
  exists res s', produce_tick node r claim delta (mkConn s []) = (Ok res, mkConn s' []) /\
    shows (pn_id node) (nc_payload claim) s' (slot_event true a (NTick delta)).
Proof.
  intros Hok Hd (r' & Hok' & E1 & E2 & E3 & E4 & E5 & E6) Hr.
  assert (r' = r) as -> by (pose proof (no_runtime _ _ _ Hok'); congruence).
  destruct (produce_tick_healthy node r claim delta s Hok Hd) as (res & s' & H & T1 & T2 & T3 & T4).
  exists res, s'. split; [done|]. exists (held delta 1 r). split; [done|].
  rewrite (pile_same _ _ _ _ T3), (part_total_same _ _ _ _ T2).
  unfold slot_event, slot_charge, held, charged in *. rewrite <- E1.
  destruct (rt_bin r) as [b|] eqn:Eb; cbn; rewrite ?Eb; split_and!; try done; try lia.
  - intros x. rewrite T1, E6. unfold charge. rewrite E2. destruct (b =i x); lia.
  - intros x. rewrite T1, E6. lia.
Qed.

(** A write to the runtime row that leaves the held units alone. *)
Lemma shows_write nodeID part f s a b u :
  (forall r, rt_pending (f r) = rt_pending r) -> (forall r, rt_bin (f r) = b) ->
  (forall r, rt_uop r = sl_shown a -> rt_uop (f r) = u) -> (forall x, b = Some x -> (0 < x)%Z) ->
  shows nodeID part s a -> shows nodeID part (set_runtime nodeID f s) (slot_put b u a).
Proof.
  intros H1 H2 H3 Hb (r & [N1 N2 N3 N4 N5 N6] & E1 & E2 & E3 & E4 & E5 & E6). exists (f r). split.
  - split; [by eapply lside_wf_same; [| |exact N1]|exact N2|done|by apply set_runtime_lookup|by rewrite H1|].
    intros x. rewrite H2. apply Hb.
  - split_and!; cbn; [done|by rewrite H1|auto|done..].
Qed.

Lemma flush_accs_ok s :
  accs_ok s -> accs_ok (flush_accs s) /\ recorded (es_bins (flush_accs s)) = recorded (es_bins s) /\
  recorded (es_lineside (flush_accs s)) = recorded (es_lineside s).
Proof.
  intros (I1 & I2 & Q1 & Q2).
  destruct (flush_run binScope (es_bins s) I1 Q1) as (R1 & F1 & _ & C1 & _).
  destruct (flush_run (bucketScope (node_names s)) (es_lineside s) I2 Q2) as (R2 & F2 & _ & C2 & _).
  split; [|done]. split_and!; [by apply (rtc_inv binScope (es_bins s))| |done..].
  by apply (rtc_inv (bucketScope (node_names s)) (es_lineside s)).
Qed.

Lemma shows_flush nodeID part s a : shows nodeID part s a -> shows nodeID part (flush_accs s) a.
Proof.
  intros (r & [N1 N2 N3 N4 N5 N6] & E1 & E2 & E3 & E4 & E5 & E6).
  destruct (flush_accs_ok s N2) as (A & B & C). exists r.
  split; [split; [by eapply lside_wf_same; [| |exact N1]|done..]|].
  split_and!; [done..|unfold part_total in *; by rewrite C|]. intros b. rewrite <- E6. unfold bin_total. by rewrite B.
Qed.

Lemma node_event_refines node claim e s a :
  nc_payload claim <> "" -> event_ok e = true -> shows (pn_id node) (nc_payload claim) s a ->
  exists s', node_event node claim e (mkConn s []) = (Ok (), mkConn s' []) /\
    shows (pn_id node) (nc_payload claim) s' (slot_event (nc_role claim =s "produce") a e).
Proof.
  intros Hpay He Hs. destruct e; cbn [event_ok] in He; try apply Z.ltb_lt in He; cbn [node_event].
  - pose proof Hs as (r & Hok & _). pose proof (no_runtime _ _ _ Hok) as Hr.
    unfold node_tick, GetRuntime, query, slog, sbind. cbn. rewrite Hr. cbn.
    destruct (nc_role claim =s "produce").
    + destruct (shows_produce node claim delta s a r Hok He Hs Hr) as (res & s' & -> & H). by exists s'.
    + destruct (shows_consume node claim delta s a r Hok He Hpay Hs Hr) as (res & s' & -> & H). by exists s'.
  - eexists. split; [reflexivity|]. apply shows_write; try done. by intros x [= <-].
  - eexists. split; [reflexivity|]. apply shows_write; try done. by intros x [= <-].
  - eexists. split; [reflexivity|]. apply shows_write; try done. by intros x [= <-].
  - eexists. split; [reflexivity|]. by apply shows_write.
  - eexists. split; [reflexivity|]. by apply shows_write.
  - eexists. split; [reflexivity|]. by apply shows_flush.
Qed.

Lemma run_events_refines node claim evs s a :
  nc_payload claim <> "" -> forallb event_ok evs = true -> shows (pn_id node) (nc_payload claim) s a ->
  exists s', run_events node claim evs (mkConn s []) = (Ok (), mkConn s' []) /\
    shows (pn_id node) (nc_payload claim) s' (foldl (slot_event (nc_role claim =s "produce")) a evs).
Proof.
  intros Hpay. revert s a. induction evs as [|e evs IH]; intros s a; cbn [forallb run_events foldl].
  { intros _ H. by exists s. }
  intros [He Hevs]%andb_prop Hs. destruct (node_event_refines node claim e s a Hpay He Hs) as (s1 & H1 & Hs1).
  unfold sbind. rewrite H1. by apply IH.
Qed.

(** ** Units *)

Definition sum_over (bins : list Z) (f : Z -> Z) : Z := foldr (fun b acc => (f b + acc)%Z) 0%Z bins.

Definition event_bin (e : NodeEvent) : option Z :=
  match e with NBind b _ | NDelivered _ b _ _ | NLoaded _ b _ _ => Some b | _ => None end.

Definition event_units (e : NodeEvent) : Z := match e with NTick d => d | _ => 0 end.

Definition ticks (evs : list NodeEvent) : Z := foldr (fun e acc => (event_units e + acc)%Z) 0%Z evs.

(** +1 where the line fills bins, -1 where it empties them. *)
Definition direction (fills : bool) : Z := if fills then 1 else -1.

Definition slot_units (fills : bool) (bins : list Z) (a : Slot) : Z :=
  (sum_over bins (sl_books a) + sl_rack_books a + direction fills * sl_held a)%Z.

Lemma sum_over_ext bins f g : (forall b, f b = g b) -> sum_over bins f = sum_over bins g.
Proof. intros H. induction bins as [|b bins IH]; cbn; [done|]. rewrite H. unfold sum_over in IH. lia. Qed.

Lemma sum_charge bins b d f :
  NoDup bins -> b ∈ bins -> sum_over bins (charge b d f) = (sum_over bins f + d)%Z.
Proof.
  assert (Hno : forall l, b ∉ l -> sum_over l (charge b d f) = sum_over l f).
  { induction l as [|x l IH]; cbn; [done|]. intros H. fold (sum_over l (charge b d f)) (sum_over l f).
    rewrite IH by set_solver. unfold charge. destruct (Z.eqb_spec b x); [set_solver|lia]. }
  induction bins as [|x bins IH]; [set_solver|]. intros [Hx Hnd]%NoDup_cons Hb. cbn.
  fold (sum_over bins (charge b d f)) (sum_over bins f). apply elem_of_cons in Hb as [->|Hb].
  - rewrite Hno by done. unfold charge at 1. rewrite Z.eqb_refl. lia.
  - rewrite IH by done. unfold charge at 1. destruct (Z.eqb_spec b x) as [->|]; [done|lia].
Qed.

Lemma slot_event_units fills (bins : list Z) a e :
  NoDup bins -> (forall b, sl_bin a = Some b -> b ∈ bins) ->
  slot_units fills bins (slot_event fills a e) =
    (slot_units fills bins a + direction fills * event_units e)%Z.
Proof.
  intros Hnd Hb. destruct e as [d| | | | | |]; cbn [slot_event event_units]; unfold slot_units; cbn; try lia.
  destruct fills; unfold slot_charge; cbn [sl_bin slot_take]; destruct (sl_bin a) as [b|]; cbn; try lia;
    rewrite sum_charge by auto; lia.
Qed.

Lemma slot_event_bin fills (bins : list Z) a e :
  (forall b, sl_bin a = Some b -> b ∈ bins) -> (forall b, event_bin e = Some b -> b ∈ bins) ->
  forall b, sl_bin (slot_event fills a e) = Some b -> b ∈ bins.
Proof.
  intros Ha He b. destruct e; cbn; try done; try apply He. destruct fills; unfold slot_charge; cbn.
  all: destruct (sl_bin a); cbn; auto.
Qed.

Lemma slot_run_units fills (bins : list Z) evs a :
  NoDup bins -> (forall b, sl_bin a = Some b -> b ∈ bins) ->
  (forall e b, e ∈ evs -> event_bin e = Some b -> b ∈ bins) ->
  let a' := foldl (slot_event fills) a evs in
  slot_units fills bins a' = (slot_units fills bins a + direction fills * ticks evs)%Z /\
  (sl_rack a' - sl_rack_books a' = sl_rack a - sl_rack_books a)%Z.
Proof.
  intros Hnd. revert a. induction evs as [|e evs IH]; intros a Ha He; cbn; [lia|].
  fold (ticks evs). destruct (IH (slot_event fills a e)) as [IH1 IH2].
  - apply slot_event_bin; [done|]. intros b. apply He. set_solver.
  - intros e' b He'. apply He. set_solver.
  - rewrite IH1, IH2, slot_event_units by done. split; [lia|].
    destruct e; cbn; try done. destruct fills; unfold slot_charge; cbn; destruct (sl_bin a); cbn; lia.
Qed.

(** ** Claims *)

(** C2. The Edge's counting implements the position it stands for.  Run any
    sequence of counter ticks, bindings, deliveries, hand loads, departures and
    flushes, under a claim that names a payload, at a node whose store answers: the
    runtime row, the rack's pile of the payload's own part and the booked counts are exactly those of the abstract slot, in which
    a tick takes loose parts first, charges the rest to the bin that is there
    together with everything held while the slot was empty, and is held whole
    when no bin is there. *)
Theorem counting_refines_slot node claim evs s a :
  nc_payload claim <> "" -> forallb event_ok evs = true -> shows (pn_id node) (nc_payload claim) s a ->
  exists s', run_events node claim evs (mkConn s []) = (Ok (), mkConn s' []) /\
    shows (pn_id node) (nc_payload claim) s' (foldl (slot_event (nc_role claim =s "produce")) a evs).
Proof. apply run_events_refines. Qed.

(** C9. While the store answers every tick is counted exactly once.  Take a claim
    that names a payload, and any sequence of ticks (of a positive number of units),
    bin changes (to bins with positive ids) and flushes at a node, in which no
    statement of the store fails - after a failed write a tick can be charged twice
    ([lost_clear_counts_twice]).  Then what is booked to the bins that stood there,
    plus what is booked to the rack's pile of the payload's own part, plus what is
    still held for the next bin, moves by exactly the number of units the line's
    counter reported: no unit is lost in the gap between two bins and none is
    charged to two of them.  The pile's rows and the counts reported for it stay
    equally far apart. *)
Theorem ticks_counted_once node claim evs bins s r :
  node_ok (pn_id node) r s -> nc_payload claim <> "" -> forallb event_ok evs = true -> NoDup bins ->
  (forall b, rt_bin r = Some b -> b ∈ bins) -> (forall e b, e ∈ evs -> event_bin e = Some b -> b ∈ bins) ->
  let part := nc_payload claim in
  let dir := direction (nc_role claim =s "produce") in
  let units r s := (sum_over bins (fun b => bin_total b s) + part_total (pn_id node) part s
                    + dir * rt_pending r)%Z in
  exists s' r', run_events node claim evs (mkConn s []) = (Ok (), mkConn s' []) /\
    es_runtime s' !! pn_id node = Some r' /\
    units r' s' = (units r s + dir * ticks evs)%Z /\
    (pile (pn_id node) part s' - part_total (pn_id node) part s' =
     pile (pn_id node) part s - part_total (pn_id node) part s)%Z.
Proof.
  intros Hok Hpay Hevs Hnd Hb He part dir units.
  set (a := mkSlot (rt_bin r) (rt_pending r) (rt_uop r) (pile (pn_id node) part s) (part_total (pn_id node) part s)
    (fun b => bin_total b s)).
  assert (Ha : shows (pn_id node) part s a) by (exists r; by split_and!).
  destruct (run_events_refines node claim evs s a Hpay Hevs Ha) as (s' & Hrun & r' & Hok' & E1 & E2 & E3 & E4 & E5 & E6).
  destruct (slot_run_units (nc_role claim =s "produce") bins evs a Hnd Hb He) as [U1 U2].
  exists s', r'. split; [done|]. split; [by apply Hok'|]. unfold units, part in *. unfold slot_units in U1.
  rewrite E4, E5, E2, (sum_over_ext bins _ _ E6). cbn [a sl_books sl_rack_books sl_held sl_rack] in *. lia.
Qed.

Lemma captured_map p (m : gmap string Z) :
  captured p (map_to_list m) = Z.max 0 (default 0%Z (m !! p)).
Proof.
  assert (H : forall l : list (string * Z), NoDup l.*1 ->
    captured p l = Z.max 0 (default 0%Z ((list_to_map l : gmap string Z) !! p))).
  { induction l as [|[x q] l IH]; cbn; [done|]. intros [Hx Hnd]%NoDup_cons. fold (captured p l). rewrite IH by done.
    destruct (eqb_spec_s x p) as [->|Hne]; cbn.
    - rewrite lookup_insert_eq, not_elem_of_list_to_map_1 by done. cbn. destruct (Z.ltb_spec 0 q); lia.
    - by rewrite lookup_insert_ne. }
  rewrite H by apply NoDup_fst_map_to_list. by rewrite list_to_map_to_list.
Qed.

(** What an operator takes off a bin is put on the rack, no more and no less.
    When a release captures parts to lineside on a store that answers, each
    part's stock and the counts booked to its buckets rise by the quantity
    entered for it, the bin loses exactly their sum (unless its count must not
    be touched), and no other bin is charged. *)
Theorem capture_conserves ev s :
  lside_wf s -> accs_ok s -> (0 < ce_node ev)%Z -> rd_mode (ce_disp ev) = DispositionCaptureLineside ->
  let taken := rd_capture (ce_disp ev) in
  let total := captured_all (map_to_list taken) in
  exists s', CaptureToLineside ev (mkConn s []) = (total, Ok (), mkConn s' []) /\
    (forall p, p <> "" -> let q := Z.max 0 (default 0%Z (taken !! p)) in
      stock (ce_node ev) p s' = (stock (ce_node ev) p s + q)%Z /\
      part_total (ce_node ev) p s' = (part_total (ce_node ev) p s + q)%Z) /\
    (forall b, bin_total b s' = (bin_total b s -
      if (ce_bin ev =i b) && (0 <? b)%Z && negb (ce_suppress ev) then total else 0)%Z).
Proof.
  intros Hwf Hacc Hn Hmode taken total. unfold CaptureToLineside. rewrite Hmode.  fold taken.
  destruct (capture_parts_healthy ev (map_to_list taken) 0 s Hwf Hacc Hn)
    as (s1 & -> & Hwf1 & Hacc1 & Hb1 & Hn1 & Hp1). fold total. rewrite Z.add_0_l.
  destruct (Deactivate_healthy (ce_node ev) (ce_style ev) s1 Hwf1) as (s2 & -> & Hwf2 & (B1 & B2 & B3 & B4) & Hst2).
  assert (Hacc2 : accs_ok s2) by by apply (accs_ok_same s1).
  assert (Ht : (0 <= total)%Z).
  { unfold total, captured_all. clear. induction (map_to_list taken) as [|[p q] l IH]; cbn; [done|].
    destruct (Z.ltb_spec 0 q), (p <>s ""); cbn; lia. }
  assert (Hparts : forall p s3, p <> "" -> es_buckets s3 = es_buckets s2 -> es_lineside s3 = es_lineside s2 ->
    let q := Z.max 0 (default 0%Z (taken !! p)) in
    stock (ce_node ev) p s3 = (stock (ce_node ev) p s + q)%Z /\
    part_total (ce_node ev) p s3 = (part_total (ce_node ev) p s + q)%Z).
  { intros p s3 Hp E1 E2. cbv zeta. rewrite <- captured_map. destruct (Hp1 p Hp) as [P1 P2].
    rewrite (part_total_same _ _ s1) by congruence. unfold stock. rewrite E1. fold (stock (ce_node ev) p s2).
    rewrite Hst2. by split. }
  destruct ((0 <? total)%Z && negb (ce_suppress ev) && (0 <? ce_bin ev)%Z) eqn:E; cbn [remember snd db faults].
  - destruct (record_bin_books (ce_bin ev) (ce_payload ev) (- total) ReasonCaptured (ce_epoch ev) s2 Hacc2)
      as (A & Bl & C). eexists. split; [reflexivity|]. split.
    + intros p Hp. apply Hparts; [done|by apply A|done].
    + intros b. apply andb_prop in E as [[E1 E2]%andb_prop E3].
      rewrite C, (bin_total_same b s), E2, E3, !andb_true_r by congruence.
      destruct (Z.eqb_spec (ce_bin ev) b) as [<-|]; cbn; [rewrite E3; lia|lia].
  - exists s2. split; [done|]. split; [intros p Hp; by apply Hparts|]. intros b.
    rewrite (bin_total_same b s) by congruence.
    destruct (Z.eqb_spec (ce_bin ev) b) as [<-|]; cbn [andb]; [|lia].
    destruct (0 <? ce_bin ev)%Z, (negb (ce_suppress ev)), (Z.ltb_spec 0 total); cbn in *; try done; lia.
Qed.

Lemma capture_parts_books ev parts total c :
  (0 < ce_node ev)%Z -> accs_ok (db c) ->
  let '(total', _, c') := capture_parts ev parts total c in
  es_bins (db c') = es_bins (db c) /\ accs_ok (db c') /\
  (bucket_total (db c') - bucket_total (db c) = total' - total)%Z.
Proof.
  intros Hn. apply Z.ltb_lt in Hn. revert total c.
  induction parts as [|[p q] parts IH]; intros total c Hacc; cbn [capture_parts]; [lia || (split_and!; [done..|lia])|].
  destruct ((q <=? 0)%Z || (p =s "")) eqn:Hskip; [by apply IH|].
  apply orb_false_iff in Hskip as [Hq Hpe%String.eqb_neq].
  pose proof (Capture_books (ce_node ev) (ce_pair ev) (ce_style ev) p q c) as (B1 & B2 & B3 & B4).
  destruct (Capture _ _ _ _ _ c) as [[r|e] c1]; cbn in B1, B2, B3, B4.
  - cbn [remember snd]. assert (Hacc1 : accs_ok (db c1)) by by apply (accs_ok_same (db c)).
    destruct (record_bucket_books (ce_node ev) (ce_core ev) (ce_pair ev) (ce_style ev) p (ce_payload ev) q
      ReasonCaptureFill (db c1) Hacc1) as (A & Eb & Hbt & _).
    rewrite Hn, (seqb_neq p "" Hpe) in Hbt. cbn [andb negb] in Hbt.
    specialize (IH (total + q)%Z (mkConn (record_bucket (ce_node ev) (ce_core ev) (ce_pair ev) (ce_style ev) p
      (ce_payload ev) q ReasonCaptureFill (db c1)) (faults c1)) (oa_accs _ _ A Hacc1)).
    destruct (capture_parts _ _ _ _) as [[total' r'] c']. destruct IH as (I1 & I2 & I3). cbn [db] in *.
    split_and!; [congruence|done|]. assert (bucket_total (db c1) = bucket_total (db c)) by (unfold bucket_total; by rewrite B2).
    lia.
  - split_and!; [done|by apply (accs_ok_same (db c))|]. unfold bucket_total. rewrite B2. lia.
Qed.

(** A capture that fails is half booked.  When any statement of a capture
    fails, the parts already written have been booked to the rack's buckets and
    stay booked, while the bin has not been charged for any of them: the books
    then show exactly the returned total more than there is. *)
Theorem failed_capture_half_booked ev c total e c' :
  (0 < ce_node ev)%Z -> accs_ok (db c) -> CaptureToLineside ev c = (total, Err e, c') ->
  bucket_total (db c') = (bucket_total (db c) + total)%Z /\ forall b, bin_total b (db c') = bin_total b (db c).
Proof.
  intros Hn Hacc. unfold CaptureToLineside.
  set (x := match rd_mode (ce_disp ev) with DispositionCaptureLineside => _ | _ => _ end).
  assert (Hx : let '(t, _, c1) := x in es_bins (db c1) = es_bins (db c) /\
    (bucket_total (db c1) - bucket_total (db c) = t)%Z).
  { unfold x. destruct (rd_mode _); [|split; [done|lia]..].
    pose proof (capture_parts_books ev (map_to_list (rd_capture (ce_disp ev))) 0 c Hn Hacc) as H.
    destruct (capture_parts _ _ _ _) as [[t r] c1]. destruct H as (H1 & _ & H3). split; [done|lia]. }
  destruct x as [[t [u|e1]] c1]; destruct Hx as [Hb Hbt].
  - assert (Hd : evolves same_books (DeactivateOtherStyles (ce_node ev) (ce_style ev))).
    { unfold DeactivateOtherStyles. by evolve. }
    specialize (Hd c1). destruct (DeactivateOtherStyles _ _ c1) as [[v|e1] c2]; intros H; simplify_eq.
    destruct Hd as (D1 & D2 & _). cbn in D1, D2. split; [|intros b; apply bin_total_same; congruence].
    assert (bucket_total (db c') = bucket_total (db c1)) by (unfold bucket_total; by rewrite D2). lia.
  - intros H; simplify_eq. split; [lia|]. intros b. by apply bin_total_same.
Qed.

(** ** Everything that writes lineside rows *)

Inductive EdgeOp :=
| OpTick (cd : CounterDelta)
| OpCapture (ev : CaptureEvent)
| OpAdjust (n : Z) (core pair : string) (st : Z) (part : string) (cur new : Z) (reason : string)
| OpBackfill (force : bool)
| OpClock (d : Z).

Definition edge_op (c : Conn EdgeState) (o : EdgeOp) : Conn EdgeState :=
  match o with
  | OpTick cd => (handleCounterDelta cd c).2
  | OpCapture ev => (CaptureToLineside ev c).2
  | OpAdjust n core pk st part cur new reason => (AdjustBucket n core pk st part cur new reason c).2
  | OpBackfill force => (Backfill force c).2
  | OpClock d => mkConn (let s := db c in mkES (es_buckets s) (es_next s) (es_runtime s) (es_nodes s)
      (es_processes s) (es_claims s) (es_now s + d) (es_bins s) (es_lineside s)) (faults c)
  end.

(** C10. The rack never splits or empties a pile in the table.  From an empty
    bucket table, after any sequence of ticks, captures, corrections and
    backfills with any driver failures and any movement of the clock: row ids
    are unique, every row holds at least one part, and a part at a node has at
    most one active row. *)
Theorem lineside_rows_well_formed ops s fs :
  es_buckets s = [] -> lside_wf (db (foldl edge_op (mkConn s fs) ops)).
Proof.
  intros Hs. assert (H0 : lside_wf (db (mkConn s fs))).
  { split; cbn; rewrite Hs; [by constructor..| |by constructor]. set_solver. }
  revert H0. generalize (mkConn s fs). induction ops as [|o ops IH]; intros c Hwf; [done|]. cbn [foldl].
  apply IH. destruct o; cbn [edge_op].
  - by apply handleCounterDelta_wf.
  - by apply CaptureToLineside_wf.
  - by apply AdjustBucket_wf.
  - by apply Backfill_wf.
  - by eapply lside_wf_same; [| |exact Hwf].
Qed.

(** ** A line at work *)

Definition demo_node : PNode := mkPNode 5 1 "L1".
Definition demo_claim : NodeClaim := mkClaim 1 3 "consume" "" "" "P" [].
Definition demo_rt : Runtime := mkRT (Some 1%Z) (Some 7%Z) 2 100 0 true.
Definition demo_edge : EdgeState :=
  mkES [mkLB 1 5 "" 3 "P" 4 true 0] 2 {[ 5%Z := demo_rt ]} [demo_node] ∅ ∅ 10 init init.
(** Six units, the bin leaves, five in the gap, the next bin arrives, one more. *)
Definition demo_events : list NodeEvent :=
  [NTick 6; NCleared; NTick 5; NDelivered (Some 1%Z) 8 4 50; NTick 1; NFlushed].

Lemma demo_accs_ok : accs_ok demo_edge.
Proof. split_and!; [by apply (acc_inv_init _)|by apply (acc_inv_init _)|done|done]. Qed.

Lemma demo_edge_wf : lside_wf demo_edge.
Proof.
  split; cbn.
  - apply NoDup_singleton.
  - by repeat constructor.
  - intros r r' ->%list_elem_of_singleton ->%list_elem_of_singleton. done.
  - by repeat constructor.
Qed.

Lemma demo_ok : node_ok 5 demo_rt demo_edge.
Proof. split; [apply demo_edge_wf|apply demo_accs_ok|done..|by intros b [= <-]]. Qed.

Lemma counting_refines_slot_witness :
  let a := mkSlot (Some 7%Z) 0 100 4 0 (fun _ => 0%Z) in
  exists s', run_events demo_node demo_claim demo_events (mkConn demo_edge []) = (Ok (), mkConn s' []) /\
    shows 5 "P" s' (foldl (slot_event false) a demo_events) /\
    (let a' := foldl (slot_event false) a demo_events in
     (sl_bin a', sl_held a', sl_shown a', sl_books a' 7, sl_books a' 8) = (Some 8, 0, 44, -2, -6)%Z).
Proof.
  intros a. destruct (counting_refines_slot demo_node demo_claim demo_events demo_edge a) as (s' & H1 & H2).
  - done.
  - reflexivity.
  - exists demo_rt. split_and!; [apply demo_ok|reflexivity..|]. intros b. reflexivity.
  - exists s'. split; [exact H1|]. split; [exact H2|]. vm_compute. reflexivity.
Defined.

Lemma ticks_counted_once_witness : exists s' r',
  run_events demo_node demo_claim demo_events (mkConn demo_edge []) = (Ok (), mkConn s' []) /\
  es_runtime s' !! 5%Z = Some r' /\
  (sum_over [7; 8]%Z (fun b => bin_total b s') + part_total 5 "P" s' - rt_pending r' = -12)%Z.
Proof.
  destruct (ticks_counted_once demo_node demo_claim demo_events [7; 8]%Z demo_edge demo_rt)
    as (s' & r' & H1 & H2 & H3 & _).
  - apply demo_ok.
  - done.
  - reflexivity.
  - repeat constructor; set_solver.
  - intros b [= <-]. set_solver.
  - intros e b He Hb. unfold demo_events in He. rewrite !elem_of_cons in He.
    destruct He as [->|[->|[->|[->|[->|[->|He]]]]]]; cbn in Hb; try done; [injection Hb as <-; set_solver|].
    by apply elem_of_nil in He.
  - exists s', r'. split; [exact H1|]. split; [exact H2|].
    change (direction (nc_role demo_claim =s "produce")) with (-1)%Z in H3. cbn [nc_payload demo_claim pn_id demo_node] in H3.
    change (ticks demo_events) with 12%Z in H3. cbn in H3 |- *. lia.
Defined.

(** Three parts "P" and two "Q" pulled off bin 7 at a release to style 3. *)
Definition demo_capture : CaptureEvent :=
  mkCE 5 3 "" "L1" (mkRD DispositionCaptureLineside {[ "P" := 3%Z; "Q" := 2%Z ]} ∅ None None "op") 7 "P" 2 false.

Lemma lineside_rows_well_formed_witness :
  let s := mkES [] 1 ∅ [demo_node] ∅ ∅ 0 init init in
  let c := foldl edge_op (mkConn s [false; false; false; true])
    [OpCapture demo_capture; OpClock 5; OpCapture demo_capture] in
  lside_wf (db c) /\ map lk_qty (es_buckets (db c)) = [4; 3]%Z.
Proof.
  intros s c. split; [|vm_compute; reflexivity].
  exact (lineside_rows_well_formed [OpCapture demo_capture; OpClock 5; OpCapture demo_capture] s
    [false; false; false; true] eq_refl).
Defined.

(** Five units are held when bin 7 is bound.  The write that clears them fails
    and is only logged: the bin is charged 5 + 1 by that tick and 5 + 1 again by
    the next, for seven units counted by the line. *)
Example lost_clear_counts_twice :
  let held_rt := mkRT (Some 1%Z) (Some 7%Z) 2 100 5 true in
  let s := mkES [] 1 {[ 5%Z := held_rt ]} [demo_node] ∅ ∅ 0 init init in
  let c := (node_tick demo_node demo_claim 1 (mkConn s [false; false; true])).2 in
  bin_total 7 (db (node_tick demo_node demo_claim 1 c).2) = (-12)%Z.
Proof. vm_compute. reflexivity. Qed.
