(* ===== verification/Futility.v ===== *)
(** The futile-work detector (shingo-core/dispatch/futility.go): per tuple, the
    instants of terminals that never reached a robot inside a rolling window,
    and a throttled report when they reach the threshold.  Times are
    nanoseconds; a nil detector is [None].  The detector's mutex makes each
    method one step. *)

From S2P Require Import Prelude.

Record FutilityKey := mkKey { StationID : string; ProcessNode : string; PayloadCode : string }.

#[export] Instance FutilityKey_eq_dec : EqDecision FutilityKey.
Proof. solve_decision. Defined.
#[export] Instance FutilityKey_countable : Countable FutilityKey.
Proof.
  apply (inj_countable' (fun k => (StationID k, ProcessNode k, PayloadCode k))
    (fun '(a, b, c) => mkKey a b c)). by intros [].
Defined.

Definition incomplete (k : FutilityKey) : bool :=
  (StationID k =s "") || (ProcessNode k =s "") || (PayloadCode k =s "").

Record FutilityConfig := mkFutCfg {
  Enabled : bool; Threshold : Z; Window : Z; AlertThrottle : Z }.

Record FutilityDetector := mkDet {
  cfg : FutilityConfig;
  terminals : gmap FutilityKey (list Z);
  lastAlert : gmap FutilityKey Z }.

(** What [report] puts in the log line and the audit row. *)
Record Report := mkReport {
  rp_key : FutilityKey; rp_order : Z; rp_status : string; rp_reason : string; rp_count : nat }.

Definition NewFutilityDetector (c : FutilityConfig) : option FutilityDetector :=
  if negb (Enabled c) || (Threshold c <=? 0)%Z || (Window c <=? 0)%Z then None
  else Some (mkDet c ∅ ∅).

Definition NoteInTransit (d : option FutilityDetector) (key : FutilityKey)
    : option FutilityDetector :=
  match d with
  | None => None
  | Some det =>
      if incomplete key then d
      else Some (mkDet (cfg det) (delete key (terminals det)) (lastAlert det))
  end.

(** The instants still inside the window at [now]. *)
Definition in_window (w now : Z) (l : list Z) : list Z :=
  List.filter (fun t => now - t <? w)%Z l.

Definition terms_of (det : FutilityDetector) (key : FutilityKey) : list Z :=
  default [] (terminals det !! key).

Definition NoteFutileTerminal (d : option FutilityDetector) (now : Z) (key : FutilityKey)
    (orderID : Z) (status reason : string)
    : bool * option FutilityDetector * option Report :=
  match d with
  | None => (false, d, None)
  | Some det =>
      if incomplete key then (false, d, None)
      else
        let kept := in_window (Window (cfg det)) now (terms_of det key) ++ [now] in
        let terminals' := <[key := kept]> (terminals det) in
        let count := length kept in
        if (Z.of_nat count <? Threshold (cfg det))%Z
        then (false, Some (mkDet (cfg det) terminals' (lastAlert det)), None)
        else
          let throttled := match lastAlert det !! key with
            | Some last => (now - last <? AlertThrottle (cfg det))%Z
            | None => false
            end in
          if throttled then (false, Some (mkDet (cfg det) terminals' (lastAlert det)), None)
          else (true, Some (mkDet (cfg det) terminals' (<[key := now]> (lastAlert det))),
                Some (mkReport key orderID status reason count))
  end.

Definition Count (d : option FutilityDetector) (now : Z) (key : FutilityKey) : nat :=
  match d with
  | None => 0
  | Some det => length (in_window (Window (cfg det)) now (terms_of det key))
  end.

Arguments NoteFutileTerminal : simpl never.

(** ** Traces *)

Inductive FEvent :=
| Transit (key : FutilityKey)
| Futile (key : FutilityKey) (order : Z) (status reason : string).

Definition det_step (d : option FutilityDetector) (now : Z) (e : FEvent)
    : option FutilityDetector * option Report :=
  match e with
  | Transit k => (NoteInTransit d k, None)
  | Futile k o s r => let '(_, d', rep) := NoteFutileTerminal d now k o s r in (d', rep)
  end.

(** The detector after a trace of timed events, and the reports in order. *)
Fixpoint det_run (d : option FutilityDetector) (evs : list (Z * FEvent))
    : option FutilityDetector * list (Z * Report) :=
  match evs with
  | [] => (d, [])
  | (now, e) :: rest =>
      let '(d1, rep) := det_step d now e in
      let '(d2, reps) := det_run d1 rest in
      (d2, match rep with Some r => (now, r) :: reps | None => reps end)
  end.

(** The reference: the futile instants of a tuple since it last moved. *)
Fixpoint since_transit (key : FutilityKey) (evs : list (Z * FEvent)) (acc : list Z) : list Z :=
  match evs with
  | [] => acc
  | (_, Transit k) :: rest => since_transit key rest (if decide (k = key) then [] else acc)
  | (now, Futile k _ _ _) :: rest =>
      since_transit key rest (if decide (k = key) then acc ++ [now] else acc)
  end.

(** Time does not run backwards, from [t0] on. *)
Fixpoint monotone (t0 : Z) (evs : list (Z * FEvent)) : Prop :=
  match evs with
  | [] => True
  | (now, _) :: rest => (t0 <= now)%Z /\ monotone now rest
  end.

(** ** The window *)

Lemma in_window_app w now l1 l2 : in_window w now (l1 ++ l2) = in_window w now l1 ++ in_window w now l2.
Proof. apply List.filter_app. Qed.

(** Pruning at an earlier instant loses nothing a later one would count. *)
Lemma in_window_prune w t now l :
  (t <= now)%Z -> in_window w now (in_window w t l) = in_window w now l.
Proof.
  intros Ht. unfold in_window. rewrite lfilter_lfilter. apply List.filter_ext. intros x.
  destruct (Z.ltb_spec (now - x) w), (Z.ltb_spec (t - x) w); simpl; lia || done.
Qed.

(** A detector and a reference log agree from [t] on. *)
Definition agrees (det : FutilityDetector) (key : FutilityKey) (acc : list Z) (t : Z) : Prop :=
  forall now, (t <= now)%Z ->
    in_window (Window (cfg det)) now (terms_of det key) = in_window (Window (cfg det)) now acc.

Lemma terms_insert c ts la key key' l :
  terms_of (mkDet c (<[key' := l]> ts) la) key =
  if decide (key' = key) then l else terms_of (mkDet c ts la) key.
Proof.
  unfold terms_of. simpl. case_decide as E; subst;
    by rewrite ?lookup_insert_eq, ?lookup_insert_ne.
Qed.

Lemma terms_delete c ts la key key' :
  terms_of (mkDet c (delete key' ts) la) key =
  if decide (key' = key) then [] else terms_of (mkDet c ts la) key.
Proof.
  unfold terms_of. simpl. case_decide as E; subst;
    by rewrite ?lookup_delete_eq, ?lookup_delete_ne.
Qed.

(** The state a futile note leaves, whatever it reports. *)
Lemma note_futile_state det now k o s r :
  incomplete k = false ->
  exists la, (NoteFutileTerminal (Some det) now k o s r).1.2 =
    Some (mkDet (cfg det)
      (<[k := in_window (Window (cfg det)) now (terms_of det k) ++ [now]]> (terminals det)) la).
Proof. intros Hk. unfold NoteFutileTerminal. rewrite Hk. repeat case_match; by eexists. Qed.

(** One event of the reference. *)
Definition ref_step (key : FutilityKey) (now : Z) (e : FEvent) (acc : list Z) : list Z :=
  match e with
  | Transit k => if decide (k = key) then [] else acc
  | Futile k _ _ _ => if decide (k = key) then acc ++ [now] else acc
  end.

Lemma since_transit_cons key now e rest acc :
  since_transit key ((now, e) :: rest) acc = since_transit key rest (ref_step key now e acc).
Proof. by destruct e. Qed.

Lemma agrees_later det key acc t now : (t <= now)%Z -> agrees det key acc t -> agrees det key acc now.
Proof. intros Hle H x Hx. apply H. lia. Qed.

Lemma det_step_agrees det key acc t0 now e :
  incomplete key = false -> (t0 <= now)%Z -> agrees det key acc t0 ->
  exists det', (det_step (Some det) now e).1 = Some det' /\ cfg det' = cfg det /\
    agrees det' key (ref_step key now e acc) now.
Proof.
  intros Hk Ht Ha. destruct e as [k|k o s r]; simpl.
  - destruct (incomplete k) eqn:Hki.
    + exists det. split_and!; [done..|]. case_decide; [congruence|]. by eapply agrees_later.
    + eexists. split_and!; [done..|]. intros x Hx. rewrite terms_delete. simpl.
      case_decide; [done|]. apply Ha. lia.
  - destruct (incomplete k) eqn:Hki.
    + exists det. unfold NoteFutileTerminal. rewrite Hki. simpl. split_and!; [done..|].
      case_decide; [congruence|]. by eapply agrees_later.
    + destruct (note_futile_state det now k o s r Hki) as [la Hs].
      destruct (NoteFutileTerminal _ _ _ _ _ _) as [[b d'] rep]. simpl in *. subst d'.
      eexists. split_and!; [done..|]. intros x Hx. rewrite terms_insert. simpl.
      case_decide as E; [subst k|apply Ha; lia].
      rewrite !in_window_app, in_window_prune by done. f_equal. apply Ha. lia.
Qed.

Lemma det_run_agrees evs det key acc t0 now :
  incomplete key = false -> monotone t0 evs -> agrees det key acc t0 ->
  (t0 <= now)%Z -> Forall (fun te => te.1 <= now)%Z evs ->
  exists det', (det_run (Some det) evs).1 = Some det' /\ cfg det' = cfg det /\
    in_window (Window (cfg det)) now (terms_of det' key) =
    in_window (Window (cfg det)) now (since_transit key evs acc).
Proof.
  intros Hk. revert det acc t0.
  induction evs as [|[t e] rest IH]; intros det acc t0 Hm Ha Hle Hall.
  - exists det. split_and!; [done..|]. by apply Ha.
  - destruct Hm as [Ht Hm]. apply Forall_cons in Hall as [Hnow Hall]. simpl in Hnow.
    destruct (det_step_agrees det key acc t0 t e Hk Ht Ha) as (d1 & Hs & Hc & Ha1).
    destruct (IH d1 _ t Hm Ha1 Hnow Hall) as (d2 & Hr & Hc2 & Hw).
    exists d2. cbn [det_run]. destruct (det_step (Some det) t e) as [? rep]. simpl in Hs. subst.
    destruct (det_run (Some d1) rest) as [? reps]. simpl in *. subst.
    split_and!; [done|congruence|]. rewrite <- Hc, Hw. by destruct e.
Qed.

(** The detector counts exactly the futile terminals of the tuple inside the
    rolling window since work on it last moved: after any trace of events in
    time order, the in-window count of a complete tuple is the count over the
    trace itself, although the detector prunes as it goes; and the next futile
    terminal is reported iff it brings that count to the threshold and the
    last report on the tuple is at least the throttle old. *)
Theorem futility_counts_window (c : FutilityConfig) (evs : list (Z * FEvent))
    (key : FutilityKey) (t0 now o : Z) (s r : string) :
  Enabled c = true -> (0 < Threshold c)%Z -> (0 < Window c)%Z ->
  incomplete key = false -> monotone t0 evs -> (t0 <= now)%Z ->
  Forall (fun te => te.1 <= now)%Z evs ->
  let d := (det_run (NewFutilityDetector c) evs).1 in
  let n := length (in_window (Window c) now (since_transit key evs [])) in
  Count d now key = n /\
  exists det, d = Some det /\
  ((NoteFutileTerminal d now key o s r).1.1 = true <->
   (Threshold c <= Z.of_nat (n + 1))%Z /\
   forall last, lastAlert det !! key = Some last -> (AlertThrottle c <= now - last)%Z).
Proof.
  intros He Ht Hw Hk Hm Hle Hall.
  assert (NewFutilityDetector c = Some (mkDet c ∅ ∅)) as -> by
    (unfold NewFutilityDetector;
     by rewrite He, (proj2 (Z.leb_gt _ _) Ht), (proj2 (Z.leb_gt _ _) Hw)).
  intros d n.
  destruct (det_run_agrees evs (mkDet c ∅ ∅) key [] t0 now Hk Hm) as (det & Hd & Hc & Hwin);
    [by intros x Hx|done..|]. fold d in Hd. simpl in Hc, Hwin.
  assert (Hlen : length (in_window (Window c) now (terms_of det key)) = n) by (by rewrite Hwin).
  split; [rewrite Hd; simpl; by rewrite Hc|]. exists det. split; [done|]. rewrite Hd.
  unfold NoteFutileTerminal. rewrite Hk, Hc, length_app, Hlen. simpl length.
  destruct (Z.ltb_spec (Z.of_nat (n + 1)) (Threshold c)) as [Hlt|Hge]; simpl.
  - split; [done|]. intros [? _]. lia.
  - destruct (lastAlert det !! key) as [last|]; simpl.
    + destruct (Z.ltb_spec (now - last) (AlertThrottle c)); simpl; split; try done.
      * intros [_ H']. specialize (H' last eq_refl). lia.
      * intros _. split; [done|]. by intros l [= <-].
    + split; [|done]. intros _. split; [done|]. by intros l.
Qed.

(** ** The throttle *)

(** Every past report is remembered as no later than [lastAlert]. *)
Definition remembered (det : FutilityDetector) (reps : list (Z * Report)) : Prop :=
  forall t rp, (t, rp) ∈ reps -> exists l, lastAlert det !! rp_key rp = Some l /\ (t <= l)%Z.

Definition spaced (throttle : Z) (reps : list (Z * Report)) : Prop :=
  ForallOrdPairs (fun a b => rp_key a.2 = rp_key b.2 -> throttle <= b.1 - a.1)%Z reps.

Lemma det_step_remembers det reps t now e :
  (forall a, a ∈ reps -> a.1 <= t)%Z -> (t <= now)%Z ->
  remembered det reps -> spaced (AlertThrottle (cfg det)) reps ->
  exists det', (det_step (Some det) now e).1 = Some det' /\ cfg det' = cfg det /\
    let reps' := match (det_step (Some det) now e).2 with
                 | Some rp => reps ++ [(now, rp)] | None => reps end in
    remembered det' reps' /\ spaced (AlertThrottle (cfg det)) reps' /\
    (forall a, a ∈ reps' -> a.1 <= now)%Z.
Proof.
  intros Hpast Ht Hr Hs.
  assert (Hpast' : (forall a, a ∈ reps -> a.1 <= now)%Z) by (intros a Ha; specialize (Hpast a Ha); lia).
  destruct e as [k|k o st re]; simpl.
  { destruct (incomplete k); eexists; by split_and!. }
  unfold NoteFutileTerminal. destruct (incomplete k); [by eexists|].
  destruct (_ <? Threshold _)%Z; [by eexists|]. simpl.
  destruct (lastAlert det !! k) as [last|] eqn:Hl.
  1: destruct (Z.ltb_spec (now - last) (AlertThrottle (cfg det))) as [?|Hthr]; [by eexists|].
  all: eexists; split_and!; [done..| | |].
  all: try (intros a [Ha| ->%list_elem_of_singleton]%elem_of_app; [by apply Hpast'|done]).
  all: try (intros u rp [Hin|[= -> ->]%list_elem_of_singleton]%elem_of_app; simpl;
    [destruct (Hr u rp Hin) as (l & Hl' & Hle); destruct (decide (k = rp_key rp)) as [<-|];
      [rewrite lookup_insert_eq; exists now; split; [done|apply (Hpast' (u, rp) Hin)]
      |rewrite lookup_insert_ne by done; by exists l]
    |rewrite lookup_insert_eq; exists now; split; [done|lia]]).
  all: apply FOP_snoc; [done|]; intros [u rp] Hin Hkey; simpl in *;
    destruct (Hr u rp Hin) as (l & Hl' & Hle); rewrite Hkey, Hl in Hl'; simplify_eq; lia.
Qed.

(** Reports on one tuple are throttled: in any trace in time order, two
    reports on the same tuple are at least the configured throttle apart,
    whatever resets happen in between. *)
Theorem futility_reports_throttled (c : FutilityConfig) (evs : list (Z * FEvent)) (t0 : Z) :
  monotone t0 evs ->
  spaced (AlertThrottle c) (det_run (NewFutilityDetector c) evs).2.
Proof.
  assert (Hgen : forall evs det reps t, monotone t evs ->
    (forall a, a ∈ reps -> a.1 <= t)%Z -> remembered det reps ->
    spaced (AlertThrottle (cfg det)) reps ->
    spaced (AlertThrottle (cfg det)) (reps ++ (det_run (Some det) evs).2)).
  { clear. induction evs as [|[now e] rest IH]; intros det reps t Hm Hp Hr Hs; simpl.
    - by rewrite app_nil_r.
    - destruct Hm as [Ht Hm].
      destruct (det_step_remembers det reps t now e Hp Ht Hr Hs) as (det' & Hd & Hc & Hr' & Hs' & Hp').
      destruct (det_step (Some det) now e) as [d1 rep]. simpl in *. subst d1.
      rewrite <- Hc in Hs' |- *. specialize (IH det' _ now Hm Hp' Hr' Hs').
      destruct (det_run (Some det') rest) as [d2 reps']. simpl in *.
      destruct rep; [by rewrite <- (assoc_L (++)) in IH|done]. }
  intros Hm. unfold NewFutilityDetector.
  destruct (_ || _ || _).
  - assert (Hnone : forall l, (det_run None l).2 = []).
    { clear. induction l as [|[now e] l IH]; [done|]. simpl.
      destruct e; simpl; destruct (det_run None l); by simpl in *. }
    rewrite Hnone. constructor.
  - apply (Hgen evs (mkDet c ∅ ∅) [] t0 Hm); [by intros a Ha%elem_of_nil| |constructor].
    by intros t rp H%elem_of_nil.
Qed.

Lemma futility_reports_throttled_witness :
  let key := mkKey "ST1" "ALN_001" "P1" in
  spaced 50 (det_run (NewFutilityDetector (mkFutCfg true 1 100 50))
    [(0%Z, Futile key 1 "failed" ""); (10%Z, Futile key 2 "failed" "");
     (60%Z, Futile key 3 "failed" "")]).2.
Proof. intros key. apply (futility_reports_throttled (mkFutCfg true 1 100 50) _ 0). simpl. lia. Defined.
