(* ===== verification/Lifecycle.v ===== *)
(** The order state machine driver (shingo-core/dispatch/lifecycle.go): the
    shared [transition] (table guard, compare-and-swap or terminal chokepoint,
    futility accounting, actions), the typed methods over it and the action
    map.

    The service state is the database connection, the futility detector, the
    events handed to the emitter and the vendor orders cancelled.  A method
    takes the caller's in-memory order by value and returns it as the code
    leaves it: the snapshot may be arbitrarily stale. *)

From stdpp Require Import pretty.
From S2P Require Import Prelude Status Sql CoreDb Reservations OrderStore Futility.

(** ** State *)

Inductive Emit :=
| EmitOrderCompleted (order : Z) (uuid station : string)
| EmitOrderCancelled (order : Z) (uuid station reason prev : string)
| EmitOrderQueued (order : Z) (uuid station payload : string)
| EmitOrderResumed (order : Z) (uuid station : string)
| EmitOrderFailed (order : Z) (uuid station code detail : string)
| EmitOrderSkipped (order : Z) (uuid station code detail : string)
| EmitOrderFaulted (order : Z) (uuid station reason : string)
| EmitOrderFaultedRecovered (order : Z) (uuid station robot : string).

Record Svc := mkSvc {
  conn : Conn CoreDB;
  futility : option FutilityDetector;
  emitted : list Emit;
  vendor_cancels : list string;
  reports : list Report
}.

Definition tables (s : Svc) : CoreDB := db (conn s).

Definition with_conn (c : Conn CoreDB) (s : Svc) : Svc :=
  mkSvc c (futility s) (emitted s) (vendor_cancels s) (reports s).
Definition emit (e : Emit) (s : Svc) : Svc :=
  mkSvc (conn s) (futility s) (emitted s ++ [e]) (vendor_cancels s) (reports s).
Definition with_futility (d : option FutilityDetector) (rep : option Report) (s : Svc) : Svc :=
  mkSvc (conn s) d (emitted s) (vendor_cancels s)
    (match rep with Some r => reports s ++ [r] | None => reports s end).
Definition vendor_cancel (v : string) (s : Svc) : Svc :=
  mkSvc (conn s) (futility s) (emitted s) (vendor_cancels s ++ [v]) (reports s).

(** A store call of the service. *)
Definition run_sql {A} (m : CoreSQL A) (s : Svc) : outcome error A * Svc :=
  let '(r, c) := m (conn s) in (r, with_conn c s).

Record Event := mkEvent {
  ev_actor : string;
  ev_reason : string;
  ev_prev : Status;
  ev_station : string;
  ev_robot : string;
  ev_code : string;
  ev_detail : string;
  ev_ref : TermRef
}.

(** Composite literals of the methods below set the fields they name. *)
Definition event (actor reason : string) : Event := mkEvent actor reason "" "" "" "" "" emptyRef.
Definition event_at (actor reason station : string) : Event :=
  mkEvent actor reason "" station "" "" "" emptyRef.
Definition set_prev (from : Status) (ev : Event) : Event :=
  mkEvent (ev_actor ev) (ev_reason ev) from (ev_station ev) (ev_robot ev) (ev_code ev)
    (ev_detail ev) (ev_ref ev).

Definition set_ord_status (st : Status) (o : Order) : Order :=
  with_status st (o_error_detail o) (o_updated_at o) o.

(** ** Actions *)

Definition or_else (a b : string) : string := if a =s "" then b else a.

Definition fireCompleted (ord : Order) (ev : Event) : Svc -> Svc :=
  emit (EmitOrderCompleted (o_id ord) (o_uuid ord) (ev_station ev)).
Definition fireCancelled (ord : Order) (ev : Event) : Svc -> Svc :=
  emit (EmitOrderCancelled (o_id ord) (o_uuid ord) (ev_station ev) (ev_reason ev) (ev_prev ev)).
Definition fireRequeued (ord : Order) (ev : Event) : Svc -> Svc :=
  emit (EmitOrderQueued (o_id ord) (o_uuid ord) (ev_station ev) "").
Definition fireResumed (ord : Order) (ev : Event) : Svc -> Svc :=
  emit (EmitOrderResumed (o_id ord) (o_uuid ord) (ev_station ev)).
Definition fireFailed (ord : Order) (ev : Event) : Svc -> Svc :=
  emit (EmitOrderFailed (o_id ord) (o_uuid ord) (ev_station ev)
    (or_else (ev_code ev) "lifecycle_failed") (or_else (ev_detail ev) (ev_reason ev))).
Definition fireSkipped (ord : Order) (ev : Event) : Svc -> Svc :=
  emit (EmitOrderSkipped (o_id ord) (o_uuid ord) (ev_station ev)
    (or_else (ev_code ev) "lifecycle_skipped") (or_else (ev_detail ev) (ev_reason ev))).
Definition fireFaulted (ord : Order) (ev : Event) : Svc -> Svc :=
  emit (EmitOrderFaulted (o_id ord) (o_uuid ord) (ev_station ev) (ev_reason ev)).
Definition fireFaultedRecovered (ord : Order) (ev : Event) : Svc -> Svc :=
  emit (EmitOrderFaultedRecovered (o_id ord) (o_uuid ord) (ev_station ev) (ev_robot ev)).

Inductive Action :=
| aCompleted | aCancelled | aRequeued | aResumed | aFailed | aSkipped | aFaulted
| aFaultedRecovered.

Definition run_action (a : Action) : Order -> Event -> Svc -> Svc :=
  match a with
  | aCompleted => fireCompleted
  | aCancelled => fireCancelled
  | aRequeued => fireRequeued
  | aResumed => fireResumed
  | aFailed => fireFailed
  | aSkipped => fireSkipped
  | aFaulted => fireFaulted
  | aFaultedRecovered => fireFaultedRecovered
  end.

Definition actionMap : list ((Status * Status) * list Action) :=
  [ ((StatusInTransit, StatusDelivered), [aCompleted]);
    ((StatusStaged, StatusDelivered), [aCompleted]);
    ((StatusDispatched, StatusDelivered), [aCompleted]);
    ((StatusDelivered, StatusConfirmed), [aCompleted]);
    ((StatusReshuffling, StatusConfirmed), [aCompleted]);
    ((StatusReshuffling, StatusQueued), [aResumed; aRequeued]);
    ((StatusPending, StatusCancelled), [aCancelled]);
    ((StatusSourcing, StatusCancelled), [aCancelled]);
    ((StatusQueued, StatusCancelled), [aCancelled]);
    ((StatusAcknowledged, StatusCancelled), [aCancelled]);
    ((StatusDispatched, StatusCancelled), [aCancelled]);
    ((StatusInTransit, StatusCancelled), [aCancelled]);
    ((StatusStaged, StatusCancelled), [aCancelled]);
    ((StatusDelivered, StatusCancelled), [aCancelled]);
    ((StatusReshuffling, StatusCancelled), [aCancelled]);
    ((StatusDispatched, StatusFaulted), [aFaulted]);
    ((StatusAcknowledged, StatusFaulted), [aFaulted]);
    ((StatusInTransit, StatusFaulted), [aFaulted]);
    ((StatusStaged, StatusFaulted), [aFaulted]);
    ((StatusFaulted, StatusInTransit), [aFaultedRecovered]);
    ((StatusFaulted, StatusDelivered), [aCompleted]);
    ((StatusFaulted, StatusFailed), [aFailed]);
    ((StatusFaulted, StatusCancelled), [aCancelled]);
    ((StatusPending, StatusFailed), [aFailed]);
    ((StatusSourcing, StatusFailed), [aFailed]);
    ((StatusQueued, StatusFailed), [aFailed]);
    ((StatusAcknowledged, StatusFailed), [aFailed]);
    ((StatusDispatched, StatusFailed), [aFailed]);
    ((StatusInTransit, StatusFailed), [aFailed]);
    ((StatusStaged, StatusFailed), [aFailed]);
    ((StatusDelivered, StatusFailed), [aFailed]);
    ((StatusReshuffling, StatusFailed), [aFailed]);
    ((StatusPending, StatusSkipped), [aSkipped]);
    ((StatusSourcing, StatusSkipped), [aSkipped]);
    ((StatusQueued, StatusSkipped), [aSkipped]) ].

(** [actionMap[transitionKey{from, to}]]: nil on a miss. *)
Fixpoint actions_in (m : list ((Status * Status) * list Action)) (from to : Status)
    : list Action :=
  match m with
  | [] => []
  | ((f, t), acts) :: rest =>
      if (f =s from) && (t =s to) then acts else actions_in rest from to
  end.

Definition actions_for (from to : Status) : list Action := actions_in actionMap from to.

Definition run_actions (acts : list Action) (ord : Order) (ev : Event) (s : Svc) : Svc :=
  fold_left (fun s a => run_action a ord ev s) acts s.

(** ** The driver *)

Definition historyReason (ord : Order) (to : Status) (ev : Event) : HistoryReason :=
  let code := if to =s StatusQueued then o_queue_code ord else ev_code ev in
  let ref :=
    if TermRef_Empty (ev_ref ev)
    then mkTermRef (or_else (o_process_node ord) (o_delivery_node ord)) (o_payload ord) 0 0 "" ""
    else ev_ref ev in
  mkReason code (ev_actor ev) ref.

Definition futility_key (ord : Order) : FutilityKey :=
  mkKey (o_station ord) (o_process_node ord) (o_payload ord).

Definition noteFutility (ord : Order) (to : Status) (ev : Event) (s : Svc) : Svc :=
  match futility s with
  | None => s
  | Some _ =>
      if to =s StatusInTransit
      then with_futility (NoteInTransit (futility s) (futility_key ord)) None s
      else if negb (IsTerminal to) then s
      else
        match run_sql (EverReachedStatus (o_id ord) StatusInTransit) s with
        | (Err _, s') => s'
        | (Ok true, s') => s'
        | (Ok false, s') =>
            let '(_, d, rep) :=
              NoteFutileTerminal (futility s') (clock_now (tables s')) (futility_key ord)
                (o_id ord) to (or_else (ev_reason ev) (ev_detail ev)) in
            with_futility d rep s'
        end
  end.

(** The persisting half of [transition]: did the write land? *)
Definition persist (ord : Order) (to : Status) (ev : Event) : CoreSQL bool :=
  if IsTerminal to
  then TerminalizeOrderWithReason (o_id ord) to (or_else (ev_detail ev) (ev_reason ev))
         (historyReason ord to ev)
  else UpdateStatusFromWithReason (o_id ord) (o_status ord) to
         (or_else (ev_reason ev) (o_status ord +:+ " → " +:+ to +:+ " by " +:+ ev_actor ev))
         (historyReason ord to ev).

Definition transition (ord : Order) (to : Status) (ev0 : Event) (s : Svc)
    : outcome error unit * Order * Svc :=
  let from := o_status ord in
  if negb (IsValidTransition from to) then (Err (EIllegalTransition from to), ord, s)
  else
    let ev := set_prev from ev0 in
    match run_sql (persist ord to ev) s with
    | (Err e, s1) => (Err e, ord, s1)
    | (Ok false, s1) => (Err (EConcurrentTransition (o_id ord) from to), ord, s1)
    | (Ok true, s1) =>
        let ord' := set_ord_status to ord in
        (Ok (), ord', run_actions (actions_for from to) ord' ev (noteFutility ord' to ev s1))
    end.

(** ** The typed methods *)

Definition Result := (outcome error unit * Order * Svc)%type.

Definition CancelOrder (ord : Order) (stationID reason : string) (s : Svc) : Order * Svc :=
  if IsTerminal (o_status ord) then (ord, s)
  else
    let s1 := if o_vendor_id ord <>s "" then vendor_cancel (o_vendor_id ord) s else s in
    let '(_, ord', s2) :=
      transition ord StatusCancelled (event_at ("system:" +:+ stationID) reason stationID) s1 in
    (ord', s2).

Definition ConfirmReceipt (ord : Order) (stationID receiptType : string) (finalCount : Z)
    (s : Svc) : outcome error bool * Order * Svc :=
  match o_completed_at ord with
  | Some _ => (Ok false, ord, s)
  | None =>
      match transition ord StatusConfirmed
              (event_at ("edge:" +:+ stationID)
                ("receipt: " +:+ receiptType +:+ ", count: " +:+ pretty finalCount) stationID) s with
      | (Err e, ord', s1) => (Err e, ord', s1)
      | (Ok _, ord', s1) =>
          match run_sql (Complete (o_id ord)) s1 with
          | (Err e, s2) => (Err e, ord', s2)
          | (Ok _, s2) => (Ok true, ord', s2)
          end
      end
  end.

Definition Release (ord : Order) (actor : string) (s : Svc) : Result :=
  transition ord StatusInTransit
    (event actor ("released from staging (wait " +:+ pretty (o_wait_index ord) +:+ ")")) s.

Definition MarkInTransit (ord : Order) (robotID actor : string) (s : Svc) : Result :=
  transition ord StatusInTransit
    (mkEvent actor "fleet reported in transit" "" "" robotID "" "" emptyRef) s.

Definition Acknowledge (ord : Order) (actor : string) (s : Svc) : Result :=
  transition ord StatusAcknowledged (event actor "fleet acknowledged order") s.

Definition MarkStaged (ord : Order) (actor : string) (s : Svc) : Result :=
  transition ord StatusStaged (event actor "fleet reported dwelling at staging node") s.

Definition MarkDelivered (ord : Order) (actor : string) (s : Svc) : Result :=
  transition ord StatusDelivered (event actor "fleet reported delivered") s.

Definition Queue (ord : Order) (actor reason : string) (s : Svc) : Result :=
  transition ord StatusQueued (event actor (or_else reason "awaiting inventory")) s.

Definition MoveToSourcing (ord : Order) (actor reason : string) (s : Svc) : Result :=
  if o_status ord =s StatusSourcing then (Ok (), ord, s)
  else transition ord StatusSourcing (event actor reason) s.

Definition Dispatch (ord : Order) (vendorOrderID actor : string) (s : Svc) : Result :=
  transition ord StatusDispatched
    (event actor ("vendor order " +:+ vendorOrderID +:+ " created")) s.

Definition FailWithRef (ord : Order) (stationID errorCode detail : string) (ref : TermRef)
    (s : Svc) : Result :=
  if IsTerminal (o_status ord) then (Err (EIllegalTransition (o_status ord) StatusFailed), ord, s)
  else transition ord StatusFailed
    (mkEvent ("system:" +:+ stationID) detail "" stationID "" errorCode detail ref) s.

Definition Fail (ord : Order) (stationID errorCode detail : string) (s : Svc) : Result :=
  FailWithRef ord stationID errorCode detail emptyRef s.

Definition Skip (ord : Order) (stationID errorCode detail : string) (s : Svc) : Result :=
  if IsTerminal (o_status ord) then (Err (EIllegalTransition (o_status ord) StatusSkipped), ord, s)
  else transition ord StatusSkipped
    (mkEvent ("system:" +:+ stationID) detail "" stationID "" errorCode detail emptyRef) s.

Definition BeginReshuffle (ord : Order) (reason : string) (s : Svc) : Result :=
  transition ord StatusReshuffling (event "system" reason) s.

Definition CompleteCompound (ord : Order) (s : Svc) : Result :=
  transition ord StatusConfirmed (event_at "system" "reshuffle complete" (o_station ord)) s.

Definition clear_queue (ord : Order) : Order := with_queue "" "" "" (o_updated_at ord) ord.

Definition ResumeCompound (ord : Order) (s : Svc) : Result :=
  match transition ord StatusQueued
          (event_at "system" "reshuffle complete; parent requeued for re-resolution"
            (o_station ord)) s with
  | (Err e, ord', s1) => (Err e, ord', s1)
  | (Ok _, ord', s1) =>
      match run_sql (SetQueueDetail (o_id ord) "" "" "") s1 with
      | (Err _, s2) => (Ok (), ord', s2)
      | (Ok _, s2) => (Ok (), clear_queue ord', s2)
      end
  end.

Definition MarkPending (ord : Order) (reason : string) (s : Svc) : Result :=
  match run_sql (UpdateStatus (o_id ord) StatusPending reason) s with
  | (Err e, s1) => (Err e, ord, s1)
  | (Ok _, s1) => (Ok (), set_ord_status StatusPending ord, s1)
  end.

Definition MarkFaulted (ord : Order) (robotID : string) (ref : TermRef) (reason : string)
    (s : Svc) : Result :=
  transition ord StatusFaulted (mkEvent "fleet" reason "" "" robotID "" "" ref) s.

Definition MarkFaultedRecovered (ord : Order) (robotID : string) (ref : TermRef)
    (reason : string) (s : Svc) : Result :=
  transition ord StatusInTransit (mkEvent "fleet" reason "" "" robotID "" "" ref) s.

Definition IsPostDelivery (status : Status) : bool :=
  (status =s StatusDelivered) || (status =s StatusConfirmed).

Arguments actions_for : simpl never.
Arguments actionMap : simpl never.
Arguments transition : simpl never.

(** ** Frames of the helpers *)

Lemma run_action_tables a ord ev s : tables (run_action a ord ev s) = tables s.
Proof. by destruct a. Qed.

Lemma run_actions_tables acts ord ev s : tables (run_actions acts ord ev s) = tables s.
Proof.
  unfold run_actions. revert s. induction acts as [|a acts IH]; intros s; [done|].
  cbn [fold_left]. rewrite IH. apply run_action_tables.
Qed.

(** What one action hands to the emitter. *)
Definition emission (a : Action) (ord : Order) (ev : Event) : Emit :=
  match a with
  | aCompleted => EmitOrderCompleted (o_id ord) (o_uuid ord) (ev_station ev)
  | aCancelled =>
      EmitOrderCancelled (o_id ord) (o_uuid ord) (ev_station ev) (ev_reason ev) (ev_prev ev)
  | aRequeued => EmitOrderQueued (o_id ord) (o_uuid ord) (ev_station ev) ""
  | aResumed => EmitOrderResumed (o_id ord) (o_uuid ord) (ev_station ev)
  | aFailed => EmitOrderFailed (o_id ord) (o_uuid ord) (ev_station ev)
      (or_else (ev_code ev) "lifecycle_failed") (or_else (ev_detail ev) (ev_reason ev))
  | aSkipped => EmitOrderSkipped (o_id ord) (o_uuid ord) (ev_station ev)
      (or_else (ev_code ev) "lifecycle_skipped") (or_else (ev_detail ev) (ev_reason ev))
  | aFaulted => EmitOrderFaulted (o_id ord) (o_uuid ord) (ev_station ev) (ev_reason ev)
  | aFaultedRecovered =>
      EmitOrderFaultedRecovered (o_id ord) (o_uuid ord) (ev_station ev) (ev_robot ev)
  end.

Lemma run_actions_emitted acts ord ev s :
  emitted (run_actions acts ord ev s) = emitted s ++ map (fun a => emission a ord ev) acts.
Proof.
  unfold run_actions. revert s. induction acts as [|a acts IH]; intros s.
  { by rewrite app_nil_r. }
  cbn [fold_left map]. rewrite IH. replace (emitted (run_action a ord ev s))
    with (emitted s ++ [emission a ord ev]) by (by destruct a).
  by rewrite <- (assoc_L (++)).
Qed.

Lemma run_sql_emitted {A} (m : CoreSQL A) s : emitted (run_sql m s).2 = emitted s.
Proof. unfold run_sql. by destruct (m (conn s)). Qed.

Lemma run_sql_tables {A} (m : CoreSQL A) s : tables (run_sql m s).2 = db (m (conn s)).2.
Proof. unfold run_sql. by destruct (m (conn s)). Qed.

Lemma run_query_tables {A} (f : CoreDB -> A) s : tables (run_sql (query f) s).2 = tables s.
Proof.
  rewrite run_sql_tables. unfold query, stmt, tables. by destruct (faults (conn s)) as [|[] ?].
Qed.

Lemma noteFutility_tables ord to ev s : tables (noteFutility ord to ev s) = tables s.
Proof.
  unfold noteFutility, EverReachedStatus. destruct (futility s); [|done].
  destruct (to =s StatusInTransit); [done|]. destruct (negb (IsTerminal to)); [done|].
  pose proof (run_query_tables (fun d => existsb (fun h => (h_order h =i o_id ord) &&
    (h_status h =s StatusInTransit)) (history d)) s) as H.
  destruct (run_sql _ s) as [[[]|] s']; cbn [snd] in H; [done| |done].
  by destruct (NoteFutileTerminal _ _ _ _ _ _) as [[b d] rep].
Qed.

Lemma noteFutility_emitted ord to ev s : emitted (noteFutility ord to ev s) = emitted s.
Proof.
  unfold noteFutility. destruct (futility s); [|done].
  destruct (to =s StatusInTransit); [done|]. destruct (negb (IsTerminal to)); [done|].
  pose proof (run_sql_emitted (EverReachedStatus (o_id ord) StatusInTransit) s) as H.
  destruct (run_sql _ s) as [[[]|] s']; cbn [snd] in H; [done| |done].
  by destruct (NoteFutileTerminal _ _ _ _ _ _) as [[b d] rep].
Qed.

(** ** The persisting half *)

(** The tables after a write that landed. *)
Definition landed (ord : Order) (to : Status) (d d' : CoreDB) : Prop :=
  exists o row err,
    orders d !! o_id ord = Some o /\
    (if IsTerminal to then o_status o ∉ TerminalStatuses else o_status o = o_status ord) /\
    orders d' = <[o_id ord := with_status to err (clock_now d) o]> (orders d) /\
    history d' = history d ++ [row] /\ h_order row = o_id ord /\ h_status row = to /\
    (IsTerminal to = true -> holds_nothing (o_id ord) d' /\ others_kept (o_id ord) d d') /\
    (IsTerminal to = false -> bins d' = bins d /\ nodes d' = nodes d /\
       order_bins d' = order_bins d /\ reservations d' = reservations d).

(** The tables after a write that lost: only a terminal loser moved anything,
    and only its own holds. *)
Definition lost (ord : Order) (to : Status) (d d' : CoreDB) : Prop :=
  orders d' = orders d /\ history d' = history d /\
  (forall o, orders d !! o_id ord = Some o ->
     if IsTerminal to then o_status o ∈ TerminalStatuses else o_status o <> o_status ord) /\
  (if IsTerminal to then holds_nothing (o_id ord) d' /\ others_kept (o_id ord) d d' else d' = d).

Lemma persist_spec ord to ev c :
  match persist ord to ev c with
  | (Ok true, c') => landed ord to (db c) (db c')
  | (Ok false, c') => lost ord to (db c) (db c')
  | (Err _, c') => db c' = db c
  end.
Proof.
  unfold persist, landed, lost. destruct (IsTerminal to) eqn:Ht.
  - destruct (TerminalizeOrderWithReason _ _ _ _ c) as [[won|e] c'] eqn:E;
      [|by apply terminalize_err in E].
    apply terminalize_ok in E. symmetry in E.
    apply terminalize_spec_shape in E as (Hw & Ho & Hh & Hn & Hk & _). destruct won.
    + destruct (proj1 Hw eq_refl) as (o & Hl & Hlive). eexists o, _, _.
      split_and!; [done|done| |done|done|done|done|done].
      rewrite Ho. by apply alter_lookup_insert.
    + split_and!; [done|by rewrite Hh, app_nil_r| |done|done].
      intros o Hl. destruct (decide (o_status o ∈ TerminalStatuses)); [done|].
      enough (false = true) by done. apply Hw. eauto.
  - destruct (UpdateStatusFromWithReason _ _ _ _ _ c) as [[b|e] c'] eqn:E; [|by apply cas_err in E].
    apply cas_ok in E as [_ E]. unfold cas_spec in E.
    destruct (orders (db c) !! o_id ord) as [o|] eqn:Hl.
    + destruct (eqb_spec_s (o_status o) (o_status ord)) as [Hs|Hs]; injection E as -> ->.
      * by eexists o, _, _; split_and!.
      * split_and!; [done..| |done]. by intros o' [= <-].
    + injection E as -> ->. split_and!; [done..| |done]. by intros o'.
Qed.

(** ** The driver, outcome by outcome *)

Definition transition_post (ord : Order) (to : Status) (ev : Event) (s : Svc)
    (r : outcome error unit * Order * Svc) : Prop :=
  match r with
  | (Ok _, ord', s') =>
      IsValidTransition (o_status ord) to = true /\ ord' = set_ord_status to ord /\
      landed ord to (tables s) (tables s') /\
      emitted s' = emitted s ++
        map (fun a => emission a ord' (set_prev (o_status ord) ev)) (actions_for (o_status ord) to)
  | (Err e, ord', s') =>
      ord' = ord /\ emitted s' = emitted s /\
      ((IsValidTransition (o_status ord) to = false /\
        e = EIllegalTransition (o_status ord) to /\ s' = s) \/
       (IsValidTransition (o_status ord) to = true /\
        e = EConcurrentTransition (o_id ord) (o_status ord) to /\
        lost ord to (tables s) (tables s')) \/
       (IsValidTransition (o_status ord) to = true /\ tables s' = tables s))
  end.

Lemma transition_spec ord to ev s : transition_post ord to ev s (transition ord to ev s).
Proof.
  unfold transition. destruct (IsValidTransition (o_status ord) to) eqn:Hv; cbn [negb].
  2: { cbn. rewrite Hv. split_and!; [done..|]. by left. }
  pose proof (persist_spec ord to (set_prev (o_status ord) ev) (conn s)) as Hp.
  pose proof (run_sql_emitted (persist ord to (set_prev (o_status ord) ev)) s) as He.
  unfold run_sql in *.
  destruct (persist ord to (set_prev (o_status ord) ev) (conn s)) as [[[]|e] c'];
    cbn [snd] in He; unfold transition_post.
  - rewrite run_actions_tables, noteFutility_tables, run_actions_emitted, noteFutility_emitted.
    by split_and!.
  - split_and!; [done..|]. right; left. by split_and!.
  - split_and!; [done..|]. right; right. by split_and!.
Qed.

(** C5. One call of the driver has exactly four outcomes.  An edge the table does
    not have is refused and nothing at all changes.  A driver error changes
    neither the tables nor the emitted events.  A lost race writes neither a
    status nor a history row nor an event: a non-terminal loser changes
    nothing, a terminal loser has released exactly its own order's holds.  A
    win moves exactly that order's row to the target - from the very status
    the caller loaded when the target is not terminal, from a live one when it
    is -, appends one history row, releases every hold on a terminal target,
    and emits exactly the registered actions, in order. *)
Theorem transition_outcomes (ord : Order) (to : Status) (ev : Event) (s : Svc) :
  let '(res, ord', s') := transition ord to ev s in
  match res with
  | Ok _ =>
      IsValidTransition (o_status ord) to = true /\ ord' = set_ord_status to ord /\
      landed ord to (tables s) (tables s') /\
      emitted s' = emitted s ++
        map (fun a => emission a ord' (set_prev (o_status ord) ev)) (actions_for (o_status ord) to)
  | Err e =>
      ord' = ord /\ emitted s' = emitted s /\
      ((IsValidTransition (o_status ord) to = false /\
        e = EIllegalTransition (o_status ord) to /\ s' = s) \/
       (IsValidTransition (o_status ord) to = true /\
        e = EConcurrentTransition (o_id ord) (o_status ord) to /\
        lost ord to (tables s) (tables s')) \/
       (IsValidTransition (o_status ord) to = true /\ tables s' = tables s))
  end.
Proof.
  pose proof (transition_spec ord to ev s) as H.
  destruct (transition ord to ev s) as [[res ord'] s']. by destruct res.
Qed.

(** ** The action map *)

Lemma actions_in_map from to :
  actions_for from to = [] \/ ((from, to), actions_for from to) ∈ actionMap.
Proof.
  unfold actions_for. induction actionMap as [|[[f t] acts] m IH]; [by left|]. cbn [actions_in].
  destruct (eqb_spec_s f from) as [->|Hf]; cbn [andb].
  - destruct (eqb_spec_s t to) as [->|Ht]; [right; set_solver|].
    destruct IH as [->|IH]; [by left|right; set_solver].
  - destruct IH as [->|IH]; [by left|right; set_solver].
Qed.

(** A boolean property of every entry, checked by computation. *)
Lemma action_check (P : Status -> Status -> list Action -> bool) from to :
  forallb (fun '((f, t), acts) => P f t acts) actionMap = true ->
  actions_for from to = [] \/ P from to (actions_for from to) = true.
Proof.
  intros H. destruct (actions_in_map from to) as [?|Hin]; [by left|right].
  rewrite forallb_forall in H. apply list_elem_of_In in Hin. by apply (H _ Hin).
Qed.

#[export] Instance Action_eq_dec : EqDecision Action.
Proof. solve_decision. Defined.

(** The notifications that say how an order ended. *)
Definition terminal_action (a : Action) : bool :=
  match a with aCancelled | aFailed | aSkipped => true | _ => false end.

(** The action map is sound, and complete up to the submitted status: every
    registered pair is an edge of the transition table; at most one of its
    actions announces an end, and only on a terminal target; and every legal
    edge into cancelled, failed, skipped, delivered or confirmed announces it
    exactly once - except the three edges out of [submitted], which end an
    order silently. *)
Theorem action_map_complete (from to : Status) :
  (actions_for from to <> [] -> IsValidTransition from to = true) /\
  (IsTerminal to = false -> existsb terminal_action (actions_for from to) = false) /\
  (IsValidTransition from to = true -> from <> StatusSubmitted ->
     (to = StatusCancelled -> actions_for from to = [aCancelled]) /\
     (to = StatusFailed -> actions_for from to = [aFailed]) /\
     (to = StatusSkipped -> actions_for from to = [aSkipped]) /\
     (to = StatusDelivered \/ to = StatusConfirmed -> actions_for from to = [aCompleted])) /\
  actions_for StatusSubmitted to = [].
Proof.
  split_and!.
  - intros Hne. by destruct (action_check (fun f t _ => IsValidTransition f t) from to eq_refl).
  - intros Ht. destruct (action_check (fun _ t acts => implb (negb (IsTerminal t))
      (negb (existsb terminal_action acts))) from to eq_refl) as [->|H]; [done|].
    rewrite Ht in H. cbn [negb implb] in H. by breflect.
  - intros Hv Hs.
    pose proof (edge_check (fun f t => (f =s StatusSubmitted) ||
      ((if t =s StatusCancelled then bool_decide (actions_for f t = [aCancelled]) else true) &&
       (if t =s StatusFailed then bool_decide (actions_for f t = [aFailed]) else true) &&
       (if t =s StatusSkipped then bool_decide (actions_for f t = [aSkipped]) else true) &&
       (if (t =s StatusDelivered) || (t =s StatusConfirmed)
        then bool_decide (actions_for f t = [aCompleted]) else true))) eq_refl from to Hv) as H.
    cbv beta in H. rewrite (seqb_neq _ _ Hs) in H. cbn [orb] in H.
    repeat (apply andb_true_iff in H as [H ?]).
    split_and!; [intros ->|intros ->|intros ->|intros [->| ->]];
      eapply bool_decide_eq_true_1; first [exact H|exact H0|exact H1|exact H2].
  - destruct (action_check (fun f _ _ => f <>s StatusSubmitted) StatusSubmitted to eq_refl)
      as [H|H]; [done|]. by rewrite seqb_refl in H.
Qed.

(** ** Interleavings

    Any number of callers, each with whatever snapshot of the order it loaded
    earlier, and any writes of the rest of the system in between. *)

Inductive Call :=
| CCancelOrder (ord : Order) (stationID reason : string)
| CConfirmReceipt (ord : Order) (stationID receiptType : string) (finalCount : Z)
| CRelease (ord : Order) (actor : string)
| CMarkInTransit (ord : Order) (robotID actor : string)
| CAcknowledge (ord : Order) (actor : string)
| CMarkStaged (ord : Order) (actor : string)
| CMarkDelivered (ord : Order) (actor : string)
| CQueue (ord : Order) (actor reason : string)
| CMoveToSourcing (ord : Order) (actor reason : string)
| CDispatch (ord : Order) (vendorOrderID actor : string)
| CFailWithRef (ord : Order) (stationID errorCode detail : string) (ref : TermRef)
| CSkip (ord : Order) (stationID errorCode detail : string)
| CBeginReshuffle (ord : Order) (reason : string)
| CCompleteCompound (ord : Order)
| CResumeCompound (ord : Order)
| CMarkFaulted (ord : Order) (robotID : string) (ref : TermRef) (reason : string)
| CMarkFaultedRecovered (ord : Order) (robotID : string) (ref : TermRef) (reason : string)
| CMarkPending (ord : Order) (reason : string).

Definition run_call (c : Call) (s : Svc) : Svc :=
  match c with
  | CCancelOrder o st r => (CancelOrder o st r s).2
  | CConfirmReceipt o st rt n => (ConfirmReceipt o st rt n s).2
  | CRelease o a => (Release o a s).2
  | CMarkInTransit o r a => (MarkInTransit o r a s).2
  | CAcknowledge o a => (Acknowledge o a s).2
  | CMarkStaged o a => (MarkStaged o a s).2
  | CMarkDelivered o a => (MarkDelivered o a s).2
  | CQueue o a r => (Queue o a r s).2
  | CMoveToSourcing o a r => (MoveToSourcing o a r s).2
  | CDispatch o v a => (Dispatch o v a s).2
  | CFailWithRef o st ec d ref => (FailWithRef o st ec d ref s).2
  | CSkip o st ec d => (Skip o st ec d s).2
  | CBeginReshuffle o r => (BeginReshuffle o r s).2
  | CCompleteCompound o => (CompleteCompound o s).2
  | CResumeCompound o => (ResumeCompound o s).2
  | CMarkFaulted o rb ref r => (MarkFaulted o rb ref r s).2
  | CMarkFaultedRecovered o rb ref r => (MarkFaultedRecovered o rb ref r s).2
  | CMarkPending o r => (MarkPending o r s).2
  end.

(** MarkPending is the entry-point write of a freshly created order; the other
    methods have no precondition. *)
Definition call_ok (c : Call) (s : Svc) : Prop :=
  match c with
  | CMarkPending o _ =>
      forall o', orders (tables s) !! o_id o = Some o' -> o_status o' ∉ TerminalStatuses
  | _ => True
  end.

Definition terminal_row (id : Z) (h : Hist) : bool :=
  (h_order h =i id) && contains TerminalStatuses (h_status h).

Definition terminal_rows (id : Z) (d : CoreDB) : nat :=
  length (List.filter (terminal_row id) (history d)).

Definition ended (id : Z) (d : CoreDB) : Prop :=
  exists o, orders d !! id = Some o /\ o_status o ∈ TerminalStatuses.

Definition emit_ends (id : Z) (e : Emit) : bool :=
  match e with
  | EmitOrderCancelled o _ _ _ _ | EmitOrderFailed o _ _ _ _ | EmitOrderSkipped o _ _ _ _ => o =i id
  | _ => false
  end.

Definition ends_announced (id : Z) (s : Svc) : nat :=
  length (List.filter (emit_ends id) (emitted s)).

(** Terminal statuses survive; orders are never deleted and their terminal
    history rows are neither added nor dropped. *)
Definition env_ok (d d' : CoreDB) : Prop :=
  (forall id o, orders d !! id = Some o -> o_status o ∈ TerminalStatuses ->
     exists o', orders d' !! id = Some o' /\ o_status o' = o_status o) /\
  (forall id, terminal_rows id d' = terminal_rows id d).

(** One step: a call by anybody; somebody ends an order at the store, past the
    lifecycle; or the rest of the system writes (and the connection's future faults
    are arbitrary). *)
Inductive Step : Svc -> Svc -> Prop :=
| step_call c s : call_ok c s -> Step s (run_call c s)
| step_end id st detail reason s : st ∈ TerminalStatuses -> Step s (run_sql (TerminalizeOrderWithReason id st detail reason) s).2
| step_env s d' fs : env_ok (tables s) d' -> Step s (with_conn (mkConn d' fs) s).

(** At most one terminal history row and one end notification per order, and
    neither before the order has ended. *)
Record one_end (s : Svc) : Prop := {
  oe_rows : forall id, terminal_rows id (tables s) <= 1;
  oe_rows_ended : forall id, terminal_rows id (tables s) <> 0 -> ended id (tables s);
  oe_emits : forall id, ends_announced id s <= 1;
  oe_emits_ended : forall id, ends_announced id s <> 0 -> ended id (tables s)
}.

(** What a step may do to an order: a terminal status is kept, and rows and
    notifications grow by at most one, only when a live order ends. *)
Record advances (s s' : Svc) : Prop := {
  ad_keep : forall id o, orders (tables s) !! id = Some o -> o_status o ∈ TerminalStatuses ->
    exists o', orders (tables s') !! id = Some o' /\ o_status o' = o_status o;
  ad_rows : forall id, terminal_rows id (tables s') = terminal_rows id (tables s) \/
    (~ ended id (tables s) /\ ended id (tables s') /\
     terminal_rows id (tables s') = S (terminal_rows id (tables s)));
  ad_emits : forall id, ends_announced id s' = ends_announced id s \/
    (~ ended id (tables s) /\ ended id (tables s') /\
     ends_announced id s' = S (ends_announced id s))
}.

Lemma ended_kept id s s' : advances s s' -> ended id (tables s) -> ended id (tables s').
Proof.
  intros H (o & Ho & Ht). destruct (ad_keep _ _ H id o Ho Ht) as (o' & Ho' & E).
  exists o'. by rewrite E.
Qed.

#[export] Instance advances_preorder : PreOrder advances.
Proof.
  split.
  - intros s. constructor; eauto.
  - intros s1 s2 s3 H1 H2. constructor.
    + intros id o Ho Ht. destruct (ad_keep _ _ H1 id o Ho Ht) as (o2 & Ho2 & E2).
      rewrite <- E2 in Ht. destruct (ad_keep _ _ H2 id o2 Ho2 Ht) as (o3 & Ho3 & E3).
      exists o3. split; congruence.
    + intros id. pose proof (ended_kept id _ _ H1). pose proof (ended_kept id _ _ H2).
      destruct (ad_rows _ _ H1 id) as [E1|(N1 & M1 & E1)],
        (ad_rows _ _ H2 id) as [E2|(N2 & M2 & E2)]; rewrite E2, E1; try tauto;
        right; split_and!; tauto.
    + intros id. pose proof (ended_kept id _ _ H1). pose proof (ended_kept id _ _ H2).
      destruct (ad_emits _ _ H1 id) as [E1|(N1 & M1 & E1)],
        (ad_emits _ _ H2 id) as [E2|(N2 & M2 & E2)]; rewrite E2, E1; try tauto;
        right; split_and!; tauto.
Qed.

Lemma advances_one_end s s' : advances s s' -> one_end s -> one_end s'.
Proof.
  intros H [R RE E EE]. constructor; intros id.
  - destruct (ad_rows _ _ H id) as [->|(N & _ & ->)]; [done|].
    destruct (decide (terminal_rows id (tables s) = 0)) as [->|Hz]; [lia|].
    by destruct N; apply RE.
  - destruct (ad_rows _ _ H id) as [->|(_ & Y & _)]; [|done].
    intros Hz. eapply ended_kept; [done|]. by apply RE.
  - destruct (ad_emits _ _ H id) as [->|(N & _ & ->)]; [done|].
    destruct (decide (ends_announced id s = 0)) as [->|Hz]; [lia|].
    by destruct N; apply EE.
  - destruct (ad_emits _ _ H id) as [->|(_ & Y & _)]; [|done].
    intros Hz. eapply ended_kept; [done|]. by apply EE.
Qed.

(** Steps that move no status and add no row. *)
Lemma advances_quiet s s' :
  (forall id o, orders (tables s) !! id = Some o -> o_status o ∈ TerminalStatuses ->
     exists o', orders (tables s') !! id = Some o' /\ o_status o' = o_status o) ->
  (forall id, terminal_rows id (tables s') = terminal_rows id (tables s)) ->
  emitted s' = emitted s -> advances s s'.
Proof.
  intros Ho Hh He. constructor; [done|by left; auto|].
  intros id. left. unfold ends_announced. by rewrite He.
Qed.

Lemma advances_same_orders s s' :
  orders (tables s') = orders (tables s) -> history (tables s') = history (tables s) ->
  emitted s' = emitted s -> advances s s'.
Proof.
  intros Ho Hh He. apply advances_quiet; [|by intros id; unfold terminal_rows; rewrite Hh|done].
  intros id o Hid _. exists o. by rewrite Ho.
Qed.

Lemma live_not_terminal st : IsTerminal st = false -> st ∉ TerminalStatuses.
Proof. rewrite terminal_in_set. intros H [Ht _]. congruence. Qed.

Lemma valid_terminal_target from to :
  IsValidTransition from to = true -> IsTerminal to = true -> to ∈ TerminalStatuses.
Proof. intros Hv Ht. apply terminal_in_set. split; [done|by eapply valid_target_known]. Qed.

Lemma terminal_action_count from to :
  length (List.filter terminal_action (actions_for from to)) <= (if IsTerminal to then 1 else 0).
Proof.
  destruct (action_check (fun _ t acts =>
    (length (List.filter terminal_action acts) <=? (if IsTerminal t then 1 else 0))%nat)
    from to eq_refl) as [->|H]; [cbn; lia|]. by apply Nat.leb_le.
Qed.

Lemma emission_ends id a ord ev :
  emit_ends id (emission a ord ev) = terminal_action a && (o_id ord =i id).
Proof. by destruct a. Qed.

Lemma ends_in_emissions id acts ord ev :
  length (List.filter (emit_ends id) (map (fun a => emission a ord ev) acts)) =
  if o_id ord =i id then length (List.filter terminal_action acts) else 0.
Proof.
  induction acts as [|a acts IH]; cbn [map List.filter]; [by destruct (_ =i _)|].
  rewrite emission_ends. destruct (terminal_action a); cbn [andb];
    destruct (o_id ord =i id); cbn [length]; rewrite IH; done.
Qed.

Lemma terminal_rows_snoc id row h :
  length (List.filter (terminal_row id) (h ++ [row])) =
  length (List.filter (terminal_row id) h) + (if terminal_row id row then 1 else 0).
Proof. rewrite List.filter_app, length_app. cbn. by destruct (terminal_row id row). Qed.

Lemma landed_live ord to d d' :
  IsValidTransition (o_status ord) to = true -> landed ord to d d' -> ~ ended (o_id ord) d.
Proof.
  intros Hv (o & row & err & Ho & Hfrom & _) (o' & Ho' & Ht). rewrite Ho in Ho'. simplify_eq.
  destruct (IsTerminal to); [done|]. rewrite Hfrom in Ht.
  apply live_not_terminal in Ht; [done|]. by eapply valid_source_live.
Qed.

Lemma landed_ended ord to d d' :
  to ∈ TerminalStatuses -> landed ord to d d' -> ended (o_id ord) d'.
Proof.
  intros Ht (o & row & err & _ & _ & Ho & _). eexists. rewrite Ho, lookup_insert_eq. by split.
Qed.

Lemma transition_advances ord to ev s : advances s (transition ord to ev s).2.
Proof.
  pose proof (transition_spec ord to ev s) as H.
  destruct (transition ord to ev s) as [[[[]|e] ord'] s']; cbn [snd transition_post] in *.
  2: { destruct H as (_ & He & [(_ & _ & ->)|[(_ & _ & Ho & Hh & _)|(_ & Ht)]]).
       - reflexivity.
       - by apply advances_same_orders.
       - apply advances_same_orders; by rewrite ?Ht. }
  destruct H as (Hv & -> & Hl & He).
  pose proof (landed_live _ _ _ _ Hv Hl) as Hlive.
  assert (Hend : IsTerminal to = true -> ended (o_id ord) (tables s')).
  { intros Ht. eapply landed_ended; [|done]. by eapply valid_terminal_target. }
  destruct Hl as (o & row & err & Ho & _ & Hos & Hh & Hrow & Hst & _). constructor.
  - intros id o' Hid Ht. rewrite Hos. destruct (decide (id = o_id ord)) as [->|Hne].
    + destruct Hlive. by exists o'.
    + rewrite lookup_insert_ne by done. eauto.
  - intros id. unfold terminal_rows. rewrite Hh, terminal_rows_snoc.
    replace (terminal_row id row) with ((o_id ord =i id) && contains TerminalStatuses to)
      by (unfold terminal_row; by rewrite Hrow, Hst).
    destruct (Z.eqb_spec (o_id ord) id) as [<-|Hne]; cbn [andb]; [|left; lia].
    destruct (contains TerminalStatuses to) eqn:Hc; [|left; lia].
    right. apply contains_true, terminal_in_set in Hc as [Hc _]. split_and!; [done|auto|lia].
  - intros id. unfold ends_announced.
    rewrite He, List.filter_app, length_app, ends_in_emissions. cbn [o_id set_ord_status with_status].
    pose proof (terminal_action_count (o_status ord) to) as Hc.
    destruct (Z.eqb_spec (o_id ord) id) as [<-|Hne]; [|left; lia].
    destruct (IsTerminal to) eqn:Ht; [|left; lia].
    destruct (length (List.filter terminal_action _)) as [|n] eqn:En; [left; lia|].
    right. split_and!; [done|auto|lia].
Qed.

Lemma alter_keeps_status f (id0 id : Z) (m : gmap Z Order) o :
  (forall o, o_status (f o) = o_status o) -> m !! id = Some o ->
  exists o', alter f id0 m !! id = Some o' /\ o_status o' = o_status o.
Proof.
  intros Hf Ho. destruct (decide (id = id0)) as [->|Hne].
  - exists (f o). by rewrite lookup_alter_eq, Ho.
  - exists o. by rewrite lookup_alter_ne.
Qed.

(** Stamping a code leaves the audit trail's orders and statuses alone. *)
Lemma stamp_first_rows id p code l :
  length (List.filter (terminal_row id) (stamp_first p code l)) =
  length (List.filter (terminal_row id) l).
Proof.
  induction l as [|h l IH]; cbn [stamp_first]; [done|].
  destruct (p h); cbn [List.filter];
    [replace (terminal_row id (with_code code h)) with (terminal_row id h) by done|];
    destruct (terminal_row id h); cbn [length]; congruence.
Qed.

Lemma filter_reverse_length {A} (f : A -> bool) l :
  length (List.filter f (reverse l)) = length (List.filter f l).
Proof.
  induction l as [|x l IH]; [done|].
  rewrite reverse_cons, List.filter_app, length_app, IH. cbn. destruct (f x); cbn; lia.
Qed.

Lemma stamp_last_rows id id0 code l :
  length (List.filter (terminal_row id) (stamp_last_queued id0 code l)) =
  length (List.filter (terminal_row id) l).
Proof.
  unfold stamp_last_queued. by rewrite filter_reverse_length, stamp_first_rows, filter_reverse_length.
Qed.

Lemma Complete_advances id s : advances s (run_sql (Complete id) s).2.
Proof.
  apply advances_quiet; [| |apply run_sql_emitted]; rewrite run_sql_tables;
    destruct (Complete id (conn s)) as [[[]|e] c'] eqn:E; cbn [snd];
    try (apply Complete_ok in E; rewrite E); try (apply tx_err in E; rewrite E).
  - intros id' o Ho _. by apply alter_keeps_status.
  - intros id' o Ho _. eauto.
  - done.
  - done.
Qed.

Lemma SetQueueDetail_advances id r co ca s : advances s (run_sql (SetQueueDetail id r co ca) s).2.
Proof.
  apply advances_quiet; [| |apply run_sql_emitted]; rewrite run_sql_tables;
    destruct (SetQueueDetail id r co ca (conn s)) as [[[]|e] c'] eqn:E; cbn [snd];
    try (apply SetQueueDetail_ok in E; rewrite E; unfold queue_spec);
    try (apply tx_err in E; rewrite E).
  - intros id' o Ho _. by destruct (co =s ""); apply alter_keeps_status.
  - intros id' o Ho _. eauto.
  - intros id'. destruct (co =s ""); [done|]. apply stamp_last_rows.
  - done.
Qed.

Lemma UpdateStatus_ok id st detail c c' :
  UpdateStatus id st detail c = (Ok (), c') ->
  exists o err, orders (db c) !! id = Some o /\ IsTerminal st = false /\
    db c' = set_history (fun l => l ++ [history_row id st detail noReason])
      (set_orders <[id := with_status st err (clock_now (db c)) o]> (db c)).
Proof.
  unfold UpdateStatus. destruct (IsTerminal st); [done|]. intros H.
  apply tx_ok in H as (k & c0 & c1 & H0 & H & H1).
  apply sbind_ok in H as (n & c2 & H2%stmt_ok & H). rewrite H0 in H2.
  apply sbind_ok in H as ([] & c3 & Hh%stmt_checked_ok & H). sql_inv H.
  unfold insert_history in Hh. cbn [h_order history_row] in Hh.
  apply update_order_spec in H2 as [(o & Ho & _ & _ & Hd)|(_ & Hd & Hl)].
  - rewrite Hd in Hh. cbn [orders set_orders] in Hh. rewrite lookup_insert_eq in Hh.
    injection Hh as Hh. eexists o, _. rewrite H1, <- Hh. by split_and!.
  - rewrite Hd in Hh. destruct (orders (db c) !! id) as [o|] eqn:Ho; [|done].
    by specialize (Hl o eq_refl).
Qed.

Lemma MarkPending_advances ord reason s :
  call_ok (CMarkPending ord reason) s -> advances s (MarkPending ord reason s).2.
Proof.
  intros Hok. unfold MarkPending.
  assert (advances s (run_sql (UpdateStatus (o_id ord) StatusPending reason) s).2).
  2: by destruct (run_sql _ s) as [[[]|e] s1].
  apply advances_quiet; [| |apply run_sql_emitted]; rewrite run_sql_tables;
    destruct (UpdateStatus (o_id ord) StatusPending reason (conn s)) as [[[]|e] c'] eqn:E;
    cbn [snd]; try (apply UpdateStatus_ok in E as (o0 & err & Ho0 & _ & E); rewrite E);
    try (apply tx_err in E; rewrite E).
  - intros id o Ho Ht. cbn [orders set_history set_orders]. destruct (decide (id = o_id ord)) as [->|Hne].
    + by destruct (Hok o Ho).
    + rewrite lookup_insert_ne by done. eauto.
  - eauto.
  - intros id. unfold terminal_rows. cbn [history set_history set_orders].
    rewrite terminal_rows_snoc.
    replace (terminal_row id _) with false; [by rewrite Nat.add_0_r|].
    unfold terminal_row. cbn [h_status history_row]. by rewrite andb_false_r.
  - done.
Qed.

Lemma end_advances id st detail reason s :
  st ∈ TerminalStatuses -> advances s (run_sql (TerminalizeOrderWithReason id st detail reason) s).2.
Proof.
  intros Hst. pose proof (run_sql_emitted (TerminalizeOrderWithReason id st detail reason) s) as He.
  pose proof (run_sql_tables (TerminalizeOrderWithReason id st detail reason) s) as Ht.
  destruct (TerminalizeOrderWithReason id st detail reason (conn s)) as [[won|e] c'] eqn:E; cbn [snd] in Ht.
  2: { apply terminalize_err in E. apply advances_same_orders; [by rewrite Ht, E..|done]. }
  apply terminalize_ok in E. symmetry in E. apply terminalize_spec_shape in E as (Hw & Ho & Hh & _). rewrite <- Ht in Ho, Hh.
  constructor; [| |intros x; left; unfold ends_announced; by rewrite He].
  - intros x o Hx Hend. rewrite Ho. destruct won; [|eauto]. destruct (decide (x = id)) as [->|Hne].
    + destruct Hw as [Hw _]. destruct (Hw eq_refl) as (o' & Ho' & Hn). assert (o' = o) as -> by (unfold tables in Hx; congruence). done.
    + rewrite lookup_alter_ne by done. eauto.
  - intros x. unfold terminal_rows. rewrite Hh. destruct won; [|left; by rewrite app_nil_r]. rewrite terminal_rows_snoc.
    change (terminal_row x (history_row id st detail reason)) with ((id =i x) && contains TerminalStatuses st).
    rewrite (proj2 (contains_true _ _) Hst), andb_true_r. destruct (Z.eqb_spec id x) as [<-|Hne];
      [|left; by rewrite Nat.add_0_r].
    destruct Hw as [Hw _]. destruct (Hw eq_refl) as (o & Hid & Hn). right. split_and!.
    + intros (o' & Ho' & Hend). unfold tables in Ho'. congruence.
    + exists (with_status st (err_detail st detail) (clock_now (db (conn s))) o). split; [|done]. rewrite Ho, lookup_alter_eq, Hid. done.
    + apply Nat.add_1_r.
Qed.

Lemma step_advances s s' : Step s s' -> advances s s'.
Proof.
  intros [c s0 Hok|id st detail reason s0 Hst|s0 d' fs [H1 H2]]; [|by apply end_advances|by apply advances_quiet].
  destruct c; cbn [run_call]; try apply transition_advances.
  - unfold CancelOrder. destruct (IsTerminal _); [reflexivity|].
    set (s1 := if o_vendor_id ord <>s "" then vendor_cancel (o_vendor_id ord) s0 else s0).
    assert (H1 : advances s0 s1) by (unfold s1; destruct (o_vendor_id ord <>s "");
      [by apply advances_same_orders|reflexivity]).
    etransitivity; [exact H1|].
    pose proof (transition_advances ord StatusCancelled
      (event_at ("system:" +:+ stationID) reason stationID) s1) as H2.
    by destruct (transition _ _ _ s1) as [[? ?] ?].
  - unfold ConfirmReceipt. destruct (o_completed_at ord); [reflexivity|].
    match goal with |- context [transition ?a ?b ?e ?s] =>
      pose proof (transition_advances a b e s) as H2;
      destruct (transition a b e s) as [[[[]|?] ?] s1] end; [|done].
    etransitivity; [exact H2|]. pose proof (Complete_advances (o_id ord) s1) as H3.
    by destruct (run_sql _ s1) as [[[]|?] s2].
  - unfold MoveToSourcing. destruct (_ =s _); [reflexivity|]. apply transition_advances.
  - unfold FailWithRef. destruct (IsTerminal _); [reflexivity|]. apply transition_advances.
  - unfold Skip. destruct (IsTerminal _); [reflexivity|]. apply transition_advances.
  - unfold ResumeCompound.
    match goal with |- context [transition ?a ?b ?e ?s] =>
      pose proof (transition_advances a b e s) as H2;
      destruct (transition a b e s) as [[[[]|?] ?] s1] end; [|done].
    etransitivity; [exact H2|].
    pose proof (SetQueueDetail_advances (o_id ord) "" "" "" s1) as H3.
    by destruct (run_sql _ s1) as [[[]|?] s2].
  - by apply MarkPending_advances.
Qed.

Lemma steps_advance s s' : rtc Step s s' -> advances s s'.
Proof.
  induction 1 as [|s1 s2 s3 H _ IH]; [reflexivity|]. etransitivity; [by apply step_advances|done].
Qed.

(** ** The claims *)

Lemma demo_one_end fs : one_end (mkSvc (mkConn demo_db fs) None [] [] []).
Proof. by constructor; intros id; cbn; try lia. Qed.

(** C3. An order ends once, under every interleaving.  From a consistent state,
    whatever sequence of lifecycle calls is made by callers holding arbitrarily
    stale snapshots, whoever ends orders at the store past the lifecycle, with driver
    faults anywhere: a terminal status is never left or replaced, an order gets at
    most one terminal history row, and at most one of the cancelled, failed and
    skipped notifications is ever emitted for it.  Two things are asked of the
    others: MarkPending, a raw write, is called on no order that has ended (its one
    caller uses it on the row it has just created); and whatever else is written in
    between leaves the statuses and history rows of ended orders alone (the
    completion repair, which adds a second 'confirmed' row to an order already
    confirmed, does not and is left out). *)
Theorem terminal_is_final (s s' : Svc) :
  one_end s -> rtc Step s s' ->
  one_end s' /\
  forall id o, orders (tables s) !! id = Some o -> o_status o ∈ TerminalStatuses ->
    (exists o', orders (tables s') !! id = Some o' /\ o_status o' = o_status o) /\
    terminal_rows id (tables s') = terminal_rows id (tables s) /\
    ends_announced id s' = ends_announced id s.
Proof.
  intros H Hs%steps_advance. split; [by eapply advances_one_end|]. intros id o Ho Ht.
  assert (Hend : ended id (tables s)) by (by exists o).
  split_and!; [by eapply ad_keep| |].
  - by destruct (ad_rows _ _ Hs id) as [?|(? & _)].
  - by destruct (ad_emits _ _ Hs id) as [?|(? & _)].
Qed.

Lemma terminal_is_final_witness :
  let s := mkSvc (mkConn demo_db []) None [] [] [] in
  let s1 := run_call (CCancelOrder (demo_order 2 StatusDispatched) "ST1" "operator") s in
  let s2 := run_call (CMoveToSourcing (demo_order 3 StatusQueued) "scanner" "tick") s1 in
  let s3 := run_call (CFailWithRef (demo_order 2 StatusInTransit) "ST1" "no_bin" "" emptyRef) s2 in
  one_end s3 /\ ends_announced 2 s3 = 1.
Proof.
  intros s s1 s2 s3. split; [|vm_compute; reflexivity].
  apply (terminal_is_final s s3); [apply demo_one_end|].
  apply (rtc_l _ _ s1); [by apply step_call|]. apply (rtc_l _ _ s2); [by apply step_call|].
  apply rtc_once. by apply step_call.
Defined.

(** Every status write of the driver is an edge of the transition table from
    the status actually stored, however stale the caller's snapshot, for every
    non-terminal target and for cancelled and failed; it touches only the
    caller's order, and never a terminal one. *)
Theorem status_moves_are_legal (ord : Order) (to : Status) (ev : Event) (s : Svc) (id : Z)
    (o o' : Order) :
  orders (tables s) !! id = Some o -> o_status o ∈ AllStatuses ->
  orders (tables (transition ord to ev s).2) !! id = Some o' ->
  o_status o' <> o_status o ->
  id = o_id ord /\ o_status o' = to /\ IsTerminal (o_status o) = false /\
  (IsTerminal to = false \/ to = StatusCancelled \/ to = StatusFailed ->
     IsValidTransition (o_status o) to = true).
Proof.
  intros Ho Hk Ho' Hne. pose proof (transition_spec ord to ev s) as H.
  destruct (transition ord to ev s) as [[[[]|e] ord'] s']; cbn [snd transition_post] in *.
  2: { exfalso. destruct H as (_ & _ & [(_ & _ & ->)|[(_ & _ & Hos & _)|(_ & Ht)]]);
       rewrite ?Hos, ?Ht in Ho'; congruence. }
  destruct H as (Hv & _ & Hl & _). pose proof (landed_live _ _ _ _ Hv Hl) as Hlive.
  destruct Hl as (o0 & row & err & Ho0 & Hfrom & Hos & _). rewrite Hos in Ho'.
  destruct (decide (id = o_id ord)) as [->|Hid].
  2: { rewrite lookup_insert_ne in Ho' by done. congruence. }
  rewrite lookup_insert_eq in Ho'. simplify_eq.
  assert (Hnt : IsTerminal (o_status o) = false).
  { destruct (IsTerminal (o_status o)) eqn:E; [|done]. destruct Hlive. exists o.
    split; [done|]. by apply terminal_in_set. }
  split_and!; [done..|]. intros Hto. destruct (IsTerminal to) eqn:Ht; [|by rewrite Hfrom].
  pose proof (vocab_check (fun s => IsTerminal s ||
    (IsValidTransition s StatusCancelled && IsValidTransition s StatusFailed))
    eq_refl (o_status o) Hk) as Hc.
  cbv beta in Hc. rewrite Hnt in Hc. cbn [orb] in Hc. breflect.
  by destruct Hto as [?|[->| ->]].
Qed.

(** On a healthy connection a terminal write on a live row lands. *)
Lemma terminal_lands ord to ev s o :
  faults (conn s) = [] -> IsTerminal to = true ->
  IsValidTransition (o_status ord) to = true ->
  orders (tables s) !! o_id ord = Some o -> o_status o ∉ TerminalStatuses ->
  exists ord' s', transition ord to ev s = (Ok (), ord', s').
Proof.
  intros Hf Ht Hv Ho Hl. unfold transition. rewrite Hv. cbn [negb]. unfold run_sql, persist.
  rewrite Ht. match goal with |- context [TerminalizeOrderWithReason ?a ?b ?c ?d ?e] =>
    pose proof (terminalize_no_fault a b c d e Hf) as Hok;
    pose proof (terminalize_ok a b c d e) as Hspec;
    destruct (TerminalizeOrderWithReason a b c d e) as [[won|err] c'] end; [|done].
  specialize (Hspec won c' eq_refl). symmetry in Hspec.
  apply terminalize_spec_shape in Hspec as (Hw & _).
  assert (won = true) as -> by (apply Hw; eauto). eauto.
Qed.

(** And so does any other legal write of a caller whose snapshot is current. *)
Lemma cas_lands ord to ev s o :
  faults (conn s) = [] -> IsTerminal to = false -> IsValidTransition (o_status ord) to = true ->
  orders (tables s) !! o_id ord = Some o -> o_status o = o_status ord ->
  exists ord' s', transition ord to ev s = (Ok (), ord', s').
Proof.
  intros Hf Ht Hv Ho Hs. unfold transition. rewrite Hv. cbn [negb]. unfold run_sql, persist.
  rewrite Ht. match goal with |- context [UpdateStatusFromWithReason ?a ?b ?c ?d ?e ?g] =>
    pose proof (cas_no_fault a b c d e g Hf Ht) as Hok;
    pose proof (cas_ok a b c d e g) as Hspec;
    destruct (UpdateStatusFromWithReason a b c d e g) as [[won|err] c'] end; [|done].
  destruct (Hspec won c' eq_refl) as [_ Hw]. unfold cas_spec in Hw. unfold tables in Ho.
  rewrite Ho, Hs, seqb_refl in Hw. injection Hw as -> _. eauto.
Qed.

Lemma transition_vendor ord to ev s :
  vendor_cancels (transition ord to ev s).2 = vendor_cancels s.
Proof.
  assert (Ha : forall acts o e s, vendor_cancels (run_actions acts o e s) = vendor_cancels s).
  { clear. unfold run_actions. induction acts as [|a acts IH]; intros o e s; [done|].
    cbn [fold_left]. rewrite IH. by destruct a. }
  assert (Hf : forall o t e s, vendor_cancels (noteFutility o t e s) = vendor_cancels s).
  { clear. intros o t e s. unfold noteFutility, run_sql. destruct (futility s); [|done].
    destruct (t =s StatusInTransit); [done|]. destruct (negb (IsTerminal t)); [done|].
    destruct (EverReachedStatus _ _ _) as [[[]|] c]; [done| |done].
    by destruct (NoteFutileTerminal _ _ _ _ _ _) as [[b d] rep]. }
  unfold transition, run_sql. destruct (negb _); [done|].
  destruct (persist _ _ _ _) as [[[]|e] c']; [|done..]. cbn [snd]. by rewrite Ha, Hf.
Qed.

(** A cancel is operator intent that lands from any live state.  On a healthy
    connection, with any live snapshot - however stale - of an order that is
    still live in the database, CancelOrder cancels the vendor leg if the
    snapshot names one, leaves the row cancelled and the order holding nothing,
    and announces it (unless the snapshot still said [submitted]). *)
Theorem cancel_always_lands (ord o : Order) (stationID reason : string) (s : Svc) :
  faults (conn s) = [] -> IsTerminal (o_status ord) = false ->
  orders (tables s) !! o_id ord = Some o -> o_status o ∉ TerminalStatuses ->
  let s' := (CancelOrder ord stationID reason s).2 in
  (exists o', orders (tables s') !! o_id ord = Some o' /\ o_status o' = StatusCancelled) /\
  holds_nothing (o_id ord) (tables s') /\
  vendor_cancels s' =
    vendor_cancels s ++ (if o_vendor_id ord =s "" then [] else [o_vendor_id ord]) /\
  (o_status ord <> StatusSubmitted ->
     emitted s' = emitted s ++
       [EmitOrderCancelled (o_id ord) (o_uuid ord) stationID reason (o_status ord)]).
Proof.
  intros Hf Ht Ho Hl. unfold CancelOrder. rewrite Ht.
  set (s1 := if o_vendor_id ord <>s "" then vendor_cancel (o_vendor_id ord) s else s).
  assert (H1 : conn s1 = conn s /\ emitted s1 = emitted s /\
    vendor_cancels s1 = vendor_cancels s ++ (if o_vendor_id ord =s "" then [] else [o_vendor_id ord])).
  { unfold s1. destruct (o_vendor_id ord =s ""); cbn [negb]; [|done]. by rewrite app_nil_r. }
  destruct H1 as (Hc & He & Hvc).
  assert (Ht1 : tables s1 = tables s) by (unfold tables; by rewrite Hc).
  set (ev := event_at _ _ _).
  assert (Hv : IsValidTransition (o_status ord) StatusCancelled = true).
  { pose proof (vocab_check (fun s => IsTerminal s || IsValidTransition s StatusCancelled)
      eq_refl _ (live_is_known _ Ht)) as H. cbv beta in H. by rewrite Ht in H. }
  destruct (terminal_lands ord StatusCancelled ev s1 o) as (ord' & s' & E);
    [by rewrite Hc|done|done|by rewrite Ht1|done|].
  pose proof (transition_spec ord StatusCancelled ev s1) as Hp.
  pose proof (transition_vendor ord StatusCancelled ev s1) as Hvt.
  rewrite E in *. cbn [snd transition_post] in *.
  destruct Hp as (_ & -> & (o0 & row & err & _ & _ & Hos & _ & _ & _ & Hrel & _) & Hem).
  split_and!.
  - eexists. rewrite Hos, lookup_insert_eq. by split.
  - by apply Hrel.
  - by rewrite Hvt.
  - intros Hsub. rewrite Hem, He.
    replace (actions_for (o_status ord) StatusCancelled) with [aCancelled]; [done|].
    symmetry. pose proof (edge_check (fun f t => (f =s StatusSubmitted) ||
      (if t =s StatusCancelled then bool_decide (actions_for f t = [aCancelled]) else true))
      eq_refl _ _ Hv) as H. cbv beta in H. rewrite (seqb_neq _ _ Hsub) in H. cbn [orb] in H.
    eapply bool_decide_eq_true_1. exact H.
Qed.

(** Skipping is not guarded against a stale snapshot: with a snapshot that
    still says [queued], Skip succeeds on any live row - also one the fleet
    already owns, which the transition table and the action map's comment rule
    out - and the fleet order is not cancelled. *)
Theorem stale_skip_escapes_table (ord o : Order) (stationID code detail : string) (s : Svc) :
  faults (conn s) = [] -> o_status ord = StatusQueued ->
  orders (tables s) !! o_id ord = Some o -> o_status o ∉ TerminalStatuses ->
  let '(res, _, s') := Skip ord stationID code detail s in
  res = Ok () /\
  (exists o', orders (tables s') !! o_id ord = Some o' /\ o_status o' = StatusSkipped) /\
  vendor_cancels s' = vendor_cancels s /\
  (IsVendorTracked (o_status o) = true -> IsValidTransition (o_status o) StatusSkipped = false).
Proof.
  intros Hf Hs Ho Hl. unfold Skip. rewrite Hs.
  change (IsTerminal StatusQueued) with false. cbv iota. set (ev := mkEvent _ _ _ _ _ _ _ _).
  destruct (terminal_lands ord StatusSkipped ev s o) as (ord' & s' & E);
    [done|done|by rewrite Hs|done|done|].
  pose proof (transition_spec ord StatusSkipped ev s) as Hp.
  pose proof (transition_vendor ord StatusSkipped ev s) as Hvt.
  rewrite E in *. cbn [snd transition_post] in *.
  destruct Hp as (_ & _ & (o0 & row & err & _ & _ & Hos & _) & _). split_and!; [done| |done|].
  - eexists. rewrite Hos, lookup_insert_eq. by split.
  - unfold IsVendorTracked, IsVendorActive. intros H.
    repeat (apply orb_true_iff in H as [H|H]); by apply String.eqb_eq in H as ->.
Qed.

(** A resumed compound parent tells the Edge before the scanner runs: a
    successful ResumeCompound moves the stored row from reshuffling to queued,
    emits the resumed notification and then the queued one and nothing else,
    and clears the order's queue sentence, code and cause unless the clearing
    write itself failed; a refused resume emits nothing. *)
Theorem resume_tells_edge_first (ord : Order) (s : Svc) :
  let '(res, ord', s') := ResumeCompound ord s in
  match res with
  | Err _ => emitted s' = emitted s /\ ord' = ord
  | Ok _ =>
      o_status ord = StatusReshuffling ->
      emitted s' = emitted s ++
        [EmitOrderResumed (o_id ord) (o_uuid ord) (o_station ord);
         EmitOrderQueued (o_id ord) (o_uuid ord) (o_station ord) ""] /\
      exists o', orders (tables s') !! o_id ord = Some o' /\ o_status o' = StatusQueued /\
        (o_queue_code ord' <> o_queue_code ord -> o_queue_code o' = "" /\ o_queue_reason o' = "")
  end.
Proof.
  unfold ResumeCompound. set (ev := event_at _ _ _).
  pose proof (transition_spec ord StatusQueued ev s) as Hp.
  destruct (transition ord StatusQueued ev s) as [[[[]|e] ord1] s1]; cbn [transition_post] in Hp.
  2: { by destruct Hp as (-> & -> & _). }
  destruct Hp as (_ & -> & (o0 & row & err & _ & _ & Hos & _) & Hem).
  pose proof (run_sql_emitted (SetQueueDetail (o_id ord) "" "" "") s1) as He.
  pose proof (run_sql_tables (SetQueueDetail (o_id ord) "" "" "") s1) as Htb.
  unfold run_sql in *.
  destruct (SetQueueDetail _ _ _ _ (conn s1)) as [[[]|e] c'] eqn:E; cbn [snd] in *; intros Hs;
    (split; [rewrite He, Hem, Hs; reflexivity|]).
  - apply SetQueueDetail_ok in E. eexists. split.
    + rewrite Htb, E. unfold queue_spec. cbn [String.eqb orders set_orders].
      rewrite lookup_alter_eq. unfold tables in Hos. rewrite Hos, lookup_insert_eq. reflexivity.
    + done.
  - apply tx_err in E. eexists. split.
    + rewrite Htb, E. unfold tables in Hos. rewrite Hos, lookup_insert_eq. reflexivity.
    + split; [done|]. by intros [].
Qed.

