(* ===== verification/Waybill.v ===== *)
(** Handing work to the fleet: the create and its claim (dispatch/fleet_handover.go),
    the append of the next segment (dispatch/complex_release.go) and the lane
    gate's release of a tail (dispatch/lane_gate_dispatch.go).

    The state is the order service of Lifecycle.v, a fleet behind the interface of
    Fleet.v, and the plans stored with the order rows.  Logging is left out. *)

From stdpp Require Import pretty.
From S2P Require Import Prelude Status Sql CoreDb Reservations Mouth OrderStore Lifecycle GatedPlan Fleet.

Record World (F : Type) := mkWorld { w_svc : Svc; w_fleet : F; w_plans : gmap Z Stored }.
Arguments mkWorld {F}.
Arguments w_svc {F}.
Arguments w_fleet {F}.
Arguments w_plans {F}.

Definition with_wait_index (n : Z) (now : Z) (o : Order) : Order :=
  mkOrder (o_id o) (o_uuid o) (o_station o) (o_status o) (o_error_detail o) (o_vendor_id o) (o_process_node o)
    (o_delivery_node o) (o_payload o) (o_queue_reason o) (o_queue_code o) (o_queue_cause o) n (o_completed_at o) now.
Definition with_vendor (v : string) (now : Z) (o : Order) : Order :=
  mkOrder (o_id o) (o_uuid o) (o_station o) (o_status o) (o_error_detail o) v (o_process_node o)
    (o_delivery_node o) (o_payload o) (o_queue_reason o) (o_queue_code o) (o_queue_cause o) (o_wait_index o) (o_completed_at o) now.

(** orders.UpdateWaitIndex, orders.UpdateVendor, orders.Get *)
Definition UpdateWaitIndex (id n : Z) : CoreSQL unit :=
  exec (fun d => (update_order id (fun _ => true) (with_wait_index n (clock_now d)) d).2).
Definition UpdateVendor (id : Z) (v : string) : CoreSQL unit :=
  exec (fun d => (update_order id (fun _ => true) (with_vendor v (clock_now d)) d).2).
Definition GetOrder (id : Z) : CoreSQL (option Order) := query (fun d => orders d !! id).

Section Waybill.
Context {F : Type} `{!Backend F}.
Implicit Types w : World F.

Definition in_svc (s : Svc) (w : World F) : World F := mkWorld s (w_fleet w) (w_plans w).
Definition in_fleet (f : F) (w : World F) : World F := mkWorld (w_svc w) f (w_plans w).

(** ** The append *)

Inductive AppendError := NotLanded (e : FleetError) | Landed (e : error).

Definition IsAppendLanded (e : AppendError) : bool := match e with Landed _ => true | NotLanded _ => false end.

(** [errors.As(err, &it)] with [it.From == it.To]. *)
Definition already_there (e : error) : bool :=
  match e with EIllegalTransition from to => from =s to | _ => false end.

(** The caller's struct after the witness advanced. *)
Definition bump (ord : Order) : Order := with_wait_index (o_wait_index ord + 1) (o_updated_at ord) ord.

Definition appendSegmentAndAdvance (ord : Order) (segment : list resolvedStep) (moreWaits : bool) (blockOffset : Z) (w : World F)
    : outcome AppendError unit * Order * World F :=
  let blocks := stepsToBlocks (o_vendor_id ord) segment blockOffset [] in
  match ReleaseOrder (o_vendor_id ord) blocks (negb moreWaits) (w_fleet w) with
  | (Err e, f1) => (Err (NotLanded e), ord, in_fleet f1 w)
  | (Ok _, f1) =>
      match run_sql (UpdateWaitIndex (o_id ord) (o_wait_index ord + 1)) (w_svc w) with
      | (Err e, s1) => (Err (Landed e), ord, in_svc s1 (in_fleet f1 w))
      | (Ok _, s1) =>
          match Release ord "dispatcher" s1 with
          | (Ok _, ord1, s2) => (Ok (), bump ord1, in_svc s2 (in_fleet f1 w))
          | (Err e, ord1, s2) =>
              if already_there e then (Ok (), bump ord1, in_svc s2 (in_fleet f1 w))
              else (Err (Landed e), bump ord1, in_svc s2 (in_fleet f1 w))
          end
      end
  end.

(** ** The gate's tail *)

Inductive TailError :=
| TeReload (e : error)
| TeParse
| TeNoSegment (waitIndex : Z)
| TeNoWait (waitIndex : Z)
| TeOccupancy (e : error)
| TeAppend (e : AppendError).

Definition takeLaneOccupancyByID (orderID laneID : Z) : CoreSQL bool :=
  if laneID =i 0 then sret false else AcquireOccupancy orderID laneID.

(** Roll back what this call took, unless the robot has the segment. *)
Definition give_back (took : bool) (e : AppendError) (orderID lane : Z) (w : World F) : World F :=
  if took && negb (IsAppendLanded e)
  then in_svc (run_sql (ReleaseOccupancyForLane orderID lane) (w_svc w)).2 w else w.

(** [stored] is the caller's copy of steps_json; the flag says whether this call
    went on to append. *)
Definition appendGateTail (ord : Order) (stored : Stored) (w : World F) : outcome TailError bool * Order * World F :=
  match run_sql (GetOrder (o_id ord)) (w_svc w) with
  | (Err e, s1) => (Err (TeReload e), ord, in_svc s1 w)
  | (Ok None, s1) => (Err (TeReload EDriver), ord, in_svc s1 w)
  | (Ok (Some fresh), s1) =>
      let w1 := in_svc s1 w in
      if negb (IsGateStaged (o_vendor_id fresh) (default NoPlan (w_plans w !! o_id ord)) (o_wait_index fresh))
      then (Ok false, ord, w1)
      else match stored with
      | NoPlan | Garbled => (Err TeParse, ord, w1)
      | Plan steps =>
          match splitSegment steps (o_wait_index ord) with
          | (None, _, _) => (Err (TeNoSegment (o_wait_index ord)), ord, w1)
          | (Some segment, moreWaits, blockOffset) =>
              match waitAt steps (o_wait_index ord) with
              | None => (Err (TeNoWait (o_wait_index ord)), ord, w1)
              | Some wt =>
                  match run_sql (takeLaneOccupancyByID (o_id ord) (ps_lane wt)) s1 with
                  | (Err e, s2) => (Err (TeOccupancy e), ord, in_svc s2 w)
                  | (Ok took, s2) =>
                      match appendSegmentAndAdvance ord segment moreWaits blockOffset (in_svc s2 w) with
                      | (Ok _, ord1, w3) => (Ok true, ord1, w3)
                      | (Err e, ord1, w3) => (Err (TeAppend e), ord1, give_back took e (o_id ord) (ps_lane wt) w3)
                      end
                  end
              end
          end
      end
  end.

(** ** The create *)

Inductive HandoverError :=
| HeClaim (e : error)     (** not claimed; nothing was sent *)
| HeCreate (e : FleetError)
| HeEnded (st : Status)   (** the order ended while the fleet call was in flight; the text says "cancelled" *)
| HeUnnamed (e : error).  (** the row could not be given the vendor id *)

(** The terminal status of the row that was read, if it was and is one. *)
Definition ended_status (fresh : outcome error (option Order)) : option Status :=
  match fresh with Ok (Some o) => if IsTerminal (o_status o) then Some (o_status o) else None | _ => None end.

(** [meanwhile] is what others write to the tables while the fleet call is in
    flight.  A cancel that fails is only logged. *)
Definition handoverToFleet (meanwhile : CoreDB -> CoreDB) (ord : Order) (req : CreateOrderRequest) (actor : string) (w : World F)
    : outcome HandoverError unit * Order * World F :=
  let v := cr_id req in
  match Dispatch ord v actor (w_svc w) with
  | (Err e, ord1, s1) => (Err (HeClaim e), ord1, in_svc s1 w)
  | (Ok _, ord1, s1) =>
      let s1' := with_conn (mkConn (meanwhile (tables s1)) (faults (conn s1))) s1 in
      match CreateOrder req (w_fleet w) with
      | (Err e, f1) => (Err (HeCreate e), ord1, in_fleet f1 (in_svc s1' w))
      | (Ok _, f1) =>
          let '(fresh, s2) := run_sql (GetOrder (o_id ord)) s1' in
          match ended_status fresh with
          | Some st => (Err (HeEnded st), ord1, in_fleet (CancelOrder v f1).2 (in_svc s2 w))
          | None =>
            match run_sql (UpdateVendor (o_id ord) v) s2 with
            | (Err e, s3) => (Err (HeUnnamed e), ord1, in_fleet (CancelOrder v f1).2 (in_svc s3 w))
            | (Ok _, s3) => (Ok (), with_vendor v (o_updated_at ord1) ord1, in_fleet f1 (in_svc s3 w))
            end
          end
      end
  end.
End Waybill.

(** ** What the calls do to the rows *)

Lemma run_sql_cases {A} (m : CoreSQL A) s :
  exists r c, m (conn s) = (r, c) /\ run_sql m s = (r, with_conn c s) /\ tables (with_conn c s) = db c.
Proof. unfold run_sql. destruct (m (conn s)) as [r c] eqn:E. exists r, c. done. Qed.

Lemma update_run id f s :
  let '(r, s') := run_sql (exec (fun d => (update_order id (fun _ => true) (f (clock_now d)) d).2)) s in
  match r with
  | Ok _ => orders (tables s') = alter (f (clock_now (tables s))) id (orders (tables s)) /\
            reservations (tables s') = reservations (tables s)
  | Err _ => tables s' = tables s
  end.
Proof.
  unfold run_sql, exec, stmt, update_order, tables. destruct (faults (conn s)) as [|[] fs]; cbn; [|done|];
    (destruct (orders (db (conn s)) !! id) as [o|] eqn:Eo; cbn; [|rewrite alter_id; [done|by rewrite Eo]]);
    (split; [symmetry; by apply alter_lookup_insert|done]).
Qed.

Lemma wait_run id n s :
  let '(r, s') := run_sql (UpdateWaitIndex id n) s in
  match r with
  | Ok _ => orders (tables s') = alter (with_wait_index n (clock_now (tables s))) id (orders (tables s)) /\
            reservations (tables s') = reservations (tables s)
  | Err _ => tables s' = tables s
  end.
Proof. apply (update_run id (with_wait_index n)). Qed.

Lemma vendor_run id v s :
  let '(r, s') := run_sql (UpdateVendor id v) s in
  match r with
  | Ok _ => orders (tables s') = alter (with_vendor v (clock_now (tables s))) id (orders (tables s)) /\
            reservations (tables s') = reservations (tables s)
  | Err _ => tables s' = tables s
  end.
Proof. apply (update_run id (with_vendor v)). Qed.

Lemma get_run id s :
  let '(r, s') := run_sql (GetOrder id) s in
  tables s' = tables s /\ match r with Ok o => o = orders (tables s) !! id | Err _ => True end.
Proof. unfold run_sql, GetOrder, query, stmt, tables. by destruct (faults (conn s)) as [|[] fs]. Qed.

Lemma get_faults id s : faults (conn s) = [] -> faults (conn (run_sql (GetOrder id) s).2) = [].
Proof. unfold run_sql, GetOrder, query, stmt. intros ->. done. Qed.

(** A release of the order's row: to in_transit, or nothing. *)
Lemma release_rows ord actor s :
  let '(r, ord', s') := Release ord actor s in
  reservations (tables s') = reservations (tables s) /\ o_wait_index ord' = o_wait_index ord /\ o_id ord' = o_id ord /\
  (forall o, orders (tables s) !! o_id ord = Some o ->
    exists o', orders (tables s') !! o_id ord = Some o' /\ o_wait_index o' = o_wait_index o /\
      (is_ok r = true -> o_status o' = StatusInTransit)).
Proof.
  unfold Release. pose proof (transition_spec ord StatusInTransit
    (event actor ("released from staging (wait " +:+ pretty (o_wait_index ord) +:+ ")")) s) as H.
  destruct (transition ord StatusInTransit _ s) as [[[[]|e] ord'] s']; cbn in H.
  - destruct H as (_ & -> & (o & row & err & Ho & _ & Hos & _ & _ & _ & _ & Hk) & _).
    destruct (Hk eq_refl) as (_ & _ & _ & ->). split_and!; [done..|]. intros o' Ho'. rewrite Ho in Ho'. injection Ho' as <-.
    rewrite Hos. eexists. rewrite lookup_insert_eq. by split_and!.
  - destruct H as (-> & _ & [(_ & _ & ->)|[(_ & _ & (Ho & _ & _ & Hd))|(_ & Hd)]]).
    + split_and!; [done..|]. intros o Ho. by exists o.
    + cbn in Hd. rewrite Hd. split_and!; [done..|]. intros o Ho'. by exists o.
    + rewrite Hd. split_and!; [done..|]. intros o Ho'. by exists o.
Qed.

Lemma tx_driver {A} (body : CoreSQL (A * bool)) c e c' :
  (forall c1 e1 c2, body c1 = (Err e1, c2) -> e1 = EDriver) -> tx body c = (Err e, c') -> e = EDriver.
Proof.
  intros Hb. unfold tx, exec. destruct (stmt _ c) as [[u|e0] c0] eqn:E0; [|apply stmt_err in E0 as [_ ->]; by intros [= <- _]].
  destruct (body c0) as [[[a []]|e1] c1] eqn:E1; [|done|intros [= <- _]; by eapply Hb].
  destruct (stmt _ c1) as [[u'|e2] c2] eqn:E2; [done|apply stmt_err in E2 as [_ ->]; by intros [= <- _]].
Qed.

(** The state machine has no self edge: a release that is refused for standing
    where it was going found the order in transit. *)
Lemma release_again ord actor s :
  match Release ord actor s with
  | (Err e, _, _) => already_there e = true -> o_status ord = StatusInTransit
  | _ => True
  end.
Proof.
  unfold Release, transition. destruct (IsValidTransition (o_status ord) StatusInTransit) eqn:Hv; cbn [negb].
  2: { cbn. by intros ?%String.eqb_eq. }
  unfold run_sql. destruct (persist ord StatusInTransit _ (conn s)) as [[[]|e] c] eqn:E; [done|done|].
  unfold persist in E. change (IsTerminal StatusInTransit) with false in E. unfold UpdateStatusFromWithReason in E.
  change (IsTerminal StatusInTransit) with false in E. apply tx_driver in E as ->; [done|].
  intros c1 e1 c2 [H|(n & c3 & _ & H)]%sbind_err; [by apply stmt_err in H as [_ ->]|].
  destruct (n =? 0)%nat; [done|]. apply sbind_err in H as [H|(u & c4 & _ & H)]; [by apply stmt_checked_err in H as [_ ->]|done].
Qed.

Section AppendFacts.
Context {F : Type} `{!Backend F, !BackendLaws F}.
Implicit Types w : World F.

Definition w_tables (w : World F) : CoreDB := tables (w_svc w).

(** The row of the order with its wait index. *)
Definition row_at (d : CoreDB) (id k : Z) : Prop := exists o, orders d !! id = Some o /\ o_wait_index o = k.

Inductive append_outcome (ord : Order) (blocks : list OrderBlock) (sealed : bool) (w : World F)
    : outcome AppendError unit * Order * World F -> Prop :=
| ao_taken ord' w' bs :
    mission (w_fleet w) (o_vendor_id ord) = Some bs ->
    mission (w_fleet w') (o_vendor_id ord) = Some (bs.1 ++ blocks, sealed) ->
    others (o_vendor_id ord) (w_fleet w) (w_fleet w') ->
    o_wait_index ord' = (o_wait_index ord + 1)%Z -> o_id ord' = o_id ord ->
    row_at (w_tables w') (o_id ord) (o_wait_index ord + 1) ->
    reservations (w_tables w') = reservations (w_tables w) ->
    (exists o, orders (w_tables w') !! o_id ord = Some o /\ (o_status ord = StatusInTransit \/ o_status o = StatusInTransit)) ->
    append_outcome ord blocks sealed w (Ok (), ord', w')
| ao_refused e w' :
    ReleaseOrder (o_vendor_id ord) blocks sealed (w_fleet w) = (Err e, w_fleet w') -> w_svc w' = w_svc w ->
    append_outcome ord blocks sealed w (Err (NotLanded e), ord, w')
| ao_landed e ord' w' bs k :
    mission (w_fleet w) (o_vendor_id ord) = Some bs ->
    mission (w_fleet w') (o_vendor_id ord) = Some (bs.1 ++ blocks, sealed) ->
    others (o_vendor_id ord) (w_fleet w) (w_fleet w') ->
    row_at (w_tables w') (o_id ord) k -> (k = o_wait_index ord \/ k = o_wait_index ord + 1)%Z ->
    reservations (w_tables w') = reservations (w_tables w) ->
    append_outcome ord blocks sealed w (Err (Landed e), ord', w').

Lemma append_cases ord segment moreWaits blockOffset w bs :
  mission (w_fleet w) (o_vendor_id ord) = Some bs -> row_at (w_tables w) (o_id ord) (o_wait_index ord) ->
  append_outcome ord (stepsToBlocks (o_vendor_id ord) segment blockOffset []) (negb moreWaits) w
    (appendSegmentAndAdvance ord segment moreWaits blockOffset w).
Proof.
  intros Hm (o & Ho & Hk). destruct bs as [bs sealed]. unfold appendSegmentAndAdvance.
  destruct (ReleaseOrder _ _ _ _) as [[[]|e] f1] eqn:Er.
  2: { by apply ao_refused. }
  destruct (release_ok _ _ _ _ _ _ _ Hm Er) as [Hm1 Hoth].
  pose proof (wait_run (o_id ord) (o_wait_index ord + 1) (w_svc w)) as Hu.
  destruct (run_sql (UpdateWaitIndex _ _) (w_svc w)) as [[[]|e] s1].
  2: { eapply (ao_landed _ _ _ _ _ _ _ (bs, sealed) (o_wait_index ord)); [done|done|done| |by left|].
       - unfold w_tables. cbn. rewrite Hu. by exists o.
       - unfold w_tables. cbn. by rewrite Hu. }
  destruct Hu as [Hu1 Hu2]. assert (Ho1 : exists o1, orders (tables s1) !! o_id ord = Some o1 /\ o_wait_index o1 = (o_wait_index ord + 1)%Z).
  { rewrite Hu1, lookup_alter_eq. unfold w_tables in Ho. rewrite Ho. cbn. by eexists. }
  destruct Ho1 as (o1 & Ho1 & Hk1). pose proof (release_rows ord "dispatcher" s1) as HR.
  pose proof (release_again ord "dispatcher" s1) as HT.
  destruct (Release ord "dispatcher" s1) as [[[[]|e] ord1] s2].
  - destruct HR as (Hr & Hw & Hid & Hrow). destruct (Hrow o1 Ho1) as (o2 & Ho2 & Hk2 & Hst).
    eapply (ao_taken _ _ _ _ _ _ (bs, sealed)); [done|done|done| | | | |].
    + cbn. by rewrite Hw.
    + done.
    + exists o2. unfold w_tables. cbn. split; [done|congruence].
    + unfold w_tables. cbn. congruence.
    + exists o2. split; [done|]. right. by apply Hst.
  - destruct HR as (Hr & Hw & Hid & Hrow). destruct (Hrow o1 Ho1) as (o2 & Ho2 & Hk2 & _).
    destruct (already_there e) eqn:Ea.
    + eapply (ao_taken _ _ _ _ _ _ (bs, sealed)); [done|done|done| | | | |].
      * cbn. by rewrite Hw.
      * done.
      * exists o2. unfold w_tables. cbn. split; [done|congruence].
      * unfold w_tables. cbn. congruence.
      * exists o2. split; [done|]. left. by apply HT.
    + eapply (ao_landed _ _ _ _ _ _ _ (bs, sealed) (o_wait_index ord + 1)%Z); [done|done|done| |by right|].
      * exists o2. unfold w_tables. cbn. split; [done|congruence].
      * unfold w_tables. cbn. congruence.
Qed.

(** The fleet has what the first [k] releases sent. *)
Definition fleet_at (v : string) (loadSeq : list string) (steps : list resolvedStep) (k : nat) (sealed : bool) (w : World F) : Prop :=
  mission (w_fleet w) v = Some (issued v loadSeq steps k, sealed).

Lemma issued_next v loadSeq steps k segment moreWaits offset :
  splitSegment steps (Z.of_nat k) = (Some segment, moreWaits, offset) ->
  issued v loadSeq steps (S k) = issued v loadSeq steps k ++ stepsToBlocks v segment offset [].
Proof.
  intros H. unfold issued. rewrite seq_S, map_app, concat_app, app_assoc. f_equal. cbn. rewrite H. cbn. by rewrite app_nil_r.
Qed.

(** A release is one step of the plan, and its answer says whether the robot
    has it.  With the fleet holding what the first k releases sent and the row at
    wait k, the next release ends in one of three ways: it succeeds, the fleet
    holds k+1 segments, sealed exactly if that was the last, and row and caller
    have moved to wait k+1; or the fleet answered with an error, nothing has changed
    on Core's side, and the mission is whatever that call made of it; or the error is marked as landed, the
    fleet does hold k+1 segments, and only the row may lag.  No other mission and
    no reservation changes. *)
Theorem release_is_one_step loadSeq steps ord w (k : nat) sealed :
  o_wait_index ord = Z.of_nat k -> (k < waits steps)%nat -> row_at (w_tables w) (o_id ord) (Z.of_nat k) ->
  fleet_at (o_vendor_id ord) loadSeq steps k sealed w ->
  exists segment moreWaits offset r ord' w',
    splitSegment steps (o_wait_index ord) = (Some segment, moreWaits, offset) /\
    appendSegmentAndAdvance ord segment moreWaits offset w = (r, ord', w') /\
    others (o_vendor_id ord) (w_fleet w) (w_fleet w') /\ reservations (w_tables w') = reservations (w_tables w) /\
    match r with
    | Ok _ => fleet_at (o_vendor_id ord) loadSeq steps (S k) (S k =? waits steps)%nat w' /\
        row_at (w_tables w') (o_id ord) (Z.of_nat (S k)) /\ o_wait_index ord' = Z.of_nat (S k)
    | Err (NotLanded e) => w_tables w' = w_tables w /\ ord' = ord /\
        exists blocks last, ReleaseOrder (o_vendor_id ord) blocks last (w_fleet w) = (Err e, w_fleet w')
    | Err (Landed _) => fleet_at (o_vendor_id ord) loadSeq steps (S k) (S k =? waits steps)%nat w' /\
        (row_at (w_tables w') (o_id ord) (Z.of_nat k) \/ row_at (w_tables w') (o_id ord) (Z.of_nat (S k)))
    end.
Proof.
  intros Hi Hk Hrow Hf. unfold fleet_at in *.
  destruct (splitSegment steps (Z.of_nat k)) as [[seg more] offset] eqn:Es.
  assert (Hseg : exists segment, seg = Some segment /\ more = negb (S k =? waits steps)%nat).
  { pose proof Es as E. rewrite segment_chunk, (proj2 (Nat.ltb_lt _ _) Hk) in E. injection E as E1 E2 E3.
    destruct (lookup_lt_is_Some_2 (chunks steps) (S k)) as [c Hc]; [rewrite chunks_length; lia|].
    exists c. split; [congruence|]. rewrite <- E2. destruct (Nat.ltb_spec (S k) (waits steps)), (Nat.eqb_spec (S k) (waits steps)); done || lia. }
  destruct Hseg as (segment & -> & Hmore). rewrite Hi. exists segment, more, offset.
  rewrite <- Hi in Hrow. pose proof (append_cases ord segment more offset w _ Hf Hrow) as H.
  assert (Hn : negb more = (S k =? waits steps)%nat) by (rewrite Hmore; apply negb_involutive).
  pose proof (issued_next (o_vendor_id ord) loadSeq steps k segment more offset Es) as Hnext.
  destruct (appendSegmentAndAdvance ord segment more offset w) as [[r ord'] w']. exists r, ord', w'.
  assert (HS : (o_wait_index ord + 1)%Z = Z.of_nat (S k)) by lia.
  inversion H as [o1 w1 bs H1 H2 H3 H4 H5 H6 H7 H8|e w1 H1 H2|e o1 w1 bs q H1 H2 H3 H4 H5 H6]; subst r.
  - rewrite H1 in Hf. injection Hf as ->. cbn in H2. rewrite Hnext, <- Hn, <- HS. by split_and!.
  - subst. assert (HT : w_tables w' = w_tables w) by (unfold w_tables; by rewrite H2).
    split_and!; [done|done|by eapply release_err|congruence|done|done|eauto].
  - rewrite H1 in Hf. injection Hf as ->. cbn in H2. rewrite Hnext, <- Hn, <- HS. subst. split_and!; [done|done|done|done|done|].
    destruct H5 as [->| ->]; [left; by rewrite <- Hi|by right].
Qed.

(** ** Who is inside the lane *)

Definition held (id lane : Z) (d : CoreDB) : bool := existsb (occupies id lane) (reservations d).

Lemma take_run id lane s :
  let '(r, s') := run_sql (takeLaneOccupancyByID id lane) s in
  orders (tables s') = orders (tables s) /\ (faults (conn s) = [] -> faults (conn s') = []) /\
  match r with
  | Ok took =>
      (took = false -> reservations (tables s') = reservations (tables s)) /\
      (took = true -> held id lane (tables s) = false /\ reservations (tables s') = reservations (tables s) ++ [occupancy_row id lane]) /\
      (lane <> 0%Z -> held id lane (tables s') = true)
  | Err _ => tables s' = tables s
  end.
Proof.
  unfold run_sql, takeLaneOccupancyByID. destruct (Z.eqb_spec lane 0) as [->|Hl]; [by cbn|].
  unfold AcquireOccupancy, stmt_checked, tables, held.
  destruct (faults (conn s)) as [|[] fs]; cbn; [|done|];
    destruct (existsb (occupies id lane) (reservations (db (conn s)))) eqn:Ee; cbn; [done| |done|];
    (destruct (fk_ok _ _); cbn; [|done]); split_and!; try done; intros _; rewrite existsb_app; cbn; rewrite Ee; cbn;
    unfold occupies; cbn; by rewrite !Z.eqb_refl.
Qed.

Lemma drop_run id lane s :
  let '(r, s') := run_sql (ReleaseOccupancyForLane id lane) s in
  match r with
  | Ok _ => reservations (tables s') = List.filter (fun x => negb (occupies id lane x)) (reservations (tables s))
  | Err _ => tables s' = tables s /\ faults (conn s) <> []
  end.
Proof.
  unfold run_sql, ReleaseOccupancyForLane, exec, stmt, tables. by destruct (faults (conn s)) as [|[] fs].
Qed.

Lemma taken_back id lane l :
  existsb (occupies id lane) l = false -> List.filter (fun x => negb (occupies id lane x)) (l ++ [occupancy_row id lane]) = l.
Proof.
  intros H. rewrite List.filter_app. cbn. unfold occupies at 2. cbn. rewrite !Z.eqb_refl. cbn. rewrite app_nil_r.
  apply lfilter_all. intros x Hx. rewrite (proj1 (existsb_false _ _) H x Hx). done.
Qed.

Definition tail_landed (r : outcome TailError bool) : Prop :=
  match r with Ok appended => appended = true | Err (TeAppend (Landed _)) => True | Err _ => False end.

(** No append went out, or the fleet answered it with an error. *)
Definition unacknowledged (v : string) (w w' : World F) (r : outcome TailError bool) : Prop :=
  w_fleet w' = w_fleet w \/
  exists e blocks last, r = Err (TeAppend (NotLanded e)) /\ ReleaseOrder v blocks last (w_fleet w) = (Err e, w_fleet w').

Definition presence_kept (v : string) (id lane : Z) (w w' : World F) (r : outcome TailError bool) : Prop :=
  (tail_landed r -> held id lane (w_tables w') = true) /\
  (~ tail_landed r -> unacknowledged v w w' r /\
     (held id lane (w_tables w) = true -> held id lane (w_tables w') = true) /\
     (faults (conn (w_svc w)) = [] -> reservations (w_tables w') = reservations (w_tables w))) /\
  others v (w_fleet w) (w_fleet w') /\
  (reservations (w_tables w') = reservations (w_tables w) \/
   reservations (w_tables w') = reservations (w_tables w) ++ [occupancy_row id lane]).

(** An exit before the append. *)
Lemma presence_exit v id lane w w' r :
  ~ tail_landed r -> w_fleet w' = w_fleet w -> reservations (w_tables w') = reservations (w_tables w) -> presence_kept v id lane w w' r.
Proof.
  intros Hr Hf Ht. unfold presence_kept, held. rewrite Hf, Ht. split_and!; [done| |done|by left]. intros _. split_and!; [by left|done|done].
Qed.

Ltac leaves H :=
  apply presence_exit; [let L := fresh in intros L; by cbn in L|done|]; unfold w_tables; cbn; by rewrite H.

Lemma tail_append ord segment moreWaits offset lane took w w2 bs :
  w_fleet w2 = w_fleet w -> mission (w_fleet w) (o_vendor_id ord) = Some bs -> row_at (w_tables w2) (o_id ord) (o_wait_index ord) ->
  (faults (conn (w_svc w)) = [] -> faults (conn (w_svc w2)) = []) ->
  (took = false -> reservations (w_tables w2) = reservations (w_tables w)) ->
  (took = true -> held (o_id ord) lane (w_tables w) = false /\
     reservations (w_tables w2) = reservations (w_tables w) ++ [occupancy_row (o_id ord) lane]) ->
  held (o_id ord) lane (w_tables w2) = true ->
  let '(r, ord', w') := match appendSegmentAndAdvance ord segment moreWaits offset w2 with
    | (Ok _, ord1, w3) => (Ok true, ord1, w3)
    | (Err e, ord1, w3) => (Err (TeAppend e), ord1, give_back took e (o_id ord) lane w3)
    end in presence_kept (o_vendor_id ord) (o_id ord) lane w w' r.
Proof.
  intros Hf Hm Hrow Hfa H0 H1 Hh. rewrite <- Hf in Hm.
  pose proof (append_cases ord segment moreWaits offset w2 bs Hm Hrow) as HA.
  assert (Hor : reservations (w_tables w2) = reservations (w_tables w) \/
    reservations (w_tables w2) = reservations (w_tables w) ++ [occupancy_row (o_id ord) lane])
    by (destruct took; [right; by apply H1|left; by apply H0]).
  inversion HA as [o1 w1 b _ _ Hot _ _ _ H7 _ E|e w1 HU HT E|e o1 w1 b q _ _ Hot _ _ H6 E]; unfold presence_kept.
  - rewrite Hf in Hot. unfold held. rewrite H7. by split_and!.
  - rewrite Hf in HU. assert (Hot : others (o_vendor_id ord) (w_fleet w) (w_fleet w1)) by by eapply release_err.
    assert (Hun : forall w', w_fleet w' = w_fleet w1 -> unacknowledged (o_vendor_id ord) w w' (Err (TeAppend (NotLanded e))))
      by (intros w' Ew; right; rewrite Ew; by eexists _, _, _).
    unfold give_back. cbn. destruct took; cbn.
    2: { assert (Hres : reservations (w_tables w1) = reservations (w_tables w)) by (unfold w_tables in *; rewrite HT; by apply H0).
         unfold held. rewrite Hres. split_and!; [done| |done|by left]. intros _. split_and!; [by apply Hun|done|done]. }
    destruct (H1 eq_refl) as [Hno Hres]. pose proof (drop_run (o_id ord) lane (w_svc w1)) as HD.
    destruct (run_sql (ReleaseOccupancyForLane (o_id ord) lane) (w_svc w1)) as [[[]|e'] s'].
    + assert (Hback : reservations (tables s') = reservations (w_tables w)).
      { rewrite HD, HT. unfold w_tables in *. rewrite Hres. by apply taken_back. }
      unfold held, w_tables in *. cbn. rewrite Hback. split_and!; [done| |done|by left]. intros _. split_and!; [by apply Hun|done|done].
    + destruct HD as [HD Hfs]. unfold held, w_tables in *. cbn. rewrite HD, HT, Hno. split_and!; [done| |done|done].
      intros _. split_and!; [by apply Hun|done|]. intros Hc. rewrite HT in Hfs. by destruct (Hfs (Hfa Hc)).
  - rewrite Hf in Hot. cbn. unfold give_back. cbn. rewrite andb_false_r. unfold held. rewrite H6. by split_and!.
Qed.

(** C31. A lane keeps the row of a robot the fleet acknowledged sending into it.
    When the gate releases a tail, the lane of the wait it releases holds the order's
    occupancy row whenever the fleet acknowledged the segment, even if a later write
    failed and the call reports an error.  Without that acknowledgement a row that
    stood before still stands, and the row goes back exactly if this call had put it
    there (it can only stay behind, never be lost, if that last statement fails);
    and then either no append was sent, or the fleet answered the append with an
    error.  Such an answer is taken as a refusal, so if the append was carried out
    and only its answer lost, the lane reads empty with the robot sent into it; it
    is the only way.  No other mission and no other reservation changes in any
    case.  (The order's mission exists and its row stands at the wait being
    released.) *)
Theorem gate_tail_keeps_presence ord steps wt w r ord' w' bs :
  waitAt steps (o_wait_index ord) = Some wt -> ps_lane wt <> 0%Z ->
  mission (w_fleet w) (o_vendor_id ord) = Some bs -> row_at (w_tables w) (o_id ord) (o_wait_index ord) ->
  appendGateTail ord (Plan steps) w = (r, ord', w') ->
  (tail_landed r -> held (o_id ord) (ps_lane wt) (w_tables w') = true) /\
  (~ tail_landed r -> unacknowledged (o_vendor_id ord) w w' r /\
     (held (o_id ord) (ps_lane wt) (w_tables w) = true -> held (o_id ord) (ps_lane wt) (w_tables w') = true) /\
     (faults (conn (w_svc w)) = [] -> reservations (w_tables w') = reservations (w_tables w))) /\
  others (o_vendor_id ord) (w_fleet w) (w_fleet w') /\
  (reservations (w_tables w') = reservations (w_tables w) \/
   reservations (w_tables w') = reservations (w_tables w) ++ [occupancy_row (o_id ord) (ps_lane wt)]).
Proof.
  intros Hw Hl Hm Hrow. fold (presence_kept (o_vendor_id ord) (o_id ord) (ps_lane wt) w w' r). unfold appendGateTail.
  pose proof (get_run (o_id ord) (w_svc w)) as HG. pose proof (get_faults (o_id ord) (w_svc w)) as HGf.
  destruct (run_sql (GetOrder (o_id ord)) (w_svc w)) as [[[fresh|]|e] s1]; destruct HG as [HG _]; cbn [snd] in HGf.
  2: { intros [= <- _ <-]. leaves HG. }
  2: { intros [= <- _ <-]. leaves HG. }
  destruct (negb (IsGateStaged _ _ _)).
  { intros [= <- _ <-]. leaves HG. }
  destruct (splitSegment steps (o_wait_index ord)) as [[[segment|] moreWaits] offset].
  2: { intros [= <- _ <-]. leaves HG. }
  rewrite Hw. pose proof (take_run (o_id ord) (ps_lane wt) s1) as HT.
  destruct (run_sql (takeLaneOccupancyByID _ _) s1) as [[took|e] s2]; destruct HT as (Ho & Hfa & HT).
  2: { intros [= <- _ <-]. rewrite HG in HT. leaves HT. }
  destruct HT as (HT0 & HT1 & HT2). intros H.
  pose proof (tail_append ord segment moreWaits offset (ps_lane wt) took w (in_svc s2 w) bs) as HA. rewrite H in HA.
  unfold w_tables, row_at, held in *. cbn in *. rewrite HG in *. apply HA; auto. by rewrite Ho.
Qed.

(** ** The handover *)

(** The mission was created and then asked to be cancelled; it is gone if the fleet
    acknowledged that. *)
Definition called_back (req : CreateOrderRequest) (f f' : F) : Prop :=
  exists f1, CreateOrder req f = (Ok (cr_id req), f1) /\ f' = (CancelOrder (cr_id req) f1).2 /\
    (is_ok (CancelOrder (cr_id req) f1).1 = true -> mission f' (cr_id req) = None).

Lemma cancel_cases req f f1 :
  CreateOrder req f = (Ok (cr_id req), f1) -> others (cr_id req) f f1 ->
  called_back req f (CancelOrder (cr_id req) f1).2 /\ others (cr_id req) f (CancelOrder (cr_id req) f1).2.
Proof.
  intros Hc Ho. destruct (CancelOrder (cr_id req) f1) as [[[]|e] f2] eqn:Ex; cbn.
  - destruct (cancel_ok _ _ _ Ex) as [H1 H2]. split; [exists f1; rewrite Ex; by split_and!|]. intros x Hx. by rewrite H2, Ho.
  - pose proof (cancel_err _ _ _ _ Ex) as H1. split; [exists f1; rewrite Ex; by split_and!|]. intros x Hx. by rewrite H1, Ho.
Qed.

End AppendFacts.

(** ** A gated store: picked up at A, held at M1, stored at S in lane 30 *)

Definition store_plan : list resolvedStep :=
  [at_ ActionPickup "A"; mkStep ActionWait "M1" "" false false WaitKindLane 30; at_ ActionDropoff "S"].
Definition store_create : CreateOrderRequest :=
  mkCreate "sg-5" "uuid" (stepsToBlocks "sg-5" (splitAtWait store_plan).1 0 []) 0 "" false.

Definition staged_order : Order := with_vendor "sg-5" 0 (demo_order 5 StatusStaged).
Definition staged_db : CoreDB := set_orders <[5%Z := staged_order]> demo_db.
Definition svc_of (d : CoreDB) : Svc := mkSvc (mkConn d []) None [] [] [].
Definition staged_world : World Simulator.Sim :=
  mkWorld (svc_of staged_db) (Simulator.sim_create store_create (Simulator.New false 0)).2 {[5%Z := Plan store_plan]}.

Lemma staged_row : row_at (w_tables staged_world) 5 0.
Proof. by exists staged_order. Qed.

Lemma staged_mission : mission (w_fleet staged_world) "sg-5" = Some (issued "sg-5" [] store_plan 0, false).
Proof. vm_compute. reflexivity. Qed.

Lemma gate_tail_keeps_presence_witness :
  let '(r, _, w') := appendGateTail staged_order (Plan store_plan) staged_world in
  r = Ok true /\ held 5 30 (w_tables w') = true /\ held 5 30 (w_tables staged_world) = false.
Proof.
  destruct (appendGateTail staged_order (Plan store_plan) staged_world) as [[r ord'] w'] eqn:E.
  assert (Hr : r = Ok true).
  { assert (H : (appendGateTail staged_order (Plan store_plan) staged_world).1.1 = Ok true) by (vm_compute; reflexivity).
    by rewrite E in H. }
  destruct (gate_tail_keeps_presence staged_order store_plan (mkStep ActionWait "M1" "" false false WaitKindLane 30)
    staged_world r ord' w' _ eq_refl ltac:(done) staged_mission staged_row E) as (H1 & _ & _).
  split_and!; [done| |vm_compute; reflexivity]. apply H1. by rewrite Hr.
Defined.

Definition fresh_world : World Simulator.Sim := mkWorld (svc_of demo_db) (Simulator.New false 0) ∅.
Definition cancelled_meanwhile (d : CoreDB) : CoreDB := set_orders (alter (with_status StatusCancelled "" 0) 1%Z) d.


(** ** Lost answers *)

Definition on_line (create release cancel : bool) (w : World Simulator.Sim) : World Lossy.Line :=
  mkWorld (w_svc w) (Lossy.mkLine (w_fleet w) create release cancel) (w_plans w).

(** The append was carried out, its answer lost: the robot has its way into lane 30,
    and the row is given back. *)
Example lost_append_empties_the_lane :
  let '(r, _, w') := appendGateTail staged_order (Plan store_plan) (on_line false true false staged_world) in
  r = Err (TeAppend (NotLanded FeRefused)) /\ held 5 30 (w_tables w') = false /\
  fleet_at "sg-5" [] store_plan 1 true w'.
Proof. vm_compute. split_and!; reflexivity. Qed.

(** The create was carried out, its answer lost: the mission stays and the row has no
    vendor id to cancel it by. *)
Example lost_create_leaves_a_mission :
  let '(r, ord', w') := handoverToFleet id (demo_order 1 StatusQueued) store_create "scanner" (on_line true false false fresh_world) in
  r = Err (HeCreate FeRefused) /\ is_Some (mission (w_fleet w') "sg-5") /\ o_vendor_id ord' = "" /\
  (o_vendor_id <$> orders (w_tables w') !! 1%Z) = Some "".
Proof. vm_compute. split_and!; [reflexivity|by eexists|reflexivity|reflexivity]. Qed.

(** A cancel the fleet refuses and one it takes return the same error. *)
Example failed_cancel_goes_unreported :
  let run w := handoverToFleet cancelled_meanwhile (demo_order 1 StatusQueued) store_create "scanner" w in
  (run (on_line false false true fresh_world)).1.1 = (run (on_line false false false fresh_world)).1.1.
Proof. vm_compute. reflexivity. Qed.
