(* ===== verification/QueueReason.v ===== *)
(** The sentence an operator reads beside a waiting order
    (shingo-core/dispatch/queue_reason.go) and the write that puts it on the row
    ([setQueueReason], dispatch/complex_dispatch.go).  Strings are byte strings,
    as in the source. *)

From Stdlib Require Import Ascii.
From stdpp Require Import pretty.
From S2P Require Import Prelude Status Sql CoreDb Mouth OrderStore Lifecycle.

Definition QueueWaitingForMaterial : QueueCode := "waiting_for_material".
Definition QueueWaitingForSlot : QueueCode := "waiting_for_slot".
Definition QueueStorageRearranging : QueueCode := "storage_rearranging".
Definition QueueWaitingForPartner : QueueCode := "waiting_for_partner".
Definition QueueFleetUnavailable : QueueCode := "fleet_unavailable".

Record QueueParams := mkParams {
  qp_payload : string; qp_kind : string; qp_partial : bool; qp_destination : string; qp_lane : string;
  qp_dig : Z; qp_stopped : Z; qp_sibling : string; qp_group : string; qp_blocking : Z; qp_inbound : Z;
  qp_step : Z; qp_has_step : bool; qp_unresolved : bool; qp_reserved : bool; qp_at_level : bool }.

Definition no_params : QueueParams := mkParams "" "" false "" "" 0 0 "" "" 0 0 0 false false false false.
Definition lane_param (lane : string) : QueueParams := mkParams "" "" false "" lane 0 0 "" "" 0 0 0 false false false false.
Definition dig_param (dig : Z) : QueueParams := mkParams "" "" false "" "" dig 0 "" "" 0 0 0 false false false false.

Definition plural (n : Z) (one many : string) : string :=
  if n =i 1 then pretty n +:+ " " +:+ one else pretty n +:+ " " +:+ many.

(** strings.IndexByte(ref, '-'), with what stands before it. *)
Fixpoint before_dash (s : string) : option string :=
  match s with
  | EmptyString => None
  | String a rest => if Ascii.eqb a "-"%char then Some "" else String a <$> before_dash rest
  end.

Definition shortRef (ref : string) : string :=
  match before_dash ref with
  | Some (String _ _ as s) => s
  | _ => if (8 <? String.length ref)%nat then String.substring 0 8 ref else ref
  end.

Definition materialSentence (p : QueueParams) : string :=
  let s := if qp_kind p =s "empty" then "Waiting for an empty bin"
           else if qp_payload p <>s "" then "Waiting for material: " +:+ qp_payload p
           else "Waiting for material" in
  let s := if qp_group p <>s "" then s +:+ " in " +:+ qp_group p else s in
  let s := if qp_reserved p then
             if qp_group p <>s ""
             then qp_group p +:+ " is kept for other equipment — waiting for an empty from elsewhere"
             else "That group's empties are kept for other equipment — waiting"
           else s in
  if qp_partial p then s +:+ " — partial set already held" else s.

Definition slotSentence (p : QueueParams) : string :=
  if qp_unresolved p then
    if qp_destination p =s "" then "Waiting on a destination that cannot be resolved right now"
    else "Waiting on destination " +:+ qp_destination p +:+ " — cannot be resolved right now"
  else if qp_at_level p then
    if qp_destination p <>s ""
    then qp_destination p +:+ " already holds the empties it is set to keep — waiting for one to leave"
    else "That group already holds the empties it is set to keep — waiting for one to leave"
  else
    let s := "Waiting for a slot" in
    let s := if qp_destination p <>s "" then s +:+ " at " +:+ qp_destination p else s in
    if (0 <? qp_blocking p)%Z then s +:+ " — " +:+ plural (qp_blocking p) "bin" "bins" +:+ " there now"
    else if (0 <? qp_inbound p)%Z then s +:+ " — " +:+ plural (qp_inbound p) "order" "orders" +:+ " already inbound"
    else s.

Definition stoppedOrderClause (p : QueueParams) : string :=
  if qp_stopped p =i 0 then ""
  else " — order " +:+ pretty (qp_stopped p) +:+
    " is holding the bin in front and has stopped; it needs someone to sort it out".

Definition digClause (p : QueueParams) : string :=
  if qp_dig p =i 0 then "" else " — dig " +:+ pretty (qp_dig p) +:+ " is working this lane".

Definition rearrangingSentence (p : QueueParams) : string :=
  let s := if (qp_lane p <>s "") && (qp_payload p <>s "")
           then "Rearranging lane " +:+ qp_lane p +:+ " to reach " +:+ qp_payload p
           else if qp_lane p <>s "" then "Rearranging lane " +:+ qp_lane p +:+ " to reach this material"
           else if qp_payload p <>s "" then "Rearranging storage to reach " +:+ qp_payload p
           else "Rearranging storage to reach this material" in
  s +:+ digClause p +:+ stoppedOrderClause p.

Definition partnerSentence (p : QueueParams) : string :=
  if qp_sibling p =s "" then "Waiting for partner robot"
  else "Holding this leg until partner order " +:+ shortRef (qp_sibling p) +:+ " secures a bin".

Definition withStep (code : string) (p : QueueParams) (s : string) : string :=
  if negb (qp_has_step p) || (s =s "") || (code =s QueueFleetUnavailable) then s
  else "Step " +:+ pretty (qp_step p) +:+ ": " +:+ s.

Definition FormatQueueSentence (code : string) (p : QueueParams) : string :=
  if code =s QueueWaitingForMaterial then withStep code p (materialSentence p)
  else if code =s QueueWaitingForSlot then withStep code p (slotSentence p)
  else if code =s QueueStorageRearranging then withStep code p (rearrangingSentence p)
  else if code =s QueueWaitingForPartner then withStep code p (partnerSentence p)
  else if code =s QueueFleetUnavailable then withStep code p "Robot system not responding — retrying"
  else "".

(** The excavation a wait is behind: 0 when unknown. *)
Definition digWaitFor (lane : Z) (c : Conn CoreDB) : Z * Conn CoreDB :=
  if lane =i 0 then (0%Z, c)
  else match ExcavationOwner lane c with
  | (Ok dig, c') => (dig, c')
  | (Err _, c') => (0%Z, c')
  end.

(** ** The write *)

Definition setQueueReason (ord : Order) (code cause : string) (p : QueueParams) (s : Svc) : bool * Order * Svc :=
  let reason := FormatQueueSentence code p in
  if (o_queue_reason ord =s reason) && (o_queue_code ord =s code) && (o_queue_cause ord =s cause)
  then (false, ord, s)
  else match run_sql (SetQueueDetail (o_id ord) reason code cause) s with
  | (Err _, s1) => (false, ord, s1)
  | (Ok _, s1) => (true, with_queue reason code cause (o_updated_at ord) ord, s1)
  end.

(** ** Facts *)

Lemma app_nonempty_l a b : a <> "" -> a +:+ b <> "".
Proof. by destruct a. Qed.

Lemma withStep_nonempty code p s : s <> "" -> withStep code p s <> "".
Proof. intros H. unfold withStep. by destruct (negb _ || _ || _). Qed.

(** Every queue code renders a sentence, and nothing else does: a wait never
    shows an operator a blank line. *)
Theorem sentence_exhaustive (code : string) (p : QueueParams) :
  FormatQueueSentence code p <> "" <-> code ∈ AllQueueCodes.
Proof.
  assert (Hm : materialSentence p <> "").
  { unfold materialSentence. repeat case_match; breflect; repeat apply app_nonempty_l; done. }
  assert (Hs : slotSentence p <> "").
  { unfold slotSentence. repeat case_match; breflect; repeat apply app_nonempty_l; done. }
  assert (Hr : rearrangingSentence p <> "").
  { unfold rearrangingSentence. repeat case_match; breflect; repeat apply app_nonempty_l; done. }
  assert (Hp : partnerSentence p <> "").
  { unfold partnerSentence. by case_match. }
  change AllQueueCodes with [QueueWaitingForMaterial; QueueWaitingForSlot; QueueStorageRearranging;
    QueueWaitingForPartner; QueueFleetUnavailable].
  unfold FormatQueueSentence.
  repeat match goal with
  | |- context [code =s ?q] => destruct (eqb_spec_s code q) as [->|]
  end; (split; intros H; [first [set_solver | done]|]); try (by apply withStep_nonempty).
  exfalso. set_solver.
Qed.

(** A second write of the same reason is skipped. *)
Lemma setQueueReason_again ord code cause p s ord' s' :
  setQueueReason ord code cause p s = (true, ord', s') -> setQueueReason ord' code cause p s' = (false, ord', s').
Proof.
  unfold setQueueReason. destruct (_ && _); [done|].
  destruct (run_sql _ s) as [[u|e] s1]; [|done]. intros [= <- <-]. cbn. by rewrite !seqb_refl.
Qed.
