(* ===== verification/Chapters.v ===== *)
(** The chapters of a dig (shingo-core/dispatch/compound.go): a demand that
    re-plans accumulates the legs of several digs, and each question about its
    state is asked of the chapter still open.  The boundary needs no column: it
    is the newest leg that ended a chapter. *)

From S2P Require Import Prelude Status Sql CoreDb.

(** ** How a leg ends *)

Definition ReshuffleDissolveDetail : string := "reshuffle dissolved: the dig's plan went stale; re-planning".
Definition ReshuffleLegFailedDetail : string := "reshuffle dissolved: a dig leg failed; the demand re-plans".

Definition ChapterEndCancelDetails : list string := [ReshuffleDissolveDetail; ReshuffleLegFailedDetail].

Definition IsChapterEndCancel (reason : string) : bool := existsb (fun d => reason =s d) ChapterEndCancelDetails.

Definition configFailurePrefix : string := "config failure: ".
Definition configFailure (kind identifier : string) : string :=
  configFailurePrefix +:+ kind +:+ " " +:+ identifier +:+ " does not exist".
Definition IsConfigFailure (detail : string) : bool := String.prefix configFailurePrefix detail.

Definition endsItsChapter (c : Order) : bool :=
  if o_status c =s StatusFailed then negb (IsConfigFailure (o_error_detail c))
  else (o_status c =s StatusCancelled) && IsChapterEndCancel (o_error_detail c).

(** ** The split *)

(** (boundary, superseded): [None] is [superseded = false]. *)
Fixpoint chapter_boundary (children : list Order) (b : option Z) : option Z :=
  match children with
  | [] => b
  | c :: rest =>
      if endsItsChapter c then
        chapter_boundary rest (match b with
                          | None => Some (o_id c)
                          | Some x => if (x <? o_id c)%Z then Some (o_id c) else Some x
                          end)
      else chapter_boundary rest b
  end.

Definition in_closed (b : option Z) (c : Order) : bool :=
  match b with
  | None => false
  | Some boundary => IsTerminal (o_status c) && (o_id c <=? boundary)%Z
  end.

Definition compoundGenerations (children : list Order) : list Order * bool :=
  let b := chapter_boundary children None in
  (List.filter (fun c => negb (in_closed b c)) children, bool_decide (is_Some b)).

Definition digWasDissolved (children : list Order) : bool :=
  let '(open, superseded) := compoundGenerations children in superseded && bool_decide (open = []).

Definition configFailedLeg (open : list Order) : option Order :=
  List.find (fun c => (o_status c =s StatusFailed) && IsConfigFailure (o_error_detail c)) open.

(** The newest leg that ended a chapter. *)
Fixpoint newest_end (children : list Order) (newest : option Order) : option Order :=
  match children with
  | [] => newest
  | c :: rest =>
      if endsItsChapter c then
        newest_end rest (match newest with
                         | None => Some c
                         | Some n => if (o_id n <? o_id c)%Z then Some c else Some n
                         end)
      else newest_end rest newest
  end.

Definition chapterEndedInFailure (children : list Order) : bool :=
  match newest_end children None with
  | None => false
  | Some n => negb ((o_status n =s StatusCancelled) && (o_error_detail n =s ReshuffleDissolveDetail))
  end.

(** The two loops over the open legs. *)
Definition lost_leg (c : Order) : bool := (o_status c =s StatusFailed) || (o_status c =s StatusCancelled).
Definition hasFailedOrCancelled (open : list Order) : bool := existsb lost_leg open.
Definition allTerminal (open : list Order) : bool := forallb (fun c => IsTerminal (o_status c)) open.

(** ** The boundary *)

(** The boundary is the greatest id that ended a chapter, and there is one
    exactly when something ended. *)
Lemma boundary_spec l b :
  match chapter_boundary l b with
  | None => b = None /\ forall c, c ∈ l -> endsItsChapter c = false
  | Some x => (b = Some x \/ exists c, c ∈ l /\ endsItsChapter c = true /\ o_id c = x) /\
      (forall y, b = Some y -> (y <= x)%Z) /\
      (forall c, c ∈ l -> endsItsChapter c = true -> (o_id c <= x)%Z)
  end.
Proof.
  revert b. induction l as [|c l IH]; intros b; cbn [chapter_boundary].
  { destruct b as [x|]; split_and!; try done.
    - by left.
    - intros y [= ->]. done.
    - by intros c ?%elem_of_nil.
    - by intros c ?%elem_of_nil. }
  destruct (endsItsChapter c) eqn:Ec.
  - set (b' := match b with None => _ | Some x => _ end). specialize (IH b').
    destruct (chapter_boundary l b') as [x|] eqn:Eb.
    + destruct IH as (H1 & H2 & H3).
      assert (Hb' : exists y, b' = Some y /\ (o_id c <= y)%Z /\ (forall z, b = Some z -> (z <= y)%Z) /\ (b = Some y \/ o_id c = y)).
      { unfold b'. destruct b as [z|]; [destruct (z <? o_id c)%Z eqn:Hz; breflect|];
          eexists; (split; [reflexivity|]); split_and!; try (intros ? [= <-]); auto; lia. }
      destruct Hb' as (y & E1 & H4 & H5 & H6). pose proof (H2 y E1). split_and!.
      * destruct H1 as [H1|(c' & Hc' & He & Hi)].
        -- rewrite E1 in H1. injection H1 as <-. destruct H6; [by left|right; exists c; set_solver].
        -- right. exists c'. set_solver.
      * intros z Hz. specialize (H5 z Hz). lia.
      * intros c' [->|Hin]%elem_of_cons He; [lia|auto].
    + destruct IH as [IH _]. unfold b' in IH. destruct b as [z|]; [destruct (z <? o_id c)%Z|]; done.
  - specialize (IH b). destruct (chapter_boundary l b) as [x|].
    + destruct IH as (H1 & H2 & H3). split_and!; [|done|].
      * destruct H1 as [->|(c' & Hc' & ?)]; [by left|right; exists c'; set_solver].
      * intros c' [->|Hin]%elem_of_cons He; [congruence|auto].
    + destruct IH as [-> H]. split; [done|]. intros c' [->|Hin]%elem_of_cons; auto.
Qed.

(** An open leg, without the loop. *)
Definition stays_open (children : list Order) (c : Order) : Prop :=
  IsTerminal (o_status c) = false \/
  (forall e, e ∈ children -> endsItsChapter e = true -> (o_id e < o_id c)%Z).

Definition is_open (children : list Order) (c : Order) : bool := negb (in_closed (chapter_boundary children None) c).

Lemma is_open_true l c : is_open l c = true <-> stays_open l c.
Proof.
  unfold is_open, stays_open. rewrite negb_true_iff.
  pose proof (boundary_spec l None) as Hb. destruct (chapter_boundary l None) as [x|]; unfold in_closed.
  - destruct Hb as (H1 & _ & H3). rewrite andb_false_iff, Z.leb_gt. split; (intros [Ht|Hi]; [by left|right]).
    + intros e He Ee. specialize (H3 e He Ee). lia.
    + destruct H1 as [?|(e & He & Ee & <-)]; [done|]. by apply Hi.
  - destruct Hb as [_ H]. split; [|done]. intros _. right. intros e He Ee. rewrite (H e He) in Ee. done.
Qed.

Lemma open_is_filter l : (compoundGenerations l).1 = List.filter (is_open l) l.
Proof. done. Qed.

Lemma open_spec l c : c ∈ (compoundGenerations l).1 <-> c ∈ l /\ stays_open l c.
Proof. by rewrite open_is_filter, elem_of_lfilter, is_open_true. Qed.

Lemma superseded_spec l : (compoundGenerations l).2 = existsb endsItsChapter l.
Proof.
  unfold compoundGenerations. cbn [snd]. pose proof (boundary_spec l None) as Hb.
  destruct (chapter_boundary l None) as [x|].
  - destruct Hb as ([?|(e & He & Ee & _)] & _ & _); [done|]. cbn. symmetry. apply existsb_true. eauto.
  - destruct Hb as [_ H]. cbn. symmetry. by apply existsb_false.
Qed.

Lemma ender_terminal c : endsItsChapter c = true -> IsTerminal (o_status c) = true /\ lost_leg c = true.
Proof.
  unfold endsItsChapter, lost_leg. destruct (eqb_spec_s (o_status c) StatusFailed) as [->|]; [done|].
  destruct (eqb_spec_s (o_status c) StatusCancelled) as [->|]; done.
Qed.

(** Dissolved: something ended a chapter, everything has stopped, and nothing is
    newer than the last end. *)
Lemma dissolved_spec l :
  digWasDissolved l = true <-> existsb endsItsChapter l = true /\ forall c, c ∈ l -> ~ stays_open l c.
Proof.
  unfold digWasDissolved. rewrite <- superseded_spec. pose proof (open_spec l) as Ho.
  destruct (compoundGenerations l) as [open sup]. cbn in *. rewrite andb_true_iff, bool_decide_eq_true.
  split; intros [H1 H2]; (split; [done|]).
  - intros c Hc Hs. assert (c ∈ open) as Hin by (by apply Ho). rewrite H2 in Hin. by apply elem_of_nil in Hin.
  - destruct open as [|c open]; [done|]. destruct (H2 c); apply Ho; set_solver.
Qed.

(** ** Closed chapters do not count *)

Lemma find_filter {A} (f p : A -> bool) l : List.find f (List.filter p l) = List.find (fun x => p x && f x) l.
Proof. induction l as [|x l IH]; [done|]. cbn. destruct (p x); cbn; [by destruct (f x)|done]. Qed.

Lemma find_ext_in {A} (f g : A -> bool) l : (forall x, x ∈ l -> f x = g x) -> List.find f l = List.find g l.
Proof.
  induction l as [|x l IH]; [done|]. intros H. cbn. rewrite (H x) by set_solver.
  destruct (g x); [done|]. apply IH. set_solver.
Qed.

Lemma existsb_find {A} (f : A -> bool) l : existsb f l = bool_decide (is_Some (List.find f l)).
Proof. induction l as [|x l IH]; [done|]. cbn. by destruct (f x). Qed.

Section Generations.
Context (children : list Order) (m : Z).
Definition old_legs : list Order := List.filter (fun c => (o_id c <=? m)%Z) children.
Definition new_legs : list Order := List.filter (fun c => (m <? o_id c)%Z) children.
Hypothesis old_done : forall c, c ∈ old_legs -> IsTerminal (o_status c) = true.
Hypothesis old_lost : forall c, c ∈ old_legs -> lost_leg c = true ->
  exists e, e ∈ old_legs /\ endsItsChapter e = true /\ (o_id c <= o_id e)%Z.

Lemma new_same c : (m < o_id c)%Z -> is_open children c = is_open new_legs c.
Proof.
  intros Hm. apply eq_true_iff_eq. rewrite !is_open_true. unfold stays_open, new_legs.
  split; (intros [Ht|H]; [by left|right]); intros e He Ee.
  - apply elem_of_lfilter in He as [He _]. auto.
  - destruct (Z.le_gt_cases (o_id e) m); [lia|]. apply H; [|done]. apply elem_of_lfilter. split; [done|]. by apply Z.ltb_lt.
Qed.

Lemma counted c : c ∈ children -> lost_leg c = true \/ IsTerminal (o_status c) = false ->
  is_open children c = ((m <? o_id c)%Z && is_open new_legs c).
Proof.
  intros Hc Hl. destruct (m <? o_id c)%Z eqn:Hm; breflect; cbn [andb]; [by apply new_same|].
  assert (Hold : c ∈ old_legs) by (apply elem_of_lfilter; split; [done|by apply Z.leb_le]).
  destruct Hl as [Hl|Hl]; [|by rewrite old_done in Hl].
  destruct (old_lost c Hold Hl) as (e & He & Ee & Hi). apply elem_of_lfilter in He as [He _].
  destruct (is_open children c) eqn:Ho; [|done]. apply is_open_true in Ho as [Ht|H]; [by rewrite old_done in Ht|].
  specialize (H e He Ee). lia.
Qed.

Lemma find_counted (f : Order -> bool) :
  (forall c, f c = true -> lost_leg c = true \/ IsTerminal (o_status c) = false) ->
  List.find f (compoundGenerations children).1 = List.find f (compoundGenerations new_legs).1.
Proof.
  intros Hf. rewrite !open_is_filter. unfold new_legs at 2. rewrite !find_filter. apply find_ext_in. intros c Hc.
  destruct (f c) eqn:Ef; [|by rewrite !andb_false_r]. rewrite !andb_true_r. by rewrite (counted c Hc (Hf c Ef)).
Qed.

Lemma dissolved_same : new_legs <> [] -> digWasDissolved children = digWasDissolved new_legs.
Proof.
  intros Hne. apply eq_true_iff_eq. rewrite !dissolved_spec, !existsb_true.
  assert (Hsame : forall c, c ∈ new_legs -> stays_open children c <-> stays_open new_legs c).
  { intros c [_ Hm%Z.ltb_lt]%elem_of_lfilter. by rewrite <- !is_open_true, new_same. }
  split; intros [(e & He & Ee) Ho].
  - assert (Hn : forall c, c ∈ new_legs -> ~ stays_open new_legs c).
    { intros c Hc Hs. apply (Ho c); [by apply elem_of_lfilter in Hc as []|]. by apply Hsame. }
    split; [|done]. destruct new_legs as [|c0 l] eqn:El; [done|]. rewrite <- El in *.
    destruct (existsb endsItsChapter new_legs) eqn:Ex; [by apply existsb_true|].
    destruct (Hn c0); [rewrite El; set_solver|]. right. intros e' He' Ee'.
    rewrite existsb_false in Ex. by rewrite Ex in Ee'.
  - pose proof He as [He' Hm%Z.ltb_lt]%elem_of_lfilter. split; [eauto|]. intros c Hc Hs.
    destruct (Z.le_gt_cases (o_id c) m) as [Hle|Hgt].
    + assert (Hold : c ∈ old_legs) by (apply elem_of_lfilter; split; [done|by apply Z.leb_le]).
      destruct Hs as [Ht|Hs]; [by rewrite old_done in Ht|]. specialize (Hs e He' Ee). lia.
    + assert (Hnew : c ∈ new_legs) by (apply elem_of_lfilter; split; [done|by apply Z.ltb_lt]).
      apply (Ho c Hnew). by apply Hsame.
Qed.
End Generations.

(** A superseded dig is a closed chapter.  Take every leg a demand ever had,
    in any order, and a new dig whose ids are above [m].  If the older legs have
    all ended and each one that failed or was cancelled is at or below a leg that
    ended its chapter, then every question the disposition asks - has a leg been
    lost, is every leg finished, which leg is misconfigured, was the dig
    dissolved - has the answer it would have with the new dig's legs alone. *)
Theorem closed_chapters_do_not_count (children : list Order) (m : Z) :
  (forall c, c ∈ old_legs children m -> IsTerminal (o_status c) = true) ->
  (forall c, c ∈ old_legs children m -> lost_leg c = true ->
     exists e, e ∈ old_legs children m /\ endsItsChapter e = true /\ (o_id c <= o_id e)%Z) ->
  new_legs children m <> [] ->
  let all := (compoundGenerations children).1 in
  let new := (compoundGenerations (new_legs children m)).1 in
  hasFailedOrCancelled all = hasFailedOrCancelled new /\ allTerminal all = allTerminal new /\
  configFailedLeg all = configFailedLeg new /\
  digWasDissolved children = digWasDissolved (new_legs children m).
Proof.
  intros Hd Hl Hne all new. split_and!.
  - unfold hasFailedOrCancelled. rewrite !existsb_find. f_equal. unfold all, new.
    by rewrite (find_counted children m Hd Hl) by auto.
  - unfold allTerminal. assert (Hneg : forall l, forallb (fun c => IsTerminal (o_status c)) l =
      negb (existsb (fun c => negb (IsTerminal (o_status c))) l)).
    { induction l as [|c l IH]; [done|]. cbn. rewrite IH. by destruct (IsTerminal (o_status c)). }
    rewrite !Hneg, !existsb_find. f_equal. f_equal. unfold all, new.
    rewrite (find_counted children m Hd Hl); [done|]. intros c Hc. apply negb_true_iff in Hc. by right.
  - unfold configFailedLeg, all, new. apply (find_counted children m Hd Hl).
    intros c [Hc _]%andb_true_iff. left. unfold lost_leg. by rewrite Hc.
  - by apply dissolved_same.
Qed.

(** ** A dig that was re-planned once *)

Definition leg (id : Z) (st : Status) (detail : string) : Order := with_status st detail 0 (demo_order id st).

Definition two_digs : list Order :=
  [leg 4 StatusConfirmed ""; leg 8 StatusConfirmed ""; leg 5 StatusFailed "robot fault";
   leg 9 StatusConfirmed ""; leg 6 StatusCancelled ReshuffleLegFailedDetail].

(** The configuration carve-out looks at the open legs only, so a misconfigured
    leg is passed over as soon as a newer sibling fails: what alone must fail the
    demand re-plans it instead. *)
Example config_fault_masked :
  let broken := leg 5 StatusFailed (configFailure "delivery node" "SLOT_9") in
  configFailedLeg (compoundGenerations [broken]).1 = Some broken /\
  digWasDissolved [broken] = false /\
  configFailedLeg (compoundGenerations [broken; leg 6 StatusFailed "robot fault"]).1 = None /\
  digWasDissolved [broken; leg 6 StatusFailed "robot fault"] = true.
Proof. by vm_compute. Qed.
