(* ===== verification/DigLock.v ===== *)
(** When the lane of a dig is given up (shingo-core/dispatch/dig_lock_release.go),
    with the reads of dispatch/compound.go it shares: the legs of a parent, and
    whether somebody is coming for a bin in the way.

    The state is Waybill.v's world.  What these operations read and nobody
    writes meanwhile is given beside it: the columns of [orders] that relate legs
    to their parent ([book]), the yard's nodes and the retired bins.  Waking a
    lane - the gate's release evaluator and the re-drive of held legs - is the
    interface [LaneWakes]: that code is not modelled, nothing is assumed about it,
    and the theorems speak of the world it is handed.  The lane lock is configured, and [GetOrder] reports a
    missing row as an error, as [sql.Row.Scan] does.  Logging is left out. *)

From S2P Require Import Prelude Status Sql CoreDb Reservations Mouth Yard Capacity GatedPlan Fleet OrderStore Lifecycle Waybill Chapters.

(** ** What stands beside the tables *)

(** parent_order_id, sequence, bin_id, coordinated and open_for_children. *)
Record Columns := mkCols {
  oc_id : Z; oc_parent : option Z; oc_sequence : Z; oc_bin : option Z; oc_coordinated : bool; oc_open : bool }.

(** The release evaluator: one lane, the held legs of a lane, the dwellers of the
    lane's group. *)
Class LaneWakes (F : Type) := {
  EvaluateLaneReleases : Z -> World F -> World F;
  RedriveHeldCompoundLegs : Z -> World F -> World F;
  EvaluateDwellersSharingGroupWith : Z -> World F -> World F }.

Section DigLock.
Context {F : Type} `{!Backend F, !LaneWakes F}.
Context (book : list Columns) (yard : Yard) (retired : Z -> bool).
Implicit Types w : World F.

Definition columns_of (id : Z) : Columns :=
  default (mkCols id None 0 None false false) (List.find (fun c => oc_id c =i id) book).
Definition IsCoordinated (ord : Order) : bool := oc_coordinated (columns_of (o_id ord)).
Definition gate_staged (ord : Order) w : bool :=
  GatedPlan.IsGateStaged (o_vendor_id ord) (default NoPlan (w_plans w !! o_id ord)) (o_wait_index ord).

Definition lift {A} (m : CoreSQL A) w : outcome error A * World F :=
  let '(r, s') := run_sql m (w_svc w) in (r, in_svc s' w).
Definition on_conn {A} (f : Conn CoreDB -> A * Conn CoreDB) w : A * World F :=
  let '(a, c') := f (conn (w_svc w)) in (a, in_svc (with_conn c' (w_svc w)) w).

(** ** Reads *)

Definition child_rows (parent : Z) (d : CoreDB) : list Order :=
  omap (fun c => orders d !! oc_id c)
    (isort (fun a b => (oc_sequence a <=? oc_sequence b)%Z) (List.filter (fun c => claimed_is (oc_parent c) parent) book)).

Definition ListChildOrders (parent : Z) : CoreSQL (list Order) := query (child_rows parent).

Definition GetOrderRow (id : Z) : CoreSQL Order :=
  r <-- Waybill.GetOrder id ;; match r with Some o => sret o | None => sfail ENoRows end.

Definition node_row (id : Z) : CoreSQL YNode :=
  r <-- query (fun _ => node_by_id yard id) ;; match r with Some n => sret n | None => sfail ENoRows end.

Definition lane_for_node (id : Z) : CoreSQL (option Z) :=
  n <-- node_row id ;;
  match yn_parent n with
  | None => sret None
  | Some p => pn <-- node_row p ;; sret (if yn_class pn =s NodeClassLANE then Some (yn_id pn) else None)
  end.

Definition get_dot_named (name : string) : CoreSQL YNode :=
  r <-- query (fun _ => node_by_dot_name yard name) ;; match r with Some n => sret n | None => sfail ENoRows end.

Definition ListBinsByClaim (orderID : Z) : CoreSQL (list Bin) :=
  query (fun d => map snd (isort (fun a b => (a.1 <=? b.1)%Z)
    (List.filter (fun ib => claimed_is (b_claimed_by ib.2) orderID && negb (retired ib.1)) (map_to_list (bins d))))).

Definition get_bin_row (id : Z) : CoreSQL Bin :=
  r <-- query (fun d => bins d !! id) ;; match r with Some b => sret b | None => sfail ENoRows end.

Definition hasOpenDigChapter (orderID : Z) w : bool * World F :=
  match lift (ListChildOrders orderID) w with
  | (Err _, w1) => (true, w1)
  | (Ok children, w1) => (existsb (fun c => negb (IsTerminal (o_status c))) children, w1)
  end.

Fixpoint firstLaneName (lanes : list Z) w : string * World F :=
  match lanes with
  | [] => ("", w)
  | id :: rest =>
      match lift (node_row id) w with
      | (Ok n, w1) => (yn_name n, w1)
      | (Err _, w1) => firstLaneName rest w1
      end
  end.

(** ** Is somebody coming for these bins? *)

(** In the clock's nanoseconds. *)
Definition claimantStallWindow : Z := 3 * 60 * 1000000000.

(** clock.Now(), which is not a statement. *)
Definition clock_read : CoreSQL Z := fun c => (Ok (clock_now (db c)), c).

Definition claimantIsMoving (claimantID : Z) : CoreSQL bool :=
  claimant <-- GetOrderRow claimantID ;;
  if IsTerminal (o_status claimant) then sret false
  else now <-- clock_read ;; sret (now - o_updated_at claimant <? claimantStallWindow)%Z.

Definition claimantStopped (claimantID : Z) : CoreSQL (bool * Z) :=
  claimant <-- GetOrderRow claimantID ;;
  if IsTerminal (o_status claimant) then sret (false, 0%Z)
  else now <-- clock_read ;;
    sret ((claimantStallWindow <=? now - o_updated_at claimant)%Z, (now - o_updated_at claimant)%Z).

(** The scan runs to the end: one live claimant outranks any unreadable row.
    [blockers] carries claimed_by of each bin in the way. *)
Fixpoint blockers_scan (blockers : list (option Z)) (readErr : option error) : CoreSQL bool :=
  match blockers with
  | [] => match readErr with Some e => sfail e | None => sret false end
  | None :: rest => blockers_scan rest readErr
  | Some claimant :: rest => fun c =>
      match claimantIsMoving claimant c with
      | (Err e, c1) => blockers_scan rest (Some e) c1
      | (Ok true, c1) => (Ok true, c1)
      | (Ok false, c1) => blockers_scan rest readErr c1
      end
  end.

Definition blockersSpokenFor (blockers : list (option Z)) : CoreSQL bool := blockers_scan blockers None.

(** ** When a lane is finished with *)

Definition holdsOccupancyThroughDwell (plans : gmap Z Stored) (orderID lane : Z) : CoreSQL bool :=
  r <-- slog (GetOrderRow orderID) ;;
  match r with
  | None => sret false
  | Some ord =>
      let stored := default NoPlan (plans !! orderID) in
      if negb (GatedPlan.IsGateStaged (o_vendor_id ord) stored (o_wait_index ord)) then sret false
      else match stored with
      | NoPlan | Garbled => sret false
      | Plan steps =>
          if negb (waitGatesAnAppend steps (o_wait_index ord)) then sret false
          else sret (match waitAt steps (o_wait_index ord) with Some wt => ps_lane wt =i lane | None => false end)
      end
  end.

(** A bin that is on the floor of the lane, or whose place cannot be read. *)
Fixpoint any_in_lane (claimed : list Bin) (lane : Z) : CoreSQL bool :=
  match claimed with
  | [] => sret false
  | b :: rest =>
      match b_node b with
      | None => any_in_lane rest lane
      | Some n =>
          r <-- slog (lane_for_node n) ;;
          match r with
          | None => sret true
          | Some (Some l) => if l =i lane then sret true else any_in_lane rest lane
          | Some None => any_in_lane rest lane
          end
      end
  end.

Definition legStillNeedsLane (plans : gmap Z Stored) (leg : Order) (lane : Z) : CoreSQL bool :=
  dwelling <-- holdsOccupancyThroughDwell plans (o_id leg) lane ;;
  if (dwelling : bool) then sret true
  else
    cl <-- slog (ListBinsByClaim (o_id leg)) ;;
    match cl with
    | None => sret true
    | Some claimed =>
        match oc_bin (columns_of (o_id leg)) with
        | None => any_in_lane claimed lane
        | Some id =>
            b <-- slog (get_bin_row id) ;;
            match b with None => sret true | Some bin => any_in_lane (claimed ++ [bin]) lane end
        end
    end.

Definition holderStillOwesTheLane (holder : Order) (lane : Z) : CoreSQL bool :=
  if o_delivery_node holder =s "" then sret false
  else
    d <-- slog (get_dot_named (o_delivery_node holder)) ;;
    match d with
    | None => sret true
    | Some dest =>
        l <-- slog (lane_for_node (yn_id dest)) ;;
        sret (match l with None => true | Some (Some x) => x =i lane | Some None => false end)
    end.

Fixpoint still_needed (plans : gmap Z Stored) (population : list Order) (holder lane : Z) : CoreSQL bool :=
  match population with
  | [] => sret false
  | leg :: rest =>
      if IsTerminal (o_status leg) then still_needed plans rest holder lane
      else
        needs <-- legStillNeedsLane plans leg lane ;;
        needs <-- (if negb needs && (o_id leg =i holder) then holderStillOwesTheLane leg lane else sret needs) ;;
        if (needs : bool) then sret true else still_needed plans rest holder lane
  end.

Definition handOffDugLane (parent : Order) (lane : Z) w : bool * World F :=
  if negb (IsCoordinated parent) then (false, w)
  else match lift (HandOffLaneToPicker lane (o_id parent) (o_id parent) ByDigHandoff) w with
  | (Err _, w1) => (true, w1)
  | (Ok handed, w1) => (handed, w1)
  end.

Definition unlock (lane owner : Z) w : World F := in_svc (with_conn (Mouth.Unlock lane owner (conn (w_svc w))) (w_svc w)) w.

Definition wake_freed (lane : Z) w : World F :=
  EvaluateDwellersSharingGroupWith lane (RedriveHeldCompoundLegs lane (EvaluateLaneReleases lane w)).

Definition maybeReleaseDigOnLastBlockerOut (lane : Z) w : World F :=
  if lane =i 0 then w
  else match lift (DigHoldOwner lane) w with
  | (Err _, w1) => w1
  | (Ok digOwner, w1) =>
      if digOwner =i 0 then w1
      else match lift (ListChildOrders digOwner) w1 with
      | (Err _, w2) => w2
      | (Ok children, w2) =>
          match lift (GetOrderRow digOwner) w2 with
          | (Err _, w3) => w3
          | (Ok holder, w3) =>
              let open := (compoundGenerations children).1 in
              let population := if IsTerminal (o_status holder) then open else holder :: open in
              match lift (still_needed (w_plans w3) population (o_id holder) lane) w3 with
              | (Ok false, w4) =>
                  match handOffDugLane holder lane w4 with
                  | (true, w5) => w5
                  | (false, w5) => wake_freed lane (unlock lane digOwner w5)
                  end
              | (_, w4) => w4
              end
          end
      end
  end.
End DigLock.

(** ** The lane is kept while it is needed *)

(** A read that, on tables [d], does not answer no. *)
Definition insists (d : CoreDB) (m : CoreSQL bool) : Prop := forall c, db c = d -> (m c).1 <> Ok false.
Definition looks {A} (m : CoreSQL A) : Prop := evolves (fun d d' => d' = d) m.

#[export] Instance same_tables_preorder : PreOrder (fun d d' : CoreDB => d' = d).
Proof. split; [done|]. by intros a b c -> ->. Qed.

Lemma insists_true d : insists d (sret true).
Proof. by intros c. Qed.

Lemma insists_bind {A} d (m : CoreSQL A) (k : A -> CoreSQL bool) :
  looks m -> (forall a, insists d (k a)) -> insists d (sbind m k).
Proof.
  intros Hm Hk c Hd. unfold sbind. specialize (Hm c). destruct (m c) as [[a|e] c1]; cbn in *; [|done].
  apply Hk. by rewrite Hm.
Qed.

(** A logged read of something that is there. *)
Lemma insists_log {A} d (m : CoreSQL A) (k : option A -> CoreSQL bool) (a : A) :
  looks m -> (forall c x c', db c = d -> m c = (Ok x, c') -> x = a) ->
  insists d (k None) -> insists d (k (Some a)) -> insists d (sbind (slog m) k).
Proof.
  intros Hm Ha Hn Hs c Hd. unfold sbind, slog. pose proof (Hm c) as Hdb. pose proof (Ha c) as Hx.
  destruct (m c) as [[x|e] c1]; cbn in *.
  - rewrite (Hx x c1 Hd eq_refl). apply Hs. by rewrite Hdb.
  - apply Hn. by rewrite Hdb.
Qed.

Section Decider.
Context {F : Type} `{!Backend F, !LaneWakes F}.
Context (book : list Columns) (yard : Yard) (retired : Z -> bool).
Implicit Types w : World F.

(** [slot] is a node of [lane]. *)
Definition slot_in_lane (slot lane : Z) : Prop :=
  exists n pn p, node_by_id yard slot = Some n /\ yn_parent n = Some p /\ node_by_id yard p = Some pn /\
    yn_class pn = NodeClassLANE /\ yn_id pn = lane.

Lemma looks_node id : looks (node_row yard id).
Proof. unfold looks, node_row. evolve. Qed.
Lemma looks_lane id : looks (lane_for_node yard id).
Proof. unfold looks, lane_for_node, node_row. evolve. Qed.
Lemma looks_any bs lane : looks (any_in_lane yard bs lane).
Proof.
  induction bs as [|b bs IH]; cbn; [unfold looks; evolve|]. destruct (b_node b) as [n|]; [|done].
  unfold looks. apply evolves_bind; [typeclasses eauto|apply evolves_log, looks_lane|].
  intros [[l|]|]; [|done|by evolve]. destruct (l =i lane); [evolve|done].
Qed.
Lemma looks_leg plans leg lane : looks (legStillNeedsLane book yard retired plans leg lane).
Proof.
  unfold looks, legStillNeedsLane, holdsOccupancyThroughDwell, GetOrderRow, Waybill.GetOrder, ListBinsByClaim, get_bin_row.
  evolve; apply looks_any.
Qed.
Lemma looks_holder holder lane : looks (holderStillOwesTheLane yard holder lane).
Proof. unfold looks, holderStillOwesTheLane, get_dot_named, lane_for_node, node_row. evolve. Qed.
Lemma looks_needed plans pop holder lane : looks (still_needed book yard retired plans pop holder lane).
Proof.
  induction pop as [|leg pop IH]; cbn; [unfold looks; evolve|]. destruct (IsTerminal (o_status leg)); [done|].
  unfold looks. apply evolves_bind; [typeclasses eauto|apply looks_leg|intros needs].
  apply evolves_bind; [typeclasses eauto| |intros []; [evolve|done]].
  destruct (negb needs && _); [apply looks_holder|evolve].
Qed.

Lemma node_row_ok id c n c' : node_row yard id c = (Ok n, c') -> node_by_id yard id = Some n.
Proof.
  unfold node_row. intros (r & c1 & H1%query_ok & H2)%sbind_ok. destruct H1 as [-> _].
  destruct (node_by_id yard id); [|done]. by injection H2 as ->.
Qed.

Lemma lane_found slot lane c x c' : slot_in_lane slot lane -> lane_for_node yard slot c = (Ok x, c') -> x = Some lane.
Proof.
  intros (n & pn & p & Hn & Hp & Hpn & Hc & <-) H. unfold lane_for_node in H.
  apply sbind_ok in H as (n' & c1 & H1%node_row_ok & H). rewrite Hn in H1. injection H1 as <-. rewrite Hp in H.
  apply sbind_ok in H as (pn' & c2 & H2%node_row_ok & H). rewrite Hpn in H2. injection H2 as <-.
  rewrite Hc in H. by injection H as <-.
Qed.

Lemma any_insists d bs b slot lane :
  b ∈ bs -> b_node b = Some slot -> slot_in_lane slot lane -> insists d (any_in_lane yard bs lane).
Proof.
  intros Hin Hb Hl. induction bs as [|b' bs IH]; [by apply elem_of_nil in Hin|]. cbn [any_in_lane].
  apply elem_of_cons in Hin as [<-|Hin].
  - rewrite Hb. apply (insists_log d _ _ (Some lane)); [apply looks_lane| |apply insists_true|].
    + intros c x c' _. by apply lane_found.
    + rewrite Z.eqb_refl. apply insists_true.
  - specialize (IH Hin). destruct (b_node b') as [n|]; [|done].
    apply insists_bind; [apply evolves_log, looks_lane|]. intros [[l|]|]; [|done|apply insists_true].
    destruct (l =i lane); [apply insists_true|done].
Qed.

(** The leg claims a bin that stands in the lane. *)
Definition working_in (d : CoreDB) (leg : Order) (lane : Z) : Prop :=
  IsTerminal (o_status leg) = false /\
  exists id b slot, bins d !! id = Some b /\ b_claimed_by b = Some (o_id leg) /\ retired id = false /\
    b_node b = Some slot /\ slot_in_lane slot lane.

Lemma leg_insists d plans leg lane : working_in d leg lane -> insists d (legStillNeedsLane book yard retired plans leg lane).
Proof.
  intros (_ & id & b & slot & Hb & Hc & Hr & Hn & Hl). unfold legStillNeedsLane.
  apply insists_bind. { unfold looks, holdsOccupancyThroughDwell, GetOrderRow, Waybill.GetOrder. evolve. }
  intros []; [apply insists_true|].
  set (claimed := map snd (isort (fun a b => (a.1 <=? b.1)%Z) (List.filter (fun ib : Z * Bin =>
    claimed_is (b_claimed_by ib.2) (o_id leg) && negb (retired ib.1)) (map_to_list (bins d))))).
  assert (Hin : b ∈ claimed).
  { unfold claimed. apply list_elem_of_fmap. exists (id, b). split; [done|]. apply elem_of_isort, elem_of_lfilter.
    split; [by apply elem_of_map_to_list|]. cbn. by rewrite Hr, (proj2 (claimed_is_true _ _) Hc). }
  apply (insists_log d _ _ claimed).
  - unfold looks, ListBinsByClaim. evolve.
  - intros c x c' Hd H. unfold ListBinsByClaim in H. apply query_ok in H as [-> _]. by rewrite Hd.
  - apply insists_true.
  - destruct (oc_bin _) as [bid|]; [|by eapply any_insists].
    apply insists_bind. { unfold looks, get_bin_row. evolve. }
    intros [bin|]; [|apply insists_true]. eapply any_insists; [|done|done]. set_solver.
Qed.

Lemma needed_insists d plans pop holder lane leg :
  leg ∈ pop -> working_in d leg lane -> insists d (still_needed book yard retired plans pop holder lane).
Proof.
  intros Hin Hw. induction pop as [|l pop IH]; [by apply elem_of_nil in Hin|]. cbn [still_needed].
  apply elem_of_cons in Hin as [<-|Hin].
  - destruct Hw as [Ht Hw]. rewrite Ht. intros c Hd. unfold sbind at 1.
    pose proof (leg_insists d plans leg lane (conj Ht Hw) c Hd) as Hi. pose proof (looks_leg plans leg lane c) as Hl.
    destruct (legStillNeedsLane _ _ _ _ _ _ c) as [[[]|e] c1]; cbn in *; done.
  - specialize (IH Hin). destruct (IsTerminal (o_status l)); [done|]. apply insists_bind; [apply looks_leg|]. intros needs.
    apply insists_bind; [|intros []; [apply insists_true|done]].
    destruct (negb needs && _); [apply looks_holder|unfold looks; evolve].
Qed.

(** Nothing but the fault plan has moved. *)
Definition same (w w' : World F) : Prop := w_tables w' = w_tables w /\ w_fleet w' = w_fleet w /\ w_plans w' = w_plans w.

Lemma same_trans w1 w2 w3 : same w1 w2 -> same w2 w3 -> same w1 w3.
Proof. intros (H1 & H2 & H3) (K1 & K2 & K3). split_and!; congruence. Qed.

(** A read whose answer is known. *)
Lemma lift_known {A} (m : CoreSQL A) (P : A -> Prop) w :
  looks m -> (forall c x c', db c = w_tables w -> m c = (Ok x, c') -> P x) ->
  exists r w', lift m w = (r, w') /\ same w w' /\ match r with Ok x => P x | Err _ => True end.
Proof.
  intros Hm Ha. unfold lift, run_sql, same, w_tables, tables. specialize (Hm (conn (w_svc w))). specialize (Ha (conn (w_svc w))).
  destruct (m (conn (w_svc w))) as [r c]. exists r, (in_svc (with_conn c (w_svc w)) w). split_and!; [done|done|done|done|].
  destruct r as [x|]; [|done]. by eapply Ha.
Qed.

Lemma known_owner lane w :
  exists r w', lift (DigHoldOwner lane) w = (r, w') /\ same w w' /\
    match r with
    | Ok x => x = dig_owner_in (fun h => is_mode (mh_mode h) ModeDig) (activeMouthRows lane (w_tables w))
    | Err _ => True
    end.
Proof. apply lift_known; [unfold looks, DigHoldOwner; evolve|]. by intros c x c' <- [-> _]%query_ok. Qed.

Lemma known_children owner w :
  exists r w', lift (ListChildOrders book owner) w = (r, w') /\ same w w' /\
    match r with Ok x => x = child_rows book owner (w_tables w) | Err _ => True end.
Proof. apply lift_known; [unfold looks, ListChildOrders; evolve|]. by intros c x c' <- [-> _]%query_ok. Qed.

Lemma known_row owner w :
  exists r w', lift (GetOrderRow owner) w = (r, w') /\ same w w' /\
    match r with Ok x => orders (w_tables w) !! owner = Some x | Err _ => True end.
Proof.
  apply (lift_known (GetOrderRow owner) (fun x => orders (w_tables w) !! owner = Some x)); [unfold looks, GetOrderRow, Waybill.GetOrder; evolve|].
  intros c x c' <- (o & c1 & [-> _]%query_ok & E)%sbind_ok. destruct (orders (db c) !! owner); [|done]. by injection E as ->.
Qed.

(** C28. A dig gives its lane up only when it is done there.  Whatever statement
    fails: while the order that holds the lane, or a leg of its open chapter, is
    live and claims a bin standing in the lane, the decider releases nothing, hands
    nothing over and wakes nobody - the tables, the reservations among them, are
    exactly as before. *)
Theorem lane_kept_while_needed (lane owner : Z) (holder leg : Order) (w : World F) :
  dig_owner_in (fun h => is_mode (mh_mode h) ModeDig) (activeMouthRows lane (w_tables w)) = owner ->
  orders (w_tables w) !! owner = Some holder ->
  (leg = holder \/ (leg ∈ child_rows book owner (w_tables w) /\ stays_open (child_rows book owner (w_tables w)) leg)) ->
  working_in (w_tables w) leg lane ->
  w_tables (maybeReleaseDigOnLastBlockerOut book yard retired lane w) = w_tables w /\
  w_fleet (maybeReleaseDigOnLastBlockerOut book yard retired lane w) = w_fleet w.
Proof.
  intros Hown Hh Hleg Hw. enough (same w (maybeReleaseDigOnLastBlockerOut book yard retired lane w)) as (? & ? & _) by done.
  unfold maybeReleaseDigOnLastBlockerOut. destruct (lane =i 0); [done|].
  destruct (known_owner lane w) as ([o|e] & w1 & -> & S1 & E1); [|done]. rewrite Hown in E1. subst o. destruct (owner =i 0); [done|].
  destruct (known_children owner w1) as ([children|e] & w2 & -> & S2 & E2); [|by eapply same_trans]. pose proof (same_trans _ _ _ S1 S2) as S12.
  destruct (known_row owner w2) as ([hd|e] & w3 & -> & S3 & E3); [|by eapply same_trans]. pose proof (same_trans _ _ _ S12 S3) as S13.
  rewrite (proj1 S12), Hh in E3. injection E3 as <-. rewrite (proj1 S1) in E2. subst children.
  set (pop := if IsTerminal (o_status holder) then _ else _).
  assert (Hpop : leg ∈ pop).
  { unfold pop. destruct Hleg as [->|[Hin Hs]].
    - destruct Hw as [-> _]. set_solver.
    - assert (leg ∈ (compoundGenerations (child_rows book owner (w_tables w))).1) by (by apply open_spec).
      destruct (IsTerminal (o_status holder)); set_solver. }
  destruct (lift_known (still_needed book yard retired (w_plans w3) pop (o_id holder) lane) (fun b => b = true) w3)
    as ([b|e] & w4 & -> & S4 & E4); [apply looks_needed| | |by eapply same_trans].
  - intros c x c' Hd Hx. pose proof (needed_insists (w_tables w) (w_plans w3) pop (o_id holder) lane leg Hpop Hw c) as Hn.
    rewrite Hd, (proj1 S13), Hx in Hn. specialize (Hn eq_refl). by destruct x.
  - subst b. by eapply same_trans.
Qed.
End Decider.

(** ** A dig in lane 30: order 1 holds the lane, its legs are 6 and 7 *)

(** A plant in which nobody waits. *)
#[export] Instance quiet_wakes (F : Type) : LaneWakes F :=
  {| EvaluateLaneReleases := fun _ w => w; RedriveHeldCompoundLegs := fun _ w => w;
     EvaluateDwellersSharingGroupWith := fun _ w => w |}.

Definition dig_book : list Columns :=
  [mkCols 7 (Some 1%Z) 2 (Some 11%Z) false false; mkCols 6 (Some 1%Z) 1 (Some 10%Z) false false].
Definition dig_yard : Yard :=
  mkYard [mkYNode 30 "LANE_1" true true None NodeClassLANE None None;
          mkYNode 20 "SLOT_A" false true (Some 1%Z) "" (Some 30%Z) None] [] [] [] ∅ [] [] [].
Definition dig_db (leg6 leg7 : Order) : CoreDB :=
  set_reservations (fun _ => [mouth_row 1 30 ByExcavation ModeDig])
    (set_bins (fun _ => list_to_map [(10%Z, demo_bin 20 (Some 6%Z)); (11%Z, demo_bin 21 None)])
      (set_orders (fun _ => list_to_map [(1%Z, demo_order 1 StatusReshuffling); (6%Z, leg6); (7%Z, leg7)]) demo_db)).
Definition dig_world (fs : list bool) (leg6 leg7 : Order) : World Simulator.Sim :=
  mkWorld (mkSvc (mkConn (dig_db leg6 leg7) fs) None [] [] []) (Simulator.New false 0) ∅.

Definition leg6 : Order := leg 6 StatusDispatched "".
Definition leg7 : Order := leg 7 StatusPending "".

(** Leg 6 still has to lift bin 10 out of the lane: the third read fails, and
    the lane stays held. *)
Lemma lane_kept_while_needed_witness :
  w_tables (maybeReleaseDigOnLastBlockerOut dig_book dig_yard (fun _ => false) 30
    (dig_world [false; false; true] leg6 leg7)) = dig_db leg6 leg7.
Proof.
  apply (lane_kept_while_needed dig_book dig_yard (fun _ => false) 30 1 (demo_order 1 StatusReshuffling) leg6
    (dig_world [false; false; true] leg6 leg7)).
  - vm_compute. reflexivity.
  - vm_compute. reflexivity.
  - right. split; [vm_compute; set_solver|by left].
  - split; [done|]. exists 10%Z, (demo_bin 20 (Some 6%Z)), 20%Z. split_and!; [vm_compute; reflexivity|done|done|done|].
    eexists _, _, 30%Z. by split_and!; [vm_compute; reflexivity|..].
Defined.

(** A claim whose order is gone is not "nobody is coming": the read reports an
    error, so the leg behind that bin is held. *)
Example missing_claimant_is_unreadable :
  (blockersSpokenFor [Some 99%Z] (mkConn (dig_db leg6 leg7) [])).1 = Err ENoRows.
Proof. by vm_compute. Qed.
