(* ===== verification/LaneGate.v ===== *)
(** Entering and leaving a lane (shingo-core/dispatch/lane_gate.go, with the
    commit of dispatch/fleet_handover.go): admission, the mouth holds an order
    takes before it is sent, the occupancy row it takes when it is sent, and the
    releases when its bin has left or landed.

    The tables are Core's; the yard's queries of Admission.v run over them through
    [view].  Nodes, properties, bins and the orders' parent column are what nobody
    writes meanwhile, and are given beside them.  The orders' modes are grouped in
    a Go map: [dig_first] is the order it is ranged over in. *)

From S2P Require Import Prelude Status Sql CoreDb Reservations Mouth Yard YardReads Resolver Capacity Reshuffle GatedPlan Splice Junction Fleet OrderStore Lifecycle Waybill Chapters DigLock Admission.

Definition CauseLaneHeldDig : string := "lane-held-dig".
Definition CauseLaneHeldTraffic : string := "lane-held-traffic".
Definition CauseLaneHeldUnreadable : string := "lane-held-unreadable".

(** laneGateReservedBy *)
Definition laneGateReservedBy : string := BySourceLock.

Section LaneGate.
Context (book : list Columns) (yard : Yard) (rows : Z -> list OrderBin).

(** ** The yard over Core's tables *)

Definition order_view (d : CoreDB) (c : Columns) : option YOrder :=
  (fun o => mkYOrder (oc_id c) (o_status o) "" (o_delivery_node o) (oc_bin c) (oc_parent c)) <$> orders d !! oc_id c.

Definition view (d : CoreDB) : Yard :=
  mkYard (y_nodes yard) (y_bins yard) (omap (order_view d) book) (reservations d) (y_props yard) (y_payloads yard)
    (y_types yard) (y_levels yard).

(** A read of the yard; whatever goes wrong with it is [EDriver] here. *)
Definition look {E A} (m : SQL Yard E A) : CoreSQL A := fun c =>
  let '(r, c1) := m (mkConn (view (db c)) (faults c)) in
  (match r with Ok a => Ok a | Err _ => Err EDriver end, mkConn (db c) (faults c1)).

Definition laneOwnerFor (orderID : Z) : CoreSQL Z :=
  r <-- slog (look (get_order orderID)) ;;
  sret (match r with Some o => default orderID (yo_parent o) | None => orderID end).

(** ** The holds an order needs *)

Record laneHold := mkLaneHold { lh_lane : Z; lh_mode : Mode }.

Definition stronger (mode : Mode) (hd : laneHold) : laneHold :=
  if bool_decide (mode = ModeDig) then mkLaneHold (lh_lane hd) ModeDig else hd.

(** One entry per lane, the stronger mode wins. *)
Definition add_hold (lane : Z) (mode : Mode) (hs : list laneHold) : list laneHold :=
  if existsb (fun x => lh_lane x =i lane) hs
  then map (fun x => if lh_lane x =i lane then stronger mode x else x) hs
  else hs ++ [mkLaneHold lane mode].

Definition hold_for (n : option YNode) (mode : Mode) (hs : list laneHold) : CoreSQL (list laneHold) :=
  match n with
  | None => sret hs
  | Some n =>
      l <-- look (LaneForNode (yn_id n)) ;;
      match l with
      | Some lane => sret (match yn_parent lane with Some _ => add_hold (yn_id lane) mode hs | None => hs end)
      | None => sret hs
      end
  end.

Definition resolveOrderLaneHolds (sourceNode destNode : option YNode) : CoreSQL (list laneHold) :=
  hs <-- hold_for sourceNode ModeDig [] ;; hold_for destNode ModeInbound hs.

Fixpoint plan_holds (steps : list resolvedStep) (hs : list laneHold) : CoreSQL (list laneHold) :=
  match steps with
  | [] => sret hs
  | s :: rest =>
      if negb (named_step s) then plan_holds rest hs
      else
        n <-- slog (look (GetNodeByDotName (ps_node s))) ;;
        match n with
        | None => plan_holds rest hs
        | Some node =>
            l <-- look (LaneForNode (yn_id node)) ;;
            match l with
            | Some lane =>
                match yn_parent lane with
                | Some _ =>
                    deferred <-- look (entryDeferredToGate skipsForComplexEntry lane) ;;
                    plan_holds rest (if deferred : bool then hs
                      else add_hold (yn_id lane) (if ps_action s =s ActionPickup then ModeDig else ModeInbound) hs)
                | None => plan_holds rest hs
                end
            | None => plan_holds rest hs
            end
        end
  end.

Definition resolvePlanLaneHolds (steps : list resolvedStep) : CoreSQL (list laneHold) := plan_holds steps [].

(** ** Taking them *)

Definition lanes_in (mode : Mode) (hs : list laneHold) : list Z :=
  map lh_lane (List.filter (fun x => bool_decide (lh_mode x = mode)) hs).

(** byMode, in the order it is ranged over. *)
Definition by_mode (dig_first : bool) (hs : list laneHold) : list (Mode * list Z) :=
  List.filter (fun g => negb (bool_decide (g.2 = [])))
    (if dig_first then [(ModeDig, lanes_in ModeDig hs); (ModeInbound, lanes_in ModeInbound hs)]
     else [(ModeInbound, lanes_in ModeInbound hs); (ModeDig, lanes_in ModeDig hs)]).

Fixpoint acquire_modes (orderID : Z) (asker : DigAsker) (groups : list (Mode * list Z)) : CoreSQL bool :=
  match groups with
  | [] => sret true
  | (mode, lanes) :: rest => fun c =>
      match AcquireLanesFor orderID mode asker laneGateReservedBy lanes c with
      | (Ok _, c1) => acquire_modes orderID asker rest c1
      | (Err EReservationConflict, c1) => (Ok false, (ReleaseLanesByOwner orderID c1).2)
      | (Err e, c1) => (Err e, c1)
      end
  end.

Definition acquireOrderLanes (dig_first : bool) (orderID : Z) (hs : list laneHold) : CoreSQL bool :=
  match hs with
  | [] => sret true
  | _ =>
      owner <-- laneOwnerFor orderID ;;
      acquire_modes orderID (AskerFor orderID owner) (by_mode dig_first hs)
  end.

(** ** Naming a refusal *)

(** The rows as they came back; [None] is a failed read. *)
Fixpoint classify_rows (orderID : Z) (hs : list MouthHold) : option bool :=
  match hs with
  | [] => Some false
  | x :: rest =>
      if (mh_order x =i orderID) || negb (dig_row x) then classify_rows orderID rest
      else if IsExcavation (mh_by x) then None
      else match classify_rows orderID rest with Some _ => Some true | None => None end
  end.

(** [classify_rows]: an excavation ([None]), or whether a source lock was seen. *)
Fixpoint classify_reads (orderID : Z) (reads : list (option (list MouthHold))) (unreadable source : bool) : string :=
  match reads with
  | [] => if unreadable then CauseLaneHeldUnreadable else if source then CauseLaneHeldSource else CauseLaneHeldTraffic
  | None :: rest => classify_reads orderID rest true source
  | Some hs :: rest =>
      match classify_rows orderID hs with
      | None => CauseLaneHeldDig
      | Some s => classify_reads orderID rest unreadable (source || s)
      end
  end.

Definition classifyLaneHoldCause (orderID : Z) (reads : list (option (list MouthHold))) : string :=
  classify_reads orderID reads false false.

Fixpoint read_holds (hs : list laneHold) : CoreSQL (list (option (list MouthHold))) :=
  match hs with
  | [] => sret []
  | x :: rest =>
      r <-- slog (query (activeMouthRows (lh_lane x))) ;;
      more <-- read_holds rest ;;
      sret (r :: more)
  end.

Definition causeForLaneHolds (orderID : Z) (hs : list laneHold) : CoreSQL string :=
  reads <-- read_holds hs ;; sret (classifyLaneHoldCause orderID reads).

Definition laneDisplayName (hs : list laneHold) : CoreSQL string :=
  match hs with
  | [] => sret ""
  | x :: _ => r <-- slog (look (GetNode (lh_lane x))) ;; sret (match r with Some n => yn_name n | None => "" end)
  end.

(** ** The entry *)

Inductive LaneEntry := EntryAdmitted | EntryRefused (cause lane : string).

Definition AcquireLanesForOrder (dig_first : bool) (o : Asking) (sourceNode destNode : option YNode) (kind : EntryKind)
    : CoreSQL LaneEntry :=
  v <-- look (admit_move rows (mkSituation (Some o) sourceNode destNode (skipsForEntry kind))) ;;
  if negb (gv_admitted v) then sret (EntryRefused (gv_cause v) (gv_lane v))
  else
    hs <-- resolveOrderLaneHolds sourceNode destNode ;;
    match hs with
    | [] => sret EntryAdmitted
    | _ =>
        taken <-- acquireOrderLanes dig_first (aq_id o) hs ;;
        if taken : bool then sret EntryAdmitted
        else
          cause <-- causeForLaneHolds (aq_id o) hs ;;
          lane <-- laneDisplayName hs ;;
          sret (EntryRefused cause lane)
    end.

Definition ReleaseLanesForOrder (orderID : Z) : CoreSQL unit := ReleaseLanesByOwner orderID ;;; sret ().

(** ** Being inside *)

(** A lane that cannot be looked up is logged and passed over. *)
Fixpoint lanes_from (seen : list Z) (ns : list (option YNode)) : CoreSQL (list Z) :=
  match ns with
  | [] => sret []
  | None :: rest => lanes_from seen rest
  | Some n :: rest =>
      l <-- slog (look (LaneForNode (yn_id n))) ;;
      match l with
      | Some (Some lane) =>
          if existsb (fun i => i =i yn_id lane) seen then lanes_from seen rest
          else more <-- lanes_from (yn_id lane :: seen) rest ;; sret (yn_id lane :: more)
      | _ => lanes_from seen rest
      end
  end.

Definition lanesFor (ns : list (option YNode)) : CoreSQL (list Z) := lanes_from [] ns.

Fixpoint take_each (orderID : Z) (lanes : list Z) : CoreSQL unit :=
  match lanes with
  | [] => sret ()
  | lane :: rest => AcquireOccupancy orderID lane ;;; take_each orderID rest
  end.

Definition TakeLaneOccupancy (orderID : Z) (ns : list (option YNode)) : CoreSQL unit :=
  lanes <-- lanesFor ns ;; take_each orderID lanes.

Fixpoint enteredAtDispatch (ns : list (option YNode)) : CoreSQL (list (option YNode)) :=
  match ns with
  | [] => sret []
  | None :: rest => enteredAtDispatch rest
  | Some n :: rest =>
      l <-- slog (look (LaneForNode (yn_id n))) ;;
      gated <-- match l with Some (Some lane) => look (laneIsGated (yn_id lane)) | _ => sret false end ;;
      more <-- enteredAtDispatch rest ;;
      sret (if gated : bool then more else Some n :: more)
  end.

Definition ReleaseLaneOccupancy (orderID : Z) : CoreSQL (option unit) := slog (ReleaseAllOccupancy orderID).

(** ** Leaving *)

Definition releaseOrderLaneFor (orderID : Z) (node : option YNode) : CoreSQL unit :=
  match node with
  | None => sret ()
  | Some n =>
      l <-- look (LaneForNode (yn_id n)) ;;
      match l with None => sret () | Some lane => ReleaseLaneHandoff orderID (yn_id lane) end
  end.

Definition ReleaseInboundLaneForOrder (orderID : Z) (dropNodeName : string) : CoreSQL unit :=
  if dropNodeName =s "" then sret ()
  else
    owner <-- laneOwnerFor orderID ;;
    n <-- slog (look (GetNodeByDotName dropNodeName)) ;;
    match n with
    | None => sret ()
    | Some node => slog (releaseOrderLaneFor owner (Some node)) ;;; sret ()
    end.

(** ** The commit *)

Inductive CommitError :=
| CeOccupancy (e : error)
| CeSynthetic (location : string)
| CeUnreadableLane (location : string)
| CeUndeclared (location lane : string)
| CeHandover (e : HandoverError).

(** What is wrong with the blocks, if anything. *)
Fixpoint check_blocks (held : list Z) (blocks : list OrderBlock) : CoreSQL (option CommitError) :=
  match blocks with
  | [] => sret None
  | b :: rest =>
      if bk_location b =s "" then check_blocks held rest
      else
        n <-- slog (look (GetNodeByDotName (bk_location b))) ;;
        match n with
        | None => check_blocks held rest
        | Some node =>
            if yn_synthetic node then sret (Some (CeSynthetic (bk_location b)))
            else
              l <-- slog (look (LaneForNode (yn_id node))) ;;
              match l with
              | None => sret (Some (CeUnreadableLane (bk_location b)))
              | Some None => check_blocks held rest
              | Some (Some lane) =>
                  if existsb (fun i => i =i yn_id lane) held then check_blocks held rest
                  else sret (Some (CeUndeclared (bk_location b) (yn_name lane)))
              end
        end
  end.

Definition assertDeclaredEveryLaneItEnters (blocks : list OrderBlock) (declared : list (option YNode)) : CoreSQL (option CommitError) :=
  held <-- lanesFor declared ;; check_blocks held blocks.

Section Commit.
Context {F : Type} `{!Backend F, !LaneWakes F} (retired : Z -> bool).
Implicit Types w : World F.

(** IsConcurrentTransition *)
Definition lost_race (e : HandoverError) : bool :=
  match e with HeClaim (EConcurrentTransition _ _ _) => true | _ => false end.

Definition commitToFleet (meanwhile : CoreDB -> CoreDB) (ord : Order) (req : CreateOrderRequest) (actor : string)
    (entering : list (option YNode)) (w : World F) : outcome CommitError unit * Order * World F :=
  match lift (TakeLaneOccupancy (o_id ord) entering) w with
  | (Err e, w1) => (Err (CeOccupancy e), ord, w1)
  | (Ok _, w1) =>
      match lift (assertDeclaredEveryLaneItEnters (cr_blocks req) entering) w1 with
      | (Err e, w2) => (Err (CeOccupancy e), ord, w2)        (* both reads handle their errors *)
      | (Ok (Some e), w2) => (Err e, ord, (lift (ReleaseLaneOccupancy (o_id ord)) w2).2)
      | (Ok None, w2) =>
          match handoverToFleet meanwhile ord req actor w2 with
          | (Ok _, ord1, w3) => (Ok (), ord1, w3)
          | (Err e, ord1, w3) =>
              (Err (CeHandover e), ord1, if lost_race e then w3 else (lift (ReleaseLaneOccupancy (o_id ord)) w3).2)
          end
      end
  end.

(** ** The exit *)

Definition releaseOccupancyForExitFromLane (orderID : Z) (lane : YNode) (w : World F) : World F :=
  match lift (ReleaseOccupancyForLane orderID (yn_id lane)) w with
  | (Err _, w1) => w1
  | (Ok _, w1) =>
      let w2 := maybeReleaseDigOnLastBlockerOut book yard retired (yn_id lane) w1 in
      RedriveHeldCompoundLegs (yn_id lane) (EvaluateLaneReleases (yn_id lane) w2)
  end.

Definition releaseOccupancyOnExit (orderID : Z) (node : YNode) (w : World F) : World F :=
  match lift (look (LaneForNode (yn_id node))) w with
  | (Ok (Some lane), w1) =>
      match lift (holdsOccupancyThroughDwell (w_plans w1) orderID (yn_id lane)) w1 with
      | (Ok true, w2) => maybeReleaseDigOnLastBlockerOut book yard retired (yn_id lane) w2
      | (_, w2) => releaseOccupancyForExitFromLane orderID lane w2
      end
  | (_, w1) => w1
  end.

Definition HandleTransitForLaneGate (orderID fromNodeID : Z) (w : World F) : World F :=
  if fromNodeID =i 0 then w
  else
    let '(owner, w1) := lift (laneOwnerFor orderID) w in
    match lift (look (GetNode fromNodeID)) w1 with
    | (Err _, w2) => w2
    | (Ok node, w2) =>
        let w3 := (lift (releaseOrderLaneFor (match owner with Ok i => i | Err _ => orderID end) (Some node)) w2).2 in
        releaseOccupancyOnExit orderID node w3
    end.
End Commit.
End LaneGate.

(** ** Everybody else's rows *)

Definition others (id : Z) (d : CoreDB) : list Resv := List.filter (fun r => negb (r_order r =i id)) (reservations d).

(** The lane stays coherent and nobody else's row is touched. *)
Definition mine_only (id : Z) (d d' : CoreDB) : Prop := mouth_wf d -> mouth_wf d' /\ others id d' = others id d.

#[export] Instance mine_only_preorder id : PreOrder (mine_only id).
Proof.
  split; [by intros d Hw|]. intros d1 d2 d3 H1 H2 Hw. destruct (H1 Hw) as [Hw2 E2]. destruct (H2 Hw2) as [Hw3 E3].
  split; congruence.
Qed.

Lemma others_snoc id row d : r_order row = id -> others id (set_reservations (fun l => l ++ [row]) d) = others id d.
Proof. intros E. unfold others. simpl. rewrite List.filter_app. simpl. rewrite E, Z.eqb_refl. simpl. by rewrite app_nil_r. Qed.

Lemma others_map id p g d :
  (forall r, p r = true -> r_order r = id) -> (forall r, r_order (g r) = r_order r) ->
  others id (update_where p g d) = others id d.
Proof.
  intros Hp Hg. unfold others, update_where. simpl. induction (reservations d) as [|r l IH]; [done|]. simpl.
  destruct (p r) eqn:E; rewrite ?Hg; [rewrite (Hp r E), Z.eqb_refl|destruct (r_order r =i id)]; simpl; congruence.
Qed.

Lemma others_delete id p d : (forall r, p r = true -> r_order r = id) -> others id (delete_where p d) = others id d.
Proof.
  intros Hp. unfold others, delete_where. simpl. induction (reservations d) as [|r l IH]; [done|]. simpl.
  destruct (p r) eqn:E; simpl; [rewrite (Hp r E), Z.eqb_refl; simpl; done|]. destruct (r_order r =i id); simpl; congruence.
Qed.

Lemma acquire_lane_mine id mode ben by_ lane : evolves (mine_only id) (acquire_lane id mode ben by_ lane).
Proof.
  intros c Hw. apply (acquire_lane_evolves (fun d => mouth_wf d /\ others id d = others id (db c))); [..|done].
  - tauto.
  - intros d [Hd E] _ Hno. split; [by apply mouth_wf_fresh|]. by rewrite others_snoc.
  - intros d [Hd E] _. split.
    + apply mouth_wf_map; [auto with shingo| |done]. intros r. by case_match.
    + rewrite others_map; [done| |done]. by intros r [[? _]%owner_mouth_true _]%andb_true_iff.
  - intros d h [Hd E] _ _ _ _ _. split.
    + apply mouth_wf_map; [auto with shingo| |done]. intros r. case_match; [simpl; eauto|done].
    + rewrite others_map; [done| |done]. by intros r [? _]%owner_mouth_true.
Qed.

Lemma delete_mine {A} id p (f : CoreDB -> A) :
  (forall r, p r = true -> r_order r = id) -> evolves (E := error) (mine_only id) (stmt (fun d => (f d, delete_where p d))).
Proof.
  intros Hp. apply evolves_stmt; [typeclasses eauto|]. intros d Hw. cbn.
  split; [by apply mouth_wf_filter|by apply others_delete].
Qed.

Lemma release_mine id : evolves (mine_only id) (ReleaseLanesByOwner id).
Proof. apply delete_mine. by intros r [?%Z.eqb_eq _]%andb_true_iff. Qed.

(** A lane already held stays held while other lanes are taken. *)
Lemma acquire_elsewhere id mode mode0 ben by_ lane lane0 :
  lane <> lane0 ->
  evolves (keeps (fun d => mouth_wf d /\ holds id mode0 lane0 d)) (acquire_lane id mode ben by_ lane).
Proof.
  intros Hne. assert (Hoff : forall r, owner_mouth id lane0 r = true -> owner_mouth id lane r = false).
  { intros r (_ & _ & Hn)%owner_mouth_true. apply not_true_is_false. intros (_ & _ & Hn')%owner_mouth_true. congruence. }
  assert (Hkeep : forall p g d, (forall r, owner_mouth id lane r = false -> p r = false) -> holds id mode0 lane0 d ->
    holds id mode0 lane0 (update_where p g d)).
  { intros p g d Hp (r & Hr & Ho & Hm). exists r. split_and!; [|done|done]. apply list_elem_of_fmap. exists r.
    rewrite Hp by auto. done. }
  apply acquire_lane_evolves.
  - by intros d [Hw _].
  - intros d [Hw Hh] _ Hno. split; [by apply mouth_wf_fresh|by apply holds_snoc].
  - intros d [Hw Hh] _. split; [apply mouth_wf_map; [auto with shingo| |done]; intros r; by case_match|].
    apply Hkeep; [|done]. by intros r ->.
  - intros d h [Hw Hh] _ _ _ _ _. split; [|by apply Hkeep].
    apply mouth_wf_map; [auto with shingo| |done]. intros r. case_match; [simpl; eauto|done].
Qed.

(** ** Acquiring by mode *)

Definition compatible (id : Z) (mode : Mode) (ben : DigAsker) (lane : Z) (d : CoreDB) : Prop :=
  forall r, r ∈ others id d -> mouth_on lane r = true -> foreign_conflict id mode ben (to_hold r) = false.

Lemma acquire_each_compatible id mode ben by_ lanes : forall c c',
  mouth_wf (db c) -> acquire_each id mode ben by_ lanes c = (Ok (), c') ->
  forall lane, lane ∈ lanes -> compatible id mode ben lane (db c).
Proof.
  induction lanes as [|l ls IH]; intros c c' Hw H; [by intros ? ?%elem_of_nil|].
  apply sbind_ok in H as ([] & c1 & H1 & H2). pose proof (acquire_lane_mine id mode ben by_ l c Hw) as [Hw1 Eo].
  rewrite H1 in Hw1, Eo. apply acquire_lane_ok in H1 as [_ Hf]; [|done].
  intros lane [->|Hin]%elem_of_cons r Hr Hm.
  - apply Hf, active_elem. exists r. by apply elem_of_lfilter in Hr as [Hr _].
  - apply (IH c1 c' Hw1 H2 lane Hin r); [|done]. simpl in Eo. by rewrite Eo.
Qed.

Lemma AcquireLanesFor_takes id mode ben by_ lanes c c' :
  mouth_wf (db c) -> AcquireLanesFor id mode ben by_ lanes c = (Ok (), c') ->
  forall lane, lane ∈ lanes -> holds id mode lane (db c') /\ compatible id mode ben lane (db c).
Proof.
  intros Hw H lane Hl. pose proof (acquire_lanes_all_or_nothing id mode ben by_ lanes c Hw) as Ht. rewrite H in Ht.
  split; [by apply Ht|]. unfold AcquireLanesFor in H. rewrite <- sortedUniqueLanes_elem in Hl.
  destruct (sortedUniqueLanes lanes) as [|l ls]; [by apply elem_of_nil in Hl|].
  apply tx_ok in H as (? & c0 & c1 & H0 & H1 & _). apply sbind_ok in H1 as ([] & c2 & H1 & _).
  rewrite <- H0. eapply acquire_each_compatible; [|done|done]. by rewrite H0.
Qed.

Lemma AcquireLanesFor_mine id mode ben by_ lanes : evolves (mine_only id) (AcquireLanesFor id mode ben by_ lanes).
Proof. apply AcquireLanesFor_evolves; [typeclasses eauto|]. intros lane. apply acquire_lane_mine. Qed.

Lemma AcquireLanesFor_elsewhere id mode mode0 ben by_ lanes lane0 :
  lane0 ∉ lanes ->
  evolves (keeps (fun d => mouth_wf d /\ holds id mode0 lane0 d)) (AcquireLanesFor id mode ben by_ lanes).
Proof.
  intros Hn. unfold AcquireLanesFor, commit. assert (Hs : lane0 ∉ sortedUniqueLanes lanes) by by rewrite sortedUniqueLanes_elem.
  assert (Heach : forall ls, lane0 ∉ ls -> evolves (keeps (fun d => mouth_wf d /\ holds id mode0 lane0 d)) (acquire_each id mode ben by_ ls)).
  { induction ls as [|l ls IH]; intros Hl; [apply evolves_ret; typeclasses eauto|]. simpl.
    apply evolves_bind; [typeclasses eauto|apply acquire_elsewhere; set_solver|intros _; apply IH; set_solver]. }
  destruct (sortedUniqueLanes lanes) as [|l ls]; [apply evolves_ret; typeclasses eauto|].
  apply evolves_tx; [typeclasses eauto|]. apply evolves_bind; [typeclasses eauto|by apply Heach|].
  intros _. apply evolves_ret. typeclasses eauto.
Qed.

Section Seats.
Context (book : list Columns) (yard : Yard) (rows : Z -> list OrderBin).

Lemma look_db {E A} (m : SQL Yard E A) c : db (look book yard m c).2 = db c.
Proof. unfold look. by destruct (m _) as [r c1]. Qed.

Lemma look_evolves {E A} (R : CoreDB -> CoreDB -> Prop) `{!PreOrder R} (m : SQL Yard E A) : evolves R (look book yard m).
Proof. intros c. by rewrite look_db. Qed.

Lemma owner_evolves (R : CoreDB -> CoreDB -> Prop) `{!PreOrder R} id : evolves R (laneOwnerFor book yard id).
Proof. apply evolves_bind; [done|apply evolves_log, look_evolves; done|]. intros r. by apply evolves_ret. Qed.

Lemma steady_look {E A} (m : SQL Yard E A) : reads m -> steady (look book yard m).
Proof.
  intros Hm c Hf. unfold look. specialize (Hm (mkConn (view book yard (db c)) (faults c))).
  destruct (m _) as [r c1]. simpl in *. by apply Hm.
Qed.

(** ** One group of lanes after another *)

Definition disjoint_groups (groups : list (Mode * list Z)) : Prop := NoDup (concat (map snd groups)).

Lemma acquire_modes_mine id asker groups : evolves (mine_only id) (acquire_modes id asker groups).
Proof.
  induction groups as [|[mode lanes] rest IH]; [apply evolves_ret; typeclasses eauto|]. intros c. simpl.
  pose proof (AcquireLanesFor_mine id mode asker laneGateReservedBy lanes c) as H1.
  destruct (AcquireLanesFor _ _ _ _ _ c) as [[u|e] c1]; simpl in H1; [etransitivity; [exact H1|apply IH]|].
  destruct e; simpl; try exact H1. etransitivity; [exact H1|]. apply release_mine.
Qed.

Lemma acquire_modes_keeps id asker mode0 lane0 groups c c' :
  (forall g, g ∈ groups -> lane0 ∉ g.2) -> acquire_modes id asker groups c = (Ok true, c') ->
  mouth_wf (db c) -> holds id mode0 lane0 (db c) -> holds id mode0 lane0 (db c').
Proof.
  revert c. induction groups as [|[mode lanes] rest IH]; intros c Hn H Hw Hh; simpl in H; [by injection H as <-|].
  pose proof (AcquireLanesFor_elsewhere id mode mode0 asker laneGateReservedBy lanes lane0
    (Hn _ ltac:(left)) c (conj Hw Hh)) as [Hw1 Hh1].
  destruct (AcquireLanesFor _ _ _ _ _ c) as [[u|[]] c1]; try done.
  eapply IH; eauto. intros g Hg. apply Hn. by right.
Qed.

Lemma acquire_modes_takes id asker groups : forall c c',
  disjoint_groups groups -> mouth_wf (db c) -> acquire_modes id asker groups c = (Ok true, c') ->
  forall mode lanes lane, (mode, lanes) ∈ groups -> lane ∈ lanes ->
    holds id mode lane (db c') /\ compatible id mode asker lane (db c).
Proof.
  induction groups as [|[mode lanes] rest IH]; intros c c' Hd Hw H m ls lane Hg Hl; [by apply elem_of_nil in Hg|].
  unfold disjoint_groups in Hd. simpl in Hd. apply NoDup_app in Hd as (_ & Hdis & Hrest). simpl in H.
  pose proof (AcquireLanesFor_mine id mode asker laneGateReservedBy lanes c Hw) as [Hw1 Eo].
  destruct (AcquireLanesFor _ _ _ _ _ c) as [[[]|[]] c1] eqn:E1; try done. simpl in Hw1, Eo.
  apply elem_of_cons in Hg as [[= -> ->]|Hg].
  - destruct (AcquireLanesFor_takes _ _ _ _ _ _ _ Hw E1 lane Hl) as [Hh Hc]. split; [|done].
    eapply acquire_modes_keeps; eauto. intros g Hg Hin. apply (Hdis lane Hl).
    apply list_elem_of_In, in_concat. exists g.2. split; [by apply in_map, list_elem_of_In|by apply list_elem_of_In].
  - destruct (IH c1 c' Hrest Hw1 H m ls lane Hg Hl) as [Hh Hc]. split; [done|]. intros r Hr. apply Hc. by rewrite Eo.
Qed.

Lemma steady_acquire id mode ben by_ lanes : steady (AcquireLanesFor id mode ben by_ lanes).
Proof.
  unfold AcquireLanesFor, commit. destruct (sortedUniqueLanes lanes) as [|l ls]; [apply steady_ret|]. apply steady_tx.
  apply steady_bind; [|intros; apply steady_ret]. generalize (l :: ls). intros ks.
  induction ks as [|k ks IH]; [apply steady_ret|]. simpl. apply steady_bind; [|by intros].
  unfold acquire_lane, exec, query. steadily.
Qed.

(** After a refusal the order is seated nowhere. *)
Lemma acquire_modes_refused id asker groups : forall c c',
  faults c = [] -> acquire_modes id asker groups c = (Ok false, c') ->
  forall r, r ∈ reservations (db c') -> any_mouth id r = false.
Proof.
  induction groups as [|[mode lanes] rest IH]; intros c c' Hf H; [done|]. simpl in H.
  pose proof (steady_acquire id mode asker laneGateReservedBy lanes c Hf) as Hf1.
  destruct (AcquireLanesFor _ _ _ _ _ c) as [[u|[]] c1]; try done; [by apply (IH c1)|].
  simpl in Hf1. injection H as <-. unfold ReleaseLanesByOwner, stmt. rewrite Hf1. simpl.
  intros r [_ Hr]%elem_of_lfilter. by apply negb_true_iff.
Qed.
End Seats.

(** ** The holds of an order *)

Lemma filter_lanes_sub mode hs lane : lane ∈ lanes_in mode hs <-> mkLaneHold lane mode ∈ hs.
Proof.
  unfold lanes_in. rewrite list_elem_of_fmap. setoid_rewrite elem_of_lfilter. setoid_rewrite bool_decide_eq_true. split.
  - intros ([l m] & -> & H & E). simpl in E. by subst.
  - intros H. by exists (mkLaneHold lane mode).
Qed.

Lemma lanes_in_nodup mode hs : NoDup (map lh_lane hs) -> NoDup (lanes_in mode hs).
Proof. apply keys_filter. Qed.

Lemma concat_filter (groups : list (Mode * list Z)) :
  concat (map snd (List.filter (fun g => negb (bool_decide (g.2 = []))) groups)) = concat (map snd groups).
Proof.
  induction groups as [|[m ls] rest IH]; [done|]. simpl. case_bool_decide as E; simpl; [by rewrite E|by rewrite IH].
Qed.

Lemma by_mode_disjoint df hs : NoDup (map lh_lane hs) -> disjoint_groups (by_mode df hs).
Proof.
  intros Hd. assert (Hx : forall l m m', m <> m' -> l ∈ lanes_in m hs -> l ∈ lanes_in m' hs -> False).
  { intros l m m' Hm H1%filter_lanes_sub H2%filter_lanes_sub. clear df. induction hs as [|x r IH]; [by apply elem_of_nil in H1|].
    simpl in Hd. apply NoDup_cons in Hd as [Hn Hd].
    apply elem_of_cons in H1 as [<-|H1], H2 as [H2|H2]; [congruence|..|auto].
    - apply Hn. simpl. by apply (list_elem_of_fmap_2 lh_lane) in H2.
    - subst x. apply Hn. simpl. by apply (list_elem_of_fmap_2 lh_lane) in H1. }
  unfold disjoint_groups, by_mode. rewrite concat_filter.
  destruct df; simpl; rewrite app_nil_r; apply NoDup_app; split_and!; auto using lanes_in_nodup;
    intros l H1 H2; by eapply Hx; [|exact H1|exact H2].
Qed.

Lemma by_mode_in df hs x :
  x ∈ hs -> lh_mode x = ModeDig \/ lh_mode x = ModeInbound ->
  (lh_mode x, lanes_in (lh_mode x) hs) ∈ by_mode df hs /\ lh_lane x ∈ lanes_in (lh_mode x) hs.
Proof.
  intros Hx Hm. assert (Hl : lh_lane x ∈ lanes_in (lh_mode x) hs) by (apply filter_lanes_sub; by destruct x).
  split; [|done]. unfold by_mode. apply elem_of_lfilter. split.
  - destruct Hm as [-> | ->], df; set_solver.
  - simpl. apply negb_true_iff, bool_decide_eq_false. intros E. rewrite E in Hl. by apply elem_of_nil in Hl.
Qed.

Section Entry.
Context (book : list Columns) (yard : Yard) (rows : Z -> list OrderBin).

Lemma look_ok {A} (m : YardSQL A) f c a c' :
  (forall y, reads_as False y m f) -> look book yard m c = (Ok a, c') -> f (view book yard (db c)) = Some a /\ db c' = db c.
Proof.
  intros Hm H. destruct (Hm (view book yard (db c)) (mkConn (view book yard (db c)) (faults c)) eq_refl ltac:(done))
    as (o & c1 & E & _ & _ & Ho). pose proof (look_db book yard m c) as Hd. unfold look in H. rewrite E in H.
  destruct o as [a'|e]; [injection H as <- <-|done]. done.
Qed.

(** The lane at one end of the move, if its mouth is anybody's to hold. *)
Definition lane_end (n : option YNode) : option YNode :=
  match n with
  | None => None
  | Some m => match lane_at yard (yn_id m) with
              | Some (Some lane) => match yn_parent lane with Some _ => Some lane | None => None end
              | _ => None
              end
  end.

Definition with_end (n : option YNode) (mode : Mode) (hs : list laneHold) : list laneHold :=
  match lane_end n with Some lane => add_hold (yn_id lane) mode hs | None => hs end.

Lemma hold_for_ok n mode hs c r c' :
  hold_for book yard n mode hs c = (Ok r, c') -> r = with_end n mode hs /\ db c' = db c.
Proof.
  unfold hold_for, with_end, lane_end. destruct n as [m|]; [|by intros [= <- <-]]. intros H.
  apply sbind_ok in H as (l & c1 & H1 & H2). eapply look_ok in H1 as [Hl Hd]; [|intros y; apply LaneForNode_reads].
  cbn in Hl. change (lane_at (view book yard (db c)) (yn_id m)) with (lane_at yard (yn_id m)) in Hl. rewrite Hl.
  destruct l as [lane|]; [|by injection H2 as <- <-]. injection H2 as <- <-. by destruct (yn_parent lane).
Qed.

Lemma resolve_ok src dst c hs c' :
  resolveOrderLaneHolds book yard src dst c = (Ok hs, c') ->
  hs = with_end dst ModeInbound (with_end src ModeDig []) /\ db c' = db c.
Proof.
  intros H. apply sbind_ok in H as (h1 & c1 & [-> H1]%hold_for_ok & [-> H2]%hold_for_ok). split; congruence.
Qed.

(** One hold per lane: the source's lane in dig mode, the destination's inbound
    unless it is the source's. *)
Lemma order_holds src dst (hs := with_end dst ModeInbound (with_end src ModeDig [])) :
  NoDup (map lh_lane hs) /\ (forall x, x ∈ hs -> lh_mode x = ModeDig \/ lh_mode x = ModeInbound) /\
  (forall lane, lane_end src = Some lane -> mkLaneHold (yn_id lane) ModeDig ∈ hs) /\
  (forall lane, lane_end dst = Some lane -> mkLaneHold (yn_id lane) ModeInbound ∈ hs \/ mkLaneHold (yn_id lane) ModeDig ∈ hs).
Proof.
  unfold hs, with_end, add_hold. destruct (lane_end src) as [l1|], (lane_end dst) as [l2|]; simpl;
    [destruct (yn_id l1 =i yn_id l2) eqn:E; simpl; rewrite ?E; simpl; [apply Z.eqb_eq in E|apply Z.eqb_neq in E]|..].
  all: split_and!; [repeat (apply NoDup_cons; split; [set_solver|]); apply NoDup_nil_2|..].
  all: intros x Hx; try (injection Hx as <-); rewrite ?E; try set_solver.
Qed.

(** ** Nobody but its parent beside it *)

Definition parent_of (d : CoreDB) (id owner : Z) : Prop := own_dig (view book yard d) id owner.

Lemma owner_ok id c owner c' :
  laneOwnerFor book yard id c = (Ok owner, c') -> parent_of (db c) id owner /\ db c' = db c.
Proof.
  intros H. pose proof (owner_evolves book yard eq id c) as Hd. rewrite H in Hd. simpl in Hd.
  split; [|done]. apply sbind_ok in H as (r & c1 & H1 & [= <- _]). unfold slog in H1.
  destruct (look book yard (get_order id) c) as [[o|e] c2] eqn:El; injection H1 as <- <-; [|by left].
  eapply look_ok in El as [El _]; [|intros y; apply lookup_reads]. cbn in El.
  destruct (yo_parent o) as [p|] eqn:Ep; [right; by exists o|by left].
Qed.

Lemma compatible_dig id owner lane d r :
  compatible id ModeDig (AskerFor id owner) lane d -> parent_of d id owner ->
  r ∈ others id d -> mouth_on lane r = true -> parent_of d id (r_order r).
Proof.
  intros Hc Hp Hr Hm. specialize (Hc r Hr Hm). unfold foreign_conflict in Hc. simpl in Hc.
  apply elem_of_lfilter in Hr as [_ Hne]. rewrite Hne in Hc. simpl in Hc. rewrite andb_true_r in Hc. apply negb_false_iff in Hc.
  unfold Owns, AskerFor in Hc. simpl in Hc. destruct (r_order r =i 0); [done|].
  apply orb_true_iff in Hc as [Hc|Hc]; apply Z.eqb_eq in Hc; rewrite Hc; [by left|].
  destruct (owner =i 0); [by left|done].
Qed.
End Entry.

Section Claims.
Context (book : list Columns) (yard : Yard) (rows : Z -> list OrderBin).

Lemma acquireOrderLanes_mine df id hs : evolves (mine_only id) (acquireOrderLanes book yard df id hs).
Proof.
  unfold acquireOrderLanes. destruct hs; [apply evolves_ret; typeclasses eauto|].
  apply evolves_bind; [typeclasses eauto|apply owner_evolves; typeclasses eauto|]. intros owner. apply acquire_modes_mine.
Qed.

Lemma hold_for_evolves (R : CoreDB -> CoreDB -> Prop) `{!PreOrder R} n mode hs : evolves R (hold_for book yard n mode hs).
Proof.
  unfold hold_for. destruct n; [|by apply evolves_ret]. apply evolves_bind; [done|by apply look_evolves|]. intros l.
  destruct l; by apply evolves_ret.
Qed.

Lemma naming_evolves (R : CoreDB -> CoreDB -> Prop) `{!PreOrder R} id hs :
  evolves R (cause <-- causeForLaneHolds id hs ;; lane <-- laneDisplayName book yard hs ;; sret (EntryRefused cause lane)).
Proof.
  assert (Hr : forall l, evolves R (read_holds l)).
  { induction l as [|x l IH]; [by apply evolves_ret|]. simpl. apply evolves_bind; [done|by apply evolves_log, evolves_query|].
    intros r. apply evolves_bind; [done|done|]. intros m. by apply evolves_ret. }
  apply evolves_bind; [done|apply evolves_bind; [done|done|intros ?; by apply evolves_ret]|]. intros cause.
  apply evolves_bind; [done| |intros ?; by apply evolves_ret]. unfold laneDisplayName. destruct hs; [by apply evolves_ret|].
  apply evolves_bind; [done|apply evolves_log, look_evolves; done|]. intros ?. by apply evolves_ret.
Qed.

Lemma entry_mine df o src dst kind : evolves (mine_only (aq_id o)) (AcquireLanesForOrder book yard rows df o src dst kind).
Proof.
  apply evolves_bind; [typeclasses eauto|apply look_evolves; typeclasses eauto|]. intros v.
  destruct (negb _); [apply evolves_ret; typeclasses eauto|].
  apply evolves_bind; [typeclasses eauto| |].
  { apply evolves_bind; [typeclasses eauto|apply hold_for_evolves; typeclasses eauto|]. intros ?. apply hold_for_evolves. typeclasses eauto. }
  intros hs. destruct hs as [|x l]; [apply evolves_ret; typeclasses eauto|].
  apply evolves_bind; [typeclasses eauto|apply acquireOrderLanes_mine|]. intros [];
    [apply evolves_ret; typeclasses eauto|apply naming_evolves; typeclasses eauto].
Qed.

Lemma acquireOrderLanes_takes df id hs c c' :
  NoDup (map lh_lane hs) -> (forall x, x ∈ hs -> lh_mode x = ModeDig \/ lh_mode x = ModeInbound) -> mouth_wf (db c) ->
  acquireOrderLanes book yard df id hs c = (Ok true, c') ->
  forall x, x ∈ hs -> holds id (lh_mode x) (lh_lane x) (db c') /\
    (lh_mode x = ModeDig -> forall r, r ∈ others id (db c) -> mouth_on (lh_lane x) r = true -> parent_of book yard (db c) id (r_order r)).
Proof.
  intros Hd Hm Hw H x Hx. unfold acquireOrderLanes in H. destruct hs as [|x0 l]; [by apply elem_of_nil in Hx|].
  apply sbind_ok in H as (owner & c1 & [Hp Hc1]%owner_ok & H). destruct (by_mode_in df _ x Hx (Hm x Hx)) as [Hg Hl].
  destruct (acquire_modes_takes id _ _ c1 c' (by_mode_disjoint df _ Hd) ltac:(by rewrite Hc1) H _ _ _ Hg Hl) as [Hh Hc].
  split; [done|]. intros E r Hr. rewrite E, Hc1 in Hc. by eapply compatible_dig.
Qed.

Lemma steady_owner id : steady (laneOwnerFor book yard id).
Proof. apply steady_bind; [apply steady_log, steady_look; unfold get_order; reading|intros; apply steady_ret]. Qed.

Lemma steady_hold_for n mode hs : steady (hold_for book yard n mode hs).
Proof.
  unfold hold_for. destruct n; [|apply steady_ret]. apply steady_bind; [apply steady_look; unfold LaneForNode; reading|].
  intros [?|]; apply steady_ret.
Qed.

Lemma steady_resolve src dst : steady (resolveOrderLaneHolds book yard src dst).
Proof. apply steady_bind; [apply steady_hold_for|intros; apply steady_hold_for]. Qed.

(** A refusal at the mouth is given back whole. *)
Lemma acquireOrderLanes_refused df id hs c c' :
  faults c = [] -> acquireOrderLanes book yard df id hs c = (Ok false, c') ->
  forall r, r ∈ reservations (db c') -> any_mouth id r = false.
Proof.
  intros Hf H. unfold acquireOrderLanes in H. destruct hs as [|x l]; [done|].
  destruct (laneOwnerFor book yard id c) as [[owner|e] c1] eqn:E1; unfold sbind in H; rewrite E1 in H; [|done].
  eapply acquire_modes_refused; [|exact H]. pose proof (steady_owner id c Hf) as Hs. by rewrite E1 in Hs.
Qed.

Lemma seated_rows id owner row d d' :
  others id d' = others id d -> row ∈ reservations d' -> r_order row <> id -> owner = r_order row -> row ∈ others id d.
Proof. intros E Hr Hne _. rewrite <- E. apply elem_of_lfilter. split; [done|]. by apply negb_true_iff, Z.eqb_neq. Qed.

(** C23. An order is sent only into lanes it holds, and asking costs nobody else
    anything.  Whatever statements fail and whichever mode the acquire ranges over
    first, the mouth stays coherent and no other order's row is touched.  An order
    let in holds the lane it picks from in dig mode, alone but for the order it is
    a leg of, and the lane it drops into inbound, or in dig mode when that is its
    source's lane too.  On a healthy connection an order refused leaves the tables
    as they were, or, when the mouth refused it, is seated at no lane at all; if the
    statement that takes its seats back fails, nobody learns of it and the refused
    order stays seated ([failed_rollback_keeps_the_seat]). *)
Theorem entry_takes_its_lanes df o src dst kind c :
  mouth_wf (db c) ->
  let id := aq_id o in
  let '(r, c') := AcquireLanesForOrder book yard rows df o src dst kind c in
  mouth_wf (db c') /\ others id (db c') = others id (db c) /\
  (r = Ok EntryAdmitted ->
    (forall lane, lane_end yard src = Some lane ->
       holds id ModeDig (yn_id lane) (db c') /\
       forall row, row ∈ reservations (db c') -> mouth_on (yn_id lane) row = true -> parent_of book yard (db c) id (r_order row)) /\
    (forall lane, lane_end yard dst = Some lane ->
       holds id ModeInbound (yn_id lane) (db c') \/ holds id ModeDig (yn_id lane) (db c'))) /\
  (forall cause lane, r = Ok (EntryRefused cause lane) -> faults c = [] ->
    db c' = db c \/ forall row, row ∈ reservations (db c') -> any_mouth id row = false).
Proof.
  intros Hw id. pose proof (entry_mine df o src dst kind c Hw) as [Hw' Ho].
  destruct (AcquireLanesForOrder _ _ _ _ _ _ _ _ c) as [r c'] eqn:E. simpl in Hw', Ho.
  split_and!; [done|done| |].
  - intros ->. unfold AcquireLanesForOrder in E. apply sbind_ok in E as (v & c1 & E1 & E).
    pose proof (look_db book yard (admit_move rows (mkSituation (Some o) src dst (skipsForEntry kind))) c) as Hc1. rewrite E1 in Hc1. simpl in Hc1.
    destruct (negb _); [done|]. apply sbind_ok in E as (hs & c2 & [Ehs Hc2]%resolve_ok & E).
    destruct (order_holds yard src dst) as (Hd & Hm & Hs & Ht). rewrite <- Ehs in *.
    assert (Htake : forall x, x ∈ hs -> holds id (lh_mode x) (lh_lane x) (db c') /\
      (lh_mode x = ModeDig -> forall r, r ∈ others id (db c2) -> mouth_on (lh_lane x) r = true -> parent_of book yard (db c2) id (r_order r))).
    { destruct hs as [|x l]; [by intros ? ?%elem_of_nil|]. apply sbind_ok in E as ([] & c3 & E3 & E).
      - injection E as <-. eapply acquireOrderLanes_takes; eauto. congruence.
      - apply sbind_ok in E as (? & ? & _ & E). apply sbind_ok in E as (? & ? & _ & [= ?]). }
    rewrite Hc2, Hc1 in Htake. split; intros lane Hl.
    + destruct (Htake _ (Hs lane Hl)) as [Hh Ha]. split; [done|]. intros row Hr Hon.
      destruct (decide (r_order row = id)) as [->|Hne]; [by left|]. apply Ha; [done| |done]. by eapply seated_rows.
    + destruct (Ht lane Hl) as [Hx|Hx]; [left|right]; apply (Htake _ Hx).
  - intros cause lane -> Hf. unfold AcquireLanesForOrder in E. apply sbind_ok in E as (v & c1 & E1 & E).
    pose proof (look_db book yard (admit_move rows (mkSituation (Some o) src dst (skipsForEntry kind))) c) as Hc1. rewrite E1 in Hc1. simpl in Hc1.
    destruct (negb _); [left; injection E as _ _ <-; done|]. right.
    pose proof (steady_look book yard _ (reads_admit rows (mkSituation (Some o) src dst (skipsForEntry kind))) c Hf) as Hf1.
    rewrite E1 in Hf1. simpl in Hf1. apply sbind_ok in E as (hs & c2 & E2 & E).
    assert (Hf2 : faults c2 = []).
    { pose proof (steady_resolve src dst c1 Hf1) as Hf2. by rewrite E2 in Hf2. }
    destruct hs as [|x l]; [done|]. apply sbind_ok in E as ([] & c3 & E3 & E); [done|].
    pose proof (naming_evolves eq id (x :: l) c3) as Hn. unfold id in Hn. rewrite E in Hn. simpl in Hn. rewrite <- Hn.
    by apply (acquireOrderLanes_refused df id (x :: l) c2).
Qed.
End Claims.

(** ** Who is inside *)

Definition inside (d : CoreDB) (lane id : Z) : Prop := exists r, r ∈ reservations d /\ occupies id lane r = true.

Definition one_inside (d : CoreDB) : Prop := forall lane a b, inside d lane a -> inside d lane b -> a = b.

Definition occs (d : CoreDB) : list Resv := List.filter (fun r => bool_decide (r_kind r = KindOccupancy)) (reservations d).

Lemma occupies_true id lane r :
  occupies id lane r = true <-> r_order r = id /\ r_kind r = KindOccupancy /\ r_node r = Some lane.
Proof. unfold occupies. rewrite !andb_true_iff, bool_decide_eq_true, claimed_is_true, Z.eqb_eq. tauto. Qed.

Lemma inside_occs d d' lane id : occs d' = occs d -> inside d' lane id -> inside d lane id.
Proof.
  intros E (r & Hr & Ho). pose proof Ho as (_ & Hk & _)%occupies_true.
  assert (Hin : r ∈ occs d') by (apply elem_of_lfilter; split; [done|by rewrite bool_decide_eq_true]).
  rewrite E in Hin. apply elem_of_lfilter in Hin as [Hin _]. by exists r.
Qed.

Definition same_occs (d d' : CoreDB) : Prop := occs d' = occs d.
#[export] Instance same_occs_preorder : PreOrder same_occs.
Proof. split; [done|]. intros a b c H1 H2. unfold same_occs in *. congruence. Qed.

Lemma occs_update p g d :
  (forall r, p r = true -> r_kind r = KindMouth /\ r_kind (g r) = KindMouth) -> occs (update_where p g d) = occs d.
Proof.
  intros Hp. unfold occs, update_where. simpl. induction (reservations d) as [|r l IH]; [done|]. simpl.
  destruct (p r) eqn:E; [destruct (Hp r E) as [-> ->]; simpl; exact IH|]. destruct (bool_decide _); [by f_equal|done].
Qed.

Lemma occs_delete p d : (forall r, p r = true -> r_kind r = KindMouth) -> occs (delete_where p d) = occs d.
Proof.
  intros Hp. unfold occs, delete_where. simpl. induction (reservations d) as [|r l IH]; [done|]. simpl.
  destruct (p r) eqn:E; simpl; [rewrite (Hp r E); simpl; exact IH|]. destruct (bool_decide _); [by f_equal|done].
Qed.

Lemma acquire_lane_occs id mode ben by_ lane : evolves same_occs (acquire_lane id mode ben by_ lane).
Proof.
  unfold acquire_lane. apply evolves_bind; [typeclasses eauto|apply evolves_exec; [typeclasses eauto|done]|intros _].
  apply evolves_bind; [typeclasses eauto|apply evolves_query; typeclasses eauto|]. intros hs.
  destruct (admitMouth _ _ _ _ _) as [[]|e].
  - apply evolves_stmt_checked; [typeclasses eauto|]. intros d u d' H. unfold insert_row in H. destruct (fk_ok _ _); [|done].
    injection H as _ <-. unfold same_occs, occs. simpl. rewrite List.filter_app. simpl. by rewrite app_nil_r.
  - destruct (IsExcavation by_); [|apply evolves_ret; typeclasses eauto]. apply evolves_exec; [typeclasses eauto|]. intros d.
    apply occs_update. by intros r [(_ & ? & _)%owner_mouth_true _]%andb_true_iff.
  - apply evolves_exec; [typeclasses eauto|]. intros d. apply occs_update. by intros r (_ & ? & _)%owner_mouth_true.
  - apply evolves_fail. typeclasses eauto.
  - apply evolves_fail. typeclasses eauto.
Qed.

Lemma acquire_modes_occs id asker groups : evolves same_occs (acquire_modes id asker groups).
Proof.
  induction groups as [|[mode lanes] rest IH]; [apply evolves_ret; typeclasses eauto|]. intros c. simpl.
  pose proof (AcquireLanesFor_evolves same_occs id mode asker laneGateReservedBy lanes (fun l => acquire_lane_occs _ _ _ _ _) c) as H1.
  destruct (AcquireLanesFor _ _ _ _ _ c) as [[u|e] c1]; simpl in H1; [etransitivity; [exact H1|apply IH]|].
  destruct e; simpl; try exact H1. etransitivity; [exact H1|].
  enough (H : evolves same_occs (ReleaseLanesByOwner id)) by apply H. apply evolves_stmt; [typeclasses eauto|]. intros d.
  apply occs_delete. by intros r [_ ?%bool_decide_eq_true]%andb_true_iff.
Qed.

Section Presence.
Context (book : list Columns) (yard : Yard).

(** ** The rows an entry takes *)

Definition lane_in (ns : list (option YNode)) (lane : Z) : Prop :=
  exists n l, Some n ∈ ns /\ lane_at yard (yn_id n) = Some (Some l) /\ yn_id l = lane.

(** A lane lookup whose failure is passed over. *)
Lemma lane_lookup n c :
  exists l c1, slog (look book yard (LaneForNode (yn_id n))) c = (Ok l, c1) /\ db c1 = db c /\
    (l = None \/ l = lane_at yard (yn_id n)) /\ (faults c = [] -> faults c1 = [] /\ l = lane_at yard (yn_id n)).
Proof.
  destruct (LaneForNode_reads (faults c = []) (view book yard (db c)) (yn_id n) (mkConn (view book yard (db c)) (faults c)) eq_refl id)
    as (o & c1 & E & _ & Hf1 & Ho). unfold slog, look. rewrite E.
  change (lane_at (view book yard (db c)) (yn_id n)) with (lane_at yard (yn_id n)) in Ho.
  destruct o as [l|e]; eexists _, _; (split; [reflexivity|]); simpl; split_and!; auto.
  intros Hf. split; [auto|by rewrite (Ho Hf)].
Qed.

Lemma lanes_from_ok ns : forall seen c r c',
  lanes_from book yard seen ns c = (r, c') ->
  db c' = db c /\ exists ls, r = Ok ls /\ (forall lane, lane ∈ ls -> lane_in ns lane) /\
    (faults c = [] -> faults c' = [] /\ forall lane, lane_in ns lane -> lane ∈ ls \/ lane ∈ seen).
Proof.
  induction ns as [|[n|] ns IH]; intros seen c r c' H; simpl in H.
  - injection H as <- <-. split; [done|]. exists []. split_and!; [done|by intros ? ?%elem_of_nil|].
    intros Hf. split; [done|]. by intros lane (n & l & ?%elem_of_nil & _).
  - destruct (lane_lookup n c) as (l & c1 & E1 & Hd & Hl & Hf). unfold sbind at 1 in H. rewrite E1 in H.
    assert (Hskip : forall seen', (forall lane, lane_at yard (yn_id n) = Some (Some lane) -> l = Some (Some lane) -> yn_id lane ∈ seen') ->
      forall r c', lanes_from book yard seen' ns c1 = (r, c') -> db c' = db c /\ exists ls, r = Ok ls /\
        (forall lane, lane ∈ ls -> lane_in (Some n :: ns) lane) /\
        (faults c = [] -> faults c' = [] /\ forall lane, lane_in (Some n :: ns) lane -> lane ∈ ls \/ lane ∈ seen')).
    { intros seen' Hs r0 c0 H0. destruct (IH _ _ _ _ H0) as (Hd2 & ls & -> & Hin & Hall). split; [congruence|].
      exists ls. split_and!; [done| |].
      - intros lane (m & k & Hm & ?)%Hin. exists m, k. split; [by right|done].
      - intros Hfc. destruct (Hf Hfc) as [Hf1 El]. destruct (Hall Hf1) as [Hf2 Ha]. split; [done|].
        intros lane (m & k & Hm & Hk & <-). apply elem_of_cons in Hm as [[= ->]|Hm]; [right; apply Hs; congruence|].
        apply Ha. by exists m, k. }
    destruct l as [[lane|]|]; [|by apply (Hskip seen)..].
    destruct Hl as [?|Hl]; [done|]. destruct (existsb _ seen) eqn:Es.
    + apply (Hskip seen); [|done]. intros k _ [= <-]. apply existsb_true in Es as (i & Hi & ->%Z.eqb_eq). done.
    + unfold sbind in H. destruct (lanes_from book yard (yn_id lane :: seen) ns c1) as [r1 c2] eqn:E2.
      destruct (Hskip (yn_id lane :: seen)) with (r := r1) (c' := c2) as (Hd2 & ls & -> & Hin & Hall); [intros k _ [= <-]; left|done|].
      injection H as <- <-. split; [done|]. exists (yn_id lane :: ls). split_and!; [done| |].
      * intros k [->|Hk]%elem_of_cons; [|by apply Hin]. exists n, lane. split_and!; [left|done|done].
      * intros Hfc. destruct (Hall Hfc) as [Hf2 Ha]. split; [done|]. intros k Hk. destruct (Ha k Hk) as [?|?]; set_solver.
  - destruct (IH _ _ _ _ H) as (Hd & ls & -> & Hin & Hall). split; [done|]. exists ls. split_and!; [done| |].
    + intros lane (m & k & Hm & ?)%Hin. exists m, k. split; [by right|done].
    + intros Hf. destruct (Hall Hf) as [Hf2 Ha]. split; [done|]. intros lane (m & k & Hm & ?). apply Ha. exists m, k.
      split; [|done]. by apply elem_of_cons in Hm as [?|?].
Qed.

Lemma take_each_inside id lanes : forall c r c',
  take_each id lanes c = (r, c') -> forall lane a, inside (db c') lane a -> inside (db c) lane a \/ a = id /\ lane ∈ lanes.
Proof.
  induction lanes as [|l ls IH]; intros c r c' H lane a Ha; [injection H as _ <-; by left|]. simpl in H.
  assert (Hone : forall u c1, AcquireOccupancy id l c = (u, c1) -> inside (db c1) lane a -> inside (db c) lane a \/ a = id /\ lane = l).
  { intros u c1 H1 Hin. unfold AcquireOccupancy in H1. destruct u as [b|e].
    - apply stmt_checked_ok in H1. destruct (existsb _ _); [injection H1 as _ E; rewrite <- E in Hin; by left|].
      destruct (fk_ok _ _); [|done]. injection H1 as _ E. rewrite <- E in Hin. destruct Hin as (r0 & Hr & Ho). simpl in Hr.
      apply elem_of_app in Hr as [Hr|Hr]; [left; by exists r0|right]. apply list_elem_of_singleton in Hr as ->.
      apply occupies_true in Ho as (<- & _ & [= <-]). done.
    - apply stmt_checked_err in H1 as [E _]. rewrite E in Hin. by left. }
  unfold sbind in H. destruct (AcquireOccupancy id l c) as [[b|e] c1] eqn:E1.
  - destruct (IH _ _ _ H lane a Ha) as [Hin|[-> Hl]]; [|right; split; [done|by right]].
    destruct (Hone _ _ eq_refl Hin) as [?|[-> ->]]; [by left|right; split; [done|left]].
  - injection H as _ <-. destruct (Hone _ _ eq_refl Ha) as [?|[-> ->]]; [by left|right; split; [done|left]].
Qed.

Lemma take_inside id ns c r c' :
  TakeLaneOccupancy book yard id ns c = (r, c') ->
  forall lane a, inside (db c') lane a -> inside (db c) lane a \/ a = id /\ lane_in ns lane.
Proof.
  unfold TakeLaneOccupancy, lanesFor, sbind. destruct (lanes_from book yard [] ns c) as [rl c1] eqn:E.
  destruct (lanes_from_ok _ _ _ _ _ E) as (Hd & ls & -> & Hin & _). intros H lane a Ha.
  destruct (take_each_inside _ _ _ _ _ H lane a Ha) as [Hi|[-> Hl]]; [left; by rewrite <- Hd|right; auto].
Qed.

Lemma entered_sub ns : forall c r c',
  enteredAtDispatch book yard ns c = (Ok r, c') -> db c' = db c /\ forall n, Some n ∈ r -> Some n ∈ ns.
Proof.
  induction ns as [|[n|] ns IH]; intros c r c' H; simpl in H; [injection H as <- <-; by split|..].
  - destruct (lane_lookup n c) as (l & c1 & E1 & Hd & _). unfold sbind at 1 in H. rewrite E1 in H.
    apply sbind_ok in H as (g & c2 & Hg & H).
    assert (Hd2 : db c2 = db c1).
    { destruct l as [[lane|]|]; try (by injection Hg as _ <-).
      pose proof (look_db book yard (laneIsGated (yn_id lane)) c1) as Hk. by rewrite Hg in Hk. }
    apply sbind_ok in H as (more & c3 & [Hd3 Hsub]%IH & [= <- <-]). split; [congruence|].
    intros m Hm. destruct g; [right; auto|]. apply elem_of_cons in Hm as [[= ->]|Hm]; [left|right; auto].
  - apply IH in H as [Hd Hsub]. split; [done|]. intros m Hm. right. auto.
Qed.

End Presence.

(** ** Entering, step by step *)

Section Steps.
Context (book : list Columns) (yard : Yard) (rows : Z -> list OrderBin).

Lemma entry_occs df o src dst kind : evolves same_occs (AcquireLanesForOrder book yard rows df o src dst kind).
Proof.
  apply evolves_bind; [typeclasses eauto|apply look_evolves; typeclasses eauto|]. intros v.
  destruct (negb _); [apply evolves_ret; typeclasses eauto|].
  apply evolves_bind; [typeclasses eauto| |].
  { apply evolves_bind; [typeclasses eauto|apply hold_for_evolves; typeclasses eauto|]. intros ?. apply hold_for_evolves. typeclasses eauto. }
  intros hs. destruct hs as [|x l]; [apply evolves_ret; typeclasses eauto|].
  apply evolves_bind; [typeclasses eauto| |].
  { apply evolves_bind; [typeclasses eauto|apply owner_evolves; typeclasses eauto|]. intros ?. apply acquire_modes_occs. }
  intros []; [apply evolves_ret; typeclasses eauto|apply naming_evolves; typeclasses eauto].
Qed.


(** The end is asked about: its lane is not one whose mark the robot stops at. *)
Definition asked (skip : admissionSkips) (n : YNode) : Prop :=
  forall lane, lane_at yard (yn_id n) = Some (Some lane) -> deferred_at yard skip lane = false.

(** Entries, each its ask and its take, and everything that puts nobody into a
    lane: releases, and the writes of the other components. *)
Inductive gate_step (d d' : CoreDB) : Prop :=
| gs_leg o src dst c v c1 ns c2 r c3 :                 (** a dig leg: AdvanceCompoundOrder *)
    db c = d -> look book yard (admit_move rows (mkSituation (Some o) src dst (mkSkips false false))) c = (Ok v, c1) ->
    gv_admitted v = true -> enteredAtDispatch book yard [src; dst] c1 = (Ok ns, c2) ->
    TakeLaneOccupancy book yard (aq_id o) ns c2 = (r, c3) -> db c3 = d' -> gate_step d d'
| gs_plain df o src dst kind c c1 ns r c2 :            (** a plain order: AcquireLanesForOrder, commitToFleet *)
    db c = d -> AcquireLanesForOrder book yard rows df o src dst kind c = (Ok EntryAdmitted, c1) ->
    (forall n, Some n ∈ ns -> (src = Some n \/ dst = Some n) /\ asked (skipsForEntry kind) n) ->
    TakeLaneOccupancy book yard (aq_id o) ns c1 = (r, c2) -> db c2 = d' -> gate_step d d'
| gs_plan o steps c v c1 ns r c2 :                     (** a complex order: admitPlan, commitToFleet *)
    db c = d -> faults c = [] -> look book yard (admitPlan rows o steps skipsForComplexEntry) c = (Ok v, c1) ->
    gv_admitted v = true ->
    (forall n, Some n ∈ ns -> n ∈ named_nodes yard steps /\ asked skipsForComplexEntry n) ->
    TakeLaneOccupancy book yard (aq_id o) ns c1 = (r, c2) -> db c2 = d' -> gate_step d d'
| gs_tail o entry (retrieve : bool) lane c v c1 r c2 : (** the gate's append: gateEntryVerdict, appendGateTail *)
    db c = d -> look book yard (if retrieve then laneGateRetrieveCause rows entry o
      else admit_move rows (mkSituation (Some o) None (Some entry) skipsForGatedStoreEntry)) c = (Ok v, c1) ->
    gv_admitted v = true -> lane_at yard (yn_id entry) = Some (Some lane) ->
    takeLaneOccupancyByID (aq_id o) (yn_id lane) c1 = (r, c2) -> db c2 = d' -> gate_step d d'
| gs_leave : (forall lane a, inside d' lane a -> inside d lane a) -> gate_step d d'.
End Steps.

Section Exclusion.
Context (book : list Columns) (yard : Yard) (rows : Z -> list OrderBin).
Context (Hid : NoDup (map yn_id (y_nodes yard))).

(** Nobody but [id] is inside the lane of an end. *)
Definition alone_at (d : CoreDB) (id : Z) (skip : admissionSkips) (n : YNode) : Prop :=
  forall lane a, lane_at yard (yn_id n) = Some (Some lane) -> deferred_at yard skip lane = false -> inside d (yn_id lane) a -> a = id.

Lemma open_alone d o skip isSource n :
  end_open rows (view book yard d) o skip isSource (Some n) -> alone_at d (aq_id o) skip n.
Proof.
  intros Ho lane a Hl Hd (r & Hr & (<- & Hk & Hn)%occupies_true). unfold end_open in Ho.
  change (lane_at (view book yard d) (yn_id n)) with (lane_at yard (yn_id n)) in Ho. rewrite Hl in Ho.
  change (deferred_at (view book yard d) skip lane) with (deferred_at yard skip lane) in Ho. rewrite Hd in Ho.
  destruct Ho as [?|Ho]; [done|]. by apply (lo_alone _ _ _ _ _ _ Ho r).
Qed.

Lemma admitted_alone o src dst skip c v c1 :
  look book yard (admit_move rows (mkSituation (Some o) src dst skip)) c = (Ok v, c1) -> gv_admitted v = true ->
  db c1 = db c /\ forall n, src = Some n \/ dst = Some n -> alone_at (db c) (aq_id o) skip n.
Proof.
  intros H Hv. split; [pose proof (look_db book yard (admit_move rows (mkSituation (Some o) src dst skip)) c) as Hd; by rewrite H in Hd|].
  destruct (runs_admit rows False (view book yard (db c)) Hid o skip src dst (mkConn (view book yard (db c)) (faults c)) eq_refl ltac:(done))
    as (r & c2 & E & _ & _ & Hr). unfold look in H. rewrite E in H. destruct r as [v'|e]; [|done]. injection H as -> _.
  destruct Hr as (Ho & _). destruct (Ho Hv) as [H1 H2]. intros n [->| ->]; by eapply open_alone.
Qed.

Lemma planned_alone o steps c v c1 :
  faults c = [] -> look book yard (admitPlan rows o steps skipsForComplexEntry) c = (Ok v, c1) -> gv_admitted v = true ->
  db c1 = db c /\ forall n, n ∈ named_nodes yard steps -> alone_at (db c) (aq_id o) skipsForComplexEntry n.
Proof.
  intros Hf H Hv. split; [pose proof (look_db book yard (admitPlan rows o steps skipsForComplexEntry) c) as Hd; by rewrite H in Hd|].
  destruct (runs_admitPlan rows True (view book yard (db c)) Hid o skipsForComplexEntry steps
    (mkConn (view book yard (db c)) (faults c)) eq_refl (fun _ => Hf)) as (r & c2 & E & _ & _ & Hr).
  unfold look in H. rewrite E in H. destruct r as [v'|e]; [|done]. injection H as -> _.
  apply (Hr I) in Hv. intros n Hn. unfold named_nodes in Hn. apply list_elem_of_omap in Hn as (s & [Hs Hns]%elem_of_lfilter & Hn).
  eapply open_alone, Hv; eauto.
Qed.

(** Taking rows where nobody else is keeps one order to a lane. *)
Lemma take_keeps_one d d' id lanes :
  one_inside d -> (forall lane a, inside d' lane a -> inside d lane a \/ a = id /\ lanes lane) ->
  (forall lane a, lanes lane -> inside d lane a -> a = id) -> one_inside d'.
Proof.
  intros Hone Hin Hal lane a b Ha Hb. destruct (Hin _ _ Ha) as [Ha'|[-> Hl]], (Hin _ _ Hb) as [Hb'|[-> Hl']]; [|..|done].
  - by eapply Hone.
  - eauto.
  - symmetry. eauto.
Qed.

Lemma step_keeps_one d d' : gate_step book yard rows d d' -> one_inside d -> one_inside d'.
Proof.
  intros Hs Hone. destruct Hs as [o src dst c v c1 ns c2 r c3 <- Ha Hv He Ht <-|df o src dst kind c c1 ns r c2 <- Ha Hns Ht <-
    |o steps c v c1 ns r c2 <- Hf Ha Hv Hns Ht <-|o entry retrieve lane c v c1 r c2 <- Ha Hv Hl Ht <-|Hle].
  - destruct (admitted_alone _ _ _ _ _ _ _ Ha Hv) as [Hd Hal]. apply entered_sub in He as [Hd2 Hsub].
    eapply take_keeps_one; [exact Hone|intros lane a Hin; rewrite <- Hd, <- Hd2; by eapply take_inside|].
    intros lane a (n & l & Hn & Hl & <-) Hin. apply Hsub in Hn.
    assert (Hend : src = Some n \/ dst = Some n) by set_solver. by apply (Hal n Hend l a Hl).
  - assert (Hd : occs (db c1) = occs (db c)) by (pose proof (entry_occs book yard rows df o src dst kind c) as Ho; by rewrite Ha in Ho).
    unfold AcquireLanesForOrder in Ha. apply sbind_ok in Ha as (v & c3 & Ha & Hrest).
    destruct (gv_admitted v) eqn:Hv; [|by injection Hrest]. destruct (admitted_alone _ _ _ _ _ _ _ Ha Hv) as [_ Hal].
    eapply take_keeps_one; [exact Hone| |].
    + intros lane a Hin. edestruct take_inside as [Hi|Hi]; [exact Ht|exact Hin|left; by eapply inside_occs|right; exact Hi].
    + intros lane a (n & l & Hn & Hl & <-) Hin. destruct (Hns n Hn) as [Hend Hask]. by apply (Hal n Hend l a Hl (Hask l Hl)).
  - destruct (planned_alone _ _ _ _ _ Hf Ha Hv) as [Hd Hal].
    eapply take_keeps_one; [exact Hone|intros lane a Hin; rewrite <- Hd; by eapply take_inside|].
    intros lane a (n & l & Hn & Hl & <-) Hin. destruct (Hns n Hn) as [Hend Hask]. by apply (Hal n Hend l a Hl (Hask l Hl)).
  - assert (Hal : db c1 = db c /\ forall a, inside (db c) (yn_id lane) a -> a = aq_id o).
    { destruct retrieve; [unfold laneGateRetrieveCause in Ha|]; (apply admitted_alone in Ha as [Hd Hal]; [|done]);
        (split; [done|]); intros a; by apply (Hal entry ltac:(auto) lane a Hl). }
    destruct Hal as [Hd Hal]. eapply take_keeps_one with (lanes := fun k => k = yn_id lane); [exact Hone| |by intros k a ->; apply Hal].
    intros k a Hin. unfold takeLaneOccupancyByID in Ht. destruct (yn_id lane =i 0); [injection Ht as _ <-; left; by rewrite <- Hd|].
    destruct (take_each_inside (aq_id o) [yn_id lane] c1 (match r with Ok _ => Ok () | Err e => Err e end) c2) with (lane := k) (a := a)
      as [Hi|[-> Hk]]; [unfold take_each, sbind; rewrite Ht; by destruct r|done|left; by rewrite <- Hd|].
    right. split; [done|by apply list_elem_of_singleton in Hk].
  - intros lane a b Ha Hb. eauto.
Qed.

(** C22. One robot to a lane.  From tables in which no lane has two orders inside,
    no sequence of entries - dig legs, plain orders, complex orders and gate-staged
    tails, each asking admission and then taking its rows, with statements failing
    anywhere but under a plan's walk - and of releases leads to tables in which a
    lane has two.  An entry's ask and its take are one step, and a caller that
    defers a marked lane to the gate takes no row on it. *)
Theorem one_robot_per_lane d d' : one_inside d -> rtc (gate_step book yard rows) d d' -> one_inside d'.
Proof. intros Hone. induction 1 as [|d d1 d2 Hs _ IH]; [done|]. by apply IH, (step_keeps_one d). Qed.
End Exclusion.

(** ** What a commit has recorded *)

Section Recorded.
Context (book : list Columns) (yard : Yard).

Lemma take_each_records id lanes : forall c c',
  take_each id lanes c = (Ok (), c') ->
  (forall lane, inside (db c) lane id -> inside (db c') lane id) /\ forall lane, lane ∈ lanes -> inside (db c') lane id.
Proof.
  induction lanes as [|l ls IH]; intros c c' H; [injection H as <-; split; [done|by intros ? ?%elem_of_nil]|].
  apply sbind_ok in H as (b & c1 & H1 & H2). destruct (IH _ _ H2) as [Hk Hr]. unfold AcquireOccupancy in H1.
  apply stmt_checked_ok in H1. assert (Hl : inside (db c1) l id /\ forall lane, inside (db c) lane id -> inside (db c1) lane id).
  { destruct (existsb _ _) eqn:Ee.
    - injection H1 as _ <-. apply existsb_true in Ee as (r & Hin & Ho). split; [by exists r|done].
    - destruct (fk_ok _ _); [|done]. injection H1 as _ E. rewrite <- E. split.
      + exists (occupancy_row id l). split; [simpl; set_solver|]. by apply occupies_true.
      + intros lane (r & Hin & Ho). exists r. split; [simpl; set_solver|done]. }
  destruct Hl as [Hl Hold]. split; [auto|]. intros lane [->|Hin]%elem_of_cons; auto.
Qed.

Lemma check_blocks_ok held blocks : forall c c',
  faults c = [] -> check_blocks book yard held blocks c = (Ok None, c') ->
  db c' = db c /\ forall b n, b ∈ blocks -> bk_location b <> "" -> node_by_dot_name yard (bk_location b) = Some n ->
    yn_synthetic n = false /\ forall lane, lane_at yard (yn_id n) = Some (Some lane) -> yn_id lane ∈ held.
Proof.
  induction blocks as [|b rest IH]; intros c c' Hf H; simpl in H; [injection H as <-; split; [done|by intros ? ? ?%elem_of_nil]|].
  assert (Hskip : forall c0, faults c0 = [] -> db c0 = db c ->
    (bk_location b <> "" -> forall n, node_by_dot_name yard (bk_location b) = Some n ->
       yn_synthetic n = false /\ forall lane, lane_at yard (yn_id n) = Some (Some lane) -> yn_id lane ∈ held) ->
    check_blocks book yard held rest c0 = (Ok None, c') ->
    db c' = db c /\ forall b' n, b' ∈ b :: rest -> bk_location b' <> "" -> node_by_dot_name yard (bk_location b') = Some n ->
      yn_synthetic n = false /\ forall lane, lane_at yard (yn_id n) = Some (Some lane) -> yn_id lane ∈ held).
  { intros c0 Hf0 Hd0 Hb H0. destruct (IH _ _ Hf0 H0) as [Hd Hr]. split; [congruence|].
    intros b' n [->|Hin]%elem_of_cons; [auto|by apply Hr]. }
  destruct (bk_location b =s "") eqn:Eb; [apply (Hskip c); [done|done| |done]; intros Hne; apply String.eqb_eq in Eb; done|].
  assert (En : exists c1, slog (look book yard (GetNodeByDotName (bk_location b))) c = (Ok (node_by_dot_name yard (bk_location b)), c1) /\
    faults c1 = [] /\ db c1 = db c).
  { unfold slog, look, GetNodeByDotName, sbind, query, stmt. simpl. rewrite Hf. simpl.
    change (node_by_dot_name (view book yard (db c)) (bk_location b)) with (node_by_dot_name yard (bk_location b)).
    destruct (node_by_dot_name yard (bk_location b)); simpl; by eexists. }
  destruct En as (c1 & E1 & Hf1 & Hd1). unfold sbind at 1 in H. rewrite E1 in H.
  destruct (node_by_dot_name yard (bk_location b)) as [n|] eqn:Ed; [|by apply (Hskip c1)].
  destruct (yn_synthetic n) eqn:Esy; [done|]. destruct (lane_lookup book yard n c1) as (l & c2 & E2 & Hd2 & _ & Hl).
  destruct (Hl Hf1) as [Hf2 ->]. unfold sbind in H. rewrite E2 in H.
  destruct (lane_at yard (yn_id n)) as [[lane|]|] eqn:El; [|by apply (Hskip c2); [|congruence|intros _ ? [= <-]; rewrite El|]|done].
  destruct (existsb _ held) eqn:Eh; [|done]. apply (Hskip c2); [done|congruence| |done].
  intros _ ? [= <-]. split; [done|]. rewrite El. intros ? [= <-]. apply existsb_true in Eh as (i & Hi & ->%Z.eqb_eq). done.
Qed.

(** What the seam promises: on a healthy connection a commit that goes on to the
    fleet sends its robot to no group, and into no lane without a row of its own. *)
Theorem commit_records_presence id entering blocks c c1 c2 :
  faults c = [] -> TakeLaneOccupancy book yard id entering c = (Ok (), c1) -> faults c1 = [] ->
  assertDeclaredEveryLaneItEnters book yard blocks entering c1 = (Ok None, c2) ->
  forall b n, b ∈ blocks -> bk_location b <> "" -> node_by_dot_name yard (bk_location b) = Some n ->
    yn_synthetic n = false /\ forall lane, lane_at yard (yn_id n) = Some (Some lane) -> inside (db c2) (yn_id lane) id.
Proof.
  intros Hf H1 Hf1 H2. apply sbind_ok in H1 as (ls & c0 & E1 & Ht). apply sbind_ok in H2 as (held & c3 & E2 & Hb).
  destruct (lanes_from_ok _ _ _ _ _ _ _ E1) as (_ & ? & [= <-] & _ & Hall). destruct (Hall Hf) as [_ Ha].
  destruct (lanes_from_ok _ _ _ _ _ _ _ E2) as (Hd3 & ? & [= <-] & Hheld & Hall3). destruct (Hall3 Hf1) as [Hf3 _].
  destruct (check_blocks_ok _ _ _ _ Hf3 Hb) as [Hd Hok]. intros b n Hin Hne Hn. destruct (Hok b n Hin Hne Hn) as [Hs Hl].
  split; [done|]. intros lane E. rewrite Hd, Hd3. apply (take_each_records _ _ _ _ Ht).
  destruct (Ha _ (Hheld _ (Hl lane E))) as [?|?%elem_of_nil]; done.
Qed.
End Recorded.

(** ** A small plant *)

(** Lanes 30 and 31 of group 1; a bin at the mouth of lane 30. *)
Definition gate_yard : Yard :=
  mkYard [mkYNode 1 "G" true true None NodeClassNGRP None None; ylane 30 "LANE_1" 1; yslot 41 "S41" 30 1; yslot 42 "S42" 30 2;
          ylane 31 "LANE_2" 1; yslot 51 "S51" 31 1; mkYNode 60 "P1" false true None "" (Some 1%Z) None]
    [ybin 200 41 "A" 1] [] [] ∅ [] [] [].

Definition gate_book : list Columns := [mkCols 1 None 0 None false false; mkCols 2 None 0 None false false].

Definition S41 : YNode := yslot 41 "S41" 30 1.
Definition S51 : YNode := yslot 51 "S51" 31 1.

Definition mover (id : Z) : Asking := mkAsking (mkYOrder id StatusSourcing "S41" "S51" (Some 200%Z) None) NoPlan 0.

Definition with_resv (l : list Resv) : CoreDB := set_reservations (fun _ => l) demo_db.

Lemma gate_ids : NoDup (map yn_id (y_nodes gate_yard)).
Proof. cbn. repeat (apply NoDup_cons; split; [set_solver|]). apply NoDup_nil_2. Qed.

Notation enter df id := (AcquireLanesForOrder gate_book gate_yard (fun _ => []) df (mover id) (Some S41) (Some S51) EntryHeldBin).

Lemma entry_takes_its_lanes_witness :
  (enter true 1 (mkConn demo_db [])).1 = Ok EntryAdmitted /\ holds 1 ModeDig 30 (db (enter true 1 (mkConn demo_db [])).2).
Proof.
  assert (E : (enter true 1 (mkConn demo_db [])).1 = Ok EntryAdmitted) by (vm_compute; reflexivity). split; [exact E|].
  pose proof (entry_takes_its_lanes gate_book gate_yard (fun _ => []) true (mover 1) (Some S41) (Some S51) EntryHeldBin
    (mkConn demo_db []) (le_wf _ demo_exclusive)) as H.
  destruct (enter true 1 (mkConn demo_db [])) as [r c']. cbn in E. destruct H as (_ & _ & H & _).
  apply (H E) with (lane := ylane 30 "LANE_1" 1). reflexivity.
Defined.

(** Order 1 has dug lane 30 out and comes back for its bin; order 2 still holds
    lane 31 outbound.  The refusal gives up the lane the dig was for, and names it
    as the one in contention. *)
Example refusal_gives_up_the_dug_lane (df : bool) :
  let before := [mkResv 1 KindMouth None (Some 30%Z) StateConfirmed ByExcavation (Some ModeDig);
                 mkResv 2 KindMouth None (Some 31%Z) StateConfirmed ByDigHandoff (Some ModeOutbound)] in
  let '(r, c') := enter df 1 (mkConn (with_resv before) []) in
  r = Ok (EntryRefused CauseLaneHeldTraffic "LANE_1") /\
  reservations (db c') = [mkResv 2 KindMouth None (Some 31%Z) StateConfirmed ByDigHandoff (Some ModeOutbound)].
Proof. destruct df; vm_compute; by split. Qed.

(** Order 1 takes lane 30, is refused lane 31, and the statement that gives lane 30
    back fails: the refusal reads like any other and order 1 keeps the lane. *)
Example failed_rollback_keeps_the_seat :
  let before := [mkResv 2 KindMouth None (Some 31%Z) StateConfirmed ByDigHandoff (Some ModeOutbound)] in
  let '(r, c') := enter true 1 (mkConn (with_resv before) (repeat false 27 ++ [true])) in
  r = Ok (EntryRefused CauseLaneHeldTraffic "LANE_1") /\ map (fun row => (r_order row, r_node row)) (reservations (db c')) =
    [(2%Z, Some 31%Z); (1%Z, Some 30%Z)].
Proof. vm_compute. by split. Qed.

(** The take passes over a lane it could not look up and the assertion checks the
    declaration, not the rows: one failed read and the order is sent into lane 30
    with nothing to show for it. *)
Example unread_lane_not_recorded :
  let blocks := [mkOrderBlock "b1" "S41" "JackLoad"] in
  let '(r1, c1) := TakeLaneOccupancy gate_book gate_yard 1 [Some S41] (mkConn demo_db [true]) in
  let '(r2, c2) := assertDeclaredEveryLaneItEnters gate_book gate_yard blocks [Some S41] c1 in
  r1 = Ok () /\ r2 = Ok None /\ reservations (db c2) = [].
Proof. vm_compute. by split_and!. Qed.

Definition leg_of (id : Z) : CoreDB -> CoreDB := fun d =>
  db (TakeLaneOccupancy gate_book gate_yard id [Some S41; Some S51] (mkConn d [])).2.

Lemma one_robot_per_lane_witness :
  one_inside demo_db /\ inside (leg_of 1 demo_db) 30 1 /\ one_inside (leg_of 1 demo_db).
Proof.
  assert (H0 : one_inside demo_db) by (intros lane a b (r & Hr%elem_of_nil & _); done).
  split; [exact H0|]. split; [exists (occupancy_row 1 30); split; [in_row|reflexivity]|].
  apply (one_robot_per_lane gate_book gate_yard (fun _ => []) gate_ids demo_db); [exact H0|]. apply rtc_once.
  eapply (gs_leg gate_book gate_yard (fun _ => []) demo_db _ (mover 1) (Some S41) (Some S51) (mkConn demo_db []));
    [reflexivity|vm_compute; reflexivity|reflexivity|vm_compute; reflexivity|reflexivity|reflexivity].
Defined.

(** Two orders that both ask before either takes are both let in. *)
Example ask_ask_take_take :
  let asks id := look gate_book gate_yard (admit_move (fun _ => []) (mkSituation (Some (mover id)) (Some S41) (Some S51) (mkSkips false false)))
    (mkConn demo_db []) in
  (asks 1%Z).1 = Ok admitted_now /\ (asks 2%Z).1 = Ok admitted_now /\
  inside (leg_of 2 (leg_of 1 demo_db)) 30 1 /\ inside (leg_of 2 (leg_of 1 demo_db)) 30 2.
Proof.
  split; [vm_compute; reflexivity|]. split; [vm_compute; reflexivity|].
  split; [exists (occupancy_row 1 30)|exists (occupancy_row 2 30)]; (split; [in_row|reflexivity]).
Qed.
