(* ===== verification/LaneOrder.v ===== *)
(** Whose turn it is at a lane (shingo-core/dispatch/lane_entry.go, and the
    candidates and the verdict of dispatch/lane_gate_release.go): the three tiers
    that order the stores of one lane, the set of stores they look at, and the
    orders waiting at the lane's mark.

    The tables are Core's, read through LaneGate.v's [look]; the plant's style
    claims, which only the sync with the station writes, are given beside them.  An
    order as a query returns it is its row and its columns of [book]. *)

From S2P Require Import Prelude Status Sql CoreDb Reservations Mouth Yard YardReads Resolver Capacity Reshuffle GatedPlan Splice Junction Fleet OrderStore Lifecycle Waybill Chapters DigLock Admission LaneGate.
From stdpp Require Import pretty.

Definition CauseLaneDeeperPending : string := "lane-deeper-pending".
Definition CauseLaneGroupActive : string := "lane-group-active".

(** ** The tiers *)

Record laneEntryOrder := mkEntry { le_id : Z; le_depth : Z; le_origin : string; le_grouped : bool }.

Definition sameOrigin (a b : string) : bool := negb (a =s "") && (a =s b).

Fixpoint classifyLaneEntry (self : laneEntryOrder) (others : list laneEntryOrder) : string :=
  match others with
  | [] => ""
  | o :: rest =>
      if le_id o =i le_id self then classifyLaneEntry self rest
      else if sameOrigin (le_origin self) (le_origin o) then classifyLaneEntry self rest
      else if (le_depth self <? le_depth o)%Z then CauseLaneDeeperPending
      else if le_grouped o then CauseLaneGroupActive
      else classifyLaneEntry self rest
  end.

Definition originKeyForStyles (pairs : list string) : string :=
  match pairs with
  | [] => ""
  | _ => "style:" +:+ String.concat "," (isort String.leb pairs)
  end.

(** A row of style_claims. *)
Record StyleClaim := mkStyleClaim { sc_process : string; sc_style : string; sc_node : string }.

Definition style_pairs (claims : list StyleClaim) (node : string) : list string :=
  map (fun p => p.1 +:+ "|" +:+ p.2)
    (remove_dups (map (fun k => (sc_process k, sc_style k)) (List.filter (fun k => sc_node k =s node) claims))).

(** An order as it is read. *)
Record OrderRow := mkRow { or_cols : Columns; or_order : Order }.
Definition or_id (r : OrderRow) : Z := oc_id (or_cols r).

Section LaneOrder.
Context (book : list Columns) (yard : Yard) (rows : Z -> list OrderBin) (plans : gmap Z Stored) (claims : list StyleClaim).

Definition order_rows (d : CoreDB) : list OrderRow :=
  omap (fun k => mkRow k <$> orders d !! oc_id k) book.

Definition by_id (a b : OrderRow) : bool := (or_id a <=? or_id b)%Z.

Definition unfinished (r : OrderRow) : bool := negb (contains TerminalStatuses (o_status (or_order r))).

(** ** The stores that target the lane *)

Definition NodeStyleOrigins (name : string) : CoreSQL (list string) := query (fun _ => style_pairs claims name).

Definition laneEntryOriginFor (parent : option Z) (processNode : string) : CoreSQL string :=
  match parent with
  | Some p => sret ("compound:" +:+ pretty p)
  | None =>
      if processNode =s "" then sret ""
      else pairs <-- NodeStyleOrigins processNode ;; sret (originKeyForStyles pairs)
  end.

Definition row_origin (r : OrderRow) : CoreSQL string :=
  laneEntryOriginFor (oc_parent (or_cols r)) (o_process_node (or_order r)).

Definition ActiveByDeliveryNodes (names : list string) : CoreSQL (list OrderRow) :=
  match names with
  | [] => sret []
  | _ => query (fun d => isort by_id (List.filter (fun r =>
      existsb (fun n => o_delivery_node (or_order r) =s n) names && unfinished r) (order_rows d)))
  end.

(** Dispatched, and no longer holding the mouth. *)
Definition has_placed (holds : list MouthHold) (r : OrderRow) : bool :=
  negb (o_vendor_id (or_order r) =s "")
  && negb (existsb (fun h => is_mode (mh_mode h) ModeInbound && (mh_order h =i or_id r)) holds).

Definition stillWorkingLaneMouth (laneID : Z) (active : list OrderRow) : CoreSQL (list OrderRow) :=
  holds <-- query (activeMouthRows laneID) ;;
  sret (List.filter (fun r => negb (has_placed holds r)) active).

(** The first pass of the view: who, how deep, from where. *)
Fixpoint resolve_entries (depths : gmap string Z) (active : list OrderRow) : CoreSQL (list (Z * Z * string)) :=
  match active with
  | [] => sret []
  | r :: rest =>
      origin <-- row_origin r ;;
      more <-- resolve_entries depths rest ;;
      sret ((or_id r, default 0%Z (depths !! o_delivery_node (or_order r)), origin) :: more)
  end.

Definition origin_count (origin : string) (entries : list (Z * Z * string)) : nat :=
  length (List.filter (fun e => e.2 =s origin) entries).

Definition mark_grouped (entries : list (Z * Z * string)) : list laneEntryOrder :=
  map (fun '(id, depth, origin) =>
    mkEntry id depth origin (negb (origin =s "") && (2 <=? origin_count origin entries)%nat)) entries.

Definition buildLaneEntryView (o : Asking) (processNode : string) (destNode : YNode) (laneID : Z) (active : list OrderRow)
    (depths : gmap string Z) : CoreSQL (laneEntryOrder * list laneEntryOrder) :=
  origin <-- laneEntryOriginFor (yo_parent (aq_order o)) processNode ;;
  active <-- stillWorkingLaneMouth laneID active ;;
  entries <-- resolve_entries depths active ;;
  sret (mkEntry (aq_id o) (default 0%Z (depths !! yn_name destNode)) origin false, mark_grouped entries).

(** A slot goes by its own name and by its name under the lane. *)
Fixpoint slot_depths (prefix : string) (slots : list YNode) (depths : gmap string Z) : CoreSQL (list string * gmap string Z) :=
  match slots with
  | [] => sret ([], depths)
  | s :: rest =>
      dep <-- look book yard (GetSlotDepth (yn_id s)) ;;
      more <-- slot_depths prefix rest (<[prefix +:+ yn_name s := dep]> (<[yn_name s := dep]> depths)) ;;
      sret (yn_name s :: (prefix +:+ yn_name s) :: more.1, more.2)
  end.

Definition laneEntryCause (lane : YNode) (o : Asking) (processNode : string) (destNode : YNode) : CoreSQL GateVerdict :=
  slots <-- look book yard (ListLaneSlots (yn_id lane)) ;;
  if (length slots <? 2)%nat then sret admitted_now
  else
    nd <-- slot_depths (yn_name lane +:+ ".") slots ∅ ;;
    active <-- ActiveByDeliveryNodes nd.1 ;;
    so <-- buildLaneEntryView o processNode destNode (yn_id lane) active nd.2 ;;
    let c := classifyLaneEntry so.1 so.2 in
    sret (if c =s "" then admitted_now else RefusedAt c "").

(** ** The orders at the mark *)

Definition gateEntryVerdict (lane : YNode) (o : Asking) (processNode : string) (entry : YNode) (isRetrieve : bool)
    : CoreSQL GateVerdict :=
  if isRetrieve then look book yard (laneGateRetrieveCause rows entry o)
  else
    v <-- look book yard (admit_move rows (mkSituation (Some o) None (Some entry) skipsForGatedStoreEntry)) ;;
    if negb (gv_admitted v) then sret v else laneEntryCause lane o processNode entry.

Record gateCandidate := mkCandidate {
  gc_row : OrderRow; gc_node : YNode; gc_depth : Z; gc_retrieve : bool; gc_dwell : bool; gc_entry : Z }.

Definition stored_plan (id : Z) : Stored := default NoPlan (plans !! id).

Definition ActiveGateCandidates : CoreSQL (list OrderRow) :=
  query (fun d => isort by_id (List.filter (fun r =>
    negb (o_vendor_id (or_order r) =s "") && negb (match stored_plan (or_id r) with NoPlan => true | _ => false end)
    && unfinished r) (order_rows d))).

(** The place an order waits for or stands at, if it resolves into this lane. *)
Definition in_this_lane (lane : YNode) (name : string) : CoreSQL (option YNode) :=
  n <-- slog (look book yard (GetNodeByDotName name)) ;;
  match n with
  | None => sret None
  | Some node =>
      l <-- look book yard (LaneForNode (yn_id node)) ;;
      sret (match l with
            | Some l => if yn_id l =i yn_id lane then Some node else None
            | None => None
            end)
  end.

Definition candidate_of (lane : YNode) (r : OrderRow) : CoreSQL (option gateCandidate) :=
  let stored := stored_plan (or_id r) in
  let idx := o_wait_index (or_order r) in
  if negb (IsGateStaged (o_vendor_id (or_order r)) stored idx) || (o_status (or_order r) =s StatusFaulted) then sret None
  else
    match stored with
    | NoPlan | Garbled => sret None
    | Plan steps =>
        match waitAt steps idx with
        | None => sret None
        | Some w =>
            if negb (ps_lane w =i yn_id lane) then sret None
            else
              match laneEntryAfterWait steps idx with
              | None =>
                  if negb (waitGatesAnAppend steps idx) then sret None
                  else
                    at_ <-- in_this_lane lane (ps_node w) ;;
                    match at_ with
                    | None => sret None
                    | Some n =>
                        depth <-- look book yard (GetSlotDepth (yn_id n)) ;;
                        sret (Some (mkCandidate r n depth false true (-1)%Z))
                    end
              | Some (entry, i, isRetrieve) =>
                  at_ <-- in_this_lane lane (ps_node entry) ;;
                  match at_ with
                  | None => sret None
                  | Some n =>
                      depth <-- look book yard (GetSlotDepth (yn_id n)) ;;
                      sret (Some (mkCandidate r n depth isRetrieve false (Z.of_nat i)))
                  end
              end
        end
    end.

Fixpoint candidates_of (lane : YNode) (active : list OrderRow) : CoreSQL (list gateCandidate) :=
  match active with
  | [] => sret []
  | r :: rest =>
      g <-- candidate_of lane r ;;
      more <-- candidates_of lane rest ;;
      sret (match g with Some g => g :: more | None => more end)
  end.

Definition gateStagedForLane (lane : YNode) : CoreSQL (list gateCandidate) :=
  active <-- ActiveGateCandidates ;; candidates_of lane active.

(** Deepest first, the older order first at one depth. *)
Definition release_before (a b : gateCandidate) : bool :=
  if gc_depth a =i gc_depth b then (or_id (gc_row a) <=? or_id (gc_row b))%Z else (gc_depth b <? gc_depth a)%Z.

Definition release_order (cs : list gateCandidate) : list gateCandidate := isort release_before cs.

Definition GateStagedCount (laneID : Z) : CoreSQL nat :=
  lane <-- look book yard (GetNode laneID) ;;
  staged <-- gateStagedForLane lane ;;
  sret (length staged).

(** 0: not a lane's. *)
Definition LaneIDsForGateEvent (nodeID : Z) : CoreSQL Z :=
  if nodeID =i 0 then sret 0%Z
  else
    l <-- slog (look book yard (LaneForNode nodeID)) ;;
    sret (match l with Some (Some lane) => yn_id lane | _ => 0%Z end).

Definition LaneIDForNodeName (name : string) : CoreSQL Z :=
  if name =s "" then sret 0%Z
  else
    n <-- slog (look book yard (GetNodeByDotName name)) ;;
    match n with Some node => LaneIDsForGateEvent (yn_id node) | None => sret 0%Z end.
End LaneOrder.

(** ** Reading Core's tables *)

(** Over the tables [d] the call changes nothing, and what it answers, if it
    answers, is [a]; on a connection that does not fail it answers. *)
Definition says {A} (d : CoreDB) (m : CoreSQL A) (a : A) : Prop :=
  forall c, db c = d -> db (m c).2 = d /\ (forall x, (m c).1 = Ok x -> x = a)
    /\ (faults c = [] -> (m c).1 = Ok a /\ faults (m c).2 = []).

Lemma says_ret {A} d (a : A) : says d (sret a) a.
Proof. intros c Hd. split_and!; [done|by intros ? [= <-]|done]. Qed.

Lemma says_query {A} d (f : CoreDB -> A) : says d (query f) (f d).
Proof.
  intros c <-. unfold query, stmt. destruct (faults c) as [|[] fs]; cbn; split_and!; try done; intros a E; by injection E.
Qed.

Lemma says_bind {A B} d (m : CoreSQL A) (k : A -> CoreSQL B) a b :
  says d m a -> says d (k a) b -> says d (sbind m k) b.
Proof.
  intros Hm Hk c Hd. unfold sbind. destruct (Hm c Hd) as (Hd1 & Ha & Hf). destruct (m c) as [[x|e] c1]; cbn in *.
  - specialize (Ha x eq_refl) as ->. destruct (Hk c1 Hd1) as (Hd2 & Ha2 & Hf2).
    split_and!; [done|done|]. intros H. apply Hf2. by apply Hf.
  - split_and!; [done|done|]. intros H. by destruct (Hf H).
Qed.

(** ** What the tiers look at *)

Section Order.
Context (book : list Columns) (yard : Yard) (claims : list StyleClaim).

Lemma says_look {A} d (f : Yard -> A) : says d (look book yard (query (E := YardError) f)) (f (view book yard d)).
Proof.
  intros c <-. unfold look, query, stmt. cbn.
  destruct (faults c) as [|[] fs]; cbn; split_and!; try done; intros a E; by injection E.
Qed.

Lemma says_depth d n : node_by_id yard (yn_id n) = Some n -> says d (look book yard (GetSlotDepth (yn_id n))) (depth0 n).
Proof.
  intros Hn c <-. unfold look, GetSlotDepth, GetNode, sbind, query, stmt, node_by_id in *. cbn.
  destruct (faults c) as [|[] fs]; cbn; rewrite ?Hn; cbn; split_and!; try done; intros a E; by injection E.
Qed.

Definition origin_at (parent : option Z) (processNode : string) : string :=
  match parent with
  | Some p => "compound:" +:+ pretty p
  | None => if processNode =s "" then "" else originKeyForStyles (style_pairs claims processNode)
  end.

Definition origin_of (r : OrderRow) : string := origin_at (oc_parent (or_cols r)) (o_process_node (or_order r)).

Lemma says_origin d parent pn : says d (laneEntryOriginFor claims parent pn) (origin_at parent pn).
Proof.
  unfold laneEntryOriginFor, origin_at. destruct parent; [apply says_ret|]. destruct (pn =s ""); [apply says_ret|].
  eapply says_bind; [apply says_query|apply says_ret].
Qed.

Fixpoint names_of (prefix : string) (slots : list YNode) : list string :=
  match slots with [] => [] | s :: rest => yn_name s :: (prefix +:+ yn_name s) :: names_of prefix rest end.

Fixpoint depths_of (prefix : string) (slots : list YNode) (m : gmap string Z) : gmap string Z :=
  match slots with
  | [] => m
  | s :: rest => depths_of prefix rest (<[prefix +:+ yn_name s := depth0 s]> (<[yn_name s := depth0 s]> m))
  end.

Definition slots_of (lane : YNode) : list YNode := lane_slots yard (yn_id lane).

(** How deep the slot of that name lies; a name that is no slot's is at 0. *)
Definition depth_at (lane : YNode) (name : string) : Z :=
  default 0%Z (depths_of (yn_name lane +:+ ".") (slots_of lane) ∅ !! name).

Definition depth_of (lane : YNode) (r : OrderRow) : Z := depth_at lane (o_delivery_node (or_order r)).

Definition targets (lane : YNode) (r : OrderRow) : bool :=
  existsb (fun n => o_delivery_node (or_order r) =s n) (names_of (yn_name lane +:+ ".") (slots_of lane)).

(** The stores of the lane that still have their bin to place. *)
Definition stores_of (lane : YNode) (d : CoreDB) : list OrderRow :=
  List.filter (fun r => negb (has_placed (activeMouthRows (yn_id lane) d) r))
    (isort by_id (List.filter (fun r => targets lane r && unfinished r) (order_rows book d))).

Definition entries_of (lane : YNode) (d : CoreDB) : list (Z * Z * string) :=
  map (fun r => (or_id r, depth_of lane r, origin_of r)) (stores_of lane d).

Definition verdict_of (lane : YNode) (o : Asking) (pn : string) (dest : YNode) (d : CoreDB) : GateVerdict :=
  if (length (slots_of lane) <? 2)%nat then admitted_now
  else
    let c := classifyLaneEntry (mkEntry (aq_id o) (depth_at lane (yn_name dest)) (origin_at (yo_parent (aq_order o)) pn) false)
               (mark_grouped (entries_of lane d)) in
    if c =s "" then admitted_now else RefusedAt c "".
End Order.

Section Telling.
Context (book : list Columns) (yard : Yard) (claims : list StyleClaim).
Context (Hyard : NoDup (map yn_id (y_nodes yard))).

Lemma slot_by_id lane s : s ∈ slots_of yard lane -> node_by_id yard (yn_id s) = Some s.
Proof. intros [Hs _]%elem_of_isort%elem_of_lfilter. by apply node_by_id_in. Qed.

Lemma says_slot_depths d prefix slots : forall m,
  (forall s, s ∈ slots -> node_by_id yard (yn_id s) = Some s) ->
  says d (slot_depths book yard prefix slots m) (names_of prefix slots, depths_of prefix slots m).
Proof.
  induction slots as [|s slots IH]; intros m Hs; [apply says_ret|]. cbn [slot_depths names_of depths_of].
  eapply says_bind; [apply says_depth, Hs; set_solver|].
  eapply says_bind; [apply IH; set_solver|apply says_ret].
Qed.

Lemma says_active d names : says d (ActiveByDeliveryNodes book names)
  (isort by_id (List.filter (fun r => existsb (fun n => o_delivery_node (or_order r) =s n) names && unfinished r) (order_rows book d))).
Proof.
  destruct names as [|n names]; [|refine (says_query d _)]. cbn. rewrite lfilter_none by done. apply says_ret.
Qed.

Lemma says_entries d depths active :
  says d (resolve_entries claims depths active)
    (map (fun r => (or_id r, default 0%Z (depths !! o_delivery_node (or_order r)), origin_of claims r)) active).
Proof.
  induction active as [|r active IH]; [apply says_ret|]. cbn [resolve_entries List.map].
  eapply says_bind; [apply says_origin|]. eapply says_bind; [apply IH|apply says_ret].
Qed.

(** The tiers' verdict is the one of the tables. *)
Lemma says_cause d lane o pn dest :
  says d (laneEntryCause book yard claims lane o pn dest) (verdict_of book yard claims lane o pn dest d).
Proof.
  unfold laneEntryCause, verdict_of, buildLaneEntryView, stillWorkingLaneMouth.
  eapply says_bind; [apply says_look|]. change (lane_slots (view book yard d) (yn_id lane)) with (slots_of yard lane).
  destruct (length (slots_of yard lane) <? 2)%nat; [apply says_ret|].
  eapply says_bind; [apply says_slot_depths, slot_by_id|]. cbn [fst snd].
  eapply says_bind; [apply says_active|].
  eapply (says_bind _ _ _ (mkEntry (aq_id o) (depth_at yard lane (yn_name dest)) (origin_at claims (yo_parent (aq_order o)) pn) false,
    mark_grouped (entries_of book yard claims lane d))); [|apply says_ret].
  eapply says_bind; [apply says_origin|].
  eapply says_bind; [eapply says_bind; [apply says_query|apply says_ret]|].
  eapply says_bind; [apply says_entries|apply says_ret].
Qed.
End Telling.

(** ** The tiers *)

Lemma classify_admits self es :
  classifyLaneEntry self es = "" <->
  (forall e, e ∈ es -> le_id e <> le_id self -> sameOrigin (le_origin self) (le_origin e) = false ->
    (le_depth e <= le_depth self)%Z /\ le_grouped e = false).
Proof.
  induction es as [|e es IH]; cbn; [split; [by intros _ ? ?%elem_of_nil|done]|].
  setoid_rewrite elem_of_cons. destruct (Z.eqb_spec (le_id e) (le_id self)) as [Ei|Ei].
  { rewrite IH. naive_solver. }
  destruct (sameOrigin (le_origin self) (le_origin e)) eqn:Eo; [rewrite IH; naive_solver congruence|].
  destruct (Z.ltb_spec (le_depth self) (le_depth e)) as [Hd|Hd].
  { split; [done|]. intros H. destruct (H e) as [? _]; auto. lia. }
  destruct (le_grouped e) eqn:Eg; [split; [done|]; intros H; destruct (H e); auto; congruence|].
  rewrite IH. naive_solver.
Qed.

(** The cause that is named is there. *)
Lemma classify_refuses self es c :
  classifyLaneEntry self es = c -> c <> "" ->
  exists e, e ∈ es /\ le_id e <> le_id self /\ sameOrigin (le_origin self) (le_origin e) = false
    /\ ((c = CauseLaneDeeperPending /\ (le_depth self < le_depth e)%Z) \/ (c = CauseLaneGroupActive /\ le_grouped e = true)).
Proof.
  induction es as [|e es IH]; cbn; [congruence|]. setoid_rewrite elem_of_cons.
  destruct (Z.eqb_spec (le_id e) (le_id self)) as [Ei|Ei]; [naive_solver|].
  destruct (sameOrigin (le_origin self) (le_origin e)) eqn:Eo; [naive_solver|].
  destruct (Z.ltb_spec (le_depth self) (le_depth e)) as [Hd|Hd]; [naive_solver|].
  destruct (le_grouped e) eqn:Eg; naive_solver.
Qed.

Lemma sameOrigin_true a b : sameOrigin a b = true <-> a <> "" /\ a = b.
Proof. unfold sameOrigin. rewrite andb_true_iff, negb_true_iff, String.eqb_neq, String.eqb_eq. done. Qed.

(** ** Who may go in *)

Section Turn.
Context (book : list Columns) (yard : Yard) (claims : list StyleClaim).
Context (Hyard : NoDup (map yn_id (y_nodes yard))) (Hbook : NoDup (map oc_id book)).

(** The order delivers to a slot of the lane, by either name. *)
Definition bound_for (lane : YNode) (r : OrderRow) : Prop :=
  exists s, s ∈ y_nodes yard /\ yn_parent s = Some (yn_id lane)
    /\ (o_delivery_node (or_order r) = yn_name s \/ o_delivery_node (or_order r) = (yn_name lane +:+ ".") +:+ yn_name s).

(** An unfinished store of the lane that is not yet sent, or holds the lane's mouth
    inbound. *)
Definition working (lane : YNode) (d : CoreDB) (r : OrderRow) : Prop :=
  r ∈ order_rows book d /\ unfinished r = true /\ bound_for lane r
  /\ (o_vendor_id (or_order r) = ""
      \/ exists m, m ∈ reservations d /\ mouth_on (yn_id lane) m = true /\ r_mode m = Some ModeInbound /\ r_order m = or_id r).

(** It has company from its own origin. *)
Definition has_company (lane : YNode) (d : CoreDB) (r : OrderRow) : Prop :=
  origin_of claims r <> "" /\ exists r', working lane d r' /\ or_id r' <> or_id r /\ origin_of claims r' = origin_of claims r.

Lemma names_of_elem prefix slots n :
  n ∈ names_of prefix slots <-> exists s, s ∈ slots /\ (n = yn_name s \/ n = prefix +:+ yn_name s).
Proof.
  induction slots as [|s slots IH]; cbn.
  - split; [by intros ?%elem_of_nil|by intros (? & ?%elem_of_nil & _)].
  - setoid_rewrite elem_of_cons. rewrite elem_of_cons, IH. naive_solver.
Qed.

Lemma targets_true lane r : targets yard lane r = true <-> bound_for lane r.
Proof.
  unfold targets, bound_for, slots_of, lane_slots. rewrite existsb_true. setoid_rewrite names_of_elem.
  setoid_rewrite elem_of_isort. setoid_rewrite elem_of_lfilter. setoid_rewrite claimed_is_true.
  setoid_rewrite String.eqb_eq.
  split; [intros (n & (s & [Hs Hp] & Hn) & ->); eauto|intros (s & Hs & Hp & Hn); eauto 10].
Qed.

Lemma placed_false lane d r :
  has_placed (activeMouthRows (yn_id lane) d) r = false <->
  o_vendor_id (or_order r) = ""
  \/ exists m, m ∈ reservations d /\ mouth_on (yn_id lane) m = true /\ r_mode m = Some ModeInbound /\ r_order m = or_id r.
Proof.
  unfold has_placed. rewrite andb_false_iff, !negb_false_iff, String.eqb_eq, existsb_true.
  setoid_rewrite active_elem. setoid_rewrite andb_true_iff. setoid_rewrite is_mode_true. setoid_rewrite Z.eqb_eq.
  split; (intros [?|H]; [by left|right]).
  - destruct H as (h & (m & Hm & Ho & ->) & Hmode & Hid). by exists m.
  - destruct H as (m & Hm & Ho & Hmode & Hid). exists (to_hold m). split; [by exists m|done].
Qed.

Lemma stores_elem lane d r : r ∈ stores_of book yard lane d <-> working lane d r.
Proof.
  unfold stores_of, working. rewrite elem_of_lfilter, elem_of_isort, elem_of_lfilter, negb_true_iff, placed_false,
    andb_true_iff, targets_true. tauto.
Qed.

Lemma rows_nodup d : NoDup (map or_id (order_rows book d)).
Proof.
  unfold order_rows. induction book as [|k ks IH]; [constructor|]. apply NoDup_cons in Hbook as [Hk Hks].
  specialize (IH Hks). cbn. destruct (orders d !! oc_id k); [|done]. cbn. constructor; [|done].
  intros (r & Er & Hr)%list_elem_of_fmap. apply Hk. apply list_elem_of_omap in Hr as (k' & Hk' & E).
  apply list_elem_of_fmap. exists k'. destruct (orders d !! oc_id k'); [|done]. injection E as <-. done.
Qed.

Lemma stores_nodup lane d : NoDup (map or_id (stores_of book yard lane d)).
Proof.
  unfold stores_of. apply keys_filter. rewrite isort_perm. apply keys_filter, rows_nodup.
Qed.

Lemma store_unique lane d r r' : working lane d r -> working lane d r' -> or_id r = or_id r' -> r = r'.
Proof. rewrite <- !stores_elem. intros H H' E. by apply (keys_inj or_id (stores_of book yard lane d)); [apply stores_nodup|..]. Qed.

Lemma grouped_spec lane d r :
  working lane d r ->
  negb (origin_of claims r =s "") && (2 <=? origin_count (origin_of claims r) (entries_of book yard claims lane d))%nat = true
  <-> has_company lane d r.
Proof.
  intros Hr. unfold has_company. rewrite andb_true_iff, negb_true_iff, String.eqb_neq, Nat.leb_le.
  unfold origin_count, entries_of. rewrite count_map. cbn.
  rewrite (at_least_two or_id _ _ r); [|apply stores_nodup|by apply stores_elem|apply String.eqb_refl].
  setoid_rewrite stores_elem. setoid_rewrite String.eqb_eq. naive_solver.
Qed.

(** Nobody of another origin that works the lane lies deeper or has company. *)
Definition my_turn (lane : YNode) (o : Asking) (processNode : string) (dest : YNode) (d : CoreDB) : Prop :=
  forall r, working lane d r -> or_id r <> aq_id o ->
    sameOrigin (origin_at claims (yo_parent (aq_order o)) processNode) (origin_of claims r) = false ->
    (depth_of yard lane r <= depth_at yard lane (yn_name dest))%Z /\ ~ has_company lane d r.

(** An entry of the view is a store of the lane. *)
Definition shows (lane : YNode) (d : CoreDB) (r : OrderRow) (e : laneEntryOrder) : Prop :=
  le_id e = or_id r /\ le_depth e = depth_of yard lane r /\ le_origin e = origin_of claims r
  /\ (le_grouped e = true <-> has_company lane d r).

Lemma working_entry lane d r :
  working lane d r -> exists e, e ∈ mark_grouped (entries_of book yard claims lane d) /\ shows lane d r e.
Proof.
  intros Hr. eexists. split.
  - apply list_elem_of_fmap. exists (or_id r, depth_of yard lane r, origin_of claims r). split; [done|].
    apply list_elem_of_fmap. exists r. split; [done|by apply stores_elem].
  - split_and!; [done..|]. by apply grouped_spec.
Qed.

Lemma entry_working lane d e :
  e ∈ mark_grouped (entries_of book yard claims lane d) -> exists r, working lane d r /\ shows lane d r e.
Proof.
  intros ([[id depth] origin] & -> & (r & E & Hr%stores_elem)%list_elem_of_fmap)%list_elem_of_fmap. injection E as -> -> ->.
  exists r. split; [done|]. split_and!; [done..|]. by apply grouped_spec.
Qed.

Section Verdict.
Context (lane : YNode) (o : Asking) (pn : string) (dest : YNode) (d : CoreDB).

Definition self_entry : laneEntryOrder :=
  mkEntry (aq_id o) (depth_at yard lane (yn_name dest)) (origin_at claims (yo_parent (aq_order o)) pn) false.
Definition cause_of : string := classifyLaneEntry self_entry (mark_grouped (entries_of book yard claims lane d)).

Lemma verdict_unfold :
  verdict_of book yard claims lane o pn dest d =
  if (length (slots_of yard lane) <? 2)%nat then admitted_now else if cause_of =s "" then admitted_now else RefusedAt cause_of "".
Proof. done. Qed.

Lemma cause_empty : cause_of = "" <-> my_turn lane o pn dest d.
Proof.
  unfold cause_of. rewrite classify_admits. split.
  - intros H r Hr Hid Ho. destruct (working_entry lane d r Hr) as (e & He & Ei & Ed & Eo & Eg).
    rewrite <- Ed, <- Eg. destruct (H e He) as [Hd Hg]; [by rewrite Ei|by rewrite Eo|]. split; [done|congruence].
  - intros H e He Hid Ho. destruct (entry_working lane d e He) as (r & Hr & Ei & Ed & Eo & Eg).
    destruct (H r Hr) as [Hd Hg]; [by rewrite <- Ei|by rewrite <- Eo|]. rewrite Ed. split; [done|].
    apply not_true_is_false. by rewrite Eg.
Qed.

Lemma verdict_admits :
  gv_admitted (verdict_of book yard claims lane o pn dest d) = true <->
  (length (slots_of yard lane) < 2)%nat \/ my_turn lane o pn dest d.
Proof.
  rewrite verdict_unfold, <- cause_empty. destruct (Nat.ltb_spec (length (slots_of yard lane)) 2) as [Hl|Hl]; [tauto|].
  destruct (String.eqb_spec cause_of "") as [E|E]; [tauto|]. split; [done|]. intros [?|?]; [lia|done].
Qed.

(** What the refused order is told. *)
Definition told_truly (v : GateVerdict) : Prop :=
  exists r, working lane d r /\ or_id r <> aq_id o
    /\ sameOrigin (origin_at claims (yo_parent (aq_order o)) pn) (origin_of claims r) = false
    /\ ((gv_cause v = CauseLaneDeeperPending /\ (depth_at yard lane (yn_name dest) < depth_of yard lane r)%Z)
        \/ (gv_cause v = CauseLaneGroupActive /\ has_company lane d r)).

Lemma verdict_refuses :
  gv_admitted (verdict_of book yard claims lane o pn dest d) = false -> told_truly (verdict_of book yard claims lane o pn dest d).
Proof.
  rewrite verdict_unfold. destruct (length (slots_of yard lane) <? 2)%nat; [done|].
  destruct (String.eqb_spec cause_of "") as [E|E]; [done|]. intros _. unfold told_truly. cbn.
  destruct (classify_refuses _ _ _ eq_refl E) as (e & He & Hid & Ho & Hc).
  destruct (entry_working lane d e He) as (r & Hr & Ei & Ed & Eo & Eg). exists r.
  rewrite <- Eo, <- Ei, <- Ed, <- Eg. done.
Qed.
End Verdict.

(** C24.  A store that asks to enter a lane of two or more slots is let in exactly
    when no other store with its bin still to place in this lane, and not of its own
    origin, lies deeper or belongs to a group of its own origin; in a lane of one slot
    it always is.  A store counts while its order is unfinished and either not yet
    sent or holding the lane's mouth inbound, whichever of its two names the slot is
    written under.  The question changes nothing, never answers anything else
    whatever reads fail, always answers when none does, and a refusal names a reason
    that is there: a deeper store, or a group. *)
Theorem lane_entry_exact lane o processNode dest c :
  (faults c = [] -> exists v c', laneEntryCause book yard claims lane o processNode dest c = (Ok v, c'))
  /\ forall v c', laneEntryCause book yard claims lane o processNode dest c = (Ok v, c') ->
     db c' = db c
     /\ (gv_admitted v = true <-> (length (lane_slots yard (yn_id lane)) < 2)%nat \/ my_turn lane o processNode dest (db c))
     /\ (gv_admitted v = false -> told_truly lane o processNode dest (db c) v).
Proof.
  destruct (says_cause book yard claims Hyard (db c) lane o processNode dest c eq_refl) as (Hd & Ha & Hf). split.
  - intros H. destruct (Hf H) as [E _]. destruct (laneEntryCause _ _ _ _ _ _ _ _) as [r c1]. cbn in E. rewrite E. eauto.
  - intros v c' E. rewrite E in Hd, Ha. specialize (Ha v eq_refl) as ->. split_and!; [done|apply verdict_admits|apply verdict_refuses].
Qed.

(** ** Does anybody get in *)

(** The store's own question. *)
Definition own_ask (r : OrderRow) : Asking :=
  mkAsking (mkYOrder (or_id r) (o_status (or_order r)) "" (o_delivery_node (or_order r)) (oc_bin (or_cols r)) (oc_parent (or_cols r)))
    NoPlan (o_wait_index (or_order r)).

Lemma deepest_store lane (l : list OrderRow) : l <> [] -> exists r, r ∈ l /\ forall r', r' ∈ l -> (depth_of yard lane r' <= depth_of yard lane r)%Z.
Proof.
  induction l as [|a l IH]; [done|]. intros _. setoid_rewrite elem_of_cons. destruct l as [|b l].
  - exists a. split; [by left|]. intros r' [->|?%elem_of_nil]; [lia|done].
  - destruct IH as (r & Hr & Hmax); [done|]. destruct (Z.le_gt_cases (depth_of yard lane r) (depth_of yard lane a)) as [Ha|Ha].
    + exists a. split; [by left|]. intros r' [->|H]; [lia|]. specialize (Hmax r' H). lia.
    + exists r. split; [by right|]. intros r' [->|H]; [lia|by apply Hmax].
Qed.

Lemma group_or_not lane d : (forall r, working lane d r -> ~ has_company lane d r) \/ exists r, working lane d r /\ has_company lane d r.
Proof.
  destruct (existsb le_grouped (mark_grouped (entries_of book yard claims lane d))) eqn:E.
  - right. apply existsb_true in E as (e & He & Hg). destruct (entry_working lane d e He) as (r & Hr & _ & _ & _ & Eg).
    exists r. split; [done|by apply Eg].
  - left. rewrite existsb_false in E. intros r Hr Hg. destruct (working_entry lane d r Hr) as (e & He & _ & _ & _ & Eg).
    apply Eg in Hg. by rewrite E in Hg.
Qed.

(** Company is mutual. *)
Lemma company_same lane d g r :
  working lane d g -> working lane d r -> has_company lane d g -> origin_of claims r = origin_of claims g -> has_company lane d r.
Proof.
  intros Hg Hr [Hne (x & Hx & Hxg & Ex)] E. split; [by rewrite E|].
  destruct (decide (or_id g = or_id r)) as [Ei|Ei].
  - apply (store_unique lane d) in Ei as ->; [|done..]. by exists x.
  - by exists g.
Qed.

(** The store's turn when it asks at its own slot. *)
Lemma my_turn_own lane dest d r :
  depth_at yard lane (yn_name dest) = depth_of yard lane r -> working lane d r ->
  my_turn lane (own_ask r) (o_process_node (or_order r)) dest d <->
  forall r', working lane d r' -> sameOrigin (origin_of claims r) (origin_of claims r') = false ->
    or_id r' <> or_id r -> (depth_of yard lane r' <= depth_of yard lane r)%Z /\ ~ has_company lane d r'.
Proof. intros E Hr. unfold my_turn. cbn. rewrite E. unfold origin_of. naive_solver. Qed.

Definition gets_in (lane dest : YNode) (r : OrderRow) (c : Conn CoreDB) : Prop :=
  exists c', laneEntryCause book yard claims lane (own_ask r) (o_process_node (or_order r)) dest c = (Ok admitted_now, c').

Lemma gets_in_turn lane dest r c :
  faults c = [] -> (2 <= length (lane_slots yard (yn_id lane)))%nat ->
  gets_in lane dest r c <-> my_turn lane (own_ask r) (o_process_node (or_order r)) dest (db c).
Proof.
  intros Hf Hl. destruct (says_cause book yard claims Hyard (db c) lane (own_ask r) (o_process_node (or_order r)) dest c eq_refl)
    as (_ & Ha & Hok). destruct (Hok Hf) as [E _]. unfold gets_in.
  pose proof (verdict_admits lane (own_ask r) (o_process_node (or_order r)) dest (db c)) as Hv.
  destruct (laneEntryCause _ _ _ _ _ _ _ _) as [v c1]. cbn in *. subst v. split.
  - intros [c' [= E _]]. rewrite E in Hv. destruct (proj1 Hv eq_refl) as [H|H]; [|done]. unfold slots_of in H. lia.
  - intros H. exists c1. f_equal. f_equal. apply proj2 in Hv. specialize (Hv (or_intror H)). revert Hv.
    rewrite verdict_unfold. by repeat case_match.
Qed.

(** C25.  In a lane of two or more slots some store gets in exactly when there is a
    store with its bin still to place, and either no two of them share an origin, or
    all that do share one and the same and the deepest of that group lies no less deep
    than every store outside it.  With two groups, or with one store lying deeper than
    a whole group of another origin, each waits for the other and nobody is let in. *)
Theorem tiers_progress lane dest c :
  faults c = [] -> (2 <= length (lane_slots yard (yn_id lane)))%nat ->
  (forall r, working lane (db c) r -> depth_at yard lane (yn_name (dest r)) = depth_of yard lane r) ->
  (exists r, working lane (db c) r /\ gets_in lane (dest r) r c) <->
  (exists r, working lane (db c) r)
  /\ ((forall r, working lane (db c) r -> ~ has_company lane (db c) r)
      \/ exists g, working lane (db c) g /\ has_company lane (db c) g
         /\ (forall r, working lane (db c) r -> has_company lane (db c) r -> origin_of claims r = origin_of claims g)
         /\ (forall r, working lane (db c) r -> origin_of claims r = origin_of claims g \/ (depth_of yard lane r <= depth_of yard lane g)%Z)).
Proof.
  intros Hf Hl Hdest. split.
  - intros (r & Hr & Hin). split; [by exists r|]. destruct (group_or_not lane (db c)) as [Hno|(g & Hg & Hgg)]; [by left|right].
    apply gets_in_turn in Hin; [|done..]. rewrite my_turn_own in Hin by auto.
    assert (Hsame : forall x, working lane (db c) x -> has_company lane (db c) x -> origin_of claims x = origin_of claims r).
    { intros x Hx Hxg. destruct (sameOrigin (origin_of claims r) (origin_of claims x)) eqn:E; [by apply sameOrigin_true in E as [_ ->]|].
      destruct (decide (or_id x = or_id r)) as [Ei|Ei]; [by apply (store_unique lane (db c)) in Ei as ->|].
      by destruct (Hin x Hx E Ei). }
    exists r. split_and!; [done| |done|].
    + apply (company_same lane (db c) g); auto. symmetry. auto.
    + intros x Hx. destruct (sameOrigin (origin_of claims r) (origin_of claims x)) eqn:E; [apply sameOrigin_true in E as [_ ->]; by left|].
      destruct (decide (or_id x = or_id r)) as [Ei|Ei]; [apply (store_unique lane (db c)) in Ei as ->; auto|].
      right. by apply Hin.
  - intros [(r0 & Hr0) [Hno|(g & Hg & [Hne Hgg] & Hone & Hdeep)]].
    + destruct (deepest_store lane (stores_of book yard lane (db c))) as (r & Hr & Hmax).
      { intros E. apply stores_elem in Hr0. rewrite E in Hr0. by apply elem_of_nil in Hr0. }
      apply stores_elem in Hr. exists r. split; [done|]. apply gets_in_turn; [done..|]. apply my_turn_own; auto.
      intros x Hx _ _. split; [by apply Hmax, stores_elem|auto].
    + exists g. split; [done|]. apply gets_in_turn; [done..|]. apply my_turn_own; auto. intros x Hx Ho Hi.
      assert (Hnx : origin_of claims x <> origin_of claims g).
      { intros E. apply not_true_iff_false in Ho. apply Ho, sameOrigin_true. done. }
      split; [by destruct (Hdeep x Hx)|]. intros Hxg. by apply Hnx, Hone.
Qed.
End Turn.

(** ** At the mark *)

Section Mark.
Context (book : list Columns) (yard : Yard) (rows : Z -> list OrderBin) (plans : gmap Z Stored) (claims : list StyleClaim).
Context (Hyard : NoDup (map yn_id (y_nodes yard))).

(** A store at the mark is let in exactly when the lane is physically open to it
    and it is its turn. *)
Theorem gate_lets_in_exactly lane o processNode entry c :
  NoDup (map oc_id book) -> faults c = [] ->
  (exists v c', gateEntryVerdict book yard rows claims lane o processNode entry false c = (Ok v, c') /\ gv_admitted v = true)
  <-> end_open rows (view book yard (db c)) o skipsForGatedStoreEntry false (Some entry)
      /\ ((length (lane_slots yard (yn_id lane)) < 2)%nat \/ my_turn book yard claims lane o processNode entry (db c)).
Proof.
  intros Hbook Hf. set (m := admit_move rows (mkSituation (Some o) None (Some entry) skipsForGatedStoreEntry)).
  destruct (runs_admit rows True (view book yard (db c)) Hyard o skipsForGatedStoreEntry None (Some entry)
    (mkConn (view book yard (db c)) (faults c)) eq_refl (fun _ => Hf)) as (r & c0 & E & _ & _ & Hr).
  pose proof (look_db book yard m c) as Hd. pose proof (steady_look book yard m (reads_admit rows _) c Hf) as Hs.
  assert (El : (look book yard m c).1 = match r with Ok a => Ok a | Err _ => Err EDriver end)
    by (unfold look; fold m in E; by rewrite E).
  unfold gateEntryVerdict. fold m. unfold sbind. destruct (look book yard m c) as [x c1]. cbn in *. subst x.
  destruct r as [v|e]; cbn in Hr.
  - destruct Hr as (H1 & H2 & _). destruct (gv_admitted v) eqn:Ev; cbn.
    + destruct (says_cause book yard claims Hyard (db c) lane o processNode entry c1 Hd) as (_ & _ & Hok).
      destruct (Hok Hs) as [Ev' _]. pose proof (verdict_admits book yard claims Hbook lane o processNode entry (db c)) as Hv.
      destruct (laneEntryCause _ _ _ _ _ _ _ _) as [x c']. cbn in Ev'. subst x. split.
      * intros (v' & c2 & [= <- _] & Hv'). split; [by apply H1|by apply Hv].
      * intros [_ Ht]. eexists _, c'. split; [done|by apply Hv].
    + split; [intros (v' & c' & [= <- _] & ?); congruence|]. intros [Ho _]. by specialize (H2 I (conj I Ho)).
  - split; [by intros (? & ? & ? & _)|]. intros [Ho _]. destruct (Hr I). by split.
Qed.

Definition lane_of_node (lane : YNode) (n : YNode) : Prop :=
  exists l, lane_at yard (yn_id n) = Some (Some l) /\ yn_id l = yn_id lane.

Lemma logged_look {A} (m : YardSQL A) f c a c' :
  (forall y, reads_as False y m f) -> slog (look book yard m) c = (Ok (Some a), c') -> f (view book yard (db c)) = Some a /\ db c' = db c.
Proof.
  intros Hm H. unfold slog in H. destruct (look book yard m c) as [[x|e] c1] eqn:E; [|done]. injection H as -> ->.
  by apply (look_ok book yard _ _ _ _ _ Hm) in E.
Qed.

Lemma in_this_lane_ok lane name c n c' :
  in_this_lane book yard lane name c = (Ok (Some n), c') -> lane_of_node lane n /\ node_by_dot_name yard name = Some n.
Proof.
  intros H. apply sbind_ok in H as (m & c1 & H1 & H2). destruct m as [m|]; [|done].
  apply (logged_look _ (fun y => node_by_dot_name y name)) in H1 as [H1 _]; [|intros y; apply lookup_reads].
  apply sbind_ok in H2 as (l & c2 & H2 & H3). destruct l as [l|]; [|done]. destruct (Z.eqb_spec (yn_id l) (yn_id lane)) as [El|]; [|done].
  injection H3 as -> _. apply (look_ok book yard _ _ _ _ _ (fun y => LaneForNode_reads False y (yn_id n))) in H2 as [H2 _].
  split; [by exists l|done].
Qed.

(** What it means to stand at the lane's mark. *)
Definition stands_at_mark (lane : YNode) (d : CoreDB) (g : gateCandidate) : Prop :=
  let r := gc_row g in
  r ∈ order_rows book d /\ unfinished r = true /\ o_status (or_order r) <> StatusFaulted /\ o_vendor_id (or_order r) <> ""
  /\ exists steps w, stored_plan plans (or_id r) = Plan steps /\ waitAt steps (o_wait_index (or_order r)) = Some w
     /\ ps_kind w = WaitKindLane /\ ps_lane w = yn_id lane /\ lane_of_node lane (gc_node g)
     /\ if gc_dwell g then node_by_dot_name yard (ps_node w) = Some (gc_node g)
        else exists e i, laneEntryAfterWait steps (o_wait_index (or_order r)) = Some (e, i, gc_retrieve g)
          /\ gc_entry g = Z.of_nat i /\ node_by_dot_name yard (ps_node e) = Some (gc_node g).
Lemma candidate_ok lane r c g c' d :
  r ∈ order_rows book d -> unfinished r = true ->
  candidate_of book yard plans lane r c = (Ok (Some g), c') -> stands_at_mark lane d g.
Proof.
  intros Hr Hu H. unfold candidate_of in H. destruct (negb _ || _) eqn:Es; [done|].
  apply orb_false_iff in Es as [Hg%negb_false_iff Hst%String.eqb_neq].
  destruct (stored_plan plans (or_id r)) as [| |steps] eqn:Ep; [done..|].
  destruct (waitAt steps (o_wait_index (or_order r))) as [w|] eqn:Ew; [|done].
  unfold IsGateStaged in Hg. destruct (String.eqb_spec (o_vendor_id (or_order r)) "") as [|Hv]; [done|].
  rewrite Ew in Hg. apply String.eqb_eq in Hg.
  destruct (Z.eqb_spec (ps_lane w) (yn_id lane)) as [El|]; [|done]. cbn in H.
  destruct (laneEntryAfterWait steps (o_wait_index (or_order r))) as [[[e i] retrieve]|] eqn:Ee.
  2: destruct (negb (waitGatesAnAppend _ _)); [done|].
  all: apply sbind_ok in H as (n & c1 & H1 & H2); destruct n as [n|]; [|discriminate H2].
  all: apply sbind_ok in H2 as (dep & c2 & _ & H3); injection H3 as <- _; apply in_this_lane_ok in H1 as [Hl Hn].
  all: refine (conj Hr (conj Hu (conj Hst (conj Hv (ex_intro _ steps (ex_intro _ w _)))))).
  all: refine (conj Ep (conj Ew (conj Hg (conj El (conj Hl _))))); cbn [gc_dwell gc_node gc_row].
  - exact (ex_intro _ e (ex_intro _ i (conj Ee (conj eq_refl Hn)))).
  - exact Hn.
Qed.

Lemma candidates_ok lane d active : forall c cs c',
  (forall r, r ∈ active -> r ∈ order_rows book d /\ unfinished r = true) ->
  candidates_of book yard plans lane active c = (Ok cs, c') -> forall g, g ∈ cs -> stands_at_mark lane d g.
Proof.
  induction active as [|r active IH]; intros c cs c' Ha H; [injection H as <- _; by intros g ?%elem_of_nil|].
  apply sbind_ok in H as (x & c1 & H1 & H2). apply sbind_ok in H2 as (more & c2 & H2 & H3).
  assert (Hm : forall g, g ∈ more -> stands_at_mark lane d g) by (apply (IH c1 more c2); [intros r' Hr'; apply Ha; by right|exact H2]).
  destruct x as [x|]; injection H3 as <- _; [|done]. destruct (Ha r) as [Hr Hu]; [left|].
  intros g [->|Hg]%elem_of_cons; [exact (candidate_ok lane r c x c1 d Hr Hu H1)|exact (Hm g Hg)].
Qed.

Lemma release_sorted cs : Sorted (fun a b => (gc_depth b <= gc_depth a)%Z) (release_order cs).
Proof.
  assert (H : Sorted (fun a b => release_before a b = true) (release_order cs)).
  { apply isort_sorted. unfold release_before. intros a b.
    destruct (Z.eqb_spec (gc_depth a) (gc_depth b)), (Z.eqb_spec (gc_depth b) (gc_depth a));
      rewrite ?Z.leb_le, ?Z.ltb_lt, ?Z.leb_gt, ?Z.ltb_ge; lia. }
  induction H as [|a l Hl IH Hd]; constructor; [exact IH|]. destruct Hd as [|b l Hb]; constructor.
  unfold release_before in Hb. destruct (Z.eqb_spec (gc_depth a) (gc_depth b)); [lia|]. apply Z.ltb_lt in Hb. lia.
Qed.

(** Whatever reads fail, every candidate of a lane is a live order sent to the
    fleet and parked at a wait of that very lane, and the place it is to enter, or
    stands in, is a slot of that lane; the deeper comes first. *)
Theorem candidates_stand_at_the_mark lane c cs c' :
  gateStagedForLane book yard plans lane c = (Ok cs, c') ->
  (forall g, g ∈ release_order cs -> stands_at_mark lane (db c) g)
  /\ Sorted (fun a b => (gc_depth b <= gc_depth a)%Z) (release_order cs).
Proof.
  intros H. split.
  - intros g Hg%elem_of_isort. apply sbind_ok in H as (active & c1 & H1 & H2). eapply candidates_ok; [|exact H2|exact Hg].
    intros r Hr. unfold ActiveGateCandidates, query, stmt in H1.
    assert (E : active = isort by_id (List.filter (fun r => negb (o_vendor_id (or_order r) =s "")
      && negb (match stored_plan plans (or_id r) with NoPlan => true | _ => false end) && unfinished r) (order_rows book (db c))))
      by (destruct (faults c) as [|[] fs]; [|discriminate H1|]; by injection H1).
    subst active. apply elem_of_isort, elem_of_lfilter in Hr as [Hr [_ Hu]%andb_true_iff]. exact (conj Hr Hu).
  - apply release_sorted.
Qed.
End Mark.

(** ** A small plant *)

(** Three presses of one process; two of them run the same style. *)
Definition plant_claims : list StyleClaim :=
  [mkStyleClaim "P" "A" "WELD"; mkStyleClaim "P" "S" "PRESS_L"; mkStyleClaim "P" "S" "PRESS_R"; mkStyleClaim "P" "T" "TRIM"].

Definition store_row (id : Z) (vendor process dest : string) : Order :=
  mkOrder id "uuid" "ST1" StatusQueued "" vendor process dest "P1" "" "" "" 0 None 0.

Definition turn_book : list Columns := map (fun id => mkCols id None 0 None false false) [1; 2; 3]%Z.
Definition turn_db (os : list Order) (l : list Resv) : CoreDB :=
  set_reservations (fun _ => l) (set_orders (fun _ => list_to_map (map (fun o => (o_id o, o)) os)) demo_db).

Definition L1 : YNode := ylane 10 "L1" 1.
Definition slot_named (name : string) : YNode := default L1 (node_by_name demo_yard name).

Definition row_at (d : CoreDB) (id : Z) : OrderRow := mkRow (mkCols id None 0 None false false) (default (demo_order 0 StatusQueued) (orders d !! id)).

(** What each of the three is told when it asks at its own slot. *)
Definition answers_in (d : CoreDB) : list (outcome error GateVerdict) :=
  map (fun id => let r := row_at d id in
    (laneEntryCause turn_book demo_yard plant_claims L1 (own_ask r) (o_process_node (or_order r))
      (slot_named (o_delivery_node (or_order r))) (mkConn d [])).1) [1; 2; 3]%Z.

Definition one_by_one : CoreDB :=
  turn_db [store_row 1 "" "WELD" "S13"; store_row 2 "" "PRESS_L" "S12"; store_row 3 "" "TRIM" "L1.S11"] [].

(** Three origins: the deepest goes first. *)
Example deepest_goes_first :
  answers_in one_by_one = [Ok admitted_now; Ok (RefusedAt CauseLaneDeeperPending ""); Ok (RefusedAt CauseLaneDeeperPending "")].
Proof. vm_compute. reflexivity. Qed.

(** A store at the back, and in front of it the two of a pair: the store waits for
    the pair and the pair for the store. *)
Example pair_in_front_wedges :
  answers_in (turn_db [store_row 1 "" "WELD" "S13"; store_row 2 "" "PRESS_L" "S12"; store_row 3 "" "PRESS_R" "S11"] []) =
  [Ok (RefusedAt CauseLaneGroupActive ""); Ok (RefusedAt CauseLaneDeeperPending ""); Ok (RefusedAt CauseLaneDeeperPending "")].
Proof. vm_compute. reflexivity. Qed.

(** Lane L1 with a mark, and a plan that stores at its back. *)
Definition marked_yard : Yard :=
  mkYard (y_nodes demo_yard) (y_bins demo_yard) [] [] {[(10%Z, PropLaneGatePoint) := "P1"]} [] [] [].
Definition back_plan : list resolvedStep := [mkStep ActionPickup "P1" "" false false "" 0; mkStep ActionDropoff "S13" "" false false "" 0].

(** A planned store bound for a marked lane takes no hold there.  Once it is sent it
    counts as one that has placed, and a store in front of its slot is let in. *)
Example sent_plan_is_passed_over :
  let d vendor := turn_db [store_row 1 vendor "WELD" "S13"; store_row 2 "" "TRIM" "S12"] [] in
  let ask d := (laneEntryCause turn_book marked_yard plant_claims L1 (own_ask (row_at d 2)) "TRIM" (slot_named "S12") (mkConn d [])).1 in
  (resolvePlanLaneHolds turn_book marked_yard back_plan (mkConn (d "sg-1") [])).1 = Ok []
  /\ ask (d "") = Ok (RefusedAt CauseLaneDeeperPending "")
  /\ ask (d "sg-1") = Ok admitted_now.
Proof. vm_compute. by split_and!. Qed.

Lemma turn_ids : NoDup (map oc_id turn_book).
Proof. cbn. repeat (apply NoDup_cons; split; [set_solver|]). apply NoDup_nil_2. Qed.

Lemma lane_entry_exact_witness :
  let ask := laneEntryCause turn_book demo_yard plant_claims L1 (own_ask (row_at one_by_one 1)) "WELD" (slot_named "S13") in
  (ask (mkConn one_by_one [])).1 = Ok admitted_now
  /\ my_turn turn_book demo_yard plant_claims L1 (own_ask (row_at one_by_one 1)) "WELD" (slot_named "S13") one_by_one.
Proof.
  intros ask. assert (E : (ask (mkConn one_by_one [])).1 = Ok admitted_now) by (vm_compute; reflexivity). split; [exact E|].
  destruct (lane_entry_exact turn_book demo_yard plant_claims demo_yard_ids turn_ids L1 (own_ask (row_at one_by_one 1)) "WELD"
    (slot_named "S13") (mkConn one_by_one [])) as [_ H]. fold ask in H.
  destruct (ask (mkConn one_by_one [])) as [v c'] eqn:Ea. cbn in E. subst v. destruct (H _ _ eq_refl) as (_ & [Ht _] & _).
  destruct (Ht eq_refl) as [Hl|Ht']; [vm_compute in Hl; lia|exact Ht'].
Defined.

Lemma tiers_progress_witness :
  let c := mkConn one_by_one [] in
  let dest r := slot_named (if o_delivery_node (or_order r) =s "L1.S11" then "S11" else o_delivery_node (or_order r)) in
  (forall r, working turn_book demo_yard L1 one_by_one r -> ~ has_company turn_book demo_yard plant_claims L1 one_by_one r)
  /\ exists r, working turn_book demo_yard L1 one_by_one r /\ gets_in turn_book demo_yard plant_claims L1 (dest r) r c.
Proof.
  intros c dest.
  assert (Hw : forall r, working turn_book demo_yard L1 one_by_one r -> r = row_at one_by_one 1 \/ r = row_at one_by_one 2 \/ r = row_at one_by_one 3).
  { intros r (Hr & _). assert (E : order_rows turn_book one_by_one = map (row_at one_by_one) [1; 2; 3]%Z) by (vm_compute; reflexivity).
    rewrite E in Hr. cbn in Hr. rewrite !elem_of_cons, elem_of_nil in Hr. tauto. }
  assert (Hno : forall r, working turn_book demo_yard L1 one_by_one r -> ~ has_company turn_book demo_yard plant_claims L1 one_by_one r).
  { intros r Hr (_ & r' & Hr' & Hi & Ho). destruct (Hw r Hr) as [->|[->| ->]], (Hw r' Hr') as [->|[->| ->]];
      try (by apply Hi); vm_compute in Ho; discriminate Ho. }
  split; [exact Hno|].
  apply (tiers_progress turn_book demo_yard plant_claims demo_yard_ids turn_ids L1 dest c); [reflexivity|vm_compute; lia| |].
  - intros r Hr. destruct (Hw r Hr) as [->|[->| ->]]; vm_compute; reflexivity.
  - split; [|by left]. exists (row_at one_by_one 1). apply stores_elem. vm_compute. left.
Defined.
