(* ===== verification/Prog.v ===== *)
(** Programs of calls.

    Code that works through an interface is a program here: it makes a call, goes on
    with the answer it gets, and ends with a result.  Nothing is assumed about the
    answers, so what holds of every run holds for every implementation of the
    interface, whatever fails and however its state changes between two calls.
    [runs] lists the runs with the exchanges they consist of; [along] proves
    properties of every call and of the result from what has been said before. *)

From S2P Require Import Prelude.

Section Programs.
Context {Q : Type -> Type}.

Inductive Prog (A : Type) : Type :=
| Ret (a : A)
| Do {X : Type} (c : Q X) (k : X -> Prog A).
Arguments Ret {A}.
Arguments Do {A X}.

Fixpoint pbind {A B} (p : Prog A) (k : A -> Prog B) : Prog B :=
  match p with Ret a => k a | Do c f => Do c (fun x => pbind (f x) k) end.
Definition call {X} (c : Q X) : Prog X := Do c Ret.

(** A call and its answer. *)
Inductive Exchange :=
| Ev {X : Type} (c : Q X) (x : X).

(** Every answer is possible: what the program did, and what it returned. *)
Fixpoint runs {A} (p : Prog A) (tr : list Exchange) (a : A) : Prop :=
  match p with
  | Ret x => tr = [] /\ a = x
  | Do c k => exists x tr', tr = Ev c x :: tr' /\ runs (k x) tr' a
  end.

(** [G] holds of every call given what came before it, latest first; [R] of the
    result. *)
Fixpoint along {A} (G : list Exchange -> forall X, Q X -> Prop) (R : list Exchange -> A -> Prop) (h : list Exchange) (p : Prog A) : Prop :=
  match p with
  | Ret a => R h a
  | Do c k => G h _ c /\ forall x, along G R (Ev c x :: h) (k x)
  end.

(** The run against answers fixed beforehand, and against a store that keeps a
    state between them. *)
Fixpoint play {A} (oracle : forall X, Q X -> X) (p : Prog A) : list Exchange * A :=
  match p with
  | Ret a => ([], a)
  | Do c k => let x := oracle _ c in let r := play oracle (k x) in (Ev c x :: r.1, r.2)
  end.

Fixpoint serve {S A} (store : forall X, Q X -> S -> X * S) (p : Prog A) (s : S) : list Exchange * A :=
  match p with
  | Ret a => ([], a)
  | Do c k => let '(x, s1) := store _ c s in let r := serve store (k x) s1 in (Ev c x :: r.1, r.2)
  end.

Lemma play_runs {A} oracle (p : Prog A) : runs p (play oracle p).1 (play oracle p).2.
Proof. induction p as [a|X c k IH]; cbn; [done|]. eauto. Qed.

Lemma serve_runs {S A} store (p : Prog A) : forall s : S, runs p (serve store p s).1 (serve store p s).2.
Proof. induction p as [a|X c k IH]; intros s; cbn; [done|]. destruct (store X c s) as [x s1]. cbn. eauto. Qed.

Lemma along_runs {A} G R (p : Prog A) : forall h tr a,
  along G R h p -> runs p tr a ->
  R (rev tr ++ h) a /\ forall tr1 e tr2, tr = tr1 ++ e :: tr2 -> match e with Ev c _ => G (rev tr1 ++ h) _ c end.
Proof.
  induction p as [a0|X c k IH]; intros h tr a Ha Hr; cbn in *.
  - destruct Hr as [-> ->]. split; [done|]. intros tr1 e tr2 E. by destruct tr1.
  - destruct Ha as [Hg Ha], Hr as (x & tr' & -> & Hr). destruct (IH x _ _ _ (Ha x) Hr) as [HQ HG]. split.
    + cbn. by rewrite <- app_assoc.
    + intros [|e' tr1] e tr2 E; cbn in E; [by injection E as <- _|]. injection E as <- E. cbn. rewrite <- app_assoc. by eapply HG.
Qed.

Lemma along_bind {A B} G (R' : list Exchange -> B -> Prop) (p : Prog A) (k : A -> Prog B) R : forall h,
  along G R h p -> (forall h' a, R h' a -> along G R' h' (k a)) -> along G R' h (pbind p k).
Proof.
  induction p as [a|X c f IH]; intros h Hp Hk; cbn in *; [by apply Hk|]. destruct Hp as [Hg Hp]. split; [done|].
  intros x. by apply IH.
Qed.

Lemma along_weaken {A} G (R' R : list Exchange -> A -> Prop) (p : Prog A) : forall h,
  along G R h p -> (forall h' a, R h' a -> R' h' a) -> along G R' h p.
Proof. induction p as [a|X c f IH]; intros h Hp Hk; cbn in *; [by apply Hk|]. destruct Hp as [Hg Hp]. split; [done|]. intros x. by apply IH. Qed.

(** *** Results only *)

Definition any_call (h : list Exchange) (X : Type) (c : Q X) : Prop := True.
Notation yields := (along any_call).

Lemma yields_do {A X} R h (c : Q X) (k : X -> Prog A) : (forall x, yields R (Ev c x :: h) (k x)) -> yields R h (Do c k).
Proof. by split. Qed.

(** What was said stays said. *)
Lemma yields_bind {A B} (R : list Exchange -> A -> Prop) (R' : list Exchange -> B -> Prop) (p : Prog A) (k : A -> Prog B) : forall h,
  yields R h p -> (forall h' a, h ⊆ h' -> R h' a -> yields R' h' (k a)) -> yields R' h (pbind p k).
Proof.
  induction p as [a|X c f IH]; intros h Hp Hk; cbn in *; [by apply Hk|]. split; [done|]. intros x. apply IH; [apply Hp|].
  intros h' a Hi. apply Hk. set_solver.
Qed.

Lemma yields_skip {A B} (R : list Exchange -> B -> Prop) (p : Prog A) (k : A -> Prog B) h :
  (forall h' a, h ⊆ h' -> yields R h' (k a)) -> yields R h (pbind p k).
Proof.
  intros Hk. apply (yields_bind (fun _ _ => True)); [|auto]. clear Hk. revert h. induction p as [a|X c f IH]; intros h; cbn; [done|]. by split.
Qed.

Lemma yields_any {A} (R : list Exchange -> A -> Prop) (p : Prog A) : forall h, (forall h' a, h ⊆ h' -> R h' a) -> yields R h p.
Proof. induction p as [a|X c f IH]; intros h H; cbn; [by apply H|]. split; [done|]. intros x. apply IH. intros h' a Hi. apply H. set_solver. Qed.

Lemma yields_both {A} (R R' : list Exchange -> A -> Prop) (p : Prog A) : forall h,
  yields R h p -> yields R' h p -> yields (fun h a => R h a /\ R' h a) h p.
Proof. induction p as [a|X c f IH]; intros h H H'; cbn in *; [done|]. split; [done|]. intros x. apply IH; [apply H|apply H']. Qed.
End Programs.

Arguments Prog : clear implicits.
Arguments Exchange : clear implicits.
Arguments Ret {Q A}.
Arguments Do {Q A X}.
Notation yields := (along any_call).
Notation "x <- c ;; k" := (Do c (fun x => k)) (at level 100, c at next level, right associativity).
Notation "x <== p ;; k" := (pbind p (fun x => k)) (at level 100, p at next level, right associativity).

(** ** Histories *)

Lemma existsb_rev {A} (f : A -> bool) l : existsb f (rev l) = existsb f l.
Proof. induction l as [|x l IH]; [done|]. cbn. rewrite existsb_app, IH. cbn. by rewrite orb_false_r, orb_comm. Qed.
Lemma elem_of_rev {A} (x : A) l : x ∈ rev l <-> x ∈ l.
Proof. rewrite !list_elem_of_In. symmetry. apply in_rev. Qed.

Lemma no_event {Q} (f : Exchange Q -> bool) tr :
  (forall tr1 e tr2, tr = tr1 ++ e :: tr2 -> f e = true -> False) -> existsb f tr = false.
Proof.
  intros H. apply existsb_false. intros e (tr1 & tr2 & ->)%list_elem_of_split. destruct (f e) eqn:E; [|done]. by destruct (H tr1 e tr2).
Qed.

(** What is of a kind that has not occurred before occurs later. *)
Lemma later_event {Q} (f : Exchange Q -> bool) e x before after :
  existsb f before = false -> x ∈ before ++ e :: after -> f x = true -> f e = false -> x ∈ after.
Proof.
  intros Hb Hin Hx He. apply elem_of_app in Hin as [Hin|Hin]; [rewrite existsb_false in Hb; specialize (Hb _ Hin); congruence|].
  apply elem_of_cons in Hin as [->|Hin]; [congruence|done].
Qed.
