(* ===== verification/SourceFinder.v ===== *)
(** Finding a bin (shingo-core/dispatch/binsource/source.go, loader_source.go,
    source_finder.go, source_finder_want.go, source_finder_types.go): the ranker of
    a loader's pool, the carrier type a need wants, and the cascade of tiers that
    answers a need with a bin, a wait, a dig or a terminal failure.

    The finder reads the store through an interface, FinderDB, and asks a resolver.
    Their methods are the calls of a program here ([Prog]); the store may answer
    differently every time it is asked, and any answer may be an error. *)

From S2P Require Import Prelude Prog Status Sql CoreDb Mouth Yard OrderStore Lifecycle QueueReason.

(** ** The ranker *)

Module BinSource.

Inductive Intent := Drain | Fill.
Record Want := mkWant { w_payload : string; w_intent : Intent }.

Record Cand := mkCand {
  c_id : Z; c_payload : string; c_uop : Z; c_cap : Z; c_loaded : option Z; c_created : Z;
  c_claimed : bool; c_locked : bool; c_confirmed : bool; c_status : string }.

Definition effectiveTime (c : Cand) : Z := default (c_created c) (c_loaded c).
Definition isEmpty (c : Cand) : bool := c_payload c =s "".
Definition isFullOf (c : Cand) (x : string) : bool := (c_payload c =s x) && (c_cap c <=? c_uop c)%Z.
Definition isPartialOf (c : Cand) (x : string) : bool :=
  (c_payload c =s x) && (0 <? c_uop c)%Z && (c_uop c <? c_cap c)%Z.

Definition BlocksPickup (status : string) : bool := negb ((status =s "available") || (status =s "staged")).

Definition RejectReason (c : Cand) (w : Want) : string :=
  if c_claimed c then "claimed"
  else if c_locked c then "locked"
  else if BlocksPickup (c_status c) then "status:" +:+ c_status c
  else match w_intent w with
  | Drain =>
      if c_payload c =s "" then "empty-bin"
      else if negb (c_payload c =s w_payload w) then "payload:" +:+ c_payload c
      else if (c_uop c <=? 0)%Z then "uop<=0"
      else if isFullOf c (w_payload w) && negb (c_confirmed c) then "unconfirmed-full"
      else ""
  | Fill =>
      if isPartialOf c (w_payload w) || isEmpty c then ""
      else if c_payload c =s w_payload w then "full-not-a-container"
      else "payload:" +:+ c_payload c
  end.

Definition eligible (c : Cand) (w : Want) : bool := RejectReason c w =s "".

Definition loaded_before (a b : Cand) : bool :=
  if effectiveTime a =i effectiveTime b then (c_id a <? c_id b)%Z else (effectiveTime a <? effectiveTime b)%Z.

Definition less (a b : Cand) (w : Want) : bool :=
  match w_intent w with
  | Fill =>
      if negb (Bool.eqb (isEmpty a) (isEmpty b)) then isEmpty b
      else if isEmpty a then (c_id a <? c_id b)%Z
      else loaded_before a b
  | Drain => loaded_before a b
  end.

Fixpoint source_loop (cands : list Cand) (w : Want) (best : option Cand) : option Cand :=
  match cands with
  | [] => best
  | c :: rest =>
      if negb (eligible c w) then source_loop rest w best
      else source_loop rest w
        (match best with Some b => if less c b w then Some c else Some b | None => Some c end)
  end.

Definition Source (cands : list Cand) (want : Want) : option Cand := source_loop cands want None.
End BinSource.
Import BinSource.

(** ** What the finder reads *)

Record FNode := mkFNode {
  fn_id : Z; fn_name : string; fn_synthetic : bool; fn_class : string; fn_zone : string; fn_parent : option Z }.

Record FBin := mkFBin {
  fb_id : Z; fb_payload : string; fb_uop : Z; fb_cap : Z; fb_loaded : option Z; fb_created : Z; fb_claimed : option Z;
  fb_pending : bool; fb_locked : bool; fb_confirmed : bool; fb_status : string; fb_type : string; fb_node : option Z }.

Record Home := mkHome { hm_loader : Z; hm_position : Z; hm_payload : string; hm_kind : string }.
Record Loader := mkLoader { ld_role : string; ld_layout : string }.
Record Quota := mkQuota { qt_type : string; qt_want : Z }.
Record EmptyFence := mkFence { ef_process : string; ef_origin : string }.

Definition InSourcePool (h : Home) : bool := (hm_kind h =s "buffer") || negb (hm_payload h =s "").

(** sql.ErrNoRows, or anything else. *)
Inductive FinderErr := FeNoRows | FeFailed.
Inductive ResolveErr := RvBuried (bin : FBin) (slot : FNode) (lane : Z) | RvStructural | RvOther.

(** The store's methods, and NodeResolver.Resolve in retrieve mode. *)
Inductive FinderDB : Type -> Type :=
| GetNodeByDotName (name : string) : FinderDB (outcome FinderErr (option FNode))
| GetNode (id : Z) : FinderDB (outcome FinderErr FNode)
| ListBinsByNode (node : Z) : FinderDB (outcome FinderErr (list FBin))
| ListBinsByNodes (nodes : list Z) : FinderDB (outcome FinderErr (list FBin))
| FindSourceBinFIFO (payload : string) (exclude : Z) : FinderDB (outcome FinderErr (option FBin))
| FindEmptyCompatibleBin (payload zone : string) (exclude : Z) (fence : EmptyFence) (asker : DigAsker) : FinderDB (outcome FinderErr (option FBin))
| FindEmptyCompatibleBinInGroup (payload : string) (group exclude : Z) (asker : DigAsker) : FinderDB (outcome FinderErr (option FBin))
| FindEmptyBinOfType (type zone : string) (exclude : Z) (fence : EmptyFence) (asker : DigAsker) : FinderDB (outcome FinderErr (option FBin))
| FindEmptyBinOfTypeInGroup (type : string) (group exclude : Z) (asker : DigAsker) : FinderDB (outcome FinderErr (option FBin))
| MaintainedEpisodeForOrigin (origin : string) : FinderDB (outcome FinderErr (string * string))
| GroupFencesAsker (group : Z) (process : string) : FinderDB (outcome FinderErr bool)
| GetEffectiveBinTypes (node : Z) : FinderDB (outcome FinderErr (list string))
| IsSlotAccessible (node : Z) : FinderDB (outcome FinderErr bool)
| GetLoaderHomeByPositionNode (node : Z) : FinderDB (outcome FinderErr (option Home))
| GetLoader (loader : Z) : FinderDB (outcome FinderErr (option Loader))
| ListLoaderHomes (loader : Z) : FinderDB (outcome FinderErr (list Home))
| ListLoaderQuotas (loader : Z) : FinderDB (outcome FinderErr (list Quota))
| ListLoaderHomeBinTypes (loader : Z) : FinderDB (outcome FinderErr (list (Z * list string)))
| Resolve (group : FNode) (payload : string) (asker : DigAsker) : FinderDB (outcome ResolveErr (option FBin)).

(** ** The need and the answer *)

Inductive NeedIntent := IntentFull | IntentEmpty.
Definition is_empty_intent (i : NeedIntent) : bool := match i with IntentEmpty => true | IntentFull => false end.

Record SourceNeed := mkNeed {
  nd_source : string; nd_payload : string; nd_delivery : string; nd_intent : NeedIntent; nd_local : bool;
  nd_asker : DigAsker; nd_origin : string; nd_process : string }.

Inductive Outcome :=
| OutcomeFound (bin : FBin) (node : FNode)
| OutcomeWait (code cause : string) (params : QueueParams)
| OutcomeReshuffle (bin : FBin) (slot : FNode) (lane : Z)
| OutcomeStructural (termCode : string).

Definition source_params (kind payload group : string) (reserved : bool) : QueueParams :=
  mkParams payload kind false "" "" 0 0 "" group 0 0 0 false false reserved false.

Definition codeStructural : string := "structural".
Definition codeNode : string := "node_error".
Definition codeInvalidNode : string := "invalid_node".
Definition CauseReadFailed : string := "read-failed".
Definition CauseLoaderSourceUnreadable : string := "loader-source-unreadable".
Definition CauseFinderNodeEmpty : string := "finder-node-empty".
Definition CauseFinderGroupEmpty : string := "finder-group-empty".
Definition CauseFinderPoolEmpty : string := "finder-pool-empty".
Definition CauseFinderPlantEmpty : string := "finder-plant-empty".
Definition CauseFinderNoFullCarrier : string := "finder-no-full-carrier".
Definition CauseFinderAccessibilityUnreadable : string := "finder-accessibility-unreadable".
Definition CauseFinderGroupFenced : string := "finder-group-fenced".
Definition CauseFinderSourceUnreadable : string := "finder-source-unreadable".
Definition CauseFinderNoEmptyOfType : string := "finder-no-empty-of-type".

Definition no_material (cause kind payload group : string) : Outcome :=
  OutcomeWait QueueWaitingForMaterial cause (source_params kind payload group false).

Definition unreadableSource (kind payload where_ : string) : Outcome :=
  no_material CauseFinderSourceUnreadable kind payload where_.

Definition nodeLocalKind (i : NeedIntent) : string := if is_empty_intent i then "empty" else "".

Definition candFromBin (b : FBin) : Cand :=
  mkCand (fb_id b) (fb_payload b) (fb_uop b) (fb_cap b) (fb_loaded b) (fb_created b)
    (match fb_claimed b with Some _ => true | None => false end) (fb_locked b) (fb_confirmed b) (fb_status b).

Definition isFullCarrier (b : FBin) : bool := (0 <? fb_cap b)%Z && (fb_cap b <=? fb_uop b)%Z.

Definition emptyBinsOnly (l : list FBin) : list FBin := List.filter (fun b => fb_payload b =s "") l.

(** BinUnavailableReason(b, payload) = "" *)
Definition bin_available (b : FBin) (payload : string) : bool :=
  match fb_claimed b with
  | Some _ => false
  | None =>
      negb (fb_pending b) && negb (fb_locked b) && negb (BlocksPickup (fb_status b))
      && negb (negb (payload =s "") && negb (fb_payload b =s "") && negb (fb_payload b =s payload))
  end.

(** ** The quota a window is furthest from *)

Definition resident_count (resident : list FBin) (code : string) : Z :=
  Z.of_nat (length (List.filter (fun b => fb_type b =s code) resident)).

Definition fits (allowed : list string) (code : string) : bool :=
  (length allowed =? 0)%nat || existsb (fun a => a =s code) allowed.

(** The best so far: its code, gap and want; the empty code is none. *)
Definition take_quota (resident : list FBin) (allowed : list string) (best : string * Z * Z) (q : Quota) : string * Z * Z :=
  let '(code, bestGap, bestWant) := best in
  let gap := (qt_want q - resident_count resident (qt_type q))%Z in
  if (gap <=? 0)%Z || (qt_want q <=? 0)%Z || negb (fits allowed (qt_type q)) then best
  else if (code =s "") || (bestGap * qt_want q <? gap * bestWant)%Z
       || ((gap * bestWant =? bestGap * qt_want q)%Z && String.ltb (qt_type q) code)
  then (qt_type q, gap, qt_want q) else best.

Definition scarcest (resident : list FBin) (allowed : list string) (quotas : list Quota) : string :=
  (fold_left (take_quota resident allowed) quotas ("", 0%Z, 0%Z)).1.1.

(** ** Asking the store *)

Section Finder.
Notation Ask := (Prog FinderDB).
Notation answer := Ret.

(** A row that was read; a failed read and a missing row are alike. *)
Definition row_or_none {E A} (r : outcome E (option A)) : option A := match r with Ok x => x | Err _ => None end.

Definition sourceSearchFailed {A} (r : outcome FinderErr A) : bool := match r with Err FeFailed => true | _ => false end.
Definition readFailed {A} (r : outcome FinderErr A) : bool := match r with Err FeFailed => true | _ => false end.

Definition requiresFullCarrier (need : SourceNeed) : Ask bool :=
  if is_empty_intent (nd_intent need) || (nd_delivery need =s "") then answer false
  else
    d <- GetNodeByDotName (nd_delivery need) ;;
    match row_or_none d with
    | None => answer false
    | Some dest =>
        h <- GetLoaderHomeByPositionNode (fn_id dest) ;;
        match row_or_none h with
        | None => answer false
        | Some home =>
            l <- GetLoader (hm_loader home) ;;
            answer (match row_or_none l with Some l => ld_role l =s "consume" | None => false end)
        end
    end.

Definition typeFromDestinationPosition (need : SourceNeed) : Ask string :=
  if nd_process need =s "" then answer ""
  else
    n <- GetNodeByDotName (nd_process need) ;;
    match row_or_none n with
    | None => answer ""
    | Some node =>
        t <- GetEffectiveBinTypes (fn_id node) ;;
        answer (match t with Ok [code] => code | _ => "" end)
    end.

Definition allowed_at (caps : list (Z * list string)) (node : Z) : list string :=
  match List.find (fun e => e.1 =i node) caps with Some e => e.2 | None => [] end.

Definition typeFromQuotas (dest : FNode) (home : Home) : Ask string :=
  qs <- ListLoaderQuotas (hm_loader home) ;;
  match qs with
  | Err _ | Ok [] => answer ""
  | Ok quotas =>
      hs <- ListLoaderHomes (hm_loader home) ;;
      match hs with
      | Err _ => answer ""
      | Ok homes =>
          bs <- ListBinsByNodes (map hm_position homes) ;;
          match bs with
          | Err _ => answer ""
          | Ok resident =>
              cs <- ListLoaderHomeBinTypes (hm_loader home) ;;
              answer (match cs with
                      | Err _ => ""
                      | Ok caps => scarcest resident (allowed_at caps (fn_id dest)) quotas
                      end)
          end
      end
  end.

Definition typeFromDelivery (need : SourceNeed) : Ask string :=
  if nd_delivery need =s "" then typeFromDestinationPosition need
  else
    d <- GetNodeByDotName (nd_delivery need) ;;
    match row_or_none d with
    | None => typeFromDestinationPosition need
    | Some dest =>
        h <- GetLoaderHomeByPositionNode (fn_id dest) ;;
        match row_or_none h with
        | None => typeFromDestinationPosition need
        | Some home => typeFromQuotas dest home
        end
    end.

Definition wantedBinType (need : SourceNeed) : Ask string :=
  if negb (is_empty_intent (nd_intent need)) then answer ""
  else if nd_origin need =s "" then typeFromDelivery need
  else
    e <- MaintainedEpisodeForOrigin (nd_origin need) ;;
    match e with
    | Ok (_, code) => if code =s "" then typeFromDelivery need else answer code
    | Err _ => typeFromDelivery need
    end.

Definition emptyFenceFor (need : SourceNeed) : Ask EmptyFence :=
  if nd_origin need =s "" then answer (mkFence (nd_process need) "")
  else
    e <- MaintainedEpisodeForOrigin (nd_origin need) ;;
    answer (mkFence (nd_process need) (match e with Ok (group, _) => group | Err _ => "" end)).

(** ** The loader tier *)

Definition chosen_bin (l : list FBin) (id : Z) : option FBin := List.find (fun b => fb_id b =i id) (rev l).

(** Not a loader's position; the pool is dry; a bin of the pool and its node. *)
Inductive PoolAnswer := NotAPosition | PoolDry | PoolBin (bin : FBin) (node : FNode).

Definition source_pool (home : Home) (payload : string) (intent : BinSource.Intent) : Ask (option PoolAnswer) :=
  ms <- ListLoaderHomes (hm_loader home) ;;
  match ms with
  | Err _ => answer None
  | Ok members =>
      bs <- ListBinsByNodes (map hm_position (List.filter InSourcePool members)) ;;
      match bs with
      | Err _ => answer None
      | Ok slotBins =>
          match Source (map candFromBin slotBins) (mkWant payload intent) with
          | None => answer (Some PoolDry)
          | Some best =>
              match chosen_bin slotBins (c_id best) with
              | None => answer None
              | Some chosen =>
                  match fb_node chosen with
                  | None => answer None
                  | Some n =>
                      r <- GetNode n ;;
                      answer (match r with Ok node => Some (PoolBin chosen node) | Err _ => None end)
                  end
              end
          end
      end
  end.

(** [None]: something could not be read. *)
Definition sourceFromDedicatedLoader (source payload : string) (intent : BinSource.Intent) : Ask (option PoolAnswer) :=
  n <- GetNodeByDotName source ;;
  match n with
  | Err _ => answer None
  | Ok None => answer (Some NotAPosition)
  | Ok (Some srcNode) =>
      h <- GetLoaderHomeByPositionNode (fn_id srcNode) ;;
      match h with
      | Err _ => answer None
      | Ok None => answer (Some NotAPosition)
      | Ok (Some home) =>
          l <- GetLoader (hm_loader home) ;;
          match l with
          | Err _ => answer None
          | Ok None => answer (Some NotAPosition)
          | Ok (Some loader) =>
              if negb (ld_layout loader =s "dedicated_positions") then answer (Some NotAPosition)
              else source_pool home payload intent
          end
      end
  end.

(** ** The cascade *)

(** A tier answers the need, or hands on what it found and, if it knows it, where
    it stands. *)
Definition Step : Type := Outcome + option (FBin * option FNode).

Definition is_class (n : FNode) (k : string) : bool := fn_synthetic n && (fn_class n =s k).

(** Tier 1: a synthetic group, for a full bin. *)
Definition tier_group (resolver : bool) (need : SourceNeed) (src : option FNode) : Ask Step :=
  match nd_intent need, src, resolver with
  | IntentFull, Some n, true =>
      if negb (is_class n NodeClassNGRP) then answer (inr None)
      else
        x <- Resolve n (nd_payload need) (nd_asker need) ;;
        answer (match x with
          | Ok (Some bin) => inr (Some (bin, None))
          | Err (RvBuried bin slot lane) => inl (OutcomeReshuffle bin slot lane)
          | Err RvStructural => inl (OutcomeStructural codeStructural)
          | Ok None | Err RvOther => inl (no_material CauseFinderGroupEmpty "" (nd_payload need) (nd_source need))
          end)
  | _, _, _ => answer (inr None)
  end.

(** Tier 2: a dedicated loader's pool. *)
Definition tier_loader (need : SourceNeed) : Ask Step :=
  if negb (nd_source need =s "") && (is_empty_intent (nd_intent need) || negb (nd_payload need =s "")) then
    p <== sourceFromDedicatedLoader (nd_source need) (nd_payload need) (if is_empty_intent (nd_intent need) then Fill else Drain) ;;
    answer (match p with
      | None => inl (no_material CauseLoaderSourceUnreadable "" (nd_payload need) (nd_source need))
      | Some PoolDry => inl (no_material CauseFinderPoolEmpty "" (nd_payload need) (nd_source need))
      | Some (PoolBin bin node) => inr (Some (bin, Some node))
      | Some NotAPosition => inr None
      end)
  else answer (inr None).

(** Tier 3: an empty of a synthetic group or lane. *)
Definition tier_empty (need : SourceNeed) (src : option FNode) (wantType : string) (exclude : Z) : Ask Step :=
  match nd_intent need, src with
  | IntentEmpty, Some n =>
      if negb (is_class n NodeClassNGRP || is_class n NodeClassLANE) then answer (inr None)
      else
        f <- GroupFencesAsker (fn_id n) (nd_process need) ;;
        match f with
        | Err _ => answer (inl (unreadableSource "empty" (nd_payload need) (nd_source need)))
        | Ok true =>
            answer (inl (OutcomeWait QueueWaitingForMaterial CauseFinderGroupFenced
              (source_params "empty" (nd_payload need) (nd_source need) true)))
        | Ok false =>
            b <- (if wantType =s "" then FindEmptyCompatibleBinInGroup (nd_payload need) (fn_id n) exclude (nd_asker need)
                  else FindEmptyBinOfTypeInGroup wantType (fn_id n) exclude (nd_asker need)) ;;
            answer (if sourceSearchFailed b then inl (unreadableSource "empty" (nd_payload need) (nd_source need))
              else match row_or_none b with
              | Some bin => inr (Some (bin, None))
              | None => inl (no_material (if wantType =s "" then CauseFinderGroupEmpty else CauseFinderNoEmptyOfType) "empty"
                              (nd_payload need) (nd_source need))
              end)
        end
  | _, _ => answer (inr None)
  end.

(** Tier 4: the bins of the named node itself. *)
Definition tier_node (need : SourceNeed) (src : option FNode) : Ask Step :=
  match nd_local need, src with
  | true, Some n =>
      bs <- ListBinsByNode (fn_id n) ;;
      answer (match bs with
        | Err _ => inl (unreadableSource (nodeLocalKind (nd_intent need)) (nd_payload need) (nd_source need))
        | Ok candidates =>
            let '(cs, payload) := if is_empty_intent (nd_intent need) then (emptyBinsOnly candidates, "") else (candidates, nd_payload need) in
            match List.find (fun b => bin_available b payload) cs with
            | Some bin => inr (Some (bin, Some n))
            | None => inl (no_material CauseFinderNodeEmpty (nodeLocalKind (nd_intent need)) (nd_payload need) (nd_source need))
            end
        end)
  | _, _ => answer (inr None)
  end.

(** Tier 5: the whole plant, never for a node-local need. *)
Definition tier_plant (need : SourceNeed) (wantType zone : string) (exclude : Z) : Ask Step :=
  if nd_local need then answer (inr None)
  else match nd_intent need with
  | IntentFull =>
      b <- FindSourceBinFIFO (nd_payload need) exclude ;;
      answer (if sourceSearchFailed b then inl (unreadableSource "" (nd_payload need) "")
        else match row_or_none b with
        | Some bin => inr (Some (bin, None))
        | None => inl (no_material CauseFinderPlantEmpty "" (nd_payload need) "")
        end)
  | IntentEmpty =>
      fence <== emptyFenceFor need ;;
      b <- (if wantType =s "" then FindEmptyCompatibleBin (nd_payload need) zone exclude fence (nd_asker need)
            else FindEmptyBinOfType wantType zone exclude fence (nd_asker need)) ;;
      answer (if sourceSearchFailed b then inl (unreadableSource "empty" (nd_payload need) "")
        else match row_or_none b with
        | Some bin => inr (Some (bin, None))
        | None => inl (no_material (if wantType =s "" then CauseFinderPlantEmpty else CauseFinderNoEmptyOfType) "empty" (nd_payload need) "")
        end)
  end.

(** The next tier, unless an earlier one has answered or found. *)
Definition unless_found (st : Step) (next : Ask Step) : Ask Step := match st with inr None => next | _ => answer st end.

(** An empty that is walled in asks for a dig. *)
Definition buried_check (need : SourceNeed) (bin : FBin) (node : FNode) : Ask Outcome :=
  let unreadable := OutcomeWait QueueStorageRearranging CauseFinderAccessibilityUnreadable
    (source_params "empty" (nd_payload need) "" false) in
  match nd_intent need, fb_node bin with
  | IntentEmpty, Some at_ =>
      a <- IsSlotAccessible at_ ;;
      match a with
      | Err _ => answer unreadable
      | Ok true => answer (OutcomeFound bin node)
      | Ok false =>
          sl <- GetNode at_ ;;
          match sl with
          | Err _ => answer unreadable
          | Ok slot =>
              match fn_parent slot with
              | None => answer (OutcomeFound bin node)
              | Some p =>
                  ln <- GetNode p ;;
                  answer (match ln with
                    | Err _ => unreadable
                    | Ok lane => if fn_class lane =s NodeClassLANE then OutcomeReshuffle bin slot (fn_id lane) else OutcomeFound bin node
                    end)
              end
          end
      end
  | _, _ => answer (OutcomeFound bin node)
  end.

(** Where the bin stands, if the tier did not say. *)
Definition locate (need : SourceNeed) (bin : FBin) (node : option FNode) : Ask Outcome :=
  match node with
  | Some n => buried_check need bin n
  | None =>
      match fb_node bin with
      | None => answer (OutcomeStructural codeNode)
      | Some at_ =>
          r <- GetNode at_ ;;
          match r with
          | Ok n => buried_check need bin n
          | Err FeFailed => answer (no_material CauseReadFailed "" (nd_payload need) "")
          | Err FeNoRows => answer (OutcomeStructural codeInvalidNode)
          end
      end
  end.

(** The last part: a drain window wants a full carrier. *)
Definition settle (need : SourceNeed) (st : Step) : Ask Outcome :=
  match st with
  | inl o => answer o
  | inr None => answer (no_material CauseFinderPlantEmpty (nodeLocalKind (nd_intent need)) (nd_payload need) "")
  | inr (Some (bin, node)) =>
      full <== requiresFullCarrier need ;;
      if full && negb (isFullCarrier bin) then answer (no_material CauseFinderNoFullCarrier "" (nd_payload need) "")
      else locate need bin node
  end.

(** The id and zone to keep clear of. *)
Definition destination (need : SourceNeed) : Ask (Z * string) :=
  if nd_delivery need =s "" then answer (0%Z, "")
  else
    d <- GetNodeByDotName (nd_delivery need) ;;
    answer (match row_or_none d with Some dest => (fn_id dest, fn_zone dest) | None => (0%Z, "") end).

Definition source_node (need : SourceNeed) : Ask (option FNode) :=
  if nd_source need =s "" then answer None
  else n <- GetNodeByDotName (nd_source need) ;; answer (row_or_none n).

(** The tiers after the group's resolver. *)
Definition tiers_below (need : SourceNeed) (src : option FNode) (dest : Z * string) (st : Step) : Ask Step :=
  st <== unless_found st (tier_loader need) ;;
  match st with
  | inl _ => answer st
  | inr _ =>
      wantType <== wantedBinType need ;;
      st <== unless_found st (tier_empty need src wantType dest.1) ;;
      st <== unless_found st (tier_node need src) ;;
      unless_found st (tier_plant need wantType dest.2 dest.1)
  end.

Definition FindSourceForNeed (resolver : bool) (need : SourceNeed) : Ask Outcome :=
  dest <== destination need ;;
  src <== source_node need ;;
  st <== tier_group resolver need src ;;
  match st with
  | inl o => answer o
  | inr _ => st <== tiers_below need src dest st ;; settle need st
  end.

(** What the finder reads of an order. *)
Record SourcingOrder := mkSourcing {
  so_id : Z; so_parent : option Z; so_source : string; so_payload : string; so_delivery : string;
  so_source_intent : string; so_origin : string; so_process : string }.

Definition SourceIntentLocal : string := "local".

Definition FindSource (resolver : bool) (o : SourcingOrder) (intent : NeedIntent) : Ask Outcome :=
  FindSourceForNeed resolver (mkNeed (so_source o) (so_payload o) (so_delivery o) intent (so_source_intent o =s SourceIntentLocal)
    (AskerFor (so_id o) (default (so_id o) (so_parent o))) (so_origin o) (so_process o)).
End Finder.

(** ** The best of the pool *)

Section Ranking.
Context (w : Want).

(** Empties after everything else when filling, and not by age. *)
Definition rank (c : Cand) : Z * Z * Z :=
  match w_intent w with
  | Fill => if isEmpty c then (1, 0, c_id c)%Z else (0%Z, effectiveTime c, c_id c)
  | Drain => (0%Z, effectiveTime c, c_id c)
  end.

Definition lex (x y : Z * Z * Z) : Prop :=
  (x.1.1 < y.1.1)%Z \/ x.1.1 = y.1.1 /\ ((x.1.2 < y.1.2)%Z \/ x.1.2 = y.1.2 /\ (x.2 < y.2)%Z).

Lemma loaded_before_spec a b : loaded_before a b = true <-> lex (0%Z, effectiveTime a, c_id a) (0%Z, effectiveTime b, c_id b).
Proof.
  unfold loaded_before, lex. cbn. destruct (Z.eqb_spec (effectiveTime a) (effectiveTime b)); rewrite Z.ltb_lt; lia.
Qed.

Lemma less_spec a b : less a b w = true <-> lex (rank a) (rank b).
Proof.
  unfold less, rank. destruct (w_intent w); [apply loaded_before_spec|].
  destruct (isEmpty a), (isEmpty b); cbn; [|unfold lex; cbn; rewrite ?Z.ltb_lt; split; (done || lia)..|apply loaded_before_spec].
  unfold lex. cbn. rewrite Z.ltb_lt. lia.
Qed.

Lemma rank_id a b : rank a = rank b -> c_id a = c_id b.
Proof. unfold rank. destruct (w_intent w); [|destruct (isEmpty a), (isEmpty b)]; congruence. Qed.

Lemma lex_total x y : x = y \/ lex x y \/ lex y x.
Proof.
  destruct x as [[a b] c], y as [[a' b'] c']. unfold lex. cbn.
  destruct (Z.eq_dec a a'), (Z.eq_dec b b'), (Z.eq_dec c c'); subst; try (by left); right; lia.
Qed.
Lemma lex_trans x y z : lex x y -> lex y z -> lex x z.
Proof. unfold lex. lia. Qed.
Lemma lex_irrefl x : ~ lex x x.
Proof. unfold lex. lia. Qed.

(** [b] comes before all the others. *)
Definition ranks_first (cands : list Cand) (b : Cand) : Prop :=
  b ∈ cands /\ eligible b w = true
  /\ forall c, c ∈ cands -> eligible c w = true -> c_id c <> c_id b -> lex (rank b) (rank c).

Definition no_worse (b c : Cand) : Prop := rank b = rank c \/ lex (rank b) (rank c).

Lemma source_loop_spec cands : forall best,
  match source_loop cands w best with
  | None => best = None /\ forall c, c ∈ cands -> eligible c w = false
  | Some b => (best = Some b \/ b ∈ cands /\ eligible b w = true)
              /\ (forall b0, best = Some b0 -> no_worse b b0)
              /\ forall c, c ∈ cands -> eligible c w = true -> no_worse b c
  end.
Proof.
  unfold no_worse. induction cands as [|x cands IH]; intros best; cbn.
  { destruct best as [b|]; [|split; [done|by intros ? ?%elem_of_nil]].
    split_and!; [by left|intros b0 [= ->]; by left|by intros ? ?%elem_of_nil]. }
  assert (Hin : forall b, b ∈ cands /\ eligible b w = true -> b ∈ x :: cands /\ eligible b w = true) by (intros b [? ?]; split; [by right|done]).
  assert (Hx : x ∈ x :: cands) by left.
  destruct (eligible x w) eqn:Ex; cbn.
  - specialize (IH (match best with Some b => if less x b w then Some x else Some b | None => Some x end)).
    destruct (source_loop cands w _) as [b|]; [|destruct IH as [IH _]; by repeat case_match].
    destruct IH as (H1 & H2 & H3). destruct best as [b0|].
    + destruct (less x b0 w) eqn:El.
      * apply less_spec in El. assert (Hb : rank b = rank x \/ lex (rank b) (rank x)) by by apply H2.
        split_and!; [destruct H1 as [[= <-]|?]; auto| |intros c [->|Hc]%elem_of_cons Hec; auto].
        intros ? [= <-]. right. destruct Hb as [->|Hb]; [done|by eapply lex_trans].
      * assert (Hle : rank b0 = rank x \/ lex (rank b0) (rank x)).
        { destruct (lex_total (rank b0) (rank x)) as [?|[?|Hlt]]; auto. apply less_spec in Hlt. congruence. }
        split_and!; [destruct H1; auto|auto|]. intros c [->|Hc]%elem_of_cons Hec; [|auto].
        destruct (H2 b0 eq_refl) as [->|E]; [done|]. right. destruct Hle as [<-|Hle]; [done|by eapply lex_trans].
    + split_and!; [destruct H1 as [[= <-]|?]; auto|done|]. intros c [->|Hc]%elem_of_cons Hec; auto.
  - specialize (IH best). destruct (source_loop cands w best) as [b|].
    + destruct IH as (H1 & H2 & H3). split_and!; [naive_solver|done|]. intros c [->|Hc]%elem_of_cons Hec; [congruence|auto].
    + destruct IH as [H1 H2]. split; [done|]. intros c [->|Hc]%elem_of_cons; auto.
Qed.

Lemma Source_first cands :
  match Source cands w with
  | Some b => ranks_first cands b
  | None => forall c, c ∈ cands -> eligible c w = false
  end.
Proof.
  unfold Source. pose proof (source_loop_spec cands None) as H. destruct (source_loop cands w None) as [b|]; [|by destruct H].
  destruct H as ([?|[Hin He]] & _ & H); [done|]. split_and!; [done|done|]. intros c Hc Hec Hne.
  destruct (H c Hc Hec) as [E|?]; [|done]. apply rank_id in E. congruence.
Qed.

Lemma first_unique cands a b : NoDup (map c_id cands) -> ranks_first cands a -> ranks_first cands b -> a = b.
Proof.
  intros Hn (Ha & Ea & Fa) (Hb & Eb & Fb). destruct (decide (c_id a = c_id b)) as [E|E]; [by apply (keys_inj c_id cands)|].
  exfalso. apply (lex_irrefl (rank a)). eapply lex_trans; [apply Fa|apply Fb]; auto.
Qed.
End Ranking.

(** The bin can serve the want. *)
Definition usable (c : Cand) (w : Want) : Prop :=
  c_claimed c = false /\ c_locked c = false /\ (c_status c = "available" \/ c_status c = "staged")
  /\ match w_intent w with
     | Drain => c_payload c <> "" /\ c_payload c = w_payload w /\ (0 < c_uop c)%Z /\ ((c_uop c < c_cap c)%Z \/ c_confirmed c = true)
     | Fill => c_payload c = "" \/ c_payload c = w_payload w /\ (0 < c_uop c < c_cap c)%Z
     end.

Lemma tagged_not_empty (t s : string) : t <> "" -> (t +:+ s =s "") = false.
Proof. intros Ht. apply String.eqb_neq. by destruct t. Qed.

Lemma eligible_usable c w : eligible c w = true <-> usable c w.
Proof.
  unfold eligible, usable, RejectReason, BlocksPickup, isFullOf, isPartialOf, isEmpty.
  destruct (c_claimed c); [naive_solver|]. destruct (c_locked c); [naive_solver|].
  destruct (String.eqb_spec (c_status c) "available") as [Ea|Ea], (String.eqb_spec (c_status c) "staged") as [Es|Es]; cbn [orb negb];
    [congruence| | |rewrite tagged_not_empty by done; naive_solver].
  all: destruct (w_intent w); destruct (String.eqb_spec (c_payload c) "") as [Ee|Ee], (String.eqb_spec (c_payload c) (w_payload w)) as [Ep|Ep];
    cbn [andb orb negb]; rewrite ?tagged_not_empty by done.
  all: try (split; [done|]; intros; naive_solver).
  all: try (split; [intros _|done]; naive_solver).
  all: destruct (Z.leb_spec (c_uop c) 0), (Z.leb_spec (c_cap c) (c_uop c)), (Z.ltb_spec 0 (c_uop c)), (Z.ltb_spec (c_uop c) (c_cap c)), (c_confirmed c);
    cbn [andb orb negb]; rewrite ?tagged_not_empty by done; try lia; (split; [intros ?|intros (_ & _ & _ & ?)]); try done; naive_solver lia.
Qed.

Definition first_in_line (a b : Cand) : Prop :=
  (effectiveTime a < effectiveTime b)%Z \/ effectiveTime a = effectiveTime b /\ (c_id a < c_id b)%Z.

(** C37.  The pool of a loader is served in one order whatever order its bins are
    listed in.  A bin is usable when it is unclaimed, unlocked and in a status that may
    be picked up, and, to drain, holds the wanted payload with something in it and a
    full one is confirmed, or, to fill, is empty or a part-full bin of the payload.  The
    selector picks a usable bin whenever there is one and nothing otherwise; draining it
    picks the longest loaded; filling it picks the longest loaded part-full bin before
    any empty, and among empties the one with the lowest number. *)
Theorem pool_source_exact cands w :
  match Source cands w with
  | None => forall c, c ∈ cands -> ~ usable c w
  | Some b =>
      b ∈ cands /\ usable b w
      /\ forall c, c ∈ cands -> usable c w -> c_id c <> c_id b ->
         match w_intent w with
         | Drain => first_in_line b c
         | Fill => (c_payload b <> "" /\ (c_payload c = "" \/ first_in_line b c))
                   \/ (c_payload b = "" /\ c_payload c = "" /\ (c_id b < c_id c)%Z)
         end
  end
  /\ forall cands', NoDup (map c_id cands) -> cands ≡ₚ cands' -> Source cands' w = Source cands w.
Proof.
  split.
  - pose proof (Source_first w cands) as H. destruct (Source cands w) as [b|].
    + destruct H as (Hb & Eb & H). split_and!; [done|by apply eligible_usable|]. intros c Hc Hu%eligible_usable Hne.
      specialize (H c Hc Hu Hne). unfold rank, isEmpty, lex, first_in_line in *. destruct (w_intent w); cbn in H; [lia|].
      destruct (String.eqb_spec (c_payload b) ""), (String.eqb_spec (c_payload c) ""); cbn in H; try lia; auto;
        [right; split_and!; [done|done|lia]|left; split; [done|right; lia]].
    + intros c Hc Hu%eligible_usable. by rewrite (H c Hc) in Hu.
  - intros cands' Hn HP. pose proof (Source_first w cands) as H. pose proof (Source_first w cands') as H'.
    destruct (Source cands w) as [b|], (Source cands' w) as [b'|]; [| | |done].
    + f_equal. apply (first_unique w cands); [done| |done]. unfold ranks_first in *. by setoid_rewrite HP.
    + destruct H as (Hb & Eb & _). rewrite HP in Hb. by rewrite H' in Eb.
    + destruct H' as (Hb & Eb & _). rewrite <- HP in Hb. by rewrite H in Eb.
Qed.

(** ** The type a window lacks most *)

Section Scarcest.
Context (resident : list FBin) (allowed : list string).

Definition gap_of (q : Quota) : Z := (qt_want q - resident_count resident (qt_type q))%Z.
Definition lacking (q : Quota) : Prop := (0 < gap_of q)%Z /\ (0 < qt_want q)%Z /\ fits allowed (qt_type q) = true.

(** [q] lacks the larger share of what it should have. *)
Definition lacks_more (q q' : Quota) : Prop := (gap_of q' * qt_want q <= gap_of q * qt_want q')%Z.

Definition best_of (seen : list Quota) (best : string * Z * Z) : Prop :=
  if best.1.1 =s "" then forall q, q ∈ seen -> ~ lacking q
  else exists q, q ∈ seen /\ lacking q /\ best = (qt_type q, gap_of q, qt_want q)
    /\ forall q', q' ∈ seen -> lacking q' -> lacks_more q q'.

Lemma take_quota_best seen best q :
  qt_type q <> "" -> best_of seen best -> best_of (q :: seen) (take_quota resident allowed best q).
Proof.
  intros Ht Hb. destruct best as [[code g] w]. unfold take_quota. fold (gap_of q).
  destruct ((gap_of q <=? 0)%Z || (qt_want q <=? 0)%Z || negb (fits allowed (qt_type q))) eqn:El.
  - assert (Hno : ~ lacking q).
    { intros (H1 & H2 & H3). rewrite H3 in El. cbn in El. rewrite !orb_true_iff, !Z.leb_le in El. intuition (lia || done). }
    unfold best_of in *. cbn in *. destruct (code =s "").
    + intros q' [->|H]%elem_of_cons; auto.
    + destruct Hb as (b & Hin & Hl & E & H). exists b. split_and!; [by right|done|done|].
      intros q' [->|Hq]%elem_of_cons Hq'; [done|auto].
  - rewrite !orb_false_iff, !Z.leb_gt, negb_false_iff in El. assert (Hl : lacking q) by (unfold lacking; tauto).
    unfold best_of in Hb. cbn in Hb. destruct (String.eqb_spec code "") as [->|Hc]; cbn [orb].
    + unfold best_of. cbn. apply String.eqb_neq in Ht as ->. exists q. split_and!; [by left|done|done|].
      intros q' [->|Hq]%elem_of_cons Hq'; [unfold lacks_more; lia|by destruct (Hb q')].
    + destruct Hb as (b & Hin & Hlb & [= -> -> ->] & H).
      destruct (_ || _) eqn:Et; unfold best_of; cbn.
      * apply String.eqb_neq in Ht as ->. exists q. split_and!; [by left|done|done|].
        assert (Hqb : lacks_more q b).
        { unfold lacks_more. rewrite orb_true_iff, andb_true_iff, Z.ltb_lt, Z.eqb_eq in Et. lia. }
        intros q' [->|Hq]%elem_of_cons Hq'; [unfold lacks_more; lia|]. specialize (H q' Hq Hq').
        unfold lacks_more, lacking in *. destruct Hq' as (? & ? & _), Hlb as (? & ? & _), Hl as (? & ? & _). nia.
      * apply String.eqb_neq in Hc as ->. exists b. split_and!; [by right|done|done|].
        intros q' [->|Hq]%elem_of_cons Hq'; [|auto]. rewrite orb_false_iff, Z.ltb_ge in Et. unfold lacks_more. lia.
Qed.

(** The type asked for is one the window is short of and may hold, and none is
    shorter in proportion; nothing is asked for only when nothing is short. *)
Theorem scarcest_first quotas :
  (forall q, q ∈ quotas -> qt_type q <> "") ->
  let code := scarcest resident allowed quotas in
  if code =s "" then forall q, q ∈ quotas -> ~ lacking q
  else exists q, q ∈ quotas /\ qt_type q = code /\ lacking q /\ forall q', q' ∈ quotas -> lacking q' -> lacks_more q q'.
Proof.
  intros Ht. cbn zeta. unfold scarcest.
  assert (H : forall qs seen best, (forall q, q ∈ qs -> qt_type q <> "") -> best_of seen best ->
    best_of (rev qs ++ seen) (fold_left (take_quota resident allowed) qs best)).
  { induction qs as [|q qs IH]; intros seen best Hq Hb; [done|]. cbn. rewrite <- app_assoc. cbn.
    apply IH; [intros q' Hq'; apply Hq; by right|]. apply take_quota_best; [apply Hq; left|done]. }
  specialize (H quotas [] ("", 0%Z, 0%Z) Ht ltac:(by intros ? ?%elem_of_nil)). rewrite app_nil_r in H.
  assert (Hr : forall q, q ∈ rev quotas <-> q ∈ quotas) by (intros q; by rewrite !list_elem_of_In, <- in_rev).
  unfold best_of in H. destruct (fold_left _ _ _) as [[code g] w]. cbn in *. destruct (code =s "").
  - intros q Hq. by apply H, Hr.
  - destruct H as (q & Hq & Hl & [= -> -> ->] & Hm). exists q. split_and!; [by apply Hr|done|done|].
    intros q' Hq'. by apply Hm, Hr.
Qed.
End Scarcest.

(** ** What the finder answers *)

Section Answers.
Context (resolver : bool) (need : SourceNeed).
Notation History := (list (Exchange FinderDB)).

(** The run read this node under the source's name. *)
Definition source_read (h : History) (n : FNode) : Prop :=
  nd_source need <> "" /\ Ev (GetNodeByDotName (nd_source need)) (Ok (Some n)) ∈ h.

(** The id and zone to keep clear of, from what the run read of the delivery. *)
Definition kept_clear (h : History) (d : Z * string) : Prop :=
  if nd_delivery need =s "" then d = (0%Z, "")
  else exists r, Ev (GetNodeByDotName (nd_delivery need)) r ∈ h
       /\ d = match row_or_none r with Some n => (fn_id n, fn_zone n) | None => (0%Z, "") end.

(** Where a bin may come from. *)
Inductive Tier := TGroup | TPool | TEmptyGroup | TNode | TPlant.

Definition pool_intent : BinSource.Intent := if is_empty_intent (nd_intent need) then Fill else Drain.

Inductive offered (h : History) : Tier -> FBin -> Prop :=
| of_group n bin : nd_intent need = IntentFull -> source_read h n -> is_class n NodeClassNGRP = true ->
    Ev (Resolve n (nd_payload need) (nd_asker need)) (Ok (Some bin)) ∈ h -> offered h TGroup bin
| of_pool n home loader members bins bin best : source_read h n ->
    Ev (GetLoaderHomeByPositionNode (fn_id n)) (Ok (Some home)) ∈ h ->
    Ev (GetLoader (hm_loader home)) (Ok (Some loader)) ∈ h -> ld_layout loader = "dedicated_positions" ->
    Ev (ListLoaderHomes (hm_loader home)) (Ok members) ∈ h ->
    Ev (ListBinsByNodes (map hm_position (List.filter InSourcePool members))) (Ok bins) ∈ h -> bin ∈ bins ->
    Source (map candFromBin bins) (mkWant (nd_payload need) pool_intent) = Some best -> c_id best = fb_id bin ->
    offered h TPool bin
| of_empty n bin want dest : nd_intent need = IntentEmpty -> source_read h n ->
    is_class n NodeClassNGRP || is_class n NodeClassLANE = true ->
    Ev (GroupFencesAsker (fn_id n) (nd_process need)) (Ok false) ∈ h -> kept_clear h dest ->
    Ev (if want =s "" then FindEmptyCompatibleBinInGroup (nd_payload need) (fn_id n) dest.1 (nd_asker need)
        else FindEmptyBinOfTypeInGroup want (fn_id n) dest.1 (nd_asker need)) (Ok (Some bin)) ∈ h -> offered h TEmptyGroup bin
| of_node n bins bin : nd_local need = true -> source_read h n -> Ev (ListBinsByNode (fn_id n)) (Ok bins) ∈ h -> bin ∈ bins ->
    (if is_empty_intent (nd_intent need) then fb_payload bin = "" /\ bin_available bin "" = true
     else bin_available bin (nd_payload need) = true) -> offered h TNode bin
| of_plant bin dest : nd_local need = false -> nd_intent need = IntentFull -> kept_clear h dest ->
    Ev (FindSourceBinFIFO (nd_payload need) dest.1) (Ok (Some bin)) ∈ h -> offered h TPlant bin
| of_plant_empty bin want dest fence : nd_local need = false -> nd_intent need = IntentEmpty -> kept_clear h dest ->
    Ev (if want =s "" then FindEmptyCompatibleBin (nd_payload need) dest.2 dest.1 fence (nd_asker need)
        else FindEmptyBinOfType want dest.2 dest.1 fence (nd_asker need)) (Ok (Some bin)) ∈ h -> offered h TPlant bin.

(** The node named with the bin: the named source itself, or the node read for the
    place the bin's row gives. *)
Definition stands (h : History) (t : Tier) (bin : FBin) (node : FNode) : Prop :=
  match t with
  | TNode => source_read h node
  | _ => exists at_, fb_node bin = Some at_ /\ Ev (GetNode at_) (Ok node) ∈ h
  end.

(** The named source is a group the need may not leave: every time this run read
    the name it was told so. *)
Definition confined (h : History) : Prop :=
  nd_source need <> "" /\ (nd_intent need = IntentFull -> resolver = true)
  /\ forall r, Ev (GetNodeByDotName (nd_source need)) r ∈ h -> exists n, r = Ok (Some n)
       /\ (is_class n NodeClassNGRP = true \/ nd_intent need = IntentEmpty /\ is_class n NodeClassLANE = true).

Definition in_scope (h : History) (t : Tier) : Prop := t = TPlant -> ~ confined h.

(** Fail only when told: the resolver of the named group said so, the bin stands
    nowhere, or its node does not exist. *)
Definition told_terminal (h : History) (code : string) : Prop :=
  (code = codeStructural /\ exists n, source_read h n /\ Ev (Resolve n (nd_payload need) (nd_asker need)) (Err RvStructural) ∈ h)
  \/ (code = codeNode /\ exists t bin, offered h t bin /\ fb_node bin = None)
  \/ (code = codeInvalidNode /\ exists t bin at_, offered h t bin /\ fb_node bin = Some at_ /\ Ev (GetNode at_) (Err FeNoRows) ∈ h).

(** The empty can be fetched, or stands where no dig can help. *)
Definition fetchable (h : History) (bin : FBin) : Prop :=
  nd_intent need = IntentEmpty -> forall at_, fb_node bin = Some at_ ->
    Ev (IsSlotAccessible at_) (Ok true) ∈ h
    \/ exists slot, Ev (IsSlotAccessible at_) (Ok false) ∈ h /\ Ev (GetNode at_) (Ok slot) ∈ h
       /\ (fn_parent slot = None \/ exists p lane, fn_parent slot = Some p /\ Ev (GetNode p) (Ok lane) ∈ h /\ fn_class lane <> NodeClassLANE).

(** A dig is asked for only when the bin is walled in: the resolver of the named
    group said so, or the empty's slot is closed and lies in this lane. *)
Definition told_buried (h : History) (bin : FBin) (slot : FNode) (lane : Z) : Prop :=
  (nd_intent need = IntentFull /\ exists n, source_read h n /\
    Ev (Resolve n (nd_payload need) (nd_asker need)) (Err (RvBuried bin slot lane)) ∈ h)
  \/ (nd_intent need = IntentEmpty /\ exists t at_ p l, in_scope h t /\ offered h t bin /\ fb_node bin = Some at_ /\
      Ev (IsSlotAccessible at_) (Ok false) ∈ h /\ Ev (GetNode at_) (Ok slot) ∈ h /\ fn_parent slot = Some p /\
      Ev (GetNode p) (Ok l) ∈ h /\ fn_class l = NodeClassLANE /\ lane = fn_id l).

Definition good (h : History) (o : Outcome) : Prop :=
  match o with
  | OutcomeFound bin node => (exists t, in_scope h t /\ offered h t bin /\ stands h t bin node) /\ fetchable h bin
  | OutcomeStructural code => told_terminal h code
  | OutcomeWait code _ _ => code = QueueWaitingForMaterial \/ code = QueueStorageRearranging
  | OutcomeReshuffle bin slot lane => told_buried h bin slot lane
  end.

Definition good_step (h : History) (st : Step) : Prop :=
  match st with
  | inl o => good h o
  | inr None => True
  | inr (Some (bin, node)) => exists t, in_scope h t /\ offered h t bin /\ match node with Some n => stands h t bin n | None => t <> TNode end
  end.

(** *** What was read stays read *)

Lemma source_mono h h' n : h ⊆ h' -> source_read h n -> source_read h' n.
Proof. intros Hi [? ?]. split; auto. Qed.
Lemma clear_mono h h' d : h ⊆ h' -> kept_clear h d -> kept_clear h' d.
Proof. intros Hi. unfold kept_clear. destruct (_ =s _); [done|]. intros (r & ? & ?). eauto. Qed.
Lemma offered_mono h h' t bin : h ⊆ h' -> offered h t bin -> offered h' t bin.
Proof. 
  intros Hi H. destruct H; [eapply of_group|eapply of_pool|eapply of_empty|eapply of_node|eapply of_plant|eapply of_plant_empty];
    first [eassumption | by eapply source_mono | by eapply clear_mono | by apply Hi].
Qed.
Lemma stands_mono h h' t bin node : h ⊆ h' -> stands h t bin node -> stands h' t bin node.
Proof. intros Hi. destruct t; cbn; try (intros (at_ & ? & ?); eauto). by apply source_mono. Qed.
Lemma confined_anti h h' : h ⊆ h' -> confined h' -> confined h.
Proof. intros Hi (H1 & H2 & H3). split_and!; auto. Qed.
Lemma scope_mono h h' t : h ⊆ h' -> in_scope h t -> in_scope h' t.
Proof. intros Hi Hs Ht Hc. apply (Hs Ht). by eapply confined_anti. Qed.
#[local] Hint Resolve source_mono clear_mono offered_mono stands_mono scope_mono : core.
Lemma heard_mono (h h' : History) e : h ⊆ h' -> e ∈ h -> e ∈ h'.
Proof. auto. Qed.
#[local] Hint Resolve heard_mono : core.

Lemma good_mono h h' o : h ⊆ h' -> good h o -> good h' o.
Proof.
  intros Hi. destruct o as [bin node|code cause p|bin slot lane|code]; cbn; [| done| |].
  - intros [(t & ? & ? & ?) Hf]. split; [exists t; split_and!; eauto|]. intros Hint at_ Hat.
    destruct (Hf Hint at_ Hat) as [?|(slot & ? & ? & [?|(p & lane & ? & ? & ?)])]; [left; eauto|right; exists slot; split_and!; eauto|].
    right. exists slot. split_and!; eauto. right. exists p, lane. split_and!; eauto.
  - intros [(? & n & ? & ?)|(? & t & at_ & p & l & ? & ? & ? & ? & ? & ? & ? & ? & ?)]; [left|right]; (split; [done|]).
    + exists n. split; eauto.
    + exists t, at_, p, l. split_and!; eauto.
  - intros [(? & n & ? & ?)|[(? & t & bin & ? & ?)|(? & t & bin & at_ & ? & ? & ?)]].
    + left. split; [done|]. exists n. split; eauto.
    + right; left. split; [done|]. exists t, bin. split; eauto.
    + right; right. split; [done|]. exists t, bin, at_. split_and!; eauto.
Qed.

Lemma good_step_mono h h' st : h ⊆ h' -> good_step h st -> good_step h' st.
Proof.
  intros Hi. destruct st as [o|[[bin [n|]]|]]; cbn; [by apply good_mono| | |done].
  - intros (t & ? & ? & ?). exists t. split_and!; eauto.
  - intros (t & ? & ? & ?). exists t. split_and!; eauto.
Qed.

(** *** Tier by tier *)

Lemma good_unread h a b c d : good h (no_material a b c d).
Proof. by left. Qed.
Hint Resolve good_unread : core.

(** The tiers other than the plant are always in scope. *)
Lemma scoped h t : t <> TPlant -> in_scope h t.
Proof. by intros H ?. Qed.

(** One read. *)
Ltac one_read x := apply yields_do; intros x.
Ltac heard := first [left | right; heard].

(** What the source's name was read as. *)
Definition src_known (h : History) (src : option FNode) : Prop := forall n, src = Some n -> source_read h n.
Definition group_found (src : option FNode) : Prop :=
  exists n, src = Some n /\ (is_class n NodeClassNGRP = true \/ nd_intent need = IntentEmpty /\ is_class n NodeClassLANE = true).

Lemma src_known_mono h h' src : h ⊆ h' -> src_known h src -> src_known h' src.
Proof. intros Hi Hs n Hn. eapply source_mono; [done|auto]. Qed.

Lemma destination_reads h : yields (fun h' d => kept_clear h' d) h (destination need).
Proof.
  unfold destination, kept_clear. destruct (nd_delivery need =s ""); [done|]. one_read r. cbn. exists r. split; [left|done].
Qed.

Lemma source_reads h : yields (fun h' src => src_known h' src /\ (confined h' -> group_found src)) h (source_node need).
Proof.
  unfold source_node. destruct (String.eqb_spec (nd_source need) "") as [E|E]; cbn; [split; [done|by intros [? _]]|].
  split; [done|]. intros r. split.
  - intros n Hn. split; [done|]. destruct r as [[n'|]|e]; cbn in Hn; try done. injection Hn as ->. left.
  - intros (_ & _ & H). destruct (H r) as (n & -> & Hn); [left|]. by exists n.
Qed.

Definition decided (st : Step) : Prop := st <> inr None.

Lemma group_good h src : src_known h src ->
  yields (fun h' st => good_step h' st /\ ((confined h -> group_found src) -> confined h -> nd_intent need = IntentFull -> decided st)) h (tier_group resolver need src).
Proof.
  intros Hsrc. unfold tier_group. destruct (nd_intent need) eqn:Ei; [|by cbn].
  destruct src as [n|]; [|cbn; split; [done|]; intros Hg Hc _; by destruct (Hg Hc) as (n & ? & _)].
  destruct resolver eqn:Er; [|cbn; split; [done|]; intros _ (_ & H & _) _; specialize (H Ei); congruence].
  destruct (is_class n NodeClassNGRP) eqn:En; cbn [negb].
  2: { cbn. split; [done|]. intros Hg Hc _. destruct (Hg Hc) as (n' & [= <-] & [Hn|[Hn _]]); congruence. }
  one_read x. cbn. split; [|intros _ _ _; by destruct x as [[bin|]|[]]].
  assert (Hs : source_read (Ev (Resolve n (nd_payload need) (nd_asker need)) x :: h) n) by (eapply source_mono; [|by apply Hsrc]; set_solver).
  destruct x as [[bin|]|[bin slot lane| |]]; cbn; auto.
  - exists TGroup. split_and!; [by apply scoped| |done]. eapply (of_group _ n); [done|done|done|left].
  - left. split; [done|]. exists n. split; [done|left].
  - left. split; [done|]. exists n. split; [done|left].
Qed.

Lemma chosen_bin_in l id b : chosen_bin l id = Some b -> b ∈ l /\ fb_id b = id.
Proof.
  intros H. apply List.find_some in H as [H E%Z.eqb_eq]. split; [|done]. apply list_elem_of_In. by apply in_rev.
Qed.

Lemma pool_good h : yields good_step h (tier_loader need).
Proof.
  unfold tier_loader. destruct (nd_source need =s "") eqn:Es; [done|]. destruct (_ && _); [|done]. apply String.eqb_neq in Es.
  apply (yields_bind (fun h' p => match p with Some (PoolBin bin n) => offered h' TPool bin /\ stands h' TPool bin n | _ => True end)).
  - unfold sourceFromDedicatedLoader, source_pool. one_read r1. destruct r1 as [[n|]|e]; try done. one_read r2. destruct r2 as [[home|]|e]; try done.
    one_read r3. destruct r3 as [[l|]|e]; try done. destruct (String.eqb_spec (ld_layout l) "dedicated_positions") as [El|]; cbn [negb]; [|done].
    one_read r4. destruct r4 as [ms|e]; [|done]. one_read r5. destruct r5 as [bs|e]; [|done].
    destruct (Source _ _) as [best|] eqn:Eb; [|done]. destruct (chosen_bin bs (c_id best)) as [chosen|] eqn:Ec; [|done].
    destruct (fb_node chosen) as [at_|] eqn:En; [|done]. one_read r6. destruct r6 as [n'|e]; cbn; [|done].
    apply chosen_bin_in in Ec as [Hin Hid]. split; [|exists at_; split; [done|left]].
    eapply (of_pool _ n home l ms bs chosen best); try done; [split; [done|]|..]; heard.
  - intros h' [[| |bin n]|] Hi Hp; cbn; auto. exists TPool. destruct Hp as [H1 H2]. split_and!; [by apply scoped|done|done].
Qed.

Lemma empty_good h src want dest : src_known h src -> kept_clear h dest ->
  yields (fun h' st => good_step h' st /\ ((confined h -> group_found src) -> confined h -> nd_intent need = IntentEmpty -> decided st))
    h (tier_empty need src want dest.1).
Proof.
  intros Hsrc Hd. unfold tier_empty. destruct (nd_intent need) eqn:Ei; [cbn; split; [done|]; intros; congruence|].
  destruct src as [n|]; [|cbn; split; [done|]; intros Hg Hc _; by destruct (Hg Hc) as (n & ? & _)].
  destruct (is_class n NodeClassNGRP || is_class n NodeClassLANE) eqn:En; cbn [negb].
  2: { cbn. split; [done|]. intros Hg Hc _. destruct (Hg Hc) as (n' & [= <-] & Hn). apply orb_false_iff in En as [E1 E2].
       destruct Hn as [Hn|[_ Hn]]; congruence. }
  one_read f. destruct f as [[]|e]; [cbn; split; [by left|done]| |cbn; split; [by left|done]].
  one_read b. cbn. split; [|intros _ _ _; by destruct b as [[bin|]|[]]]. destruct b as [[bin|]|[]]; cbn; auto.
  exists TEmptyGroup. split_and!; [by apply scoped| |done].
  eapply (of_empty _ n bin want dest); [done|eapply source_mono; [|by apply Hsrc]; set_solver|done|right; left|eapply clear_mono; [|done]; set_solver|left].
Qed.

Lemma node_good h src : src_known h src -> yields good_step h (tier_node need src).
Proof.
  intros Hsrc. unfold tier_node. destruct (nd_local need) eqn:El; [|done]. destruct src as [n|]; [|done].
  one_read r. destruct r as [bs|e]; cbn; auto.
  assert (Hs : source_read (Ev (ListBinsByNode (fn_id n)) (Ok bs) :: h) n) by (eapply source_mono; [|by apply Hsrc]; set_solver).
  destruct (if is_empty_intent (nd_intent need) then _ else _) as [cs payload] eqn:Ec.
  destruct (List.find _ cs) as [bin|] eqn:Ef; cbn; auto. apply List.find_some in Ef as [Hin Ha].
  exists TNode. split_and!; [by apply scoped| |done]. apply (of_node _ n bs); [done|done|left| |]; destruct (is_empty_intent (nd_intent need)); injection Ec as <- <-.
  - unfold emptyBinsOnly in Hin. apply list_elem_of_In in Hin. by apply elem_of_lfilter in Hin as [? _].
  - by apply list_elem_of_In.
  - apply list_elem_of_In, elem_of_lfilter in Hin as [_ ?%String.eqb_eq]. done.
  - done.
Qed.

Lemma plant_good h want dest : ~ confined h -> kept_clear h dest -> yields good_step h (tier_plant need want dest.2 dest.1).
Proof.
  intros Hsc Hd. unfold tier_plant. destruct (nd_local need) eqn:El; [done|].
  assert (Hplant : forall h' bin, h ⊆ h' -> offered h' TPlant bin -> good_step h' (inr (Some (bin, None)))).
  { intros h' bin Hi Ho. exists TPlant. split_and!; [|done|done]. eapply scope_mono; [exact Hi|]. by intros _. }
  destruct (nd_intent need) eqn:Ei.
  - one_read r. destruct r as [[bin|]|[]]; cbn -[good_step]; try by left. apply Hplant; [set_solver|].
    eapply of_plant; [done|done|eapply clear_mono; [|done]; set_solver|left].
  - apply yields_skip. intros h1 fence Hi. one_read r. destruct r as [[bin|]|[]]; cbn -[good_step]; try by left. apply Hplant; [set_solver|].
    eapply (of_plant_empty _ bin want dest fence); [done|done|eapply clear_mono; [|exact Hd]; set_solver|left].
Qed.

Lemma buried_good h t bin node : in_scope h t -> offered h t bin -> stands h t bin node -> yields good h (buried_check need bin node).
Proof.
  intros Hsc Ho Hst.
  assert (Hf : forall h', h ⊆ h' -> fetchable h' bin -> good h' (OutcomeFound bin node)).
  { intros h' Hi Hf. split; [|done]. exists t. split_and!; [by eapply scope_mono|by eapply offered_mono|by eapply stands_mono]. }
  unfold buried_check. destruct (nd_intent need) eqn:Ei; [apply (Hf h); [done|]; intros ?; congruence|].
  destruct (fb_node bin) as [at_|] eqn:En; [|apply (Hf h); [done|]; intros _ ? ?; congruence].
  one_read a. destruct a as [[]|e]; [| |cbn; by right].
  - apply Hf; [set_solver|]. intros _ ? Hat. rewrite En in Hat. injection Hat as <-. left; left.
  - one_read r. destruct r as [slot|e]; [|cbn; by right]. destruct (fn_parent slot) as [p|] eqn:Ep.
    + one_read l. destruct l as [lane|e]; [|cbn; by right]. cbn -[good].
      destruct (String.eqb_spec (fn_class lane) NodeClassLANE) as [Hl|Hne].
      * right. split; [done|]. exists t, at_, p, lane.
        split_and!; try done; [eapply scope_mono; [|exact Hsc]; set_solver|eapply offered_mono; [|exact Ho]; set_solver|heard..].
      * apply Hf; [set_solver|]. intros _ ? Hat. rewrite En in Hat. injection Hat as <-.
        right. exists slot. split_and!; [heard|heard|]. right. exists p, lane. split_and!; [done|heard|done].
    + apply Hf; [set_solver|]. intros _ ? Hat. rewrite En in Hat. injection Hat as <-. right. exists slot. split_and!; [heard|heard|by left].
Qed.

Lemma settle_good h st : good_step h st -> yields good h (settle need st).
Proof.
  intros Hs. unfold settle. destruct st as [o|[[bin node]|]]; [done| |cbn; auto].
  destruct Hs as (t & Hsc & Ho & Hn). apply yields_skip. intros h1 full Hi. destruct (full && _); [cbn; auto|].
  apply (scope_mono h h1) in Hsc; [|done]. apply (offered_mono h h1) in Ho; [|done].
  unfold locate. destruct node as [n|]; [eapply buried_good; [done|done|by eapply stands_mono]|].
  destruct (fb_node bin) as [at_|] eqn:En; [|cbn; right; left; split; [done|]; eauto].
  one_read r. set (h2 := Ev (GetNode at_) r :: h1). assert (Hi2 : h1 ⊆ h2) by (unfold h2; set_solver). destruct r as [n|[]]; [| |cbn; auto].
  - eapply buried_good; [by eapply scope_mono|by eapply offered_mono|]. destruct t; cbn; try done; exists at_; (split; [done|left]).
  - cbn. right; right. split; [done|]. exists t, bin, at_. split_and!; [by eapply offered_mono|done|left].
Qed.

(** *** The cascade *)

Lemma unless_decided h st (next : Prog FinderDB Step) (R : History -> Step -> Prop) :
  (decided st -> R h st) -> (st = inr None -> yields R h next) -> yields R h (unless_found st next).
Proof. intros H1 H2. destruct st as [o|[x|]]; [by apply H1..|by apply H2]. Qed.

Lemma below_good h src dest st :
  src_known h src -> kept_clear h dest -> (confined h -> group_found src) -> (confined h -> nd_intent need = IntentFull -> decided st) ->
  good_step h st -> yields good_step h (tiers_below need src dest st).
Proof.
  intros Hsrc Hd Hgr Hst Hg. unfold tiers_below.
  apply (yields_bind (fun h' st => good_step h' st /\ (confined h -> nd_intent need = IntentFull -> decided st))).
  { apply unless_decided; [done|]. intros ->. eapply along_weaken; [apply pool_good|]. intros h' st' Hg'. split; [done|].
    intros Hc Hi. by destruct (Hst Hc Hi). }
  clear st Hst Hg. intros h1 st Hi1 [Hg Hst]. destruct st as [o|x] eqn:Est; [done|]. rewrite <- Est in *. clear x Est.
  apply yields_skip. intros h2 want Hi2. assert (Hi : h ⊆ h2) by set_solver.
  apply (yields_bind (fun h' st => good_step h' st /\ (confined h2 -> decided st))).
  { apply unless_decided; [intros Hdec; split; [exact (good_step_mono h1 h2 st Hi2 Hg)|done]|]. intros ->.
    eapply along_weaken; [eapply (empty_good h2 src want dest); [by eapply src_known_mono|by eapply clear_mono]|].
    intros h' st' [Hg' Hd']. split; [done|]. intros Hc. assert (Hc0 : confined h) by by eapply confined_anti.
    destruct (nd_intent need) eqn:Ei; [by destruct (Hst Hc0 eq_refl)|auto]. }
  clear st Hst Hg. intros h3 st Hi3 [Hg Hst].
  apply (yields_bind (fun h' st => good_step h' st /\ (confined h2 -> decided st))).
  { apply unless_decided; [done|]. intros ->. eapply along_weaken; [apply node_good; eapply src_known_mono; [|exact Hsrc]; set_solver|].
    intros h' st' Hg'. split; [done|]. intros Hc. by destruct (Hst Hc). }
  clear st Hst Hg. intros h4 st Hi4 [Hg Hst]. apply unless_decided; [done|]. intros ->.
  apply plant_good; [|eapply clear_mono; [|exact Hd]; set_solver].
  intros Hc. apply (Hst); [|done]. eapply confined_anti; [|exact Hc]. set_solver.
Qed.

Lemma finder_good : yields good [] (FindSourceForNeed resolver need).
Proof.
  unfold FindSourceForNeed. eapply yields_bind; [apply destination_reads|]. intros h1 dest _ Hd.
  eapply yields_bind; [apply source_reads|]. intros h2 src Hi2 [Hsrc Hgr].
  eapply yields_bind; [by apply (group_good h2 src)|]. intros h3 st Hi3 [Hg Hst]. specialize (Hst Hgr).
  destruct st as [o|x] eqn:Est; [done|]. rewrite <- Est in *. clear x Est.
  eapply yields_bind; [apply below_good; [by eapply src_known_mono|eapply clear_mono; [|exact Hd]; set_solver|..|done]|].
  - intros Hc. apply Hgr. by eapply confined_anti.
  - intros Hc. apply Hst. by eapply confined_anti.
  - intros h4 st' _ Hg'. by apply settle_good.
Qed.

End Answers.

(** ** A drain window *)

Section Window.
Context (resolver : bool) (need : SourceNeed).
Notation History := (list (Exchange FinderDB)).

(** Only the last part of the cascade finds. *)
Definition not_yet (h : History) (st : Step) : Prop := match st with inl (OutcomeFound _ _) => False | _ => True end.

Ltac walk := repeat first [apply yields_do; intro | apply yields_skip; intros ? ? ? | progress case_match]; try done.

Lemma tier_group_waits src h : yields not_yet h (tier_group resolver need src).
Proof. unfold tier_group. walk; cbn; by repeat case_match. Qed.
Lemma tier_loader_waits h : yields not_yet h (tier_loader need).
Proof. unfold tier_loader. walk; cbn; by repeat case_match. Qed.
Lemma tier_empty_waits src want exclude h : yields not_yet h (tier_empty need src want exclude).
Proof. unfold tier_empty. walk; cbn; by repeat case_match. Qed.
Lemma tier_node_waits src h : yields not_yet h (tier_node need src).
Proof. unfold tier_node. walk; cbn; by repeat case_match. Qed.
Lemma tier_plant_waits want zone exclude h : yields not_yet h (tier_plant need want zone exclude).
Proof. unfold tier_plant. walk; cbn; by repeat case_match. Qed.

Lemma unless_waits h st next : not_yet h st -> yields not_yet h next -> yields not_yet h (unless_found st next).
Proof. intros Hs Hn. by destruct st as [o|[x|]]. Qed.

Lemma below_waits h src dest st : not_yet h st -> yields not_yet h (tiers_below need src dest st).
Proof.
  intros Hst. unfold tiers_below. eapply yields_bind; [apply unless_waits; [done|apply tier_loader_waits]|].
  clear st Hst. intros h1 st _ Hst. destruct st as [o|x] eqn:E; [done|]. rewrite <- E in *. clear E.
  apply yields_skip. intros h2 want _. eapply yields_bind; [apply unless_waits; [done|apply tier_empty_waits]|].
  intros h3 st1 _ H1. eapply yields_bind; [apply unless_waits; [done|apply tier_node_waits]|].
  intros h4 st2 _ H2. apply unless_waits; [done|apply tier_plant_waits].
Qed.

(** The run reads the destination as a window of an unloader. *)
Definition drain_window (h : History) : Prop :=
  nd_intent need = IntentFull /\ nd_delivery need <> ""
  /\ exists dest home loader,
     (forall r, Ev (GetNodeByDotName (nd_delivery need)) r ∈ h -> r = Ok (Some dest))
     /\ (forall r, Ev (GetLoaderHomeByPositionNode (fn_id dest)) r ∈ h -> r = Ok (Some home))
     /\ (forall r, Ev (GetLoader (hm_loader home)) r ∈ h -> r = Ok (Some loader)) /\ ld_role loader = "consume".

Lemma window_anti h h' : h ⊆ h' -> drain_window h' -> drain_window h.
Proof. intros Hi (? & ? & d & hm & l & ? & ? & ? & ?). split_and!; [done|done|]. exists d, hm, l. split_and!; auto. Qed.

Lemma window_read h : yields (fun h' b => drain_window h' -> b = true) h (requiresFullCarrier need).
Proof.
  unfold requiresFullCarrier. destruct (nd_intent need) eqn:Ei; cbn [is_empty_intent orb]; [|cbn; intros [? _]; congruence].
  destruct (String.eqb_spec (nd_delivery need) "") as [E|E]; [cbn; by intros (_ & ? & _)|].
  apply yields_do. intros r1.
  assert (H1 : forall h', Ev (GetNodeByDotName (nd_delivery need)) r1 ∈ h' -> drain_window h' ->
    exists dest, r1 = Ok (Some dest)) by (intros h' Hin (_ & _ & dest & _ & _ & H & _); eauto).
  destruct (row_or_none r1) as [dest|] eqn:E1.
  2: { cbn. intros Hw. destruct (H1 _ (list_elem_of_here _ _) Hw) as (dest & ->). done. }
  apply yields_do. intros r2. destruct (row_or_none r2) as [home|] eqn:E2.
  2: { cbn. intros (_ & _ & dest' & home & l & Hd & Hh & _). specialize (Hd r1 ltac:(right; left)). subst r1. injection E1 as <-.
       specialize (Hh r2 ltac:(left)). by subst r2. }
  apply yields_do. intros r3. cbn. intros (_ & _ & dest' & home' & l & Hd & Hh & Hl & Hr). specialize (Hd r1 ltac:(right; right; left)). subst r1.
  injection E1 as <-. specialize (Hh r2 ltac:(right; left)). subst r2. injection E2 as <-. specialize (Hl r3 ltac:(left)). subst r3. cbn.
  by rewrite Hr.
Qed.

(** While its window can be read, a drain window is only ever given a full
    carrier. *)
Theorem drain_window_gets_full tr bin node :
  drain_window tr -> runs (FindSourceForNeed resolver need) tr (OutcomeFound bin node) -> isFullCarrier bin = true.
Proof.
  set (P (h : History) o := drain_window h -> match o with OutcomeFound b _ => isFullCarrier b = true | _ => True end).
  enough (H : yields P [] (FindSourceForNeed resolver need)).
  { intros Hw Hr. destruct (along_runs _ _ _ _ _ _ H Hr) as [HP _]. apply HP. rewrite app_nil_r.
    eapply window_anti; [|exact Hw]. intros e. apply elem_of_rev. }
  assert (Hin : forall h o, not_yet h (inl o) -> P h o) by by intros h [].
  unfold FindSourceForNeed. apply yields_skip. intros h1 dest _. apply yields_skip. intros h2 src _.
  eapply yields_bind; [apply tier_group_waits|]. intros h3 st _ Hst. destruct st as [o|x] eqn:E; [by apply Hin|].
  rewrite <- E in *. clear x E. eapply yields_bind; [by apply below_waits|]. clear st Hst. intros h4 st _ Hst.
  destruct st as [o|[[b n]|]]; cbn [settle]; [by apply Hin| |done].
  eapply yields_bind; [apply window_read|]. intros h5 full _ Hfull. destruct (isFullCarrier b) eqn:Ef; cbn [negb]; rewrite ?andb_false_r, ?andb_true_r.
  - unfold locate, buried_check, P. walk; cbn; intros _; by repeat case_match.
  - destruct full; [done|]. apply yields_any. intros h' o Hi Hw. by specialize (Hfull (window_anti _ _ Hi Hw)).
Qed.
End Window.

(** ** A small store *)

(** A group G, a floor position and a window of an unloader; one bin in the plant.
    The list says which of the next name lookups fail. *)
Definition floor_bin (uop : Z) : FBin := mkFBin 10 "A" uop 40 (Some 3%Z) 1 None false false true "available" "T1" (Some 5%Z).

Definition small_nodes : list FNode :=
  [mkFNode 1 "G" true NodeClassNGRP "" None; mkFNode 5 "FLOOR" false "" "Z1" None; mkFNode 7 "WIN" false "" "Z1" None].

Definition name_lookup (name : string) (s : list bool) : outcome FinderErr (option FNode) * list bool :=
  match s with
  | true :: s' => (Err FeFailed, s')
  | s => (match List.find (fun n => fn_name n =s name) small_nodes with Some n => Ok (Some n) | None => Err FeNoRows end, tail s)
  end.

(** Group G has none of the payload. *)
Definition small_store (uop : Z) (X : Type) (c : FinderDB X) (s : list bool) : X * list bool :=
  match c in FinderDB X return X * list bool with
  | GetNodeByDotName name => name_lookup name s
  | GetNode id => (match List.find (fun n => fn_id n =i id) small_nodes with Some n => Ok n | None => Err FeNoRows end, s)
  | ListBinsByNode _ => (Ok [], s)
  | ListBinsByNodes _ => (Ok [], s)
  | FindSourceBinFIFO _ _ => (Ok (Some (floor_bin uop)), s)
  | FindEmptyCompatibleBin _ _ _ _ _ => (Ok None, s)
  | FindEmptyCompatibleBinInGroup _ _ _ _ => (Ok None, s)
  | FindEmptyBinOfType _ _ _ _ _ => (Ok None, s)
  | FindEmptyBinOfTypeInGroup _ _ _ _ => (Ok None, s)
  | MaintainedEpisodeForOrigin _ => (Ok ("", ""), s)
  | GroupFencesAsker _ _ => (Ok false, s)
  | GetEffectiveBinTypes _ => (Ok [], s)
  | IsSlotAccessible _ => (Ok true, s)
  | GetLoaderHomeByPositionNode n => (Ok (if n =i 7 then Some (mkHome 3 7 "A" "home") else None), s)
  | GetLoader _ => (Ok (Some (mkLoader "consume" "shared_window")), s)
  | ListLoaderHomes _ => (Ok [], s)
  | ListLoaderQuotas _ => (Ok [], s)
  | ListLoaderHomeBinTypes _ => (Ok [], s)
  | Resolve _ _ _ => (Err RvOther, s)
  end.

Definition find_program (source delivery : string) : Prog FinderDB Outcome :=
  FindSource true (mkSourcing 1 None source "A" delivery "" "" "") IntentFull.
Definition find_for (uop : Z) (source delivery : string) (lookups : list bool) : Outcome :=
  (serve (small_store uop) (find_program source delivery) lookups).2.


(** The order waits for its group; one failed lookup of the group and it is served
    from the floor of the plant. *)
Example failed_lookup_leaves_the_group :
  find_for 40 "G" "" [] = no_material CauseFinderGroupEmpty "" "A" "G"
  /\ find_for 40 "G" "" [true] = OutcomeFound (floor_bin 40) (mkFNode 5 "FLOOR" false "" "Z1" None).
Proof. by split. Qed.

(** A source that does not exist waits for a read that will never succeed. *)
Example missing_source_reads_as_unreadable :
  find_for 40 "GONE" "" [] = no_material CauseLoaderSourceUnreadable "" "A" "GONE".
Proof. done. Qed.

(** A window waits for a full carrier; one failed lookup of the window and it is
    sent a part-full one. *)
Example unread_window_takes_a_partial :
  find_for 10 "" "WIN" [] = no_material CauseFinderNoFullCarrier "" "A" ""
  /\ find_for 10 "" "WIN" [false; true] = OutcomeFound (floor_bin 10) (mkFNode 5 "FLOOR" false "" "Z1" None)
  /\ find_for 40 "" "WIN" [] = OutcomeFound (floor_bin 40) (mkFNode 5 "FLOOR" false "" "Z1" None).
Proof. by split_and!. Qed.

(** A part-full bin before the empties, and the older before the newer. *)
Example fill_takes_the_partial_first :
  let bin id payload uop loaded := mkCand id payload uop 40 loaded 1 false false true "available" in
  let pool := [bin 1%Z "" 0%Z None; bin 2%Z "A" 40%Z (Some 2%Z); bin 3%Z "A" 9%Z (Some 8%Z); bin 4%Z "A" 5%Z (Some 5%Z)] in
  c_id <$> Source pool (mkWant "A" Fill) = Some 4%Z /\ c_id <$> Source pool (mkWant "A" Drain) = Some 2%Z.
Proof. by split. Qed.

Lemma pool_source_exact_witness :
  let bin id loaded := mkCand id "A" 9 40 (Some loaded) 1 false false true "available" in
  let pool := [bin 1%Z 7%Z; bin 2%Z 3%Z] in
  Source pool (mkWant "A" Drain) = Some (bin 2%Z 3%Z) /\ Source (rev pool) (mkWant "A" Drain) = Source pool (mkWant "A" Drain)
  /\ first_in_line (bin 2%Z 3%Z) (bin 1%Z 7%Z).
Proof.
  intros bin pool. destruct (pool_source_exact pool (mkWant "A" Drain)) as [H HP].
  assert (E : Source pool (mkWant "A" Drain) = Some (bin 2%Z 3%Z)) by reflexivity. rewrite E in H. split_and!; [exact E| |].
  - apply HP; [|apply Permutation_rev]. cbn. repeat (apply NoDup_cons; split; [set_solver|]). apply NoDup_nil_2.
  - destruct H as (_ & _ & H). apply (H (bin 1%Z 7%Z)); [left|by apply eligible_usable|cbn; lia].
Defined.
