(* ===== verification/Scanner.v ===== *)
(** The fulfillment scanner (shingo-core/fulfillment/scanner.go): one pass over the
    orders that are still acquiring, each one carried as far as the fleet or parked
    with a reason.

    The scanner works through interfaces (fulfillment/store.go, dispatcher.go).  Its
    code is a program of calls on them here: every call is a [Call], the program
    goes on with the answer it gets, and nothing is assumed about answers.  The order
    is passed by pointer; what a call may change in it comes back with its answer. *)

From S2P Require Import Prelude Prog Status Sql CoreDb Reservations Mouth Yard OrderStore Lifecycle BinManifest QueueReason Admission LaneGate SourceFinder.

(** ** The order in hand *)

Record ScanOrder := mkScan {
  sc_id : Z; sc_parent : option Z; sc_coordinated : bool; sc_bin : option Z; sc_payload : string; sc_intent : string;
  sc_source : string; sc_station : string; sc_uuid : string; sc_remaining : option Z }.

(** What calls and the scanner itself change. *)
Record ScanMut := mkMut { sm_delivery : string; sm_reason : string; sm_code : string; sm_cause : string }.

Inductive ReserveErr := RsSynthetic | RsOther.
Inductive DispatchErr := DeSynthetic | DeOther.
Inductive MoveAnswer := MovedOk | MovedConcurrently | MoveFailed.
Inductive DigAnswer := DigPlanned | DigWait (cause : string) (params : QueueParams) | DigFailed.
Inductive Buried := mkBuried (bin : FBin) (slot : FNode) (lane : Z).
Inductive EdgeMessage := OrderAck (uuid : string) (id : Z) (source : string) | OrderWaybill (uuid waybill : string).

(** ** The calls *)

Inductive Call : Type -> Type :=
| ListAcquiringOrders : Call (option (list Z))
| GetOrder (id : Z) : Call (option (Status * ScanOrder * ScanMut))
| GetNodeByDotName (name : string) : Call (option FNode)
| CheckDropoffCapacity (delivery : string) (id : Z) : Call (option (string * QueueParams))
| FindSource (id : Z) (intent : NeedIntent) : Call Outcome
| DispatchPreparedComplex (id : Z) : Call (bool * ScanMut)
| PlanBuriedReshuffle (id : Z) (b : Buried) : Call (DigAnswer * ScanMut)
| BuriedForHeldBin (id : Z) : Call (option Buried)
| ReserveStorageDropoff (id : Z) : Call (outcome ReserveErr FNode * ScanMut)
| ReserveForDispatch (bin id : Z) : Call bool
| UpdateOrderBinID (id bin : Z) : Call bool
| UpdateOrderSourceNode (id : Z) (name : string) : Call bool
| AcquireLanesForOrder (id : Z) (src dst : FNode) (kind : EntryKind) : Call (option LaneEntry)
| ConfirmForDispatch (id bin : Z) (remaining : option Z) (src dst : FNode) : Call bool
| DispatchDirect (id : Z) (src dst : FNode) : Call (outcome DispatchErr string)
| ReleaseClaimByOrder (id : Z) : Call bool
| ReleaseLanesForOrder (id : Z) : Call bool
| MoveToSourcing (id : Z) (reason : string) : Call (MoveAnswer * ScanMut)
| SetOrderQueueDetail (id : Z) (reason code cause : string) : Call bool
| FailOrder (id : Z) (code : string) : Call unit
| SendToEdge (station : string) (m : EdgeMessage) : Call bool.

Definition CauseLaneAcquireError : string := "lane-acquire-error".
Definition CauseDestNodeUnresolved : string := "dest-node-unresolved".
Definition CauseStoreSlotContended : string := "slot-reserved".
Definition CauseBinLockRace : string := "lock-race".
Definition CauseClaimFailed : string := "claim-failed".
Definition CauseHeldBinMissing : string := "held-bin-missing".
Definition CauseNGRPResolve : string := "ngrp-resolve".
Definition CauseFleetRefusedCreate : string := "fleet-error".

Section Scanner.
(** failFn is wired. *)
Context (wired : bool).

Definition scanSetQueueReason (id : Z) (m : ScanMut) (code cause : string) (p : QueueParams) : Prog Call ScanMut :=
  let reason := FormatQueueSentence code p in
  if (sm_reason m =s reason) && (sm_code m =s code) && (sm_cause m =s cause) then Ret m
  else
    ok <- SetOrderQueueDetail id reason code cause ;;
    Ret (if ok : bool then mkMut (sm_delivery m) reason code cause else m).

Definition payload_param (payload : string) : QueueParams := source_params "" payload "" false.
Definition dest_param (dest : string) (unresolved : bool) : QueueParams :=
  mkParams "" "" false dest "" 0 0 "" "" 0 0 0 false unresolved false false.

Definition fail_order (id : Z) (code : string) : Prog Call unit := if wired then call (FailOrder id code) else Ret ().

(** Park with a reason and stay in sourcing; a failed transition is logged. *)
Definition parked (id : Z) (m : ScanMut) (code cause : string) (p : QueueParams) (why : string) : Prog Call ScanMut :=
  _ <== scanSetQueueReason id m code cause p ;; mv <- MoveToSourcing id why ;; Ret mv.2.
Definition park (id : Z) (m : ScanMut) (code cause : string) (p : QueueParams) (why : string) : Prog Call bool :=
  _ <== parked id m code cause p why ;; Ret false.

Definition notifyEdgeDispatched (o : ScanOrder) (src : FNode) (vendor : string) : Prog Call unit :=
  if sc_station o =s "" then Ret ()
  else
    _ <- SendToEdge (sc_station o) (OrderAck (sc_uuid o) (sc_id o) (fn_name src)) ;;
    _ <- SendToEdge (sc_station o) (OrderWaybill (sc_uuid o) vendor) ;; Ret ().

(** In, or parked for this cause. *)
Definition admitLanes (o : ScanOrder) (m : ScanMut) (src dst : FNode) (kind : EntryKind) : Prog Call (option string * ScanMut) :=
  r <- AcquireLanesForOrder (sc_id o) src dst kind ;;
  match r with
  | None =>
      m1 <== parked (sc_id o) m QueueWaitingForMaterial CauseLaneAcquireError (payload_param (sc_payload o)) "lane acquire error, retrying" ;;
      Ret (Some CauseLaneAcquireError, m1)
  | Some (EntryRefused cause lane) =>
      m1 <== parked (sc_id o) m QueueWaitingForSlot cause (dest_param lane false) "lane contended" ;; Ret (Some cause, m1)
  | Some EntryAdmitted => Ret (None, m)
  end.

(** The hand-over: confirm, create, and the rollback of a refused create. *)
Definition commit_bin (o : ScanOrder) (m : ScanMut) (bin : Z) (src dst : FNode) : Prog Call bool :=
  ok <- ConfirmForDispatch (sc_id o) bin (sc_remaining o) src dst ;;
  if negb ok then park (sc_id o) m QueueWaitingForMaterial CauseClaimFailed (payload_param (sc_payload o)) "confirm failed, retrying"
  else
    r <- DispatchDirect (sc_id o) src dst ;;
    match r with
    | Err e =>
        _ <- ReleaseClaimByOrder (sc_id o) ;;
        _ <- ReleaseLanesForOrder (sc_id o) ;;
        match e with
        | DeSynthetic => park (sc_id o) m QueueWaitingForSlot CauseNGRPResolve (dest_param (sm_delivery m) false) "fleet unavailable, retrying"
        | DeOther => park (sc_id o) m QueueFleetUnavailable CauseFleetRefusedCreate no_params "fleet unavailable, retrying"
        end
    | Ok vendor => _ <== notifyEdgeDispatched o src vendor ;; Ret true
    end.

(** Yield the tick when somebody else moved the order; any other failure of the
    transition is logged. *)
Definition unless_lost (a : MoveAnswer) (go : Prog Call bool) : Prog Call bool :=
  match a with MovedConcurrently => Ret false | MovedOk | MoveFailed => go end.

Definition reserve_cause (e : ReserveErr) : string :=
  match e with RsSynthetic => CauseNGRPResolve | RsOther => CauseStoreSlotContended end.

Definition digForBuriedHeldBin (o : ScanOrder) (m : ScanMut) : Prog Call bool :=
  b <- BuriedForHeldBin (sc_id o) ;;
  match b with
  | None => _ <== scanSetQueueReason (sc_id o) m QueueStorageRearranging CauseReadFailed (payload_param (sc_payload o)) ;; Ret false
  | Some b =>
      r <- PlanBuriedReshuffle (sc_id o) b ;;
      match r.1 with
      | DigWait cause _ => _ <== scanSetQueueReason (sc_id o) r.2 QueueStorageRearranging cause (payload_param (sc_payload o)) ;; Ret false
      | DigFailed => _ <== fail_order (sc_id o) "reshuffle_failed" ;; Ret false
      | DigPlanned => Ret false
      end
  end.

Definition dispatchHeldBin (o : ScanOrder) (m : ScanMut) : Prog Call bool :=
  match sc_bin o with
  | None => _ <== scanSetQueueReason (sc_id o) m QueueWaitingForMaterial CauseHeldBinMissing (payload_param (sc_payload o)) ;; Ret false
  | Some bin =>
      s <- GetNodeByDotName (sc_source o) ;;
      match s with
      | None => _ <== scanSetQueueReason (sc_id o) m QueueWaitingForMaterial CauseReadFailed (payload_param (sc_payload o)) ;; Ret false
      | Some src =>
          d <- GetNodeByDotName (sm_delivery m) ;;
          match d with
          | None =>
              _ <== scanSetQueueReason (sc_id o) m QueueWaitingForSlot CauseDestNodeUnresolved (dest_param (sm_delivery m) true) ;; Ret false
          | Some _ =>
              r <- ReserveStorageDropoff (sc_id o) ;;
              match r.1 with
              | Err e =>
                  _ <== scanSetQueueReason (sc_id o) r.2 QueueWaitingForSlot (reserve_cause e) (dest_param (sm_delivery r.2) false) ;; Ret false
              | Ok dst =>
                  mv <- MoveToSourcing (sc_id o) "dispatching held bin" ;;
                  unless_lost mv.1
                    (lanes <== admitLanes o mv.2 src dst EntryHeldBin ;;
                     match lanes with
                     | (Some cause, m1) => if cause =s CauseLaneTargetBuried then digForBuriedHeldBin o m1 else Ret false
                     | (None, m1) => commit_bin o m1 bin src dst
                     end)
              end
          end
      end
  end.

(** From the bin the finder named to the fleet. *)
Definition acquire_found (o : ScanOrder) (m : ScanMut) (bin : Z) (src : FNode) : Prog Call bool :=
  mv <- MoveToSourcing (sc_id o) "bin found, soft-holding" ;;
  unless_lost mv.1
    (d <- GetNodeByDotName (sm_delivery mv.2) ;;
     match d with
     | None =>
         park (sc_id o) mv.2 QueueWaitingForSlot CauseDestNodeUnresolved (dest_param (sm_delivery mv.2) true) "dest unresolved, retrying"
     | Some _ =>
         r <- ReserveStorageDropoff (sc_id o) ;;
         match r.1 with
         | Err e =>
             park (sc_id o) r.2 QueueWaitingForSlot (reserve_cause e) (dest_param (sm_delivery r.2) false) "destination slot contended"
         | Ok dst =>
             held <- ReserveForDispatch bin (sc_id o) ;;
             if negb held then
               park (sc_id o) r.2 QueueWaitingForMaterial CauseBinLockRace (payload_param (sc_payload o)) "bin race, retrying"
             else
               _ <- UpdateOrderBinID (sc_id o) bin ;;
               _ <- UpdateOrderSourceNode (sc_id o) (fn_name src) ;;
               lanes <== admitLanes o r.2 src dst EntryFreshBin ;;
               match lanes with
               | (Some _, _) => Ret false
               | (None, m1) => commit_bin o m1 bin src dst
               end
         end
     end).

Definition find_bin (o : ScanOrder) (m : ScanMut) : Prog Call bool :=
  if (sc_payload o =s "") && negb (sc_intent o =s "empty") && negb (sc_intent o =s SourceIntentLocal)
  then _ <== fail_order (sc_id o) "structural" ;; Ret false
  else
    res <- FindSource (sc_id o) (if sc_intent o =s "empty" then IntentEmpty else IntentFull) ;;
    match res with
    | OutcomeWait code cause p => _ <== scanSetQueueReason (sc_id o) m code cause p ;; Ret false
    | OutcomeReshuffle bin slot lane =>
        r <- PlanBuriedReshuffle (sc_id o) (mkBuried bin slot lane) ;;
        match r.1 with
        | DigWait cause p => _ <== scanSetQueueReason (sc_id o) r.2 QueueStorageRearranging cause p ;; Ret false
        | DigFailed => _ <== fail_order (sc_id o) "reshuffle" ;; Ret false
        | DigPlanned => Ret false
        end
    | OutcomeStructural _ => _ <== fail_order (sc_id o) "structural" ;; Ret false
    | OutcomeFound bin src => acquire_found o m (fb_id bin) src
    end.

Definition tryFulfill (id : Z) : Prog Call bool :=
  cur <- GetOrder id ;;
  match cur with
  | None => Ret false
  | Some (status, o, m) =>
      if negb (IsAcquiring status) then Ret false
      else match sc_parent o with
      | Some _ => Ret false
      | None =>
          if sc_coordinated o then
            r <- DispatchPreparedComplex (sc_id o) ;;
            if negb r.1 then Ret false
            else if sm_reason r.2 =s "" then Ret true
            else _ <== scanSetQueueReason (sc_id o) r.2 "" "" no_params ;; Ret true
          else
            cap <- CheckDropoffCapacity (sm_delivery m) (sc_id o) ;;
            match cap with
            | Some (cause, p) => _ <== scanSetQueueReason (sc_id o) m QueueWaitingForSlot cause p ;; Ret false
            | None =>
                match sc_bin o with
                | Some _ => dispatchHeldBin o m
                | None => find_bin o m
                end
            end
      end
  end.

Fixpoint scan_each (ids : list Z) : Prog Call nat :=
  match ids with
  | [] => Ret 0
  | id :: rest => ok <== tryFulfill id ;; n <== scan_each rest ;; Ret (if ok : bool then S n else n)
  end.

Definition scan : Prog Call nat :=
  l <- ListAcquiringOrders ;; match l with None => Ret 0 | Some ids => scan_each ids end.

(** [again]: a trigger came in while the first pass ran. *)
Definition RunOnce (again : bool) : Prog Call nat :=
  n <== scan ;; if again then m <== scan ;; Ret (n + m) else Ret n.
End Scanner.

(** ** Histories *)

Notation ScanEvent := (Exchange Call).

Definition asks_fleet (e : ScanEvent) : bool := match e with Ev c _ => match c with DispatchDirect _ _ _ => true | _ => false end end.
Definition releases (e : ScanEvent) : bool := match e with Ev c _ => match c with ReleaseClaimByOrder _ => true | _ => false end end.
Definition frees_lanes (e : ScanEvent) : bool := match e with Ev c _ => match c with ReleaseLanesForOrder _ => true | _ => false end end.
Definition ships (e : ScanEvent) : bool :=
  match e with
  | Ev c x => match c in Call X return X -> bool with
              | DispatchDirect _ _ _ => fun r => is_ok r
              | DispatchPreparedComplex _ => fun r => r.1
              | _ => fun _ => false
              end x
  end.

Section Along.
(** The order being tried. *)
Context (tried : Z).

(** The row of the order was read and names [id]. *)
Definition row_read (h : list ScanEvent) (id : Z) (P : ScanOrder -> Prop) : Prop :=
  exists status o m, Ev (GetOrder tried) (Some (status, o, m)) ∈ h /\ sc_id o = id /\ P o.

(** What stands before the fleet is asked for [id]. *)
Record ready (h : list ScanEvent) (id : Z) (src dst : FNode) (bin : Z) : Prop := {
  rd_confirmed : exists rem, head h = Some (Ev (ConfirmForDispatch id bin rem src dst) true);
  rd_lanes : exists kind, Ev (AcquireLanesForOrder id src dst kind) (Some EntryAdmitted) ∈ h;
  rd_slot : exists m, Ev (ReserveStorageDropoff id) (Ok dst, m) ∈ h;
  rd_owned : exists why a m, Ev (MoveToSourcing id why) (a, m) ∈ h /\ a <> MovedConcurrently;
  rd_room : exists delivery, Ev (CheckDropoffCapacity delivery id) None ∈ h;
  rd_row : row_read h id (fun o => sc_coordinated o = false);
  rd_bin : Ev (ReserveForDispatch bin id) true ∈ h \/ row_read h id (fun o => sc_bin o = Some bin);
  rd_once : existsb asks_fleet h = false;
  rd_kept : existsb releases h = false /\ existsb frees_lanes h = false }.

Definition allowed (h : list ScanEvent) (X : Type) (c : Call X) : Prop :=
  match c with
  | DispatchDirect id src dst => exists bin, ready h id src dst bin
  | ReserveForDispatch _ id => existsb releases h = false /\ row_read h id (fun o => sc_coordinated o = false /\ sc_bin o = None)
  | ReleaseClaimByOrder id => row_read h id (fun o => sc_coordinated o = false)
  | DispatchPreparedComplex id => row_read h id (fun o => sc_coordinated o = true)
  | GetOrder id => id = tried
  | _ => True
  end.

(** The order whose create this event refused. *)
Definition refused_for (e : ScanEvent) : option Z :=
  match e with
  | Ev c x => match c in Call X return X -> option Z with
              | DispatchDirect id _ _ => fun r => if is_ok r then None else Some id
              | _ => fun _ => None
              end x
  end.

(** Once a create was refused nothing ships, and the claim and the lanes of that
    order are asked back. *)
Definition undone (h : list ScanEvent) : Prop :=
  forall e id, e ∈ h -> refused_for e = Some id ->
    existsb ships h = false /\ (exists ok, Ev (ReleaseClaimByOrder id) ok ∈ h) /\ (exists ok, Ev (ReleaseLanesForOrder id) ok ∈ h).

Definition outcome_of (h : list ScanEvent) (fulfilled : bool) : Prop := fulfilled = existsb ships h /\ undone h.

(** ** Piece by piece *)

(** More was said, but nothing was sent, shipped or given back. *)
Definition inert (e : ScanEvent) : bool := negb (asks_fleet e || releases e || frees_lanes e || ships e).
Definition grown (h h' : list ScanEvent) : Prop := exists l, h' = l ++ h /\ forallb inert l = true.

Lemma grown_refl h : grown h h.
Proof. by exists []. Qed.
Lemma grown_cons h h' e : inert e = true -> grown h h' -> grown h (e :: h').
Proof. intros He (l & -> & Hl). exists (e :: l). split; [done|]. cbn. by rewrite He. Qed.
Lemma grown_trans h1 h2 h3 : grown h1 h2 -> grown h2 h3 -> grown h1 h3.
Proof. intros (l & -> & Hl) (l' & -> & Hl'). exists (l' ++ l). rewrite app_assoc, forallb_app, Hl, Hl'. done. Qed.
Lemma grown_in h h' e : grown h h' -> e ∈ h -> e ∈ h'.
Proof. intros (l & -> & _). set_solver. Qed.

(** Nothing decisive has happened yet. *)
Definition fresh_history (h : list ScanEvent) : Prop := forallb inert h = true.

Lemma fresh_grown h h' : fresh_history h -> grown h h' -> fresh_history h'.
Proof. intros H (l & -> & Hl). unfold fresh_history. by rewrite forallb_app, Hl, H. Qed.

Lemma fresh_none h (f : ScanEvent -> bool) : fresh_history h -> (forall e, inert e = true -> f e = false) -> existsb f h = false.
Proof. intros H Hf. apply existsb_false. intros e He. apply Hf. unfold fresh_history in H. rewrite forallb_forall in H. by apply H, list_elem_of_In. Qed.

Lemma inert_parts e : inert e = true -> asks_fleet e = false /\ releases e = false /\ frees_lanes e = false /\ ships e = false.
Proof. unfold inert. rewrite negb_true_iff, !orb_false_iff. tauto. Qed.

Lemma unasked_unrefused h e : existsb asks_fleet h = false -> e ∈ h -> refused_for e = None.
Proof. intros H Hin. rewrite existsb_false in H. specialize (H _ Hin). destruct e as [X c x]. by destruct c. Qed.

Lemma undone_unasked h : existsb asks_fleet h = false -> undone h.
Proof. intros H e id Hin Hr. rewrite (unasked_unrefused h e) in Hr by done. done. Qed.

Lemma fresh_outcome h : fresh_history h -> outcome_of h false.
Proof.
  intros H. split; [symmetry; apply fresh_none; [done|by intros e (_ & _ & _ & ?)%inert_parts]|].
  apply undone_unasked, fresh_none; [done|by intros e (? & _)%inert_parts].
Qed.

Lemma set_reason_along id m code cause p h : along allowed (fun h' _ => grown h h') h (scanSetQueueReason id m code cause p).
Proof. unfold scanSetQueueReason. destruct (_ && _); cbn; [apply grown_refl|]. split; [done|]. intros x. by apply grown_cons, grown_refl. Qed.

Lemma parked_along id m code cause p why h : along allowed (fun h' _ => grown h h') h (parked id m code cause p why).
Proof.
  unfold parked. eapply along_bind; [apply set_reason_along|]. intros h1 m1 H1. cbn. split; [done|]. intros x. by apply grown_cons.
Qed.

Lemma park_along id m code cause p why h : along allowed (fun h' r => grown h h' /\ r = false) h (park id m code cause p why).
Proof. unfold park. eapply along_bind; [apply parked_along|]. intros h1 m1 H1. done. Qed.

Lemma fail_along wired id code h : along allowed (fun h' _ => grown h h') h (fail_order wired id code).
Proof. unfold fail_order. destruct wired; cbn; [|apply grown_refl]. split; [done|]. intros x. by apply grown_cons, grown_refl. Qed.

Lemma lanes_along o m src dst kind h :
  along allowed (fun h' r => grown h h' /\ (r.1 = None -> Ev (AcquireLanesForOrder (sc_id o) src dst kind) (Some EntryAdmitted) ∈ h'))
    h (admitLanes o m src dst kind).
Proof.
  unfold admitLanes. cbn. split; [done|]. intros [[|cause lane]|]; cbn.
  - split; [by apply grown_cons, grown_refl|]. intros _. left.
  - eapply along_bind; [apply parked_along|]. intros h1 m1 H1. cbn. split; [|done].
    eapply grown_trans; [|exact H1]. by apply grown_cons, grown_refl.
  - eapply along_bind; [apply parked_along|]. intros h1 m1 H1. cbn. split; [|done].
    eapply grown_trans; [|exact H1]. by apply grown_cons, grown_refl.
Qed.

(** Everything but the claim itself. *)
Record secured (h : list ScanEvent) (id : Z) (src dst : FNode) (bin : Z) : Prop := {
  se_lanes : exists kind, Ev (AcquireLanesForOrder id src dst kind) (Some EntryAdmitted) ∈ h;
  se_slot : exists m, Ev (ReserveStorageDropoff id) (Ok dst, m) ∈ h;
  se_owned : exists why a m, Ev (MoveToSourcing id why) (a, m) ∈ h /\ a <> MovedConcurrently;
  se_room : exists delivery, Ev (CheckDropoffCapacity delivery id) None ∈ h;
  se_row : row_read h id (fun o => sc_coordinated o = false);
  se_bin : Ev (ReserveForDispatch bin id) true ∈ h \/ row_read h id (fun o => sc_bin o = Some bin) }.

Lemma row_read_grown h h' id P : (forall e, e ∈ h -> e ∈ h') -> row_read h id P -> row_read h' id P.
Proof. intros Hi (status & o & m & Hin & H). exists status, o, m. auto. Qed.

Lemma secured_ready h id src dst bin rem :
  fresh_history h -> secured h id src dst bin -> ready (Ev (ConfirmForDispatch id bin rem src dst) true :: h) id src dst bin.
Proof.
  intros Hf [H1 H2 H3 H4 Hr H5]. split; [by exists rem| | | | | | | |].
  - destruct H1 as [k ?]. exists k. by right.
  - destruct H2 as [m ?]. exists m. by right.
  - destruct H3 as (w & a & m & ? & ?). exists w, a, m. split; [by right|done].
  - destruct H4 as [d ?]. exists d. by right.
  - eapply row_read_grown; [|exact Hr]. by right.
  - destruct H5 as [?|H5]; [left; by right|right]. eapply row_read_grown; [|exact H5]. by right.
  - cbn. apply fresh_none; [done|by intros e (? & _)%inert_parts].
  - cbn. split; apply fresh_none; try done; by intros e (_ & ? & ? & _)%inert_parts.
Qed.

Lemma notify_along o src vendor h : along allowed (fun h' _ => grown h h') h (notifyEdgeDispatched o src vendor).
Proof.
  unfold notifyEdgeDispatched. destruct (_ =s _); cbn; [apply grown_refl|]. split; [done|]. intros x. split; [done|]. intros y.
  by repeat (apply grown_cons; [done|]); apply grown_refl.
Qed.

Lemma grown_ships h h' : grown h h' -> existsb ships h' = existsb ships h.
Proof. intros (l & -> & Hl). rewrite existsb_app. rewrite (fresh_none l ships); [done|done|by intros e (_ & _ & _ & ?)%inert_parts]. Qed.

Lemma refused_undone id src dst e x y h :
  existsb asks_fleet h = false -> existsb ships h = false ->
  undone (Ev (ReleaseLanesForOrder id) y :: Ev (ReleaseClaimByOrder id) x :: Ev (DispatchDirect id src dst) (Err e) :: h).
Proof.
  intros Ha Hs e' id' Hin Hr. rewrite !elem_of_cons in Hin. destruct Hin as [->|[->|[->|Hin]]]; [done|done| |].
  - injection Hr as <-. split; [done|]. split; [exists x; right; left|exists y; left].
  - by rewrite (unasked_unrefused h e') in Hr.
Qed.

Lemma grown_undone h h' : grown h h' -> undone h -> undone h'.
Proof.
  intros Hg Hu e id Hin Hr. rewrite (grown_ships _ _ Hg). destruct Hg as (l & -> & Hl). apply elem_of_app in Hin as [Hin|Hin].
  - rewrite (unasked_unrefused l e) in Hr; [done| |done]. apply fresh_none; [done|by intros e' (? & _)%inert_parts].
  - destruct (Hu _ _ Hin Hr) as (Hs & [x Hx] & [y Hy]). split; [done|]. split; [exists x|exists y]; apply elem_of_app; by right.
Qed.

Lemma commit_along o m bin src dst h :
  fresh_history h -> secured h (sc_id o) src dst bin -> along allowed outcome_of h (commit_bin o m bin src dst).
Proof.
  intros Hf Hs. assert (Hships : existsb ships h = false) by (apply fresh_none; [done|by intros e (_ & _ & _ & ?)%inert_parts]).
  assert (Hask : existsb asks_fleet h = false) by (apply fresh_none; [done|by intros e (? & _)%inert_parts]).
  unfold commit_bin. cbn [along]. split; [done|]. intros [|]; cbn [negb].
  2: { eapply along_weaken; [apply park_along|]. intros h1 r [Hg ->]. apply fresh_outcome. eapply fresh_grown; [|exact Hg]. done. }
  cbn [along]. split; [exists bin; by apply secured_ready|]. intros [vendor|e].
  - eapply along_bind; [apply notify_along|]. intros h1 u Hg. cbn. split; [by rewrite (grown_ships _ _ Hg)|]. eapply grown_undone; [exact Hg|].
    intros e id [->|Hin]%elem_of_cons Hr; [done|]. rewrite (unasked_unrefused (Ev (ConfirmForDispatch (sc_id o) bin (sc_remaining o) src dst) true :: h) e) in Hr by done. done.
  - cbn [along]. split; [eapply row_read_grown; [|exact (se_row _ _ _ _ _ Hs)]; by do 2 right|]. intros x. split; [done|]. intros y.
    assert (Hun : undone (Ev (ReleaseLanesForOrder (sc_id o)) y :: Ev (ReleaseClaimByOrder (sc_id o)) x
      :: Ev (DispatchDirect (sc_id o) src dst) (Err e) :: Ev (ConfirmForDispatch (sc_id o) bin (sc_remaining o) src dst) true :: h)).
    { by apply refused_undone. }
    destruct e; (eapply along_weaken; [apply park_along|]; intros h1 r [Hg ->]; split;
      [by rewrite (grown_ships _ _ Hg); cbn|by eapply grown_undone]).
Qed.

Lemma fresh_cons e h : inert e = true -> fresh_history h -> fresh_history (e :: h).
Proof. intros He Hh. unfold fresh_history in *. cbn. by rewrite He. Qed.

(** A piece that ends without asking the fleet. *)
Lemma reason_then_no id m code cause p h :
  fresh_history h -> along allowed outcome_of h (pbind (scanSetQueueReason id m code cause p) (fun _ => Ret false)).
Proof. intros Hf. eapply along_bind; [apply set_reason_along|]. intros h1 m1 Hg. by eapply fresh_outcome, fresh_grown. Qed.
Lemma park_then_no id m code cause p why h : fresh_history h -> along allowed outcome_of h (park id m code cause p why).
Proof. intros Hf. eapply along_weaken; [apply park_along|]. intros h1 r [Hg ->]. by eapply fresh_outcome, fresh_grown. Qed.
Lemma fail_then_no wired id code h : fresh_history h -> along allowed outcome_of h (pbind (fail_order wired id code) (fun _ => Ret false)).
Proof. intros Hf. eapply along_bind; [apply fail_along|]. intros h1 m1 Hg. by eapply fresh_outcome, fresh_grown. Qed.

(** One call that is not the fleet's. *)
Ltac one_call := cbn [along]; split; [done|]; intros ?.
Ltac quiet := first [by apply fresh_outcome | apply reason_then_no | apply park_then_no | apply fail_then_no]; repeat apply fresh_cons; done.

Lemma unless_lost_along a go h :
  fresh_history h -> (a <> MovedConcurrently -> along allowed outcome_of h go) -> along allowed outcome_of h (unless_lost a go).
Proof. intros Hf Hg. destruct a; cbn [unless_lost]; [by apply Hg|by apply fresh_outcome|by apply Hg]. Qed.

Lemma dig_along wired o m h : fresh_history h -> along allowed outcome_of h (digForBuriedHeldBin wired o m).
Proof.
  intros Hf. unfold digForBuriedHeldBin. one_call. destruct x as [b|]; [|quiet]. one_call. destruct x as [[| |] m1]; cbn [fst snd]; quiet.
Qed.

(** Room has been found for the order. *)
Definition has_room (h : list ScanEvent) (id : Z) : Prop := exists delivery, Ev (CheckDropoffCapacity delivery id) None ∈ h.

Lemma held_along wired o m h :
  fresh_history h -> has_room h (sc_id o) -> row_read h (sc_id o) (fun o' => sc_coordinated o' = false /\ sc_bin o' = sc_bin o) ->
  along allowed outcome_of h (dispatchHeldBin wired o m).
Proof.
  intros Hf [dl Hroom] (status & o' & m' & Hrow & Ei & Hco & Hbin). unfold dispatchHeldBin. destruct (sc_bin o) as [bin|] eqn:Eb; [|quiet].
  one_call. destruct x as [src|]; [|quiet]. one_call. destruct x as [dn|]; [|quiet]. one_call.
  destruct x as [[dst|e] m1]; cbn [fst snd]; [|quiet]. one_call. destruct x as [mv m2]; cbn [fst snd].
  apply unless_lost_along; [by repeat apply fresh_cons|]. intros Hmv.
  set (h4 := Ev (MoveToSourcing (sc_id o) "dispatching held bin") (mv, m2) :: _).
  assert (Hf4 : fresh_history h4) by by repeat apply fresh_cons.
  eapply along_bind; [apply lanes_along|]. intros h5 [[cause|] m3] [Hg Hl].
  - destruct (cause =s _); [apply dig_along|apply fresh_outcome]; by eapply fresh_grown.
  - apply commit_along; [by eapply fresh_grown|]. specialize (Hl eq_refl). split.
    + by exists EntryHeldBin.
    + exists m1. eapply grown_in; [exact Hg|]. right. left.
    + exists "dispatching held bin", mv, m2. split; [|done]. eapply grown_in; [exact Hg|]. left.
    + exists dl. eapply grown_in; [exact Hg|]. by do 4 right.
    + exists status, o', m'. split; [eapply grown_in; [exact Hg|]; by do 4 right|done].
    + right. exists status, o', m'. split; [eapply grown_in; [exact Hg|]; by do 4 right|]. split; [done|congruence].
Qed.

Lemma found_along o m bin src h :
  fresh_history h -> has_room h (sc_id o) -> row_read h (sc_id o) (fun o' => sc_coordinated o' = false /\ sc_bin o' = None) ->
  along allowed outcome_of h (acquire_found o m bin src).
Proof.
  intros Hf [dl Hroom] (status & o' & m' & Hrow & Ei & Hco & Hnb). unfold acquire_found. one_call. destruct x as [mv m1]; cbn [fst snd].
  apply unless_lost_along; [by repeat apply fresh_cons|]. intros Hmv.
  set (h1 := Ev (MoveToSourcing (sc_id o) "bin found, soft-holding") (mv, m1) :: h).
  assert (Hf1 : fresh_history h1) by by apply fresh_cons.
  one_call. destruct x as [dn|]; [|quiet]. one_call. destruct x as [[dst|e] m2]; cbn [fst snd]; [|quiet].
  cbn [along]. split; [split; [apply fresh_none; [by repeat apply fresh_cons|by intros e (_ & ? & _)%inert_parts]|exists status, o', m'; split; [by do 3 right|done]]|].
  intros [|]; cbn [negb]; [|quiet]. one_call. one_call.
  eapply along_bind; [apply lanes_along|]. intros h5 [[cause|] m3] [Hg Hl].
  - apply fresh_outcome. eapply fresh_grown; [|exact Hg]. by repeat apply fresh_cons.
  - apply commit_along; [eapply fresh_grown; [|exact Hg]; by repeat apply fresh_cons|]. specialize (Hl eq_refl). split.
    + by exists EntryFreshBin.
    + exists m2. eapply grown_in; [exact Hg|]. do 3 right. left.
    + exists "bin found, soft-holding", mv, m1. split; [|done]. eapply grown_in; [exact Hg|]. do 5 right. left.
    + exists dl. eapply grown_in; [exact Hg|]. by do 6 right.
    + exists status, o', m'. split; [eapply grown_in; [exact Hg|]; by do 6 right|done].
    + left. eapply grown_in; [exact Hg|]. do 2 right. left.
Qed.

Lemma find_along wired o m h :
  fresh_history h -> has_room h (sc_id o) -> row_read h (sc_id o) (fun o' => sc_coordinated o' = false /\ sc_bin o' = None) ->
  along allowed outcome_of h (find_bin wired o m).
Proof.
  intros Hf Hroom Hrow. unfold find_bin. destruct (_ && _); [quiet|]. one_call. destruct x as [bin src|code cause p|bin slot lane|code]; try quiet.
  - apply found_along; [by apply fresh_cons| |].
    + destruct Hroom as [dl ?]. exists dl. by right.
    + eapply row_read_grown; [|exact Hrow]. by right.
  - one_call. destruct x as [[| |] m1]; cbn [fst snd]; quiet.
Qed.

Lemma try_fulfill_along wired : along allowed outcome_of [] (tryFulfill wired tried).
Proof.
  unfold tryFulfill. one_call. destruct x as [[[status o] m]|]; [|quiet]. destruct (negb _); [quiet|].
  destruct (sc_parent o); [quiet|]. destruct (sc_coordinated o) eqn:Ec.
  - cbn [along]. split; [exists status, o, m; split; [left|done]|]. intros x. destruct x as [[|] m1]; cbn [negb fst snd]; [|quiet]. destruct (sm_reason m1 =s "");
      [by split; [|apply undone_unasked]|].
    eapply along_bind; [apply set_reason_along|]. intros h1 m2 Hg. cbn. split; [by rewrite (grown_ships _ _ Hg)|].
    eapply grown_undone; [exact Hg|]. by apply undone_unasked.
  - one_call. destruct x as [[cause p]|]; [quiet|].
    assert (Hroom : has_room [Ev (CheckDropoffCapacity (sm_delivery m) (sc_id o)) None; Ev (GetOrder tried) (Some (status, o, m))] (sc_id o))
      by (eexists; left).
    destruct (sc_bin o) eqn:Eb.
    + apply held_along; [done|done|]. exists status, o, m. split; [right; left|done].
    + apply find_along; [done|done|]. exists status, o, m. split; [right; left|done].
Qed.
End Along.

(** C34. A robot is asked for only when everything is in hand.  In one attempt at
    an order, the call that creates the fleet order comes straight after a
    successful confirm of the bin and slot between the same two nodes, and before
    it the capacity gate was open, the move to sourcing was not lost to somebody
    else who had moved the order (any other failure of that move is logged and
    the attempt goes on), the destination slot was settled to this very node, the
    lanes let it in, and its bin is the one it soft-acquired in this attempt or the
    one the row already named.  The fleet is asked at most once.  The attempt
    counts as fulfilled exactly when something shipped.  After a refused create
    the attempt is unfulfilled and asks for this order's claim and this order's
    lanes back (a failure of either request is logged, not retried).  All of this
    whatever the store, finder, lanes and fleet answer. *)
Theorem fleet_asked_only_when_held (wired : bool) (id : Z) (tr : list ScanEvent) (fulfilled : bool) :
  runs (tryFulfill wired id) tr fulfilled ->
  fulfilled = existsb ships tr /\
  (forall before o src dst r after, tr = before ++ Ev (DispatchDirect o src dst) r :: after ->
    (exists bin, ready id (rev before) o src dst bin) /\
    existsb asks_fleet after = false /\
    (is_ok r = false -> fulfilled = false /\
      (exists ok, Ev (ReleaseClaimByOrder o) ok ∈ after) /\ (exists ok, Ev (ReleaseLanesForOrder o) ok ∈ after))).
Proof.
  intros Hr. destruct (along_runs _ _ _ _ _ _ (try_fulfill_along id wired) Hr) as [[H1 H2] H3]. rewrite app_nil_r in *.
  rewrite existsb_rev in *. split; [done|]. intros before o src dst r after E. pose proof (H3 _ _ _ E) as Hrd. cbn in Hrd.
  rewrite app_nil_r in Hrd. assert (Honce : existsb asks_fleet after = false).
  { apply no_event. intros t1 [X c x] t2 -> Ha. destruct c; try done.
    destruct (H3 (before ++ Ev (DispatchDirect o src dst) r :: t1) (Ev (DispatchDirect id0 src0 dst0) x) t2) as (bin & Hb); [by rewrite E, <- app_assoc|].
    pose proof (rd_once _ _ _ _ _ _ Hb) as Ho. rewrite app_nil_r, existsb_rev, existsb_app in Ho. cbn in Ho. by rewrite orb_true_r in Ho. }
  split_and!; [done|done|]. intros Her. destruct Hrd as (bin & Hb). pose proof (rd_kept _ _ _ _ _ _ Hb) as [Hk1 Hk2]. rewrite existsb_rev in Hk1, Hk2.
  destruct (H2 (Ev (DispatchDirect o src dst) r) o) as (Hs & [x Hx] & [y Hy]); [rewrite elem_of_rev, E; set_solver|cbn; by rewrite Her|].
  rewrite existsb_rev in Hs. rewrite elem_of_rev, E in Hx, Hy. split; [congruence|].
  split; [exists x; by eapply (later_event releases)|exists y; by eapply (later_event frees_lanes)].
Qed.

Definition demo_row : ScanOrder := mkScan 7 None false None "AXLE" "full" "GRP" "st-1" "u-7" None.
Definition demo_mut : ScanMut := mkMut "LINE-2" "" "" "".
Definition demo_node (id : Z) (name : string) : FNode := mkFNode id name false "" "" None.

(** One order, one bin in reach; [fleet] is the fleet's answer. *)
Definition demo_oracle (fleet : outcome DispatchErr string) (X : Type) (c : Call X) : X :=
  match c in Call X return X with
  | ListAcquiringOrders => Some [7%Z]
  | GetOrder _ => Some (StatusQueued, demo_row, demo_mut)
  | GetNodeByDotName n => Some (demo_node 2 n)
  | CheckDropoffCapacity _ _ => None
  | FindSource _ _ => OutcomeFound (mkFBin 40 "AXLE" 12 12 None 0 None false false true "" "" (Some 1%Z)) (demo_node 1 "SLOT-1")
  | DispatchPreparedComplex _ => (true, demo_mut)
  | PlanBuriedReshuffle _ _ => (DigFailed, demo_mut)
  | BuriedForHeldBin _ => None
  | ReserveStorageDropoff _ => (Ok (demo_node 2 "LINE-2"), demo_mut)
  | ReserveForDispatch _ _ => true
  | UpdateOrderBinID _ _ => true
  | UpdateOrderSourceNode _ _ => true
  | AcquireLanesForOrder _ _ _ _ => Some EntryAdmitted
  | ConfirmForDispatch _ _ _ _ _ => true
  | DispatchDirect _ _ _ => fleet
  | ReleaseClaimByOrder _ => true
  | ReleaseLanesForOrder _ => true
  | MoveToSourcing _ _ => (MovedOk, demo_mut)
  | SetOrderQueueDetail _ _ _ _ => true
  | FailOrder _ _ => ()
  | SendToEdge _ _ => true
  end.

Lemma fleet_asked_only_when_held_witness :
  exists before after, (play (demo_oracle (Err DeOther)) (tryFulfill true 7)).1 =
    before ++ Ev (DispatchDirect 7 (demo_node 1 "SLOT-1") (demo_node 2 "LINE-2")) (Err DeOther) :: after /\
    (exists bin, ready 7 (rev before) 7 (demo_node 1 "SLOT-1") (demo_node 2 "LINE-2") bin) /\
    (exists ok, Ev (ReleaseClaimByOrder 7) ok ∈ after).
Proof.
  pose proof (fleet_asked_only_when_held true 7 _ _ (play_runs (demo_oracle (Err DeOther)) (tryFulfill true 7))) as [_ H].
  set (tr := (play (demo_oracle (Err DeOther)) (tryFulfill true 7)).1) in *.
  exists (take 11 tr), (drop 12 tr). split; [reflexivity|].
  destruct (H (take 11 tr) 7%Z (demo_node 1 "SLOT-1") (demo_node 2 "LINE-2") (Err DeOther) (drop 12 tr) eq_refl) as (Hr & _ & Hu).
  split; [exact Hr|]. exact (proj1 (proj2 (Hu eq_refl))).
Defined.

Example order_ships : (play (demo_oracle (Ok "RDS-9")) (RunOnce true false)).2 = 1.
Proof. reflexivity. Qed.

(** ** Against the tables *)

(** dispatch/store_slot.go: the slot leg, then the bin leg.  [claimed] is the claim on
    the destination as the caller read it. *)
Definition confirmDropoffSlot (id dest : Z) (claimed : option Z) : CoreSQL unit :=
  if claimed_is claimed id then ConfirmSlotReservation dest id else ConfirmSlotClaim dest id.
Definition confirm_for_dispatch (topic : string) (storage : bool) (id bin : Z) (remaining : option Z) (dest : Z) (claimed : option Z) : CoreSQL unit :=
  (if storage then confirmDropoffSlot id dest claimed else sret ()) ;;;
  ConfirmClaim topic bin id remaining.

(** The order has no reservation on any bin. *)
Definition no_hold (id : Z) (d : CoreDB) : Prop := forall r, r ∈ reservations d -> r_order r = id -> r_bin r = None.

(** [m] ran on [d] with this verdict and left [d']. *)
Definition answered {A} (m : CoreSQL A) (ok : bool) (d d' : CoreDB) : Prop :=
  exists f r c', m (mkConn d f) = (r, c') /\ ok = is_ok r /\ d' = db c'.

Section Tables.
Context (topic : string) (id : Z).

(** The calls that deal in bin reservations answer as the store does; a row read by
    id has that id; no other call reserves a bin for the order. *)
Definition answers {X} (c : Call X) (x : X) (d d' : CoreDB) : Prop :=
  match c in Call X return X -> Prop with
  | ReserveForDispatch bin i => fun ok => answered (BinManifest.ReserveForDispatch bin i) ok d d'
  | ConfirmForDispatch i bin rem _ dst => fun ok => exists storage claimed, answered (confirm_for_dispatch topic storage i bin rem (fn_id dst) claimed) ok d d'
  | ReleaseClaimByOrder i => fun ok => answered (OrderStore.ReleaseClaimByOrder i) ok d d'
  | GetOrder i => fun r => d' = d /\ match r with Some (_, o, _) => sc_id o = i | None => True end
  | _ => fun _ => keeps (no_hold id) d d'
  end x.

Fixpoint unfolds (d : CoreDB) (tr : list ScanEvent) (d' : CoreDB) : Prop :=
  match tr with
  | [] => d' = d
  | Ev c x :: rest => exists d1, answers c x d d1 /\ unfolds d1 rest d'
  end.

(** *** The hold, statement by statement *)

Lemma no_hold_map (f : Resv -> Resv) d :
  (forall r, r_order (f r) = r_order r /\ r_bin (f r) = r_bin r) -> no_hold id d -> no_hold id (set_reservations (map f) d).
Proof. intros Hf Hn r (r0 & -> & Hr)%list_elem_of_fmap. destruct (Hf r0) as [-> ->]. by apply Hn. Qed.

Lemma confirm_keeps o ref : evolves (keeps (no_hold id)) (confirm o ref).
Proof.
  apply evolves_exec; [typeclasses eauto|]. intros d Hn. apply no_hold_map; [intros r; by case_match|done].
Qed.

Lemma slot_leg_keeps o dest claimed : evolves (keeps (no_hold id)) (confirmDropoffSlot o dest claimed).
Proof.
  unfold confirmDropoffSlot. destruct (claimed_is _ _); [apply confirm_keeps|].
  apply evolves_tx; [typeclasses eauto|]. apply evolves_bind; [typeclasses eauto| |intros []].
  - apply evolves_bind; [typeclasses eauto| |intros n; evolve]. apply evolves_stmt; [typeclasses eauto|].
    intros d. destruct (nodes d !! dest) as [n|]; [destruct (slot_claimable _ _ _ _)|]; cbn; intros H; exact H.
  - apply evolves_bind; [typeclasses eauto|apply confirm_keeps|intros []; evolve].
Qed.

Lemma claim_needs_hold bin o rem c r c' :
  ConfirmClaim topic bin o rem c = (r, c') -> no_hold id (db c) -> no_hold id (db c') /\ (o = id -> is_ok r = false).
Proof.
  intros H Hn. destruct r as [[]|e].
  - apply claim_and_confirm_ok in H as (d1 & [(b & _ & Hcl & _) Hr] & Hd). split.
    + rewrite Hd. apply no_hold_map; [intros r; by case_match|]. unfold no_hold. by rewrite Hr.
    + intros ->. unfold claimable in Hcl. apply andb_true_iff in Hcl as [_ (r & Hin & Hp)%existsb_exists].
      unfold pending_on in Hp. rewrite !andb_true_iff in Hp. destruct Hp as [[Ho%Z.eqb_eq Hb%claimed_is_true] _].
      apply list_elem_of_In in Hin. by rewrite (Hn r Hin Ho) in Hb.
  - apply tx_err in H. split; [|done]. by rewrite H.
Qed.

Lemma confirm_needs_hold storage o bin rem dest claimed ok d d' :
  answered (confirm_for_dispatch topic storage o bin rem dest claimed) ok d d' -> no_hold id d -> no_hold id d' /\ (o = id -> ok = false).
Proof.
  intros (f & r & c' & H & -> & ->) Hn. unfold confirm_for_dispatch in H.
  assert (Hleg : evolves (keeps (no_hold id)) (if storage then confirmDropoffSlot o dest claimed else sret ()))
    by (destruct storage; [apply slot_leg_keeps|evolve]).
  specialize (Hleg (mkConn d f)). unfold sbind in H. destruct (_ (mkConn d f)) as [[[]|e] c1]; cbn in Hleg; specialize (Hleg Hn).
  - by eapply claim_needs_hold.
  - injection H as <- <-. by split.
Qed.

Lemma reserve_other bin o ok d d' : answered (BinManifest.ReserveForDispatch bin o) ok d d' -> o <> id -> no_hold id d -> no_hold id d'.
Proof.
  intros (f & r & c' & H & -> & ->) Ho Hn.
  assert (He : evolves (keeps (no_hold id)) (BinManifest.ReserveForDispatch bin o)).
  { apply evolves_bind; [typeclasses eauto| |intros n; evolve]. apply evolves_stmt_checked; [typeclasses eauto|]. intros d0 a d1.
    unfold insert_on_conflict_nothing. destruct (existsb _ _); [by intros [= _ <-]|]. destruct (fk_ok _ _); [|done]. intros [= _ <-] Hn0 x.
    cbn. intros [Hx|Hx%list_elem_of_singleton]%elem_of_app Hxo; [by apply Hn0|]. by subst x. }
  specialize (He (mkConn d f) Hn). by rewrite H in He.
Qed.

Lemma release_drops o ok d d' : answered (OrderStore.ReleaseClaimByOrder o) ok d d' ->
  (no_hold id d -> no_hold id d') /\ (ok = true -> o = id -> no_hold id d').
Proof.
  intros (f & r & c' & H & -> & ->). destruct r as [[]|e].
  - assert (Hr : forall r, r ∈ reservations (db c') -> r ∈ reservations d /\ r_order r <> o).
    { unfold OrderStore.ReleaseClaimByOrder in H. sql_inv H. apply exec_ok in Hm2. rewrite Hdb0, Hm2, Hm1, Hm0, Hm, Hdb. cbn.
      intros r [Hin Hne%negb_true_iff%Z.eqb_neq]%elem_of_lfilter. done. }
    split; [intros Hn r [Hin _]%Hr; by apply Hn|]. intros _ -> r [_ Hne]%Hr Ho. done.
  - apply tx_err in H. cbn in H. rewrite H. by split.
Qed.

(** Without a hold, and taking none, the order's bin is never confirmed. *)
Definition takes_hold (e : ScanEvent) : bool := match e with Ev c _ => match c with ReserveForDispatch _ i => i =i id | _ => false end end.
Definition confirms (e : ScanEvent) : bool :=
  match e with
  | Ev c x => match c in Call X return X -> bool with ConfirmForDispatch i _ _ _ _ => fun ok => (i =i id) && ok | _ => fun _ => false end x
  end.

Lemma answer_keeps {X} (c : Call X) x d d' :
  answers c x d d' -> takes_hold (Ev c x) = false -> no_hold id d -> no_hold id d' /\ confirms (Ev c x) = false.
Proof.
  destruct c; cbn; intros Ha Ht Hn; try (by split; [apply Ha|]).
  - by destruct Ha as [-> _].
  - split; [|done]. apply Z.eqb_neq in Ht. by eapply reserve_other.
  - destruct Ha as (storage & claimed & Ha). destruct (confirm_needs_hold _ _ _ _ _ _ _ _ _ Ha Hn) as [H1 H2]. split; [done|].
    destruct (Z.eqb_spec id0 id) as [->|]; [by rewrite H2|done].
  - split; [|done]. apply release_drops in Ha as [H _]. by apply H.
Qed.

Lemma holdless_keeps tr : forall d d',
  unfolds d tr d' -> existsb takes_hold tr = false -> no_hold id d -> no_hold id d' /\ existsb confirms tr = false.
Proof.
  induction tr as [|[X c x] tr IH]; cbn [unfolds existsb]; intros d d' Hu Ht Hn; [by subst|].
  destruct Hu as (d1 & Ha & Hu). apply orb_false_iff in Ht as [Ht Htr]. destruct (answer_keeps _ _ _ _ Ha Ht Hn) as [Hn1 Hc].
  destruct (IH _ _ Hu Htr Hn1) as [Hn' Hcs]. split; [done|]. by rewrite Hc.
Qed.

Lemma unfolds_app tr1 tr2 : forall d d', unfolds d (tr1 ++ tr2) d' -> exists d1, unfolds d tr1 d1 /\ unfolds d1 tr2 d'.
Proof.
  induction tr1 as [|[X c x] tr1 IH]; cbn; intros d d' H; [by exists d|]. destruct H as (d0 & Ha & H).
  destruct (IH _ _ H) as (d1 & H1 & H2). exists d1. split; [by exists d0|done].
Qed.

(** The row read is the row of the order that was asked for. *)
Lemma read_own tr : forall d d' i status o m, unfolds d tr d' -> Ev (GetOrder i) (Some (status, o, m)) ∈ tr -> sc_id o = i.
Proof.
  induction tr as [|e tr IH]; intros d d' i status o m Hu Hin; [by apply elem_of_nil in Hin|].
  apply elem_of_cons in Hin as [<-|Hin]; cbn in Hu.
  - by destruct Hu as (d1 & [_ Hi] & _).
  - destruct e, Hu as (d1 & _ & Hu). by eapply IH.
Qed.

(** *** Attempt after attempt *)

(** The row, when it reads, is a plain order's and still names a bin. *)
Definition names_bin (e : ScanEvent) : bool :=
  match e with
  | Ev c x => match c in Call X return X -> bool with
              | GetOrder _ => fun r => match r with Some (_, o, _) => negb (sc_coordinated o) && bool_decide (is_Some (sc_bin o)) | None => true end
              | _ => fun _ => true
              end x
  end.

(** Later attempts on the order; between them others may do what they like, short of
    reserving a bin in its name. *)
Inductive attempts (wired : bool) : CoreDB -> list (list ScanEvent * bool) -> Prop :=
| no_more d : attempts wired d []
| one_more d d1 d2 tr fulfilled rest :
    keeps (no_hold id) d d1 -> runs (tryFulfill wired id) tr fulfilled -> unfolds d1 tr d2 -> forallb names_bin tr = true ->
    attempts wired d2 rest -> attempts wired d ((tr, fulfilled) :: rest).

Lemma names_bin_row tr i P :
  forallb names_bin tr = true -> row_read id (rev tr) i P -> exists o, P o /\ sc_coordinated o = false /\ sc_bin o <> None.
Proof.
  intros Hk (status & o & m & Hin & _ & HP). rewrite elem_of_rev in Hin. exists o. split; [done|].
  rewrite forallb_forall in Hk. specialize (Hk _ (proj1 (list_elem_of_In _ _) Hin)). cbn in Hk.
  apply andb_true_iff in Hk as [Hc%negb_true_iff [b Hb]%bool_decide_eq_true]. split; [done|]. by rewrite Hb.
Qed.

(** A released order is not held again in the same attempt. *)
Lemma released_stays wired tr fulfilled d d' :
  runs (tryFulfill wired id) tr fulfilled -> unfolds d tr d' -> Ev (ReleaseClaimByOrder id) true ∈ tr -> no_hold id d'.
Proof.
  intros Hr Hu (t1 & t2 & ->)%list_elem_of_split. destruct (along_runs _ _ _ _ _ _ (try_fulfill_along id wired) Hr) as [_ Hall].
  apply unfolds_app in Hu as (d1 & _ & Hu). cbn in Hu. destruct Hu as (d2 & Ha & Hu). apply release_drops in Ha as [_ Hdrop].
  eapply holdless_keeps; [exact Hu| |by apply Hdrop]. apply no_event. intros u1 [X c x] u2 -> Ht.
  specialize (Hall (t1 ++ Ev (ReleaseClaimByOrder id) true :: u1) (Ev c x) u2). rewrite <- app_assoc in Hall. specialize (Hall eq_refl).
  destruct c; cbn in Ht; try done. cbn in Hall. destruct Hall as [Hall _]. rewrite app_nil_r, rev_app_distr in Hall. cbn in Hall.
  rewrite !existsb_app in Hall. cbn in Hall. by rewrite orb_true_r in Hall.
Qed.

(** An attempt without a hold on an order whose row names a bin. *)
Lemma holdless_attempt wired tr fulfilled d d' :
  runs (tryFulfill wired id) tr fulfilled -> unfolds d tr d' -> forallb names_bin tr = true -> no_hold id d ->
  no_hold id d' /\ existsb asks_fleet tr = false /\ fulfilled = false.
Proof.
  intros Hr Hu Hk Hn. destruct (along_runs _ _ _ _ _ _ (try_fulfill_along id wired) Hr) as [[Hful _] Hall].
  rewrite app_nil_r, existsb_rev in Hful. assert (Hpre : forall t1 t2, tr = t1 ++ t2 -> forallb names_bin t1 = true).
  { intros t1 t2 ->. rewrite forallb_app in Hk. by apply andb_true_iff in Hk as [? _]. }
  destruct (holdless_keeps _ _ _ Hu) as [Hn' Hc]; [|done|].
  { apply no_event. intros t1 [X c x] t2 E Ht. specialize (Hall _ _ _ E). destruct c; try done. cbn in Hall. rewrite app_nil_r in Hall.
    destruct Hall as [_ Hrow]. destruct (names_bin_row _ _ _ (Hpre _ _ E) Hrow) as (o & [_ Ho] & _ & Hb). done. }
  assert (Hask : existsb asks_fleet tr = false).
  { apply no_event. intros t1 [X c x] t2 E Ht. pose proof (Hall _ _ _ E) as Hg. destruct c; try done. cbn in Hg. rewrite app_nil_r in Hg.
    destruct Hg as (bin & [(rem & Hh) _ _ _ _ (status & o & m & Hin & <- & _) _ _]). rewrite elem_of_rev in Hin.
    assert (Hid : sc_id o = id) by (eapply read_own; [exact Hu|]; rewrite E; apply elem_of_app; by left).
    rewrite existsb_false in Hc. specialize (Hc (Ev (ConfirmForDispatch (sc_id o) bin rem src dst) true)). cbn in Hc.
    rewrite Hid, Z.eqb_refl in Hc. cut (true && true = false); [done|]. apply Hc. rewrite E. apply elem_of_app. left. rewrite <- elem_of_rev.
    destruct (rev t1); [done|]. injection Hh as ->. rewrite Hid. left. }
  split_and!; [done|done|]. rewrite Hful. apply no_event. intros t1 [X c x] t2 E Hs. destruct c; try done.
  - pose proof (Hall _ _ _ E) as Hg. cbn in Hg. rewrite app_nil_r in Hg.
    destruct (names_bin_row _ _ _ (Hpre _ _ E) Hg) as (o & Ho & Ho' & _). congruence.
  - rewrite existsb_false in Hask. specialize (Hask (Ev (DispatchDirect id0 src dst) x)). cbn in Hask. rewrite E in Hask.
    assert (true = false) by (apply Hask; set_solver). done.
Qed.
End Tables.

(** C35.  A refused create strands the order.  When the fleet refuses the create, the
    scanner releases the order's claims - and with them the bin's reservation - but
    the row keeps naming the bin.  From then on, as long as the row names a bin,
    every attempt takes the held-bin path, which only confirms a reservation and
    never makes one: however many attempts follow, whatever the finder, the lanes
    and the fleet answer, and whatever others do short of reserving a bin for the
    order, the fleet is not asked again and no attempt succeeds. *)
Theorem refused_create_strands (topic : string) (wired : bool) (id : Z) (tr : list ScanEvent) (fulfilled : bool) (d d' : CoreDB)
    (later : list (list ScanEvent * bool)) :
  runs (tryFulfill wired id) tr fulfilled -> unfolds topic id d tr d' -> Ev (ReleaseClaimByOrder id) true ∈ tr ->
  attempts topic id wired d' later ->
  Forall (fun a => existsb asks_fleet a.1 = false /\ a.2 = false) later.
Proof.
  intros Hr Hu Hrel Hl. pose proof (released_stays _ _ _ _ _ _ _ Hr Hu Hrel) as Hn. clear Hr Hu Hrel.
  induction Hl as [|d1 d2 d3 tr1 f rest Hk Hr Hu Hnb Hl IH]; [by constructor|].
  destruct (holdless_attempt _ _ _ _ _ _ _ Hr Hu Hnb (Hk Hn)) as (Hn' & Ha & Hf). constructor; [done|by apply IH].
Qed.

(** The same order, fresh and with its bin; [ok] is what confirming answers. *)
Definition stranded_oracle (held : option Z) (ok : bool) (X : Type) (c : Call X) : X :=
  match c in Call X return X -> X with
  | GetOrder i => fun _ => Some (StatusSourcing, mkScan 1 None false held "AXLE" "full" "SLOT-1" "st-1" "u-1" None, demo_mut)
  | FindSource _ _ => fun _ => OutcomeFound (mkFBin 10 "AXLE" 12 12 None 0 None false false true "" "" (Some 1%Z)) (demo_node 1 "SLOT-1")
  | ConfirmForDispatch _ _ _ _ _ => fun _ => ok
  | _ => fun x => x
  end (demo_oracle (Err DeOther) X c).

Lemma answered_here {A} (m : CoreSQL A) d : answered m (is_ok (m (mkConn d [])).1) d (db (m (mkConn d [])).2).
Proof. exists [], (m (mkConn d [])).1, (m (mkConn d [])).2. split; [apply surjective_pairing|done]. Qed.

Ltac next_answer :=
  eexists; split; [first [exact (fun H => H) | split; reflexivity | exact (answered_here _ _) | exists false, None; exact (answered_here _ _)]|].

Lemma refused_create_strands_witness :
  existsb asks_fleet (play (stranded_oracle None true) (tryFulfill true 1)).1 = true /\
  existsb asks_fleet (play (stranded_oracle (Some 10%Z) false) (tryFulfill true 1)).1 = false.
Proof.
  split; [vm_compute; reflexivity|].
  assert (Hu : exists d', unfolds "t" 1 demo_db (play (stranded_oracle None true) (tryFulfill true 1)).1 d' /\
    exists d2, unfolds "t" 1 d' (play (stranded_oracle (Some 10%Z) false) (tryFulfill true 1)).1 d2).
  { eexists. split; [cbn; repeat next_answer; reflexivity|]. eexists. cbn. repeat next_answer. reflexivity. }
  destruct Hu as (d' & Hu & d2 & Hu2).
  pose proof (refused_create_strands "t" true 1 _ _ demo_db d'
    [((play (stranded_oracle (Some 10%Z) false) (tryFulfill true 1)).1, (play (stranded_oracle (Some 10%Z) false) (tryFulfill true 1)).2)]
    (play_runs (stranded_oracle None true) (tryFulfill true 1)) Hu) as H.
  refine (proj1 (Forall_inv (H _ _))).
  - cbn. do 12 right. left.
  - refine (one_more "t" 1 true d' d' d2 _ _ [] _ (play_runs _ _) Hu2 _ (no_more _ _ _ _)); [exact (fun h => h)|vm_compute; reflexivity].
Defined.
