(* ===== verification/Compound.v ===== *)
(** How a dig ends (shingo-core/dispatch/compound.go): the teardowns, the
    disposition of the demand when no leg is left to send, and the cascade of a
    cancel.  State, reads and the lane decider are those of DigLock.v.  Each
    operation first disposes of the orders and then of the lanes, which may wake
    others; the two halves are named apart. *)

From S2P Require Import Prelude Status Sql CoreDb Reservations Mouth Yard Capacity GatedPlan Fleet OrderStore Futility Lifecycle Waybill QueueReason Chapters DigLock.

Definition CauseStagedDigFailed : string := "staged-dig-failed".
Definition CauseGateAppendFailed : string := "gate-append-failed".

Section Compound.
Context {F : Type} `{!Backend F, !LaneWakes F}.
Context (book : list Columns) (yard : Yard) (retired : Z -> bool).
Implicit Types w : World F.
Local Notation ListChildOrders := (ListChildOrders book).
Local Notation firstLaneName := (firstLaneName yard).
Local Notation IsCoordinated := (IsCoordinated book).
Local Notation columns_of := (columns_of book).
Local Notation maybeReleaseDigOnLastBlockerOut := (maybeReleaseDigOnLastBlockerOut book yard retired).

(** ** Teardown *)

Definition digLanesHeld (parentOrderID : Z) w : list Z * World F := on_conn (LanesHeldBy parentOrderID) w.

Definition unlock_all (parentOrderID : Z) (held : list Z) w : World F :=
  fold_left (fun w lane => unlock lane parentOrderID w) held w.
Definition wake_all (held : list Z) w : World F :=
  fold_left (fun w lane => EvaluateDwellersSharingGroupWith lane (EvaluateLaneReleases lane w)) held w.

Definition unlockLaneForCompound (parentOrderID : Z) (held : list Z) w : World F :=
  wake_all held (unlock_all parentOrderID held w).

Definition cancel_leg (stationID reason : string) (c : Order) w : World F :=
  in_svc (Lifecycle.CancelOrder c stationID reason (w_svc w)).2 w.

(** [if IsTerminal(c.Status) { continue }; CancelOrder(c, ...)] over a listing. *)
Definition cancel_live (stationID reason : string) (legs : list Order) w : World F :=
  fold_left (fun w c => if IsTerminal (o_status c) then w else cancel_leg stationID reason c w) legs w.

Definition cancelCompoundChildren (parent : Order) (stationID reason : string) (heldLanes : list Z) w : World F :=
  match lift (ListChildOrders (o_id parent)) w with
  | (Err _, w1) => w1
  | (Ok children, w1) =>
      unlockLaneForCompound (o_id parent) heldLanes
        (cancel_live stationID ("parent order cancelled: " +:+ reason) children w1)
  end.

Definition CancelOrderWithCascade (ord : Order) (stationID reason : string) w : World F :=
  let '(heldLanes, w1) := digLanesHeld (o_id ord) w in
  let '(ord', s2) := Lifecycle.CancelOrder ord stationID reason (w_svc w1) in
  cancelCompoundChildren ord' stationID reason heldLanes (in_svc s2 w1).

(** The flag: no sibling was left to cancel, so the advance is started directly. *)
Definition HandleChildOrderFailure (parentOrderID childOrderID : Z) w : bool * World F :=
  match lift (ListChildOrders parentOrderID) w with
  | (Err _, w1) => (false, w1)
  | (Ok children, w1) =>
      match lift (GetOrderRow parentOrderID) w1 with
      | (Err _, w2) => (false, w2)
      | (Ok parent, w2) =>
          let siblings := List.filter (fun c => negb (o_id c =i childOrderID)) children in
          (forallb (fun c => IsTerminal (o_status c)) siblings,
           cancel_live (o_station parent) ReshuffleLegFailedDetail siblings w2)
      end
  end.

(** What is done with the lanes once the orders are disposed of. *)
Inductive After :=
| Keep
| UnlockAll (held : list Z)
| Decide (held : list Z).

Definition finish (parentOrderID : Z) (a : After) w : World F :=
  match a with
  | Keep => w
  | UnlockAll held => unlockLaneForCompound parentOrderID held w
  | Decide held => fold_left (fun w lane => maybeReleaseDigOnLastBlockerOut lane w) held w
  end.

(** A staged parent waits at its mark. *)
Definition waits_at_mark (parent : Order) w : bool := gate_staged parent w && negb (IsTerminal (o_status parent)).

(** Up to the lanes: the error of a failed read, and what to do next. *)
Definition dissolve_legs (parentOrderID : Z) w : outcome error unit * World F * After :=
  let '(heldLanes, w1) := digLanesHeld parentOrderID w in
  match lift (ListChildOrders parentOrderID) w1 with
  | (Err e, w2) => (Err e, w2, Keep)
  | (Ok children, w2) =>
      match lift (GetOrderRow parentOrderID) w2 with
      | (Err e, w3) => (Err e, w3, Keep)
      | (Ok parent, w3) =>
          if negb (o_status parent =s StatusReshuffling) && negb (gate_staged parent w3) then (Ok (), w3, Keep)
          else (Ok (), cancel_live (o_station parent) ReshuffleDissolveDetail children w3,
                if waits_at_mark parent w3 then Decide heldLanes else UnlockAll heldLanes)
      end
  end.

Definition dissolveCompound (parentOrderID : Z) w : outcome error unit * World F :=
  let '(r, w1, a) := dissolve_legs parentOrderID w in (r, finish parentOrderID a w1).

(** ** The chapter's end *)

(** setQueueReason and the other calls on the parent, with its error logged. *)
Definition queue_reason (ord : Order) (code cause : string) (p : QueueParams) w : Order * World F :=
  let '(_, ord', s') := setQueueReason ord code cause p (w_svc w) in (ord', in_svc s' w).

(** The chapter stopped short and no leg of it is misconfigured. *)
Definition return_demand (parent : Order) (children : list Order) (held : list Z) w : World F * After :=
  if waits_at_mark parent w then
    let '(name, w1) := firstLaneName held w in
    ((queue_reason parent QueueStorageRearranging CauseStagedDigFailed (lane_param name) w1).2, Decide held)
  else
    let detail := if chapterEndedInFailure children then ReshuffleLegFailedDetail else ReshuffleDissolveDetail in
    (in_svc (Queue parent "dispatcher" detail (w_svc w)).2 w, UnlockAll held).

(** The chapter finished. *)
Definition resume_demand (parent : Order) (held : list Z) w : World F :=
  if gate_staged parent w then
    let '(p1, w1) := queue_reason parent "" "" no_params w in
    match appendGateTail p1 (default NoPlan (w_plans w1 !! o_id parent)) w1 with
    | (Ok _, _, w2) => w2
    | (Err _, p2, w2) =>
        let '(name, w3) := firstLaneName held w2 in
        (queue_reason p2 QueueWaitingForSlot CauseGateAppendFailed (lane_param name) w3).2
    end
  else if IsCoordinated parent then in_svc (ResumeCompound parent (w_svc w)).2 w
  else
    let s1 := (CompleteCompound parent (w_svc w)).2 in
    in_svc (run_sql (Complete (o_id parent)) s1).2 w.

(** A failed listing reads as no children and a failed load as no parent. *)
Definition chapterDisposition (parentOrderID : Z) w : World F * After :=
  let '(r, w1) := lift (ListChildOrders parentOrderID) w in
  let children := match r with Ok l => l | Err _ => [] end in
  let open := (compoundGenerations children).1 in
  let '(p, w2) := lift (GetOrderRow parentOrderID) w1 in
  let parent := match p with Ok o => Some o | Err _ => None end in
  let '(heldLanes, w3) := digLanesHeld parentOrderID w2 in
  if match parent with
     | Some o => negb (o_status o =s StatusReshuffling) && negb (gate_staged o w3)
     | None => false
     end then (w3, Keep)
  else if digWasDissolved children || hasFailedOrCancelled open then
    match configFailedLeg open with
    | Some broken =>
        (match parent with
         | Some o => in_svc (Fail o (o_station o) "reshuffle_error" (o_error_detail broken) (w_svc w3)).2 w3
         | None => w3
         end, UnlockAll heldLanes)
    | None =>
        let w4 := match parent with
                  | Some o => if hasFailedOrCancelled open
                              then cancel_live (o_station o) ReshuffleLegFailedDetail open w3 else w3
                  | None => w3
                  end in
        if negb (allTerminal open) then (w4, Keep)
        else match parent with
        | Some o => return_demand o children heldLanes w4
        | None => (w4, UnlockAll heldLanes)
        end
    end
  else if negb (allTerminal open) then (w3, Keep)
  else match parent with
  | None => (w3, Decide heldLanes)
  | Some o =>
      if oc_open (columns_of parentOrderID) then (w3, Keep)
      else (resume_demand o heldLanes w3, Decide heldLanes)
  end.

Definition advanceCompoundChapterEnd (parentOrderID : Z) w : World F :=
  let '(w1, a) := chapterDisposition parentOrderID w in finish parentOrderID a w1.
End Compound.

(** ** Frames *)

Lemma advances_cancel ord st reason s : advances s (Lifecycle.CancelOrder ord st reason s).2.
Proof. apply step_advances. apply (step_call (CCancelOrder ord st reason)). done. Qed.

(** A cancel moves no other order's row. *)
Lemma cancel_other ord st reason s id :
  id <> o_id ord -> orders (tables (Lifecycle.CancelOrder ord st reason s).2) !! id = orders (tables s) !! id.
Proof.
  intros Hne. unfold Lifecycle.CancelOrder. destruct (IsTerminal (o_status ord)); [done|].
  set (s1 := if o_vendor_id ord <>s "" then _ else _).
  assert (Ht : tables s1 = tables s) by (unfold s1; by destruct (o_vendor_id ord <>s "")).
  set (ev := event_at _ _ _). pose proof (transition_spec ord StatusCancelled ev s1) as H.
  destruct (transition ord StatusCancelled ev s1) as [[[[]|e] ord'] s2]; cbn in *.
  - destruct H as (_ & _ & (o & row & err & _ & _ & Hos & _) & _). by rewrite Hos, lookup_insert_ne, Ht.
  - destruct H as (_ & _ & [(_ & _ & ->)|[(_ & _ & (Ho & _))|(_ & Hd)]]).
    + by rewrite Ht.
    + by rewrite Ho, Ht.
    + by rewrite Hd, Ht.
Qed.

Lemma steady_persist ord to ev : steady (persist ord to ev).
Proof.
  unfold persist. destruct (IsTerminal to).
  - unfold TerminalizeOrderWithReason, ReleaseByOrder. steadily.
  - unfold UpdateStatusFromWithReason. steadily.
Qed.

Lemma steady_run {A} (m : CoreSQL A) s : steady m -> faults (conn s) = [] -> faults (conn (run_sql m s).2) = [].
Proof. intros Hm Hf. unfold run_sql. specialize (Hm _ Hf). by destruct (m (conn s)). Qed.

Lemma run_actions_conn acts ord ev s : conn (run_actions acts ord ev s) = conn s.
Proof.
  unfold run_actions. revert s. induction acts as [|a acts IH]; intros s; [done|].
  cbn [fold_left]. rewrite IH. by destruct a.
Qed.

Lemma noteFutility_healthy ord to ev s : faults (conn s) = [] -> faults (conn (noteFutility ord to ev s)) = [].
Proof.
  intros Hf. unfold noteFutility. destruct (futility s); [|done].
  destruct (to =s StatusInTransit); [done|]. destruct (negb (IsTerminal to)); [done|].
  assert (Hr : faults (conn (run_sql (EverReachedStatus (o_id ord) StatusInTransit) s).2) = [])
    by (apply steady_run; [unfold EverReachedStatus; steadily|done]).
  destruct (run_sql _ s) as [[[]|] s']; cbn in *; [done| |done]. by destruct (NoteFutileTerminal _ _ _ _ _ _) as [[b d] rep].
Qed.

Lemma transition_healthy ord to ev s : faults (conn s) = [] -> faults (conn (transition ord to ev s).2) = [].
Proof.
  intros Hf. unfold transition. destruct (negb _); [done|].
  pose proof (steady_run _ s (steady_persist ord to (set_prev (o_status ord) ev)) Hf) as H.
  destruct (run_sql _ s) as [[[]|e] s1]; cbn in *; [|done..]. rewrite run_actions_conn. by apply noteFutility_healthy.
Qed.

Lemma cancel_healthy ord st reason s :
  faults (conn s) = [] -> faults (conn (Lifecycle.CancelOrder ord st reason s).2) = [].
Proof.
  intros Hf. unfold Lifecycle.CancelOrder. destruct (IsTerminal (o_status ord)); [done|].
  set (s1 := if o_vendor_id ord <>s "" then _ else _).
  assert (Hc : conn s1 = conn s) by (unfold s1; by destruct (o_vendor_id ord <>s "")).
  pose proof (transition_healthy ord StatusCancelled (event_at ("system:" +:+ st) reason st) s1) as H.
  rewrite Hc in H. specialize (H Hf). by destruct (transition ord StatusCancelled _ s1) as [[r ord'] s2].
Qed.

(** On a healthy connection a cancel leaves the order ended, whoever ended it. *)
Lemma cancel_ends ord st reason s o :
  faults (conn s) = [] -> orders (tables s) !! o_id ord = Some o ->
  (IsTerminal (o_status ord) = true -> o_status o ∈ TerminalStatuses) ->
  ended (o_id ord) (tables (Lifecycle.CancelOrder ord st reason s).2).
Proof.
  intros Hf Ho Hs. destruct (decide (o_status o ∈ TerminalStatuses)) as [Ht|Ht].
  { eapply ended_kept; [apply advances_cancel|]. by exists o. }
  destruct (IsTerminal (o_status ord)) eqn:E; [by destruct Ht; apply Hs|].
  destruct (cancel_always_lands ord o st reason s Hf E Ho Ht) as ((o' & Ho' & Hc) & _).
  exists o'. split; [done|]. rewrite Hc. by apply (contains_true TerminalStatuses).
Qed.

Section ChapterFacts.
Context {F : Type} `{!Backend F, !LaneWakes F}.
Context (book : list Columns) (yard : Yard).
Implicit Types w : World F.

Definition healthy w : Prop := faults (conn (w_svc w)) = [].

Lemma world_eta w : in_svc (with_conn (mkConn (w_tables w) (faults (conn (w_svc w)))) (w_svc w)) w = w.
Proof. destruct w as [[[d fs] fu em vc rp] f pl]. done. Qed.

Lemma lift_query {A} (f : CoreDB -> A) w : healthy w -> lift (query f) w = (Ok (f (w_tables w)), w).
Proof.
  intros Hf. unfold lift, run_sql, query, stmt. rewrite Hf. f_equal.
  pose proof (world_eta w) as H. rewrite Hf in H. exact H.
Qed.

Lemma lift_row id o w : healthy w -> orders (w_tables w) !! id = Some o -> lift (GetOrderRow id) w = (Ok o, w).
Proof.
  intros Hf Ho. pose proof (lift_query (fun d => orders d !! id) w Hf) as H.
  unfold lift, run_sql, GetOrderRow, sbind, Waybill.GetOrder in *.
  destruct (query (fun d => orders d !! id) (conn (w_svc w))) as [r c]. injection H as -> Hw. rewrite Ho. cbn. by rewrite Hw.
Qed.

Definition lanes_of (id : Z) (d : CoreDB) : list Z := map lane_of (List.filter (any_mouth id) (reservations d)).

Lemma held_healthy id w : healthy w -> digLanesHeld id w = (lanes_of id (w_tables w), w).
Proof.
  intros Hf. unfold digLanesHeld, on_conn, LanesHeldBy, LanesHeldByOwner, query, stmt. rewrite Hf. f_equal.
  pose proof (world_eta w) as H. rewrite Hf in H. exact H.
Qed.

Lemma cancel_live_other st reason legs w id :
  id ∉ map o_id legs -> orders (w_tables (cancel_live st reason legs w)) !! id = orders (w_tables w) !! id.
Proof.
  unfold cancel_live. revert w. induction legs as [|c legs IH]; intros w Hin; [done|]. cbn [fold_left].
  rewrite IH by (cbn in Hin; set_solver). destruct (IsTerminal (o_status c)); [done|].
  unfold cancel_leg, w_tables. cbn. apply cancel_other. cbn in Hin. set_solver.
Qed.

(** Cancelling finished legs is nothing. *)
Lemma cancel_live_done st reason legs w : allTerminal legs = true -> cancel_live st reason legs w = w.
Proof.
  unfold cancel_live, allTerminal. revert w. induction legs as [|c legs IH]; intros w; [done|]. cbn.
  intros [-> H]%andb_true_iff. auto.
Qed.

Lemma landed_row ord to d d' : landed ord to d d' -> exists o', orders d' !! o_id ord = Some o' /\ o_status o' = to.
Proof. intros (o & row & err & _ & _ & Hos & _). eexists. rewrite Hos, lookup_insert_eq. by split. Qed.

Lemma transition_lands ord to ev s o :
  faults (conn s) = [] -> IsValidTransition (o_status ord) to = true ->
  orders (tables s) !! o_id ord = Some o -> o_status o = o_status ord -> o_status o ∉ TerminalStatuses ->
  exists ord' s' o', transition ord to ev s = (Ok (), ord', s') /\ faults (conn s') = [] /\
    orders (tables s') !! o_id ord = Some o' /\ o_status o' = to.
Proof.
  intros Hf Hv Ho Hs Hl.
  assert (Hx : exists ord' s', transition ord to ev s = (Ok (), ord', s')).
  { destruct (IsTerminal to) eqn:Ht; [by eapply terminal_lands|by eapply cas_lands]. }
  destruct Hx as (ord' & s' & E). pose proof (transition_spec ord to ev s) as H.
  pose proof (transition_healthy ord to ev s Hf) as H'. rewrite E in *. cbn in *.
  destruct H as (_ & _ & (o' & Ho' & Hs')%landed_row & _). by exists ord', s', o'.
Qed.

(** ** The disposition, as a rule *)

Definition expected (children : list Order) (coordinated still_open : bool) (held : list Z) : Status * After :=
  let open := (compoundGenerations children).1 in
  if digWasDissolved children || hasFailedOrCancelled open then
    match configFailedLeg open with
    | Some _ => (StatusFailed, UnlockAll held)
    | None => if allTerminal open then (StatusQueued, UnlockAll held) else (StatusReshuffling, Keep)
    end
  else if negb (allTerminal open) || still_open then (StatusReshuffling, Keep)
  else (if coordinated then StatusQueued else StatusConfirmed, Decide held).

Section Parent.
Context (pid : Z) (p : Order) (w : World F).
Hypothesis Hf : healthy w.
Hypothesis Hp : orders (w_tables w) !! pid = Some p.
Hypothesis Hid : o_id p = pid.
Hypothesis Hst : o_status p = StatusReshuffling.

Lemma parent_live : o_status p ∉ TerminalStatuses.
Proof. rewrite Hst. by apply (contains_false TerminalStatuses). Qed.

Lemma parent_row : orders (tables (w_svc w)) !! o_id p = Some p.
Proof. by rewrite Hid. Qed.

Lemma fail_lands station code detail : exists o',
  orders (tables (Fail p station code detail (w_svc w)).2) !! pid = Some o' /\ o_status o' = StatusFailed.
Proof.
  unfold Fail, FailWithRef. rewrite Hst. change (IsTerminal StatusReshuffling) with false. cbv iota.
  set (ev := mkEvent _ _ _ _ _ _ _ _).
  destruct (transition_lands p StatusFailed ev (w_svc w) p) as (ord' & s' & o' & E & _ & Ho' & Hs');
    [done|by rewrite Hst|apply parent_row|done|apply parent_live|]. rewrite E. exists o'. by rewrite <- Hid.
Qed.

Lemma queue_lands actor reason : exists o',
  orders (tables (Queue p actor reason (w_svc w)).2) !! pid = Some o' /\ o_status o' = StatusQueued.
Proof.
  unfold Queue. set (ev := event _ _).
  destruct (transition_lands p StatusQueued ev (w_svc w) p) as (ord' & s' & o' & E & _ & Ho' & Hs');
    [done|by rewrite Hst|apply parent_row|done|apply parent_live|]. rewrite E. exists o'. by rewrite <- Hid.
Qed.

Lemma resume_lands : exists o',
  orders (tables (ResumeCompound p (w_svc w)).2) !! pid = Some o' /\ o_status o' = StatusQueued.
Proof.
  pose proof (resume_tells_edge_first p (w_svc w)) as H.
  assert (Hok : (ResumeCompound p (w_svc w)).1.1 = Ok ()).
  { unfold ResumeCompound. set (ev := event_at _ _ _).
    destruct (transition_lands p StatusQueued ev (w_svc w) p) as (ord' & s' & o' & E & _ & Ho' & Hs');
      [done|by rewrite Hst|apply parent_row|done|apply parent_live|]. rewrite E.
    by destruct (run_sql _ s') as [[]]. }
  destruct (ResumeCompound p (w_svc w)) as [[r ord'] s']. cbn in *. subst r.
  destruct (H Hst) as (_ & o' & Ho' & Hs' & _). exists o'. by rewrite <- Hid.
Qed.

Lemma complete_lands : exists o',
  orders (tables (run_sql (Complete (o_id p)) (CompleteCompound p (w_svc w)).2).2) !! pid = Some o' /\
  o_status o' = StatusConfirmed.
Proof.
  unfold CompleteCompound. set (ev := event_at _ _ _).
  destruct (transition_lands p StatusConfirmed ev (w_svc w) p) as (ord' & s' & o' & E & _ & Ho' & Hs');
    [done|by rewrite Hst|apply parent_row|done|apply parent_live|]. rewrite E. cbn [snd].
  destruct (ad_keep _ _ (Complete_advances (o_id p) s') (o_id p) o' Ho') as (o2 & Ho2 & Hs2).
  - rewrite Hs'. by apply (contains_true TerminalStatuses).
  - exists o2. rewrite <- Hid, Hs2. by split.
Qed.
End Parent.

(** What confirms a demand: nothing runs, and a lost leg belongs to a chapter
    that ended after it. *)
Lemma expected_confirmed children coordinated still_open held :
  (expected children coordinated still_open held).1 = StatusConfirmed ->
  forall c, c ∈ children -> IsTerminal (o_status c) = true /\
    (lost_leg c = true -> exists e, e ∈ children /\ endsItsChapter e = true /\ (o_id c <= o_id e)%Z).
Proof.
  unfold expected. destruct (digWasDissolved children || _) eqn:Es; [by repeat case_match|].
  destruct (allTerminal _) eqn:Ea; [|done]. destruct still_open; [done|]. destruct coordinated; [done|]. intros _ c Hc.
  apply orb_false_iff in Es as [_ Hl]. unfold hasFailedOrCancelled in Hl. rewrite existsb_false in Hl.
  unfold allTerminal in Ea. rewrite forallb_true in Ea.
  destruct (is_open children c) eqn:Ho.
  - apply is_open_true in Ho. assert (Hin : c ∈ (compoundGenerations children).1) by (by apply open_spec).
    split; [by apply (Ea c)|]. by rewrite (Hl c).
  - unfold is_open, in_closed in Ho. pose proof (boundary_spec children None) as Hb.
    destruct (chapter_boundary children None) as [x|]; [|done]. apply negb_false_iff, andb_true_iff in Ho as [Ht Hi].
    split; [done|]. intros _. destruct Hb as ([?|(e & He & Ee & <-)] & _); [done|]. exists e.
    split_and!; [done|done|]. by apply Z.leb_le.
Qed.

Lemma expected_failed children coordinated still_open held :
  (expected children coordinated still_open held).1 = StatusFailed ->
  exists c, c ∈ children /\ o_status c = StatusFailed /\ IsConfigFailure (o_error_detail c) = true.
Proof.
  unfold expected. destruct (_ || _); [|by repeat case_match].
  destruct (configFailedLeg _) as [c|] eqn:Ec; [|by repeat case_match]. intros _. exists c.
  apply List.find_some in Ec as [Hin Hc]. apply list_elem_of_In in Hin. apply open_spec in Hin as [Hin _].
  apply andb_true_iff in Hc as [Hs Hc]. by breflect.
Qed.

Lemma disposition_rule (pid : Z) (p : Order) (w : World F) :
  healthy w -> orders (w_tables w) !! pid = Some p -> o_id p = pid ->
  o_status p = StatusReshuffling -> gate_staged p w = false ->
  pid ∉ map o_id (child_rows book pid (w_tables w)) ->
  let '(w', a) := chapterDisposition book yard pid w in
  exists p', orders (w_tables w') !! pid = Some p' /\
    (o_status p', a) = expected (child_rows book pid (w_tables w)) (IsCoordinated book p) (oc_open (columns_of book pid))
      (lanes_of pid (w_tables w)).
Proof.
  intros Hf Hp Hid Hst Hg Hself. set (children := child_rows book pid (w_tables w)) in *.
  unfold chapterDisposition, ListChildOrders. rewrite (lift_query _ w Hf), (lift_row pid p w Hf Hp), (held_healthy pid w Hf).
  fold children. rewrite Hst. change (StatusReshuffling =s StatusReshuffling) with true. cbn [negb andb].
  unfold expected. destruct (digWasDissolved children || hasFailedOrCancelled _) eqn:Es.
  - destruct (configFailedLeg _) as [broken|].
    + destruct (fail_lands pid p w Hf Hp Hid Hst (o_station p) "reshuffle_error" (o_error_detail broken)) as (o' & Ho' & Hs').
      exists o'. by rewrite <- Hs'.
    + set (w4 := if hasFailedOrCancelled _ then _ else w). destruct (allTerminal _) eqn:Ea; cbn [negb].
      * assert (w4 = w) as -> by (unfold w4; case_match; [by apply cancel_live_done|done]).
        unfold return_demand, waits_at_mark. rewrite Hg. cbn [andb].
        match goal with |- context [Queue p ?a ?d] => destruct (queue_lands pid p w Hf Hp Hid Hst a d) as (o' & Ho' & Hs') end.
        exists o'. by rewrite <- Hs'.
      * exists p. rewrite <- Hst. split; [|done]. unfold w4. case_match; [|done].
        rewrite cancel_live_other; [done|]. intros Hin. apply Hself. apply list_elem_of_fmap in Hin as (c & -> & Hc).
        apply open_spec in Hc as [Hc _]. apply list_elem_of_fmap. by exists c.
  - destruct (allTerminal _); cbn [negb orb]; [|exists p; by rewrite <- Hst].
    destruct (oc_open (columns_of book pid)); [exists p; by rewrite <- Hst|]. unfold resume_demand. rewrite Hg.
    destruct (IsCoordinated book p).
    + destruct (resume_lands pid p w Hf Hp Hid Hst) as (o' & Ho' & Hs'). exists o'. by rewrite <- Hs'.
    + destruct (complete_lands pid p w Hf Hp Hid Hst) as (o' & Ho' & Hs'). exists o'. by rewrite <- Hs'.
Qed.

(** C27. A dig that fails does not fail its demand.  On a healthy connection, with
    no leg left to send, the stored row of a reshuffling demand and what becomes of
    its lanes are exactly what the rule [expected] says: the demand fails only for
    a leg of the open chapter that somebody misconfigured; a chapter that stopped
    short sends it back to the queue once nothing moves and gives its lanes up; a
    chapter still running, or declared open, leaves it alone; and a finished one
    resumes it, or confirms it when it has no plan of its own.  So a demand is
    confirmed only when every leg has ended and each lost one belongs to a chapter
    closed after it. *)
Theorem chapter_disposition (pid : Z) (p : Order) (w : World F) :
  healthy w -> orders (w_tables w) !! pid = Some p -> o_id p = pid ->
  o_status p = StatusReshuffling -> gate_staged p w = false ->
  pid ∉ map o_id (child_rows book pid (w_tables w)) ->
  let children := child_rows book pid (w_tables w) in
  let '(w', a) := chapterDisposition book yard pid w in
  exists p', orders (w_tables w') !! pid = Some p' /\
    (o_status p', a) = expected children (IsCoordinated book p) (oc_open (columns_of book pid)) (lanes_of pid (w_tables w)) /\
    (o_status p' = StatusFailed ->
       exists c, c ∈ children /\ o_status c = StatusFailed /\ IsConfigFailure (o_error_detail c) = true) /\
    (o_status p' = StatusConfirmed ->
       forall c, c ∈ children -> IsTerminal (o_status c) = true /\
         (lost_leg c = true -> exists e, e ∈ children /\ endsItsChapter e = true /\ (o_id c <= o_id e)%Z)).
Proof.
  intros Hf Hp Hid Hst Hg Hself children. pose proof (disposition_rule pid p w Hf Hp Hid Hst Hg Hself) as H.
  destruct (chapterDisposition book yard pid w) as [w' a]. destruct H as (p' & Hp' & He). exists p'.
  split_and!; [done|done| |]; intros Hs; apply (f_equal fst) in He; cbn [fst] in He; rewrite Hs in He; symmetry in He;
    [by eapply expected_failed|by eapply expected_confirmed].
Qed.
End ChapterFacts.

(** ** The cascade *)

(** Rows are stored under their id and carry a status of the vocabulary. *)
Definition rows_wf (d : CoreDB) : Prop :=
  forall id o, orders d !! id = Some o -> o_id o = id /\ o_status o ∈ AllStatuses.

Lemma rows_wf_landed ord to d d' : landed ord to d d' -> to ∈ AllStatuses -> rows_wf d -> rows_wf d'.
Proof.
  intros (o & row & err & Ho & _ & Hos & _) Hto Hw id x Hx. rewrite Hos in Hx.
  destruct (decide (id = o_id ord)) as [->|Hne].
  - rewrite lookup_insert_eq in Hx. injection Hx as <-. split; [by apply Hw in Ho as []|done].
  - rewrite lookup_insert_ne in Hx by done. by apply Hw.
Qed.

Lemma rows_wf_cancel ord st reason s :
  rows_wf (tables s) -> rows_wf (tables (Lifecycle.CancelOrder ord st reason s).2).
Proof.
  intros Hw. unfold Lifecycle.CancelOrder. destruct (IsTerminal (o_status ord)); [done|].
  set (s1 := if o_vendor_id ord <>s "" then _ else _).
  assert (Ht : tables s1 = tables s) by (unfold s1; by destruct (o_vendor_id ord <>s "")).
  set (ev := event_at _ _ _). pose proof (transition_spec ord StatusCancelled ev s1) as H.
  destruct (transition ord StatusCancelled ev s1) as [[[[]|e] ord'] s2]; cbn in *.
  - destruct H as (_ & _ & H & _). rewrite Ht in H. eapply rows_wf_landed; [done| |done]. by apply (contains_true AllStatuses).
  - destruct H as (_ & _ & [(_ & _ & ->)|[(_ & _ & (Ho & _))|(_ & Hd)]]).
    + by rewrite Ht.
    + intros id o. rewrite Ho, Ht. apply Hw.
    + by rewrite Hd, Ht.
Qed.

(** The leg's row is there, and has ended if the listing says so. *)
Definition listed (d : CoreDB) (c : Order) : Prop :=
  exists o, orders d !! o_id c = Some o /\ (IsTerminal (o_status c) = true -> o_status o ∈ TerminalStatuses).

Section Cascade.
Context {F : Type} (book : list Columns).
Implicit Types w : World F.

Lemma ended_listed d c : ended (o_id c) d -> listed d c.
Proof. intros (o & Ho & Ht). by exists o. Qed.

Lemma cancel_leg_listed st reason c c' w :
  healthy w -> listed (w_tables w) c -> listed (w_tables w) c' -> listed (w_tables (cancel_leg st reason c w)) c'.
Proof.
  intros Hf (o & Ho & Hs) Hl. destruct (decide (o_id c' = o_id c)) as [Heq|Hne].
  - apply ended_listed. rewrite Heq. unfold cancel_leg, w_tables. cbn. by eapply cancel_ends.
  - destruct Hl as (o' & Ho' & Hs'). exists o'. split; [|done]. unfold cancel_leg, w_tables. cbn.
    rewrite cancel_other by done. exact Ho'.
Qed.

Lemma cancel_live_spec st reason legs w :
  healthy w -> (forall c, c ∈ legs -> listed (w_tables w) c) ->
  let w' := cancel_live st reason legs w in
  healthy w' /\ advances (w_svc w) (w_svc w') /\ forall c, c ∈ legs -> ended (o_id c) (w_tables w').
Proof.
  unfold cancel_live. revert w. induction legs as [|c legs IH]; intros w Hf Hl.
  { cbn. split_and!; [done|reflexivity|]. by intros c ?%elem_of_nil. }
  cbn [fold_left]. set (w1 := if IsTerminal (o_status c) then w else cancel_leg st reason c w).
  assert (Hlc : listed (w_tables w) c) by (apply Hl; set_solver).
  assert (H1 : healthy w1 /\ advances (w_svc w) (w_svc w1) /\ ended (o_id c) (w_tables w1) /\
    forall c', c' ∈ legs -> listed (w_tables w1) c').
  { unfold w1. destruct (IsTerminal (o_status c)) eqn:Ht.
    - split_and!; [done|reflexivity| |intros; apply Hl; set_solver].
      destruct Hlc as (o & Ho & Hs). exists o. split; [done|]. by apply Hs.
    - split_and!.
      + by apply cancel_healthy.
      + apply advances_cancel.
      + destruct Hlc as (o & Ho & Hs). unfold cancel_leg, w_tables. cbn. by eapply cancel_ends.
      + intros c' Hc'. apply cancel_leg_listed; [done|done|]. apply Hl. set_solver. }
  destruct H1 as (Hf1 & Ha1 & He1 & Hl1). destruct (IH w1 Hf1 Hl1) as (Hf2 & Ha2 & He2). split_and!; [done|by etransitivity|].
  intros c' [->|Hc']%elem_of_cons; [|auto]. by eapply ended_kept.
Qed.

Context `{!LaneWakes F}.

Lemma unlock_advances lane owner w : advances (w_svc w) (w_svc (unlock lane owner w)).
Proof.
  unfold unlock, Mouth.Unlock, ReleaseLane, exec, stmt. cbn.
  destruct (faults (conn (w_svc w))) as [|[] fs]; by apply advances_same_orders.
Qed.

Lemma unlock_all_advances pid held w : advances (w_svc w) (w_svc (unlock_all pid held w)).
Proof.
  unfold unlock_all. revert w. induction held as [|l held IH]; intros w; [reflexivity|]. cbn. etransitivity; [apply unlock_advances|apply IH].
Qed.

Lemma child_row_listed pid d c : rows_wf d -> c ∈ child_rows book pid d -> listed d c /\ orders d !! o_id c = Some c.
Proof.
  intros Hw Hc. unfold child_rows in Hc. apply list_elem_of_omap in Hc as (col & _ & Hc).
  destruct (Hw _ _ Hc) as [Hid Hk]. rewrite <- Hid in Hc. split; [|done]. exists c. split; [done|]. intros Ht. by apply terminal_in_set.
Qed.

(** C30. Cancelling a demand stops its whole dig before any lane is woken.  On a
    healthy connection, with any snapshot of the demand that does not claim an end
    the row has not reached, the cascade leaves the demand and every one of its legs
    ended - in flight or not, whatever chapter they belong to - in the world in which
    the lanes are woken, and the lanes it wakes are exactly those the dig held when
    the cancel came in.  (What the woken lanes do with that world is not part of
    this.) *)
Theorem cancel_cascade_ends (ord : Order) (stationID reason : string) (w : World F) :
  healthy w -> rows_wf (w_tables w) -> listed (w_tables w) ord ->
  exists w1, CancelOrderWithCascade book ord stationID reason w = wake_all (lanes_of (o_id ord) (w_tables w)) w1 /\
  ended (o_id ord) (w_tables w1) /\
  forall col, col ∈ book -> oc_parent col = Some (o_id ord) -> is_Some (orders (w_tables w) !! oc_id col) ->
    ended (oc_id col) (w_tables w1).
Proof.
  intros Hf Hw Hl. unfold CancelOrderWithCascade. rewrite (held_healthy _ w Hf).
  pose proof (cancel_healthy ord stationID reason (w_svc w) Hf) as Hf2.
  pose proof (rows_wf_cancel ord stationID reason (w_svc w) Hw) as Hw2.
  assert (He2 : ended (o_id ord) (tables (Lifecycle.CancelOrder ord stationID reason (w_svc w)).2)).
  { destruct Hl as (o & Ho & Hs). by eapply cancel_ends. }
  assert (Hid : o_id (Lifecycle.CancelOrder ord stationID reason (w_svc w)).1 = o_id ord).
  { unfold Lifecycle.CancelOrder. destruct (IsTerminal (o_status ord)); [done|].
    set (s1 := if o_vendor_id ord <>s "" then _ else _). set (ev := event_at _ _ _).
    pose proof (transition_spec ord StatusCancelled ev s1) as H.
    destruct (transition ord StatusCancelled ev s1) as [[[[]|e] ord'] s2]; cbn in *; [by destruct H as (_ & -> & _)|by destruct H as (-> & _)]. }
  assert (Ho2 : forall id, id <> o_id ord ->
    orders (tables (Lifecycle.CancelOrder ord stationID reason (w_svc w)).2) !! id = orders (tables (w_svc w)) !! id)
    by (intros; by apply cancel_other).
  destruct (Lifecycle.CancelOrder ord stationID reason (w_svc w)) as [ord' s2]. cbn [fst snd] in *.
  unfold cancelCompoundChildren, ListChildOrders. rewrite Hid. set (w2 := in_svc s2 w). assert (Hh2 : healthy w2) by done.
  rewrite (lift_query _ w2 Hh2). set (legs := child_rows book (o_id ord) (w_tables w2)).
  destruct (cancel_live_spec stationID ("parent order cancelled: " +:+ reason) legs w2 Hh2) as (_ & Ha3 & He3).
  { intros c Hc. by apply (child_row_listed (o_id ord)). }
  set (w3 := cancel_live _ _ legs w2) in *. pose proof (unlock_all_advances (o_id ord) (lanes_of (o_id ord) (w_tables w)) w3) as Ha4.
  eexists. split; [reflexivity|]. split; [by do 2 (eapply ended_kept; [done|])|]. intros col Hcol Hpar [o Ho]. eapply ended_kept; [done|].
  destruct (decide (oc_id col = o_id ord)) as [->|Hne]; [by eapply ended_kept|].
  assert (Hrow : orders (w_tables w2) !! oc_id col = Some o) by (etrans; [by apply Ho2|done]).
  destruct (Hw2 _ _ Hrow) as [Hido _]. rewrite <- Hido. apply He3. unfold legs, child_rows. apply list_elem_of_omap. exists col.
  split; [|done]. apply elem_of_isort, elem_of_lfilter. split; [done|]. by apply claimed_is_true.
Qed.
End Cascade.

(** ** A dissolved dig re-plans *)

(** A cancel that lands on the row the caller read writes its reason. *)
Lemma cancel_row c st reason s :
  faults (conn s) = [] -> orders (tables s) !! o_id c = Some c ->
  IsTerminal (o_status c) = false -> exists c', orders (tables (Lifecycle.CancelOrder c st reason s).2) !! o_id c = Some c' /\
    o_id c' = o_id c /\ o_status c' = StatusCancelled /\ o_error_detail c' = reason.
Proof.
  intros Hf Ho Ht. unfold Lifecycle.CancelOrder. rewrite Ht.
  set (s1 := if o_vendor_id c <>s "" then _ else _).
  assert (Hc : conn s1 = conn s) by (unfold s1; by destruct (o_vendor_id c <>s "")).
  assert (Hv : IsValidTransition (o_status c) StatusCancelled = true).
  { pose proof (vocab_check (fun s => IsTerminal s || IsValidTransition s StatusCancelled)
      eq_refl _ (live_is_known _ Ht)) as H. cbv beta in H. by rewrite Ht in H. }
  unfold transition. rewrite Hv. cbn [negb]. unfold run_sql, persist. change (IsTerminal StatusCancelled) with true. cbv iota.
  rewrite Hc. match goal with |- context [TerminalizeOrderWithReason ?a ?b ?c ?d ?e] =>
    pose proof (terminalize_no_fault a b c d e Hf) as Hok; pose proof (terminalize_ok a b c d e) as Hspec;
    destruct (TerminalizeOrderWithReason a b c d e) as [[won|err] c'] end; [|done].
  specialize (Hspec won c' eq_refl). symmetry in Hspec. apply terminalize_spec_shape in Hspec as (Hw & Hos & _).
  assert (won = true) as -> by (apply Hw; exists c; split; [done|by apply live_not_terminal]).
  cbn [snd]. rewrite run_actions_tables, noteFutility_tables. unfold tables. cbn [conn with_conn]. rewrite Hos, lookup_alter_eq.
  unfold tables in Ho. rewrite Ho. eexists. split; [reflexivity|]. cbn. split_and!; [done|done|].
  done.
Qed.

Section Dissolve.
Context {F : Type} `{!Backend F, !LaneWakes F}.
Context (book : list Columns) (yard : Yard).
Implicit Types w : World F.

(** The row of a leg after the chapter was closed with [reason]. *)
Definition closed_with (reason : string) (d : CoreDB) (c : Order) : Prop :=
  exists c', orders d !! o_id c = Some c' /\ o_id c' = o_id c /\
    (if IsTerminal (o_status c) then c' = c else o_status c' = StatusCancelled /\ o_error_detail c' = reason).

Lemma cancel_live_rows st reason legs w :
  healthy w -> NoDup (map o_id legs) ->
  (forall c, c ∈ legs -> orders (w_tables w) !! o_id c = Some c) ->
  healthy (cancel_live st reason legs w) /\
  forall c, c ∈ legs -> closed_with reason (w_tables (cancel_live st reason legs w)) c.
Proof.
  intros Hf. revert w Hf. induction legs as [|c legs IH]; intros w Hf Hnd Hl.
  { split; [done|]. by intros c ?%elem_of_nil. }
  cbn [map] in Hnd. apply NoDup_cons in Hnd as [Hc Hnd].
  change (cancel_live st reason (c :: legs) w) with
    (cancel_live st reason legs (if IsTerminal (o_status c) then w else cancel_leg st reason c w)).
  set (w1 := if IsTerminal (o_status c) then w else _).
  assert (H1 : healthy w1 /\ closed_with reason (w_tables w1) c /\ forall c', c' ∈ legs -> orders (w_tables w1) !! o_id c' = Some c').
  { unfold w1, closed_with. destruct (IsTerminal (o_status c)) eqn:Ht.
    - split_and!; [done| |intros; apply Hl; set_solver]. exists c. split_and!; [apply Hl; set_solver|done..].
    - split_and!; [by apply cancel_healthy| |].
      + destruct (cancel_row c st reason (w_svc w) Hf) as (c' & Ho & Hi & Hs & Hd); [apply Hl; set_solver|done|]. by exists c'.
      + intros c' Hc'. unfold cancel_leg, w_tables. cbn. rewrite cancel_other; [apply Hl; set_solver|].
        intros Heq. apply Hc. rewrite <- Heq. apply list_elem_of_fmap. by exists c'. }
  destruct H1 as (Hf1 & (c1 & Ho1 & Hi1 & Hs1) & Hl1). destruct (IH w1 Hf1 Hnd Hl1) as [Hf2 H2]. split; [done|].
  intros c' [->|Hc']%elem_of_cons; [|auto]. exists c1. split_and!; [|done|done].
  by rewrite cancel_live_other.
Qed.

(** Every leg as the dissolve leaves it. *)
Lemma dissolved_children st legs d d' pid :
  legs = child_rows book pid d -> rows_wf d -> (forall id, is_Some (orders d' !! id) -> is_Some (orders d !! id)) ->
  (forall c, c ∈ legs -> closed_with ReshuffleDissolveDetail d' c) ->
  st ∈ legs -> IsTerminal (o_status st) = false -> (forall c, c ∈ legs -> (o_id c <= o_id st)%Z) ->
  digWasDissolved (child_rows book pid d') = true /\ allTerminal (compoundGenerations (child_rows book pid d')).1 = true /\
  (compoundGenerations (child_rows book pid d')).1 = [].
Proof.
  intros El Hw Hback Hcl Hst Hlive Hmax.
  assert (Hof : forall c', c' ∈ child_rows book pid d' -> exists c, c ∈ legs /\ orders d' !! o_id c = Some c').
  { intros c' Hc'. unfold child_rows in Hc'. apply list_elem_of_omap in Hc' as (col & Hcol & Hc').
    destruct (Hback (oc_id col)) as [c Hc]; [by eexists|]. exists c. rewrite El. split.
    - unfold child_rows. apply list_elem_of_omap. by exists col.
    - by destruct (Hw _ _ Hc) as [-> _]. }
  assert (Hto : forall c c', c ∈ legs -> orders d' !! o_id c = Some c' -> c' ∈ child_rows book pid d').
  { intros c c' Hc Hc'. rewrite El in Hc. unfold child_rows in *. apply list_elem_of_omap in Hc as (col & Hcol & Hc).
    apply list_elem_of_omap. exists col. split; [done|]. by destruct (Hw _ _ Hc) as [<- _]. }
  destruct (Hcl st Hst) as (st' & Hst' & Hsid & Hss). rewrite Hlive in Hss. destruct Hss as [Hs1 Hs2].
  assert (Hend : endsItsChapter st' = true) by (unfold endsItsChapter; rewrite Hs1, Hs2; done).
  assert (Hclosed : forall c', c' ∈ child_rows book pid d' -> ~ stays_open (child_rows book pid d') c').
  { intros c' (c & Hc & Hc')%Hof. destruct (Hcl c Hc) as (c1 & Hc1 & Hid & Hs). rewrite Hc1 in Hc'. injection Hc' as ->.
    intros [Hn|Hn].
    - destruct (IsTerminal (o_status c)) eqn:Ht; [rewrite Hs in Hn; congruence|]. destruct Hs as [Hs _]. by rewrite Hs in Hn.
    - specialize (Hn st' (Hto st st' Hst Hst') Hend). specialize (Hmax c Hc). lia. }
  assert (Hnil : (compoundGenerations (child_rows book pid d')).1 = []).
  { destruct (compoundGenerations _).1 as [|x l] eqn:E; [done|]. assert (Hx : x ∈ x :: l) by set_solver.
    rewrite <- E in Hx. apply open_spec in Hx as [Hx1 Hx2]. by destruct (Hclosed x Hx1). }
  split_and!; [|by rewrite Hnil|done]. apply dissolved_spec. split; [|done]. apply existsb_true. exists st'. split; [|done].
  by eapply Hto.
Qed.
Lemma cancel_live_plans st reason legs w : w_plans (cancel_live st reason legs w) = w_plans w.
Proof.
  unfold cancel_live. revert w. induction legs as [|c legs IH]; intros w; [done|]. cbn. rewrite IH.
  by destruct (IsTerminal (o_status c)).
Qed.

Lemma cancel_live_back st reason legs w id :
  (forall c, c ∈ legs -> orders (w_tables w) !! o_id c = Some c) ->
  is_Some (orders (w_tables (cancel_live st reason legs w)) !! id) -> is_Some (orders (w_tables w) !! id).
Proof.
  intros Hl H. destruct (decide (id ∈ map o_id legs)) as [Hin|Hin]; [|by rewrite cancel_live_other in H].
  apply list_elem_of_fmap in Hin as (c & -> & Hc). rewrite Hl by done. by eexists.
Qed.

(** C29. A dissolved dig returns its demand to the queue.  On a healthy connection,
    for a reshuffling demand whose newest leg has not ended yet: the dissolve ends
    every leg, leaves the demand's own row alone and gives the lanes up; and when
    the chapter's end is reached next, it reads the dissolve and queues the demand
    for a new plan - it neither fails it nor mistakes the stop for success. *)
Theorem dissolved_demand_replans (pid : Z) (p newest : Order) (w : World F) :
  healthy w -> rows_wf (w_tables w) -> orders (w_tables w) !! pid = Some p ->
  o_status p = StatusReshuffling -> gate_staged p w = false ->
  let children := child_rows book pid (w_tables w) in
  pid ∉ map o_id children -> NoDup (map o_id children) ->
  newest ∈ children -> IsTerminal (o_status newest) = false -> (forall c, c ∈ children -> (o_id c <= o_id newest)%Z) ->
  let '(r, w1, a) := dissolve_legs book pid w in
  r = Ok () /\ a = UnlockAll (lanes_of pid (w_tables w)) /\ orders (w_tables w1) !! pid = Some p /\
  (forall c, c ∈ children -> ended (o_id c) (w_tables w1)) /\
  let '(w2, a2) := chapterDisposition book yard pid w1 in
  exists p', orders (w_tables w2) !! pid = Some p' /\ o_status p' = StatusQueued /\
    a2 = UnlockAll (lanes_of pid (w_tables w1)).
Proof.
  intros Hf Hw Hp Hst Hg children Hself Hnd Hn Hlive Hmax. destruct (Hw _ _ Hp) as [Hid _].
  assert (Hl : forall c, c ∈ children -> listed (w_tables w) c /\ orders (w_tables w) !! o_id c = Some c)
    by (intros c; by apply child_row_listed).
  unfold dissolve_legs, ListChildOrders. rewrite (held_healthy pid w Hf), (lift_query _ w Hf), (lift_row pid p w Hf Hp).
  fold children. rewrite Hst. change (StatusReshuffling =s StatusReshuffling) with true. cbn [negb andb].
  unfold waits_at_mark. rewrite Hg. cbn [andb]. set (w1 := cancel_live _ _ children w).
  destruct (cancel_live_rows (o_station p) ReshuffleDissolveDetail children w Hf Hnd) as [Hf1 Hcl]; [by intros c [_ ?]%Hl|].
  fold w1 in Hf1, Hcl.
  assert (Hp1 : orders (w_tables w1) !! pid = Some p) by (unfold w1; by rewrite cancel_live_other).
  assert (Hback : forall id, is_Some (orders (w_tables w1) !! id) -> is_Some (orders (w_tables w) !! id))
    by (intros id; apply cancel_live_back; by intros c [_ ?]%Hl).
  split_and!; [done|done|done| |].
  - intros c Hc. eapply cancel_live_spec; [done|by intros c' [? _]%Hl|done].
  - destruct (dissolved_children newest children (w_tables w) (w_tables w1) pid eq_refl Hw Hback Hcl Hn Hlive Hmax) as (Hd & Ha & Ho).
    assert (Hself1 : pid ∉ map o_id (child_rows book pid (w_tables w1))).
    { intros (c' & -> & Hc')%list_elem_of_fmap. unfold child_rows in Hc'. apply list_elem_of_omap in Hc' as (col & Hcol & Hc').
      destruct (Hback (oc_id col)) as [c Hc]; [by eexists|]. apply Hself. apply list_elem_of_fmap. exists c.
      assert (Hin : c ∈ children) by (unfold children, child_rows; apply list_elem_of_omap; by exists col).
      split; [|done]. destruct (Hcl c Hin) as (c1 & Hc1 & Hi1 & _). destruct (Hw _ _ Hc) as [Ec _]. rewrite Ec, Hc' in Hc1. by injection Hc1 as <-. }
    assert (Hg1 : gate_staged p w1 = false).
    { rewrite <- Hg. unfold gate_staged, w1. by rewrite cancel_live_plans. }
    pose proof (disposition_rule book yard pid p w1 Hf1 Hp1 Hid Hst Hg1 Hself1) as H.
    destruct (chapterDisposition book yard pid w1) as [w2 a2]. destruct H as (p' & Hp' & He). exists p'. split; [done|].
    unfold expected in He. rewrite Hd, Ho in He. cbn in He. by injection He as -> ->.
Qed.
End Dissolve.

(** ** Witnesses *)

Lemma dig_rows_wf leg6 leg7 :
  o_id leg6 = 6%Z -> o_status leg6 ∈ AllStatuses -> o_id leg7 = 7%Z -> o_status leg7 ∈ AllStatuses ->
  rows_wf (dig_db leg6 leg7).
Proof.
  intros H1 H2 H3 H4 id o Ho. apply elem_of_list_to_map_2 in Ho.
  repeat (apply elem_of_cons in Ho as [[= -> ->]|Ho]); [|done|done|by apply elem_of_nil in Ho].
  split; [done|]. by apply (contains_true AllStatuses).
Qed.

Lemma chapter_disposition_witness :
  let '(w', a) := chapterDisposition dig_book dig_yard 1
    (dig_world [] (leg 6 StatusConfirmed "") (leg 7 StatusFailed "robot fault")) in
  exists p', orders (w_tables w') !! 1%Z = Some p' /\ o_status p' = StatusQueued /\ a = UnlockAll [30%Z].
Proof.
  pose proof (chapter_disposition dig_book dig_yard 1 (demo_order 1 StatusReshuffling)
    (dig_world [] (leg 6 StatusConfirmed "") (leg 7 StatusFailed "robot fault"))) as H.
  destruct (chapterDisposition dig_book dig_yard 1 _) as [w' a].
  destruct H as (p' & Hp & He & _); [done|vm_compute; reflexivity|done|done|done|vm_compute; set_solver|].
  exists p'. split; [done|]. by injection He as -> ->.
Defined.

(** Two legs in flight, and the parent's lane held. *)
Lemma cancel_cascade_ends_witness :
  let w' := CancelOrderWithCascade dig_book (demo_order 1 StatusReshuffling) "ST1" "operator"
    (dig_world [] leg6 leg7) in
  ended 1 (w_tables w') /\ ended 6 (w_tables w') /\ ended 7 (w_tables w').
Proof.
  destruct (cancel_cascade_ends dig_book (demo_order 1 StatusReshuffling) "ST1" "operator" (dig_world [] leg6 leg7)) as (w1 & Hw1 & H1 & H2).
  - done.
  - by apply dig_rows_wf; [|apply (contains_true AllStatuses)| |apply (contains_true AllStatuses)].
  - by exists (demo_order 1 StatusReshuffling).
  - assert (Hq : forall v : World Simulator.Sim, wake_all (lanes_of 1 (w_tables (dig_world [] leg6 leg7))) v = v)
      by (intros v; generalize (lanes_of 1 (w_tables (dig_world [] leg6 leg7))); intros l; by induction l).
    change (o_id (demo_order 1 StatusReshuffling)) with 1%Z in Hw1. rewrite Hq in Hw1. intros w'. unfold w'. rewrite Hw1.
    split; [exact H1|]. split.
    + apply (H2 (mkCols 6 (Some 1%Z) 1 (Some 10%Z) false false)); [right; left|reflexivity|vm_compute; by eexists].
    + apply (H2 (mkCols 7 (Some 1%Z) 2 (Some 11%Z) false false)); [left|reflexivity|vm_compute; by eexists].
Defined.

(** A listing that fails reads as "no legs", so the chapter looks finished: with
    leg 7 still on a robot the demand is confirmed. *)
Example failed_listing_confirms_demand :
  let '(w', _) := chapterDisposition dig_book dig_yard 1 (dig_world [true] (leg 6 StatusConfirmed "") (leg 7 StatusInTransit "")) in
  (o_status <$> orders (w_tables w') !! 1%Z) = Some StatusConfirmed /\
  (o_status <$> orders (w_tables w') !! 7%Z) = Some StatusInTransit.
Proof. by vm_compute. Qed.

(** Leg 6 is driving, leg 7 is walled in. *)
Lemma dissolved_demand_replans_witness :
  let '(r, w1, _) := dissolve_legs dig_book 1 (dig_world [] leg6 leg7) in
  r = Ok () /\ ended 6 (w_tables w1) /\
  let '(w2, _) := chapterDisposition dig_book dig_yard 1 w1 in
  exists p', orders (w_tables w2) !! 1%Z = Some p' /\ o_status p' = StatusQueued.
Proof.
  pose proof (dissolved_demand_replans dig_book dig_yard 1 (demo_order 1 StatusReshuffling) leg7 (dig_world [] leg6 leg7)) as H.
  assert (Hc : child_rows dig_book 1 (w_tables (dig_world [] leg6 leg7)) = [leg6; leg7]) by (vm_compute; reflexivity).
  cbv zeta in H. rewrite Hc in H. destruct (dissolve_legs dig_book 1 _) as [[r w1] a].
  destruct H as (Hr & _ & _ & He & H); try done.
  - by apply dig_rows_wf; [|apply (contains_true AllStatuses)| |apply (contains_true AllStatuses)].
  - cbn. set_solver.
  - repeat constructor; cbn; set_solver.
  - set_solver.
  - intros c Hin. repeat (apply elem_of_cons in Hin as [->|Hin]; [cbn; lia|]). by apply elem_of_nil in Hin.
  - split_and!; [done|apply (He leg6); set_solver|].
    destruct (chapterDisposition dig_book dig_yard 1 w1) as [w2 a2]. destruct H as (p' & Hp & Hs & _). by exists p'.
Defined.
