(* ===== verification/EdgeOrders.v ===== *)
(** Orders on the Edge (shingo-edge/orders): the station's copy of each order's
    status, as its lifecycle service (lifecycle_service.go) and manager
    (manager_status.go, manager_lifecycle.go) write it - the Edge's own
    validated moves, the mirror of Core's replies and pushes, delivery with its
    bin snapshot, confirmation, abort and release.

    Every statement is one call on the SQLite connection and may fail; the
    service keeps the emitted events and the delivered-seed map besides. *)

From stdpp Require Import pretty.
From S2P Require Import Prelude Bfs Status Sql.

(** ** Tables *)

Record FaultClock := mkFault {
  fc_since : option Z; fc_deadline : option Z; fc_notice : Z; fc_ref : string }.

Definition noFault : FaultClock := mkFault None None 0 "".

Record EOrder := mkEOrder {
  eo_id : Z;
  eo_uuid : string;
  eo_type : string;
  eo_status : Status;
  eo_eta : option string;
  eo_waybill : option string;
  eo_bin : option Z;
  eo_staged_expire : option Z;
  eo_final_count : option Z;
  eo_count_confirmed : bool;
  eo_delivery_node : string;
  eo_process_node : option Z;
  eo_auto_confirm : bool;
  eo_quantity : Z;
  eo_queue_reason : string;
  eo_queue_code : string;
  eo_fault : FaultClock
}.

Definition eset_status (s : Status) (o : EOrder) : EOrder :=
  mkEOrder (eo_id o) (eo_uuid o) (eo_type o) s (eo_eta o) (eo_waybill o) (eo_bin o)
    (eo_staged_expire o) (eo_final_count o) (eo_count_confirmed o) (eo_delivery_node o)
    (eo_process_node o) (eo_auto_confirm o) (eo_quantity o) (eo_queue_reason o)
    (eo_queue_code o) (eo_fault o).
Definition eset_waybill (w eta : string) (o : EOrder) : EOrder :=
  mkEOrder (eo_id o) (eo_uuid o) (eo_type o) (eo_status o) (Some eta) (Some w) (eo_bin o)
    (eo_staged_expire o) (eo_final_count o) (eo_count_confirmed o) (eo_delivery_node o)
    (eo_process_node o) (eo_auto_confirm o) (eo_quantity o) (eo_queue_reason o)
    (eo_queue_code o) (eo_fault o).
Definition eset_eta (eta : string) (o : EOrder) : EOrder :=
  mkEOrder (eo_id o) (eo_uuid o) (eo_type o) (eo_status o) (Some eta) (eo_waybill o)
    (eo_bin o) (eo_staged_expire o) (eo_final_count o) (eo_count_confirmed o)
    (eo_delivery_node o) (eo_process_node o) (eo_auto_confirm o) (eo_quantity o)
    (eo_queue_reason o) (eo_queue_code o) (eo_fault o).
Definition eset_bin (b : option Z) (o : EOrder) : EOrder :=
  mkEOrder (eo_id o) (eo_uuid o) (eo_type o) (eo_status o) (eo_eta o) (eo_waybill o) b
    (eo_staged_expire o) (eo_final_count o) (eo_count_confirmed o) (eo_delivery_node o)
    (eo_process_node o) (eo_auto_confirm o) (eo_quantity o) (eo_queue_reason o)
    (eo_queue_code o) (eo_fault o).
Definition eset_staged_expire (t : option Z) (o : EOrder) : EOrder :=
  mkEOrder (eo_id o) (eo_uuid o) (eo_type o) (eo_status o) (eo_eta o) (eo_waybill o)
    (eo_bin o) t (eo_final_count o) (eo_count_confirmed o) (eo_delivery_node o)
    (eo_process_node o) (eo_auto_confirm o) (eo_quantity o) (eo_queue_reason o)
    (eo_queue_code o) (eo_fault o).
Definition eset_final_count (n : Z) (k : bool) (o : EOrder) : EOrder :=
  mkEOrder (eo_id o) (eo_uuid o) (eo_type o) (eo_status o) (eo_eta o) (eo_waybill o)
    (eo_bin o) (eo_staged_expire o) (Some n) k (eo_delivery_node o) (eo_process_node o)
    (eo_auto_confirm o) (eo_quantity o) (eo_queue_reason o) (eo_queue_code o) (eo_fault o).
Definition eset_delivery_node (n : string) (o : EOrder) : EOrder :=
  mkEOrder (eo_id o) (eo_uuid o) (eo_type o) (eo_status o) (eo_eta o) (eo_waybill o)
    (eo_bin o) (eo_staged_expire o) (eo_final_count o) (eo_count_confirmed o) n
    (eo_process_node o) (eo_auto_confirm o) (eo_quantity o) (eo_queue_reason o)
    (eo_queue_code o) (eo_fault o).
Definition eset_queue (r c : string) (o : EOrder) : EOrder :=
  mkEOrder (eo_id o) (eo_uuid o) (eo_type o) (eo_status o) (eo_eta o) (eo_waybill o)
    (eo_bin o) (eo_staged_expire o) (eo_final_count o) (eo_count_confirmed o)
    (eo_delivery_node o) (eo_process_node o) (eo_auto_confirm o) (eo_quantity o) r c
    (eo_fault o).
Definition eset_fault (f : FaultClock) (o : EOrder) : EOrder :=
  mkEOrder (eo_id o) (eo_uuid o) (eo_type o) (eo_status o) (eo_eta o) (eo_waybill o)
    (eo_bin o) (eo_staged_expire o) (eo_final_count o) (eo_count_confirmed o)
    (eo_delivery_node o) (eo_process_node o) (eo_auto_confirm o) (eo_quantity o)
    (eo_queue_reason o) (eo_queue_code o) f.

Record EHist := mkEHist { eh_order : Z; eh_old : Status; eh_new : Status; eh_detail : string }.

(** Outbox payloads the manager enqueues. *)
Inductive EMsg :=
| OrderReleaseMsg (uuid : string) (remainingUOP : option Z) (calledBy : string)
| OrderCancelMsg (uuid reason : string)
| OrderRedirectMsg (uuid node : string)
| OrderReceiptMsg (uuid receiptType : string) (finalCount : Z).

(** changeover_node_tasks joined with its changeover's state. *)
Record NodeTask := mkTask {
  t_id : Z;
  t_situation : string;
  t_state : string;
  t_next_order : option Z;
  t_old_order : option Z;
  t_node_name : string;
  t_skip_note : string;
  t_co_state : string
}.

Record EdgeDB := mkEdgeDB {
  e_orders : gmap Z EOrder;
  e_history : list EHist;
  e_outbox : list EMsg;
  e_tasks : list NodeTask
}.

Definition eset_orders (f : gmap Z EOrder -> gmap Z EOrder) (d : EdgeDB) : EdgeDB :=
  mkEdgeDB (f (e_orders d)) (e_history d) (e_outbox d) (e_tasks d).
Definition eset_history (f : list EHist -> list EHist) (d : EdgeDB) : EdgeDB :=
  mkEdgeDB (e_orders d) (f (e_history d)) (e_outbox d) (e_tasks d).
Definition eset_outbox (f : list EMsg -> list EMsg) (d : EdgeDB) : EdgeDB :=
  mkEdgeDB (e_orders d) (e_history d) (f (e_outbox d)) (e_tasks d).
Definition eset_tasks (f : list NodeTask -> list NodeTask) (d : EdgeDB) : EdgeDB :=
  mkEdgeDB (e_orders d) (e_history d) (e_outbox d) (f (e_tasks d)).

Inductive eerror :=
| EeDriver
| EeNotFound
| EeInvalidTransition (from to : Status)
| EeTerminal (s : Status)
| EeNotDelivered (s : Status)
| EeUnknownReply (r : string).

#[export] Instance edge_driver_error : DriverError eerror := {| driver_error := EeDriver |}.
#[export] Instance eerror_eq_dec : EqDecision eerror.
Proof. solve_decision. Defined.

Definition EdgeSQL (A : Type) : Type := SQL EdgeDB eerror A.

(** ** Store calls *)

Definition GetOrder (id : Z) : EdgeSQL EOrder :=
  r <-- query (fun d => e_orders d !! id) ;;
  match r with Some o => sret o | None => sfail EeNotFound end.

(** uuid is UNIQUE: at most one row matches. *)
Definition by_uuid (uuid : string) (d : EdgeDB) : option EOrder :=
  List.find (fun o => eo_uuid o =s uuid) (map_to_list (e_orders d)).*2.

Definition GetOrderByUUID (uuid : string) : EdgeSQL EOrder :=
  r <-- query (by_uuid uuid) ;;
  match r with Some o => sret o | None => sfail EeNotFound end.

Definition update_by_id (id : Z) (f : EOrder -> EOrder) : EdgeSQL unit :=
  exec (eset_orders (alter f id)).
Definition update_by_uuid (uuid : string) (f : EOrder -> EOrder) : EdgeSQL unit :=
  exec (eset_orders (fmap (fun o => if eo_uuid o =s uuid then f o else o))).

Definition UpdateOrderStatus (id : Z) (s : Status) : EdgeSQL unit := update_by_id id (eset_status s).
Definition UpdateOrderWaybill (id : Z) (w eta : string) : EdgeSQL unit :=
  update_by_id id (eset_waybill w eta).
Definition UpdateOrderETA (id : Z) (eta : string) : EdgeSQL unit := update_by_id id (eset_eta eta).
Definition UpdateOrderBinID (id : Z) (b : option Z) : EdgeSQL unit := update_by_id id (eset_bin b).
Definition UpdateOrderStagedExpireAt (id : Z) (t : option Z) : EdgeSQL unit :=
  update_by_id id (eset_staged_expire t).
Definition UpdateOrderFinalCount (id n : Z) (k : bool) : EdgeSQL unit :=
  update_by_id id (eset_final_count n k).
Definition UpdateOrderDeliveryNode (id : Z) (n : string) : EdgeSQL unit :=
  update_by_id id (eset_delivery_node n).
Definition db_SetOrderQueueReason (uuid r c : string) : EdgeSQL unit :=
  update_by_uuid uuid (eset_queue r c).
(** The guard on unchanged values spares only updated_at. *)
Definition SetOrderFaultClock (uuid : string) (f : FaultClock) : EdgeSQL unit :=
  update_by_uuid uuid (eset_fault f).
Definition InsertOrderHistory (id : Z) (old new : Status) (detail : string) : EdgeSQL unit :=
  exec (eset_history (fun l => l ++ [mkEHist id old new detail])).
Definition EnqueueOutbox (m : EMsg) : EdgeSQL unit := exec (eset_outbox (fun l => l ++ [m])).

Definition task_of (orderID : Z) (t : NodeTask) : bool :=
  bool_decide (t_next_order t = Some orderID) || bool_decide (t_old_order t = Some orderID).

Definition FindChangeoverNodeTaskByOrderID (orderID : Z) : EdgeSQL NodeTask :=
  r <-- query (fun d => List.find (task_of orderID) (e_tasks d)) ;;
  match r with Some t => sret t | None => sfail EeNotFound end.

Definition update_task (id : Z) (f : NodeTask -> NodeTask) : EdgeSQL unit :=
  exec (eset_tasks (map (fun t => if t_id t =i id then f t else t))).
Definition tset_state (s : string) (t : NodeTask) : NodeTask :=
  mkTask (t_id t) (t_situation t) s (t_next_order t) (t_old_order t) (t_node_name t)
    (t_skip_note t) (t_co_state t).
Definition tset_note (n : string) (t : NodeTask) : NodeTask :=
  mkTask (t_id t) (t_situation t) (t_state t) (t_next_order t) (t_old_order t) (t_node_name t)
    n (t_co_state t).

(** ** The service *)

Record Seed := mkSeed { sd_uop : option Z; sd_epoch : Z; sd_dest : string }.

Inductive EEmit :=
| EStatusChanged (id : Z) (uuid type : string) (old new : Status) (eta : string) (pnode : option Z)
| EDelivered (id : Z) (uuid type : string) (pnode bin uop : option Z) (epoch : Z)
    (dest deliveryNode : string)
| EDeliveredFallback (bin : Z) (uop : option Z) (epoch : Z) (deliveryNode : string)
| ECompleted (id : Z) (uuid type : string) (pnode : option Z)
| EFailed (id : Z) (uuid type reason : string).

Record Edge := mkEdge {
  e_conn : Conn EdgeDB;
  e_emitted : list EEmit;
  seeds : gmap Z Seed
}.

Definition etables (s : Edge) : EdgeDB := db (e_conn s).

Definition EdgeM (A : Type) : Type := Edge -> outcome eerror A * Edge.

Definition eret {A} (a : A) : EdgeM A := fun s => (Ok a, s).
Definition efail {A} (e : eerror) : EdgeM A := fun s => (Err e, s).
Definition ebind {A B} (m : EdgeM A) (k : A -> EdgeM B) : EdgeM B := fun s =>
  match m s with
  | (Ok a, s') => k a s'
  | (Err e, s') => (Err e, s')
  end.
Definition esql {A} (m : EdgeSQL A) : EdgeM A := fun s =>
  let '(r, c) := m (e_conn s) in (r, mkEdge c (e_emitted s) (seeds s)).
(** A call whose error is logged or discarded. *)
Definition etry {A} (m : EdgeM A) : EdgeM (option A) := fun s =>
  match m s with
  | (Ok a, s') => (Ok (Some a), s')
  | (Err _, s') => (Ok None, s')
  end.
Definition eemit (e : EEmit) : EdgeM unit := fun s =>
  (Ok (), mkEdge (e_conn s) (e_emitted s ++ [e]) (seeds s)).
Definition eseed_take (id : Z) : EdgeM (option Seed) := fun s =>
  (Ok (seeds s !! id), mkEdge (e_conn s) (e_emitted s) (delete id (seeds s))).
Definition eseed_put (id : Z) (sd : Seed) : EdgeM unit := fun s =>
  (Ok (), mkEdge (e_conn s) (e_emitted s) (<[id := sd]> (seeds s))).
(** [defer s.deliveredSeeds.Delete(id)]: runs on every exit. *)
Definition edefer_drop {A} (id : Z) (m : EdgeM A) : EdgeM A := fun s =>
  let '(r, s') := m s in (r, mkEdge (e_conn s') (e_emitted s') (delete id (seeds s'))).

Declare Scope edge_scope.
Notation "x <~ m ;; k" := (ebind m (fun x => k))
  (at level 100, m at next level, right associativity) : edge_scope.
Notation "m >> k" := (ebind m (fun _ => k)) (at level 100, right associativity) : edge_scope.
Open Scope edge_scope.

(** ** Lifecycle service *)

(** The rest of [applyTransition] once the status is written: the history row
    and the re-read may fail silently, the events may not. *)
Definition announce (order : EOrder) (new : Status) (detail : string) : EdgeM unit :=
  let old := eo_status order in
  etry (esql (InsertOrderHistory (eo_id order) old new detail)) >>
  updated <~ etry (esql (GetOrder (eo_id order))) ;;
  let eta := match updated with Some u => default "" (eo_eta u) | None => "" end in
  eemit (EStatusChanged (eo_id order) (eo_uuid order) (eo_type order) old new eta
           (eo_process_node order)) >>
  (if new =s StatusDelivered then
     let binID := match updated with Some u => eo_bin u | None => None end in
     sd <~ eseed_take (eo_id order) ;;
     let '(uop, epoch, dest) := match sd with
       | Some x => (sd_uop x, sd_epoch x, sd_dest x)
       | None => (None, 0%Z, "")
       end in
     eemit (EDelivered (eo_id order) (eo_uuid order) (eo_type order) (eo_process_node order)
              binID uop epoch dest (eo_delivery_node order))
   else eret ()) >>
  (if IsTerminal new then
     eemit (ECompleted (eo_id order) (eo_uuid order) (eo_type order) (eo_process_node order)) >>
     (if new =s StatusFailed
      then eemit (EFailed (eo_id order) (eo_uuid order) (eo_type order) detail) else eret ())
   else eret ()).

Definition applyTransition (order : EOrder) (new : Status) (detail : string) : EdgeM unit :=
  esql (UpdateOrderStatus (eo_id order) new) >> announce order new detail.

Definition Transition (orderID : Z) (new : Status) (detail : string) : EdgeM unit :=
  order <~ esql (GetOrder orderID) ;;
  if negb (IsValidTransition (eo_status order) new) then
    if (eo_status order =s new) || IsTerminal (eo_status order) then eret ()
    else efail (EeInvalidTransition (eo_status order) new)
  else applyTransition order new detail.

Definition ForceTransition (orderID : Z) (new : Status) (detail : string) : EdgeM unit :=
  order <~ esql (GetOrder orderID) ;;
  if eo_status order =s new then eret () else applyTransition order new detail.

Definition ApplyCoreStatus (order : EOrder) (core : Status) (detail : string) : EdgeM unit :=
  if contains [StatusDispatched; StatusInTransit; StatusFaulted; StatusQueued; StatusSourcing] core
  then if IsTerminal (eo_status order) then eret ()
       else ForceTransition (eo_id order) core detail
  else if core =s StatusConfirmed
  then if IsTerminal (eo_status order) then eret ()
       else ForceTransition (eo_id order) core detail
  else eret ().

Definition HandleDelivered (order : EOrder) (detail : string) (stagedExpireAt binID uop : option Z)
    (epoch : Z) (dest : string) : EdgeM unit :=
  (match stagedExpireAt with
   | Some _ => etry (esql (UpdateOrderStagedExpireAt (eo_id order) stagedExpireAt))
   | None => eret None
   end) >>
  (match binID with
   | Some _ => etry (esql (UpdateOrderBinID (eo_id order) binID))
   | None => eret None
   end) >>
  eseed_put (eo_id order) (mkSeed uop epoch dest) >>
  edefer_drop (eo_id order) (Transition (eo_id order) StatusDelivered detail).

(** protocol.OrderStatusSnapshot. *)
Record Snapshot := mkSnapshot {
  sn_uuid : string;
  sn_found : bool;
  sn_status : Status;
  sn_queue_reason : string;
  sn_queue_code : string;
  sn_fault : FaultClock
}.

Definition snapshotForced : list Status :=
  [StatusCancelled; StatusFailed; StatusSkipped; StatusDelivered; StatusStaged; StatusInTransit;
   StatusAcknowledged; StatusQueued; StatusSourcing; StatusDispatched; StatusFaulted;
   StatusReshuffling].

(** The switch on the snapshot's status. *)
Definition snapshot_switch (order : EOrder) (snap : Status) (detail : string) : EdgeM unit :=
  if snap =s StatusConfirmed then
    if eo_status order =s StatusDelivered then Transition (eo_id order) StatusConfirmed detail
    else ForceTransition (eo_id order) StatusConfirmed detail
  else if contains snapshotForced snap then ForceTransition (eo_id order) snap detail
  else eret ().

Definition ApplyCoreStatusSnapshot (sn : Snapshot) : EdgeM unit :=
  order <~ esql (GetOrderByUUID (sn_uuid sn)) ;;
  (if sn_found sn then
     if sn_status sn =s StatusFaulted
     then etry (esql (SetOrderFaultClock (eo_uuid order) (sn_fault sn)))
     else match fc_since (eo_fault order) with
          | Some _ => etry (esql (SetOrderFaultClock (eo_uuid order) noFault))
          | None => eret None
          end
   else eret None) >>
  if negb (sn_found sn) || (sn_status sn =s "") || (sn_status sn =s eo_status order) then eret ()
  else
    (if (sn_queue_reason sn <>s "") || (eo_queue_reason order <>s "")
     then etry (esql (db_SetOrderQueueReason (eo_uuid order) (sn_queue_reason sn) (sn_queue_code sn)))
     else eret None) >>
    snapshot_switch order (sn_status sn) "startup reconciliation with core".

(** ** Manager: the mirror *)

Definition TransitionOrder (orderID : Z) (new : Status) (detail : string) : EdgeM unit :=
  Transition orderID new detail.

Definition expectedMirrorJumps : list ((Status * Status) * string) :=
  [ ((StatusPending, StatusAcknowledged), "the step between is pending->queued, a pure transition with no actionMap entry: `queued` is Core's internal scheduling state, and the Edge is told the outcome rather than the scheduling");
    ((StatusSourcing, StatusInTransit), "the step between is sourcing->dispatched, a pure transition with no actionMap entry: dispatch is Core handing the job to the fleet, and the Edge's board cares that the robot is moving") ].

Fixpoint jump_get (m : list ((Status * Status) * string)) (f t : Status) : option string :=
  match m with
  | [] => None
  | ((f', t'), why) :: rest => if (f' =s f) && (t' =s t) then Some why else jump_get rest f t
  end.

Definition mirrorJumpDetail : string := "MIRROR JUMP".

(** The history detail of a catch-up move. *)
Definition jump_detail (from target : Status) (detail : string) : string :=
  match jump_get expectedMirrorJumps from target with
  | Some why => "mirror caught up " +:+ from +:+ "->" +:+ target +:+ " (expected: " +:+ why +:+
                "). " +:+ detail
  | None => mirrorJumpDetail +:+ " " +:+ from +:+ "->" +:+ target +:+
            ": a notification was skipped; Core is already at " +:+ target +:+ ". " +:+ detail
  end.

Definition mirrorTransition (orderID : Z) (target : Status) (detail : string) : EdgeM unit :=
  fun s =>
  match TransitionOrder orderID target detail s with
  | (Err (EeInvalidTransition f t), s1) =>
      match esql (GetOrder orderID) s1 with
      | (Err _, s2) => (Err (EeInvalidTransition f t), s2)
      | (Ok order, s2) =>
          if negb (IsForwardJump (eo_status order) target)
          then (Err (EeInvalidTransition f t), s2)
          else ForceTransition orderID target (jump_detail (eo_status order) target detail) s2
      end
  | r => r
  end.

Definition HandleCoreStatusPush (uuid : string) (core : Status) (detail : string) : EdgeM unit :=
  order <~ esql (GetOrderByUUID uuid) ;;
  ApplyCoreStatus order core detail.

Definition ConfirmDelivery (orderID finalCount : Z) : EdgeM unit :=
  order <~ esql (GetOrder orderID) ;;
  if eo_status order <>s StatusDelivered then efail (EeNotDelivered (eo_status order))
  else
    esql (UpdateOrderFinalCount orderID finalCount true) >>
    esql (EnqueueOutbox (OrderReceiptMsg (eo_uuid order) "confirmed" finalCount)) >>
    TransitionOrder orderID StatusConfirmed ("confirmed with count " +:+ pretty finalCount).

Definition handleDelivered (order : EOrder) (detail : string) (stagedExpireAt binID uop : option Z)
    (epoch : Z) (dest : string) : EdgeM unit :=
  HandleDelivered order detail stagedExpireAt binID uop epoch dest >>
  (if eo_auto_confirm order then ConfirmDelivery (eo_id order) (eo_quantity order) else eret ()).

Definition HandleDeliveredWithExpiry (uuid detail : string) (stagedExpireAt binID uop : option Z)
    (epoch : Z) (deliveryNode dest : string) : EdgeM unit := fun s =>
  match esql (GetOrderByUUID uuid) s with
  | (Err e, s1) =>
      match binID with
      | Some b => if deliveryNode <>s ""
                  then (eemit (EDeliveredFallback b uop epoch deliveryNode) >> efail e) s1
                  else (Err e, s1)
      | None => (Err e, s1)
      end
  | (Ok order, s1) => handleDelivered order detail stagedExpireAt binID uop epoch dest s1
  end.

Definition HandleDispatchReply (uuid replyType waybillID eta detail : string) : EdgeM unit :=
  order <~ esql (GetOrderByUUID uuid) ;;
  if replyType =s "ack" then mirrorTransition (eo_id order) StatusAcknowledged detail
  else if replyType =s "waybill" then
    esql (UpdateOrderWaybill (eo_id order) waybillID eta) >>
    mirrorTransition (eo_id order) StatusInTransit
      ("waybill " +:+ waybillID +:+ ", ETA " +:+ eta)
  else if replyType =s "queued" then mirrorTransition (eo_id order) StatusQueued detail
  else if replyType =s "update" then
    if eta <>s "" then esql (UpdateOrderETA (eo_id order) eta) else eret ()
  else if replyType =s "delivered" then handleDelivered order detail None None None 0 ""
  else if replyType =s "error" then TransitionOrder (eo_id order) StatusFailed detail
  else if replyType =s "skipped" then TransitionOrder (eo_id order) StatusSkipped detail
  else if replyType =s "staged" then mirrorTransition (eo_id order) StatusStaged detail
  else if replyType =s "cancelled" then mirrorTransition (eo_id order) StatusCancelled detail
  else efail (EeUnknownReply replyType).

(** ** Manager: skipped work *)

Definition skippedTerminalState (task : NodeTask) (orderID : Z) : string :=
  if bool_decide (t_old_order task = Some orderID) then "line_cleared" else "released".

Definition formatSkipNote (task : NodeTask) (errorCode detail : string) : string :=
  let leg := match t_old_order task with
    | Some _ => "evac"
    | None => match t_next_order task with Some _ => "supply" | None => "order" end
    end in
  if errorCode =s "no_source_bin" then leg +:+ " skipped: bin missing at " +:+ t_node_name task
  else leg +:+ " skipped: " +:+ detail.

Definition HandleSkipped (uuid errorCode detail : string) : EdgeM unit :=
  order <~ esql (GetOrderByUUID uuid) ;;
  ForceTransition (eo_id order) StatusSkipped detail >>
  t <~ etry (esql (FindChangeoverNodeTaskByOrderID (eo_id order))) ;;
  match t with
  | None => eret ()
  | Some task =>
      etry (esql (update_task (t_id task) (tset_state (skippedTerminalState task (eo_id order))))) >>
      etry (esql (update_task (t_id task) (tset_note (formatSkipNote task errorCode detail)))) >>
      eret ()
  end.

(** ** Manager: the Edge's own moves *)

Definition ReleaseOrderWithDisposition (orderID : Z) (remainingUOP : option Z) (calledBy : string)
    : EdgeM unit :=
  order <~ esql (GetOrder orderID) ;;
  if IsTerminal (eo_status order) then efail (EeTerminal (eo_status order))
  else if (eo_status order =s StatusPending) || (eo_status order =s StatusSubmitted) then eret ()
  else
    esql (EnqueueOutbox (OrderReleaseMsg (eo_uuid order) remainingUOP calledBy)) >>
    TransitionOrder orderID StatusInTransit "released from staging".

Definition ReleaseOrder (orderID : Z) (remainingUOP : option Z) (calledBy : string) : EdgeM unit :=
  ReleaseOrderWithDisposition orderID remainingUOP calledBy.

Definition AbortOrderWithReason (orderID : Z) (reason : string) : EdgeM unit :=
  order <~ esql (GetOrder orderID) ;;
  if IsTerminal (eo_status order) then efail (EeTerminal (eo_status order))
  else
    esql (EnqueueOutbox (OrderCancelMsg (eo_uuid order) reason)) >>
    TransitionOrder orderID StatusCancelled reason.

Definition AbortOrder (orderID : Z) : EdgeM unit := AbortOrderWithReason orderID "aborted by operator".

Definition RedirectOrder (orderID : Z) (newDeliveryNode : string) : EdgeM EOrder :=
  order <~ esql (GetOrder orderID) ;;
  if IsTerminal (eo_status order) then efail (EeTerminal (eo_status order))
  else
    esql (EnqueueOutbox (OrderRedirectMsg (eo_uuid order) newDeliveryNode)) >>
    esql (UpdateOrderDeliveryNode orderID newDeliveryNode) >>
    esql (GetOrder orderID).

Definition SubmitOrder (orderID : Z) : EdgeM unit :=
  esql (GetOrder orderID) >> TransitionOrder orderID StatusSubmitted "submitted to dispatch".

Definition RollbackForRetry (uuid detail : string) : EdgeM unit :=
  order <~ esql (GetOrderByUUID uuid) ;;
  ForceTransition (eo_id order) StatusStaged detail.

Definition RollbackReleaseRejection (uuid detail : string) : EdgeM unit :=
  order <~ esql (GetOrderByUUID uuid) ;;
  if eo_status order <>s StatusInTransit then eret ()
  else ForceTransition (eo_id order) StatusStaged detail.

(** ** Manager: queue reason *)

Definition ChangeoverState_IsTerminal (s : string) : bool := (s =s "completed") || (s =s "cancelled").

Definition NodeTaskState_IsTerminal (s situation : string) : bool :=
  if contains ["switched"; "verified"; "unchanged"; "released"; "abandoned"] s then true
  else if (s =s "line_cleared") || (s =s "capacity_blocked") then situation =s "drop"
  else false.

Definition stampAwaitingMaterial (uuid : string) : EdgeM unit :=
  o <~ etry (esql (GetOrderByUUID uuid)) ;;
  match o with
  | None => eret ()
  | Some order =>
      t <~ etry (esql (FindChangeoverNodeTaskByOrderID (eo_id order))) ;;
      match t with
      | None => eret ()
      | Some task =>
          if negb (bool_decide (t_next_order task = Some (eo_id order))) then eret ()
          else if ChangeoverState_IsTerminal (t_co_state task) then eret ()
          else if (t_state task =s "awaiting_material") ||
                  NodeTaskState_IsTerminal (t_state task) (t_situation task) then eret ()
          else etry (esql (update_task (t_id task) (tset_state "awaiting_material"))) >> eret ()
      end
  end.

Definition SetOrderQueueReason (uuid reason code : string) : EdgeM unit :=
  esql (db_SetOrderQueueReason uuid reason code) >>
  (if code =s "waiting_for_material" then stampAwaitingMaterial uuid else eret ()).

Definition SetOrderETA (uuid eta : string) : EdgeM unit :=
  order <~ esql (GetOrderByUUID uuid) ;;
  esql (UpdateOrderETA (eo_id order) eta).

(** Core accepts a release of an order in this status. *)
Definition ReleasableAtCore (status : Status) : bool :=
  (status =s StatusStaged) || (status =s StatusInTransit).

(** ** Single calls *)

Lemma esql_emitted {A} (m : EdgeSQL A) s : e_emitted (esql m s).2 = e_emitted s.
Proof. unfold esql. by destruct (m (e_conn s)). Qed.

Lemma esql_seeds {A} (m : EdgeSQL A) s : seeds (esql m s).2 = seeds s.
Proof. unfold esql. by destruct (m (e_conn s)). Qed.

Lemma esql_ok {A} (m : EdgeSQL A) s a s' :
  esql m s = (Ok a, s') -> exists c, m (e_conn s) = (Ok a, c) /\ etables s' = db c.
Proof. unfold esql, etables. destruct (m (e_conn s)) as [[?|?] c]; intros [= <- <-]. eauto. Qed.

Lemma esql_err {A} (m : EdgeSQL A) s e s' :
  esql m s = (Err e, s') -> exists c, m (e_conn s) = (Err e, c) /\ etables s' = db c.
Proof. unfold esql, etables. destruct (m (e_conn s)) as [[?|?] c]; intros [= <- <-]. eauto. Qed.

Lemma lookup_query_ok {A} (f : EdgeDB -> option A) (c : Conn EdgeDB) r c' :
  (r <-- query f ;; match r with Some o => sret o | None => sfail EeNotFound end) c = (r, c') ->
  db c' = db c /\ match r with Ok o => f (db c) = Some o | Err _ => True end.
Proof.
  unfold sbind, query, stmt. destruct (faults c) as [|[] fs].
  - destruct (f (db c)) eqn:E; unfold sret, sfail; intros [= <- <-]; done.
  - by intros [= <- <-].
  - destruct (f (db c)) eqn:E; unfold sret, sfail; intros [= <- <-]; done.
Qed.

Lemma GetOrder_run id s r s' :
  esql (GetOrder id) s = (r, s') ->
  etables s' = etables s /\ match r with Ok o => e_orders (etables s) !! id = Some o | Err _ => True end.
Proof.
  unfold esql. destruct (GetOrder id (e_conn s)) as [r' c] eqn:E. intros [= <- <-].
  by apply lookup_query_ok in E.
Qed.

Lemma GetOrderByUUID_run uuid s r s' :
  esql (GetOrderByUUID uuid) s = (r, s') ->
  etables s' = etables s /\ match r with Ok o => by_uuid uuid (etables s) = Some o | Err _ => True end.
Proof.
  unfold esql. destruct (GetOrderByUUID uuid (e_conn s)) as [r' c] eqn:E. intros [= <- <-].
  by apply lookup_query_ok in E.
Qed.

(** Rows are stored under their id. *)
Definition keyed (d : EdgeDB) : Prop := forall id o, e_orders d !! id = Some o -> eo_id o = id.

Lemma by_uuid_row uuid d o :
  keyed d -> by_uuid uuid d = Some o -> e_orders d !! eo_id o = Some o /\ eo_uuid o = uuid.
Proof.
  intros Hk [Hin Hu]%List.find_some. apply list_elem_of_In in Hin.
  apply list_elem_of_fmap in Hin as ([i o'] & -> & Hin). apply elem_of_map_to_list in Hin.
  cbn in *. rewrite (Hk _ _ Hin). by breflect.
Qed.

(** A driver statement that may fail: either it ran or nothing changed. *)
Lemma esql_exec f s r s' :
  esql (exec f) s = (r, s') ->
  match r with Ok _ => etables s' = f (etables s) | Err e => etables s' = etables s /\ e = EeDriver end.
Proof.
  unfold esql. destruct (exec f (e_conn s)) as [[?|?] c] eqn:E; intros [= <- <-].
  - by apply exec_ok in E.
  - unfold exec in E. by apply stmt_err in E.
Qed.

(** Swallowed store calls never surface an error. *)
Lemma etry_ok {A} (m : EdgeM A) s : is_ok (etry m s).1 = true.
Proof. unfold etry. by destruct (m s) as [[?|?] ?]. Qed.

Lemma eemit_run e s : eemit e s = (Ok (), mkEdge (e_conn s) (e_emitted s ++ [e]) (seeds s)).
Proof. done. Qed.

(** ** What a status write does *)

(** [etry] on a store call: the tables move as the statement says or not at
    all, and nothing else changes. *)
Lemma etry_esql {A} (m : EdgeSQL A) s :
  exists x s', etry (esql m) s = (Ok x, s') /\ e_emitted s' = e_emitted s /\ seeds s' = seeds s /\
    etables s' = db (m (e_conn s)).2.
Proof.
  unfold etry, esql, etables. destruct (m (e_conn s)) as [[a|e] c]; eexists _, _; by split_and!.
Qed.

Lemma exec_tables f (c : Conn EdgeDB) :
  db (exec (E := eerror) f c).2 = db c \/ db (exec (E := eerror) f c).2 = f (db c).
Proof. unfold exec, stmt. destruct (faults c) as [|[] ?]; cbn; auto. Qed.

Lemma GetOrder_tables id (c : Conn EdgeDB) : db (GetOrder id c).2 = db c.
Proof. destruct (GetOrder id c) as [r c'] eqn:E. by apply lookup_query_ok in E as [? _]. Qed.

(** After the status write nothing can fail and no row, message or task moves;
    the delivered seed is consumed exactly by a delivery. *)
Lemma announce_run order new detail s :
  exists s', announce order new detail s = (Ok (), s') /\
    e_orders (etables s') = e_orders (etables s) /\ e_outbox (etables s') = e_outbox (etables s) /\
    e_tasks (etables s') = e_tasks (etables s) /\
    seeds s' = (if new =s StatusDelivered then delete (eo_id order) (seeds s) else seeds s) /\
    exists evs, e_emitted s' = e_emitted s ++ evs.
Proof.
  unfold announce. cbv zeta.
  destruct (etry_esql (InsertOrderHistory (eo_id order) (eo_status order) new detail) s)
    as (x1 & s1 & E1 & Hm1 & Hs1 & Ht1).
  destruct (etry_esql (GetOrder (eo_id order)) s1) as (x2 & s2 & E2 & Hm2 & Hs2 & Ht2).
  rewrite GetOrder_tables in Ht2.
  assert (H1 : e_orders (etables s2) = e_orders (etables s) /\
    e_outbox (etables s2) = e_outbox (etables s) /\ e_tasks (etables s2) = e_tasks (etables s)).
  { rewrite Ht2. fold (etables s1). rewrite Ht1. unfold InsertOrderHistory.
    destruct (exec_tables (eset_history (fun l => l ++ [mkEHist (eo_id order) (eo_status order) new
      detail])) (e_conn s)) as [H|H]; rewrite H; done. }
  unfold ebind at 1. rewrite E1. unfold ebind at 1. rewrite E2.
  unfold ebind, eemit, eret, eseed_take.
  destruct (new =s StatusDelivered), (IsTerminal new), (new =s StatusFailed); cbn beta iota;
    repeat case_match; simplify_eq; eexists; (split; [reflexivity|]);
    unfold etables in *; cbn; rewrite Hm2, Hm1, Hs2, Hs1; (split_and!; [by apply H1..|done|]);
    rewrite <- ?(assoc_L (++)); by eexists.
Qed.

Arguments announce : simpl never.

(** The rows after a move of one order. *)
Definition moved (id : Z) (new : Status) (s s' : Edge) : Prop :=
  e_orders (etables s') = alter (eset_status new) id (e_orders (etables s)).

Definition rows_same (s s' : Edge) : Prop := e_orders (etables s') = e_orders (etables s).

Lemma applyTransition_run order new detail s :
  match applyTransition order new detail s with
  | (Ok _, s') => moved (eo_id order) new s s' /\
      e_outbox (etables s') = e_outbox (etables s) /\ e_tasks (etables s') = e_tasks (etables s)
  | (Err e, s') => etables s' = etables s /\ e = EeDriver
  end.
Proof.
  unfold applyTransition, ebind, moved.
  destruct (esql (UpdateOrderStatus _ _) s) as [[u|e] s1] eqn:E; apply esql_exec in E; [|done].
  destruct (announce_run order new detail s1) as (s2 & -> & Ho & Hb & Ht & _).
  rewrite Ho, Hb, Ht, E. done.
Qed.

Lemma Transition_run id new detail s :
  keyed (etables s) ->
  match Transition id new detail s with
  | (Ok _, s') => exists o, e_orders (etables s) !! id = Some o /\
      ((IsValidTransition (eo_status o) new = true /\ moved id new s s' /\
        e_outbox (etables s') = e_outbox (etables s) /\ e_tasks (etables s') = e_tasks (etables s)) \/
       (IsValidTransition (eo_status o) new = false /\
        (eo_status o = new \/ IsTerminal (eo_status o) = true) /\ etables s' = etables s))
  | (Err e, s') => etables s' = etables s /\
      (forall f t, e = EeInvalidTransition f t -> t = new /\
         exists o, e_orders (etables s) !! id = Some o /\ f = eo_status o /\
           IsValidTransition (eo_status o) new = false /\ eo_status o <> new /\
           IsTerminal (eo_status o) = false)
  end.
Proof.
  intros Hk. unfold Transition, ebind.
  destruct (esql (GetOrder id) s) as [r s1] eqn:E. pose proof E as E'.
  apply GetOrder_run in E as [Ht Ho]. destruct r as [o|e].
  2: { split; [done|]. intros f t ->. unfold esql, GetOrder, sbind, query, stmt in E'.
       destruct (faults (e_conn s)) as [|[] ?]; [destruct (_ !! id)|..|destruct (_ !! id)]; done. }
  destruct (IsValidTransition (eo_status o) new) eqn:Hv; cbn [negb].
  - pose proof (applyTransition_run o new detail s1) as Hr. rewrite (Hk _ _ Ho) in Hr.
    destruct (applyTransition o new detail s1) as [[u|e] s2].
    + exists o. split; [done|]. left. unfold moved in *. by rewrite <- Ht.
    + destruct Hr as [-> ->]. split; [done|]. by intros.
  - destruct (eqb_spec_s (eo_status o) new) as [Hs|Hs]; cbn [orb].
    { exists o. split; [done|]. right. auto. }
    destruct (IsTerminal (eo_status o)) eqn:Hte.
    + exists o. split; [done|]. right. auto.
    + split; [done|]. intros f t [= <- <-]. split; [done|]. exists o. by split_and!.
Qed.

Lemma ForceTransition_run id new detail s :
  keyed (etables s) ->
  match ForceTransition id new detail s with
  | (Ok _, s') => exists o, e_orders (etables s) !! id = Some o /\
      (eo_status o = new /\ etables s' = etables s \/
       eo_status o <> new /\ moved id new s s' /\
       e_outbox (etables s') = e_outbox (etables s) /\ e_tasks (etables s') = e_tasks (etables s))
  | (Err e, s') => etables s' = etables s
  end.
Proof.
  intros Hk. unfold ForceTransition, ebind.
  destruct (esql (GetOrder id) s) as [r s1] eqn:E. apply GetOrder_run in E as [Ht Ho].
  destruct r as [o|e]; [|done].
  destruct (eqb_spec_s (eo_status o) new) as [Hs|Hs]; [by exists o; auto|].
  pose proof (applyTransition_run o new detail s1) as Hr. rewrite (Hk _ _ Ho) in Hr.
  destruct (applyTransition o new detail s1) as [[u|e] s2].
  - exists o. split; [done|]. right. unfold moved in *. by rewrite <- Ht.
  - by destruct Hr as [-> _].
Qed.

(** ** Terminal rows stay put

    [keeps_terminal s s']: rows stay under their ids and a row in a status the
    table cannot leave keeps that status. *)
Definition keeps_terminal (s s' : Edge) : Prop :=
  keyed (etables s) ->
  keyed (etables s') /\
  forall id o, e_orders (etables s) !! id = Some o -> IsTerminal (eo_status o) = true ->
    exists o', e_orders (etables s') !! id = Some o' /\ eo_status o' = eo_status o.

#[export] Instance keeps_terminal_preorder : PreOrder keeps_terminal.
Proof.
  split.
  - intros s Hk. split; [done|eauto].
  - intros s1 s2 s3 H12 H23 Hk. destruct (H12 Hk) as [Hk2 H2]. destruct (H23 Hk2) as [Hk3 H3].
    split; [done|]. intros id o Ho Ht. destruct (H2 id o Ho Ht) as (o2 & Ho2 & E2).
    rewrite <- E2 in Ht. destruct (H3 id o2 Ho2 Ht) as (o3 & Ho3 & E3).
    exists o3. split; congruence.
Qed.

(** Column writes that leave the id and the status alone. *)
Definition status_preserving (f : EOrder -> EOrder) : Prop :=
  forall o, eo_id (f o) = eo_id o /\ eo_status (f o) = eo_status o.

Lemma keeps_same s s' : e_orders (etables s') = e_orders (etables s) -> keeps_terminal s s'.
Proof. intros H Hk. unfold keyed. rewrite H. split; [done|eauto]. Qed.

Lemma keeps_alter f id s s' :
  status_preserving f -> e_orders (etables s') = alter f id (e_orders (etables s)) ->
  keeps_terminal s s'.
Proof.
  intros Hf H Hk. split.
  - intros i o. rewrite H. destruct (decide (i = id)) as [->|Hne].
    + rewrite lookup_alter_eq, fmap_Some. intros (o0 & Ho & ->). rewrite (proj1 (Hf o0)). by apply Hk.
    + rewrite lookup_alter_ne by done. apply Hk.
  - intros i o Ho _. rewrite H. destruct (decide (i = id)) as [->|Hne].
    + exists (f o). rewrite lookup_alter_eq, Ho. split; [done|]. apply Hf.
    + exists o. by rewrite lookup_alter_ne.
Qed.

Lemma keeps_fmap f s s' :
  status_preserving f -> e_orders (etables s') = f <$> e_orders (etables s) ->
  keeps_terminal s s'.
Proof.
  intros Hf H Hk. split.
  - intros i o. rewrite H, lookup_fmap, fmap_Some. intros (o0 & Ho & ->).
    rewrite (proj1 (Hf o0)). by apply Hk.
  - intros i o Ho _. exists (f o). rewrite H, lookup_fmap, Ho. split; [done|]. apply Hf.
Qed.

(** A move of a live row. *)
Lemma keeps_moved id new s s' o :
  e_orders (etables s) !! id = Some o -> IsTerminal (eo_status o) = false ->
  moved id new s s' -> keeps_terminal s s'.
Proof.
  intros Ho Hl H Hk. unfold moved in H. split.
  - intros i o'. rewrite H. destruct (decide (i = id)) as [->|Hne].
    + rewrite lookup_alter_eq, Ho. intros [= <-]. exact (Hk _ _ Ho).
    + rewrite lookup_alter_ne by done. apply Hk.
  - intros i o' Ho' Ht. destruct (decide (i = id)) as [->|Hne]; [congruence|].
    exists o'. by rewrite H, lookup_alter_ne.
Qed.

(** Operations that keep terminal rows from every state. *)
Definition kt {A} (m : EdgeM A) : Prop := forall s, keeps_terminal s (m s).2.

Lemma kt_ret {A} (a : A) : kt (eret a).
Proof. intros s. reflexivity. Qed.
Lemma kt_fail {A} e : kt (efail (A := A) e).
Proof. intros s. reflexivity. Qed.
Lemma kt_emit e : kt (eemit e).
Proof. intros s. by apply keeps_same. Qed.
Lemma kt_seed_put id sd : kt (eseed_put id sd).
Proof. intros s. by apply keeps_same. Qed.

Lemma kt_bind {A B} (m : EdgeM A) (k : A -> EdgeM B) : kt m -> (forall a, kt (k a)) -> kt (ebind m k).
Proof.
  intros Hm Hk s. unfold ebind. specialize (Hm s). destruct (m s) as [[a|e] s1]; [|done].
  cbn [snd] in Hm. etransitivity; [exact Hm|apply Hk].
Qed.

(** A bind whose continuation may rely on what the first call returned. *)
Lemma kt_bind_at {A B} (m : EdgeM A) (k : A -> EdgeM B) s :
  keeps_terminal s (m s).2 ->
  (forall a s1, m s = (Ok a, s1) -> keyed (etables s) -> keeps_terminal s1 (k a s1).2) ->
  keeps_terminal s (ebind m k s).2.
Proof.
  intros Hm Hk. unfold ebind. destruct (m s) as [[a|e] s1] eqn:E; [|done].
  intros Hkey. specialize (Hk a s1 eq_refl Hkey). cbn [snd] in Hm.
  exact (transitivity Hm Hk Hkey).
Qed.

Lemma kt_try {A} (m : EdgeM A) : kt m -> kt (etry m).
Proof. intros Hm s. specialize (Hm s). unfold etry. by destruct (m s) as [[a|e] s1]. Qed.

Lemma kt_defer {A} id (m : EdgeM A) : kt m -> kt (edefer_drop id m).
Proof.
  intros Hm s. unfold edefer_drop. specialize (Hm s). destruct (m s) as [r s1].
  etransitivity; [exact Hm|]. by apply keeps_same.
Qed.

Lemma kt_read {A} (m : EdgeSQL A) : (forall c, db (m c).2 = db c) -> kt (esql m).
Proof.
  intros Hm s. apply keeps_same. unfold esql, etables. specialize (Hm (e_conn s)).
  destruct (m (e_conn s)) as [r c]. cbn in *. by rewrite Hm.
Qed.

Lemma kt_exec f :
  (forall d, e_orders (f d) = e_orders d \/
     (exists g id, status_preserving g /\ e_orders (f d) = alter g id (e_orders d)) \/
     (exists g, status_preserving g /\ e_orders (f d) = g <$> e_orders d)) ->
  kt (esql (exec f)).
Proof.
  intros Hf s. destruct (esql (exec f) s) as [r s1] eqn:E. apply esql_exec in E. cbn [snd].
  destruct r as [u|e]; [|apply keeps_same; by destruct E as [-> _]].
  destruct (Hf (etables s)) as [H|[(g & id & Hg & H)|(g & Hg & H)]]; rewrite <- E in H.
  - by apply keeps_same.
  - by eapply keeps_alter.
  - by eapply keeps_fmap.
Qed.

Lemma kt_update id f : status_preserving f -> kt (esql (update_by_id id f)).
Proof. intros Hf. apply kt_exec. intros d. right; left. by exists f, id. Qed.

Lemma kt_update_uuid uuid f : status_preserving f -> kt (esql (update_by_uuid uuid f)).
Proof.
  intros Hf. apply kt_exec. intros d. right; right.
  eexists. split; [|done]. intros o. by destruct (eo_uuid o =s uuid).
Qed.

Lemma lookup_tables {A} (f : EdgeDB -> option A) (c : Conn EdgeDB) :
  db ((r <-- query f ;; match r with Some o => sret o | None => sfail EeNotFound end) c).2 = db c.
Proof.
  match goal with |- db (?m c).2 = _ => destruct (m c) as [r c'] eqn:E end.
  by apply lookup_query_ok in E as [? _].
Qed.

Lemma kt_GetOrder id : kt (esql (GetOrder id)).
Proof. apply kt_read. intros c. apply lookup_tables. Qed.
Lemma kt_GetOrderByUUID u : kt (esql (GetOrderByUUID u)).
Proof. apply kt_read. intros c. apply lookup_tables. Qed.
Lemma kt_FindTask id : kt (esql (FindChangeoverNodeTaskByOrderID id)).
Proof. apply kt_read. intros c. apply lookup_tables. Qed.
Lemma kt_task id f : kt (esql (update_task id f)).
Proof. apply kt_exec. by left. Qed.
Lemma kt_outbox m : kt (esql (EnqueueOutbox m)).
Proof. apply kt_exec. by left. Qed.

Lemma kt_Transition id new detail : kt (Transition id new detail).
Proof.
  intros s Hk. pose proof (Transition_run id new detail s Hk) as H.
  destruct (Transition id new detail s) as [[u|e] s1]; cbn [snd].
  - destruct H as (o & Ho & [(Hv & Hm & _)|(_ & _ & Ht)]).
    + by apply (keeps_moved id new s s1 o Ho (valid_source_live _ _ Hv) Hm).
    + apply keeps_same; [by rewrite Ht|done].
  - apply keeps_same; [by rewrite (proj1 H)|done].
Qed.

(** Forcing is safe exactly where the row is live. *)
Lemma Force_live id new detail s :
  (forall o, e_orders (etables s) !! id = Some o -> IsTerminal (eo_status o) = false) ->
  keeps_terminal s (ForceTransition id new detail s).2.
Proof.
  intros Hl Hk. pose proof (ForceTransition_run id new detail s Hk) as H.
  destruct (ForceTransition id new detail s) as [[u|e] s1]; cbn [snd].
  - destruct H as (o & Ho & [(_ & Ht)|(_ & Hm & _)]).
    + apply keeps_same; [by rewrite Ht|done].
    + by apply (keeps_moved id new s s1 o Ho (Hl o Ho) Hm).
  - apply keeps_same; [by rewrite H|done].
Qed.

#[export] Hint Resolve kt_ret kt_fail kt_emit kt_seed_put kt_bind kt_try kt_defer kt_update
  kt_update_uuid kt_GetOrder kt_GetOrderByUUID kt_FindTask kt_task kt_outbox kt_Transition : shingo.

(** Decompose a [kt] goal down to store calls. *)
Ltac kts_with tac :=
  repeat first
    [ tac | apply kt_Transition
    | apply kt_bind; [|intros ?] | apply kt_try | apply kt_defer | apply kt_ret | apply kt_fail
    | apply kt_emit | apply kt_seed_put | apply kt_GetOrder
    | apply kt_GetOrderByUUID | apply kt_FindTask | apply kt_task | apply kt_outbox
    | apply kt_update; by intros ? | apply kt_update_uuid; by intros ? | case_match ].
Ltac kts := kts_with fail.

Lemma kt_mirror id target detail : kt (mirrorTransition id target detail).
Proof.
  intros s. unfold mirrorTransition, TransitionOrder.
  pose proof (kt_Transition id target detail s) as H1.
  destruct (Transition id target detail s) as [[u|e] s1]; [done|]. cbn [snd] in H1.
  destruct e; try done. etransitivity; [exact H1|].
  destruct (esql (GetOrder id) s1) as [r s2] eqn:E.
  assert (H2 : keeps_terminal s1 s2).
  { pose proof (kt_GetOrder id s1) as H2. by rewrite E in H2. }
  apply GetOrder_run in E as [Ht Ho]. etransitivity; [exact H2|].
  destruct r as [o|e]; [|reflexivity].
  destruct (IsForwardJump (eo_status o) target) eqn:Hj; cbn [negb]; [|reflexivity].
  apply Force_live. intros o'. rewrite Ht, Ho. intros [= <-]. by eapply forward_jump_live.
Qed.

(** A forced move on the row the call has just read and found live. *)
Lemma kt_force_after_read uuid (ok : EOrder -> bool) new detail :
  (forall o, ok o = true -> IsTerminal (eo_status o) = false) ->
  kt (order <~ esql (GetOrderByUUID uuid) ;;
      if ok order then ForceTransition (eo_id order) new detail else eret ()).
Proof.
  intros Hok s. apply kt_bind_at; [apply kt_GetOrderByUUID|].
  intros o s1 [Ht Ho]%GetOrderByUUID_run Hk. destruct (ok o) eqn:E; [|reflexivity].
  apply Force_live. intros o'. rewrite Ht. destruct (by_uuid_row _ _ _ Hk Ho) as [Hr _].
  rewrite Hr. intros [= <-]. auto.
Qed.

Lemma kt_push uuid core detail : kt (HandleCoreStatusPush uuid core detail).
Proof.
  unfold HandleCoreStatusPush, ApplyCoreStatus.
  destruct (contains _ core); [|destruct (core =s StatusConfirmed); [|kts]].
  all: intros s; pose proof (kt_force_after_read uuid (fun o => negb (IsTerminal (eo_status o)))
    core detail ltac:(intros o; apply negb_true_iff) s) as H;
    unfold ebind in *; destruct (esql (GetOrderByUUID uuid) s) as [[o|e] s1]; [|done];
    cbn [snd] in *; by destruct (IsTerminal (eo_status o)).
Qed.

Lemma kt_rejection uuid detail : kt (RollbackReleaseRejection uuid detail).
Proof.
  intros s. pose proof (kt_force_after_read uuid (fun o => eo_status o =s StatusInTransit)
    StatusStaged detail ltac:(intros o ->%String.eqb_eq; reflexivity) s) as H.
  unfold RollbackReleaseRejection, ebind in *.
  destruct (esql (GetOrderByUUID uuid) s) as [[o|e] s1]; [|done].
  cbn [snd] in *. by destruct (eo_status o =s StatusInTransit).
Qed.

Lemma kt_ConfirmDelivery id n : kt (ConfirmDelivery id n).
Proof. unfold ConfirmDelivery, TransitionOrder, UpdateOrderFinalCount. kts. Qed.

Lemma kt_handleDelivered o d t b u ep dest : kt (handleDelivered o d t b u ep dest).
Proof.
  unfold handleDelivered, HandleDelivered, UpdateOrderStagedExpireAt, UpdateOrderBinID.
  kts_with ltac:(apply kt_ConfirmDelivery).
Qed.

Lemma kt_DeliveredWithExpiry u d t b uop ep dn dest :
  kt (HandleDeliveredWithExpiry u d t b uop ep dn dest).
Proof.
  intros s. unfold HandleDeliveredWithExpiry.
  pose proof (kt_GetOrderByUUID u s) as H.
  destruct (esql (GetOrderByUUID u) s) as [[o|e] s1]; cbn [snd] in H;
    (etransitivity; [exact H|]); [apply kt_handleDelivered|].
  destruct b; [destruct (dn <>s "")|]; [|reflexivity..]. by apply keeps_same.
Qed.

Lemma kt_reply u r w eta d : kt (HandleDispatchReply u r w eta d).
Proof.
  unfold HandleDispatchReply, TransitionOrder, UpdateOrderWaybill, UpdateOrderETA.
  kts_with ltac:(first [apply kt_mirror|apply kt_handleDelivered]).
Qed.

(** ** The operations that keep ended orders ended *)

Inductive LiveOp :=
| LReply (uuid replyType waybill eta detail : string)
| LDelivered (uuid detail : string) (expire bin uop : option Z) (epoch : Z) (node dest : string)
| LPush (uuid : string) (core : Status) (detail : string)
| LRejected (uuid detail : string)
| LRelease (id : Z) (uop : option Z) (by_ : string)
| LAbort (id : Z) (reason : string)
| LRedirect (id : Z) (node : string)
| LSubmit (id : Z)
| LConfirm (id count : Z)
| LQueueReason (uuid reason code : string)
| LETA (uuid eta : string).

Definition run_live (op : LiveOp) (s : Edge) : Edge :=
  match op with
  | LReply u r w eta d => (HandleDispatchReply u r w eta d s).2
  | LDelivered u d t b uop ep n dest => (HandleDeliveredWithExpiry u d t b uop ep n dest s).2
  | LPush u c d => (HandleCoreStatusPush u c d s).2
  | LRejected u d => (RollbackReleaseRejection u d s).2
  | LRelease id uop by_ => (ReleaseOrder id uop by_ s).2
  | LAbort id r => (AbortOrderWithReason id r s).2
  | LRedirect id n => (RedirectOrder id n s).2
  | LSubmit id => (SubmitOrder id s).2
  | LConfirm id n => (ConfirmDelivery id n s).2
  | LQueueReason u r c => (SetOrderQueueReason u r c s).2
  | LETA u eta => (SetOrderETA u eta s).2
  end.

Lemma run_live_keeps op s : keeps_terminal s (run_live op s).
Proof.
  destruct op; cbn [run_live].
  - apply kt_reply.
  - apply kt_DeliveredWithExpiry.
  - apply kt_push.
  - apply kt_rejection.
  - revert s. change (kt (ReleaseOrder id uop by_)).
    unfold ReleaseOrder, ReleaseOrderWithDisposition, TransitionOrder. kts.
  - revert s. change (kt (AbortOrderWithReason id reason)).
    unfold AbortOrderWithReason, TransitionOrder. kts.
  - revert s. change (kt (RedirectOrder id node)).
    unfold RedirectOrder, UpdateOrderDeliveryNode. kts.
  - revert s. change (kt (SubmitOrder id)). unfold SubmitOrder, TransitionOrder. kts.
  - apply kt_ConfirmDelivery.
  - revert s. change (kt (SetOrderQueueReason uuid reason code)).
    unfold SetOrderQueueReason, db_SetOrderQueueReason, stampAwaitingMaterial. kts.
  - revert s. change (kt (SetOrderETA uuid eta)). unfold SetOrderETA, UpdateOrderETA. kts.
Qed.

(** ** Healthy runs *)

Definition healthy (s : Edge) : Prop := faults (e_conn s) = [].

Lemma healthy_exec f s :
  healthy s -> esql (exec f) s = (Ok (), mkEdge (mkConn (f (etables s)) []) (e_emitted s) (seeds s)).
Proof. intros H. unfold esql, exec, stmt. by rewrite H. Qed.

Lemma healthy_self s : healthy s -> mkEdge (mkConn (etables s) []) (e_emitted s) (seeds s) = s.
Proof. intros H. destruct s as [[d fs] em sd]. unfold healthy in H. cbn in *. by subst. Qed.

Lemma healthy_lookup {A} (f : EdgeDB -> option A) s a :
  healthy s -> f (etables s) = Some a ->
  esql (r <-- query f ;; match r with Some o => sret o | None => sfail EeNotFound end) s = (Ok a, s).
Proof.
  intros H Hf. unfold esql, sbind, query, stmt. rewrite H. fold (etables s). rewrite Hf. unfold sret.
  by rewrite healthy_self.
Qed.

Lemma healthy_GetOrder id s o :
  healthy s -> e_orders (etables s) !! id = Some o -> esql (GetOrder id) s = (Ok o, s).
Proof. intros H Ho. by apply (healthy_lookup (fun d => e_orders d !! id)). Qed.

Lemma healthy_announce order new detail s s' u :
  announce order new detail s = (u, s') -> healthy s -> healthy s'.
Proof.
  assert (Hstmt : forall A (m : EdgeSQL A) t, (forall c, faults c = [] -> faults (m c).2 = []) ->
    healthy t -> healthy (etry (esql m) t).2).
  { intros A m t Hm Ht. unfold etry, esql, healthy in *. specialize (Hm _ Ht).
    by destruct (m (e_conn t)) as [[?|?] c]. }
  unfold announce. cbv zeta. intros E Hs. revert E.
  pose proof (Hstmt _ (InsertOrderHistory (eo_id order) (eo_status order) new detail) s) as H1.
  unfold ebind at 1. destruct (etry (esql (InsertOrderHistory _ _ _ _)) s) as [[x1|e1] s1] eqn:E1;
    [|by (unfold etry in E1; destruct (esql _ s) as [[?|?] ?])].
  assert (Hs1 : healthy s1).
  { apply H1; [|done]. intros c Hc. unfold InsertOrderHistory, exec, stmt. by rewrite Hc. }
  pose proof (Hstmt _ (GetOrder (eo_id order)) s1) as H2.
  unfold ebind at 1. destruct (etry (esql (GetOrder _)) s1) as [[x2|e2] s2] eqn:E2;
    [|by (unfold etry in E2; destruct (esql _ s1) as [[?|?] ?])].
  assert (Hs2 : healthy s2).
  { apply H2; [|done]. intros c Hc. unfold GetOrder, sbind, query, stmt. rewrite Hc.
    by destruct (_ !! _). }
  unfold ebind, eemit, eret, eseed_take, healthy in *.
  destruct (new =s StatusDelivered), (IsTerminal new), (new =s StatusFailed);
    repeat case_match; intros; simplify_eq; done.
Qed.

Lemma healthy_apply order new detail s :
  healthy s -> exists s', applyTransition order new detail s = (Ok (), s') /\ healthy s' /\
    moved (eo_id order) new s s'.
Proof.
  intros H. unfold applyTransition, ebind, UpdateOrderStatus, update_by_id.
  rewrite healthy_exec by done.
  match goal with |- context [announce _ _ _ ?x] => set (s1 := x) end.
  destruct (announce_run order new detail s1) as (s2 & E & Ho & _). exists s2.
  split_and!; [done|by eapply healthy_announce|]. unfold moved. by rewrite Ho.
Qed.

Lemma healthy_Transition id new detail s o :
  healthy s -> keyed (etables s) -> e_orders (etables s) !! id = Some o ->
  if IsValidTransition (eo_status o) new then
    exists s', Transition id new detail s = (Ok (), s') /\ healthy s' /\ moved id new s s'
  else Transition id new detail s =
    (if (eo_status o =s new) || IsTerminal (eo_status o) then Ok ()
     else Err (EeInvalidTransition (eo_status o) new), s).
Proof.
  intros H Hk Ho. unfold Transition, ebind. rewrite (healthy_GetOrder _ _ _ H Ho).
  destruct (IsValidTransition (eo_status o) new); cbn [negb].
  - rewrite <- (Hk _ _ Ho). by apply healthy_apply.
  - by destruct (_ || _).
Qed.

Lemma healthy_Force id new detail s o :
  healthy s -> keyed (etables s) -> e_orders (etables s) !! id = Some o -> eo_status o <> new ->
  exists s', ForceTransition id new detail s = (Ok (), s') /\ healthy s' /\ moved id new s s'.
Proof.
  intros H Hk Ho Hne. unfold ForceTransition, ebind. rewrite (healthy_GetOrder _ _ _ H Ho).
  rewrite (seqb_neq _ _ Hne), <- (Hk _ _ Ho). by apply healthy_apply.
Qed.

Lemma moved_status id new s s' o :
  moved id new s s' -> e_orders (etables s) !! id = Some o ->
  e_orders (etables s') !! id = Some (eset_status new o).
Proof. unfold moved. intros -> Ho. by rewrite lookup_alter_eq, Ho. Qed.

(** ** The claims *)

Definition demo_eorder (id : Z) (uuid : string) (st : Status) : EOrder :=
  mkEOrder id uuid "retrieve" st None None None None None false "LINE_1" (Some 7%Z) false 1 "" ""
    noFault.

Definition demo_edge : Edge :=
  mkEdge (mkConn (mkEdgeDB
    (list_to_map [(1%Z, demo_eorder 1 "a" StatusReshuffling);
                  (2%Z, demo_eorder 2 "b" StatusConfirmed);
                  (3%Z, demo_eorder 3 "c" StatusInTransit)]) [] [] []) []) [] ∅.

Lemma demo_keyed : keyed (etables demo_edge).
Proof.
  intros id o H. cbn in H.
  repeat (apply lookup_insert_Some in H as [[<- <-]|[_ H]]; [done|]).
  by rewrite lookup_empty in H.
Qed.

(** C39. The mirror follows Core across missed messages.  On a healthy connection,
    when Core reports a status it has legally reached from the one the Edge last
    saw - along any path of the table, adjacent or not - the mirror accepts the
    report and the row is at that status afterwards; a row that has ended
    accepts every report without moving; and a status Core could not have
    reached from there is refused and changes nothing. *)
Theorem mirror_follows_core (id : Z) (target : Status) (detail : string) (s : Edge) (o : EOrder) :
  healthy s -> keyed (etables s) -> e_orders (etables s) !! id = Some o ->
  let '(res, s') := mirrorTransition id target detail s in
  (tc (edge successors) (eo_status o) target ->
     res = Ok () /\ exists o', e_orders (etables s') !! id = Some o' /\ eo_status o' = target) /\
  (IsTerminal (eo_status o) = true -> res = Ok () /\ s' = s) /\
  (IsTerminal (eo_status o) = false -> eo_status o <> target ->
   ~ tc (edge successors) (eo_status o) target ->
     res = Err (EeInvalidTransition (eo_status o) target) /\ s' = s).
Proof.
  intros H Hk Ho. pose proof (healthy_Transition id target detail s o H Hk Ho) as HT.
  unfold mirrorTransition, TransitionOrder.
  destruct (IsValidTransition (eo_status o) target) eqn:Hv.
  { destruct HT as (s1 & -> & _ & Hm). pose proof (valid_source_live _ _ Hv) as Hl.
    split_and!; [|by rewrite Hl|].
    - intros _. split; [done|]. eexists. split; [by eapply moved_status|done].
    - intros _ _ Hn. destruct Hn. by apply tc_once, edge_is_valid. }
  rewrite HT. destruct (eqb_spec_s (eo_status o) target) as [Hs|Hs]; cbn [orb].
  { split_and!; [intros _; split; [done|]; by exists o|done|done]. }
  destruct (IsTerminal (eo_status o)) eqn:Ht.
  { split_and!; [|done|done]. intros Hp%tc_first_edge. congruence. }
  rewrite (healthy_GetOrder _ _ _ H Ho).
  destruct (IsForwardJump (eo_status o) target) eqn:Hj; cbn [negb].
  - destruct (healthy_Force id target (jump_detail (eo_status o) target detail) s o H Hk Ho Hs)
      as (s1 & -> & _ & Hm).
    split_and!; [|done|].
    + intros _. split; [done|]. eexists. split; [by eapply moved_status|done].
    + intros _ _ Hn. by apply forward_jump_path in Hj.
  - split_and!; [|done|done]. intros Hp%path_classify; [|done]. destruct Hp; congruence.
Qed.

Lemma mirror_follows_core_witness :
  let r := mirrorTransition 1 StatusStaged "" demo_edge in
  r.1 = Ok () /\ exists o', e_orders (etables r.2) !! 1%Z = Some o' /\ eo_status o' = StatusStaged.
Proof.
  intros r. pose proof (mirror_follows_core 1 StatusStaged "" demo_edge
    (demo_eorder 1 "a" StatusReshuffling) eq_refl demo_keyed eq_refl) as H.
  fold r in H. destruct r as [res s']. apply H.
  apply path_classify; [done|]. right. reflexivity.
Defined.

(** On the Edge an ended order stays ended: from any state, any sequence of
    replies, deliveries, Core pushes, release rejections, releases, aborts,
    redirects, submits, confirmations, queue reasons and ETA stamps, with
    driver faults anywhere, leaves the status of every terminal row unchanged. *)
Theorem edge_terminal_final (ops : list LiveOp) (s : Edge) (id : Z) (o : EOrder) :
  keyed (etables s) -> e_orders (etables s) !! id = Some o ->
  IsTerminal (eo_status o) = true ->
  exists o', e_orders (etables (fold_left (fun s op => run_live op s) ops s)) !! id = Some o' /\
    eo_status o' = eo_status o.
Proof.
  intros Hk Ho Ht.
  assert (H : keeps_terminal s (fold_left (fun s op => run_live op s) ops s)).
  { clear. revert s. induction ops as [|op ops IH]; intros s; [reflexivity|].
    cbn [fold_left]. etransitivity; [apply run_live_keeps|apply IH]. }
  by apply (proj2 (H Hk)).
Qed.

(** A retry rollback has no such guard: when Core answers a release with
    manifest_sync_failed after the order has already ended on the Edge, the
    rollback puts the finished row back to [staged]. *)
Theorem rollback_for_retry_resurrects (uuid detail : string) (s : Edge) (o : EOrder) :
  healthy s -> keyed (etables s) -> by_uuid uuid (etables s) = Some o ->
  let '(res, s') := RollbackForRetry uuid detail s in
  res = Ok () /\
  exists o', e_orders (etables s') !! eo_id o = Some o' /\ eo_status o' = StatusStaged.
Proof.
  intros H Hk Hu. pose proof (by_uuid_row _ _ _ Hk Hu) as [Ho _].
  unfold RollbackForRetry, ebind, GetOrderByUUID. rewrite (healthy_lookup _ _ o H Hu).
  destruct (decide (eo_status o = StatusStaged)) as [Hs|Hs].
  - unfold ForceTransition, ebind. rewrite (healthy_GetOrder _ _ _ H Ho), Hs. cbn. split; [done|].
    by exists o.
  - destruct (healthy_Force (eo_id o) StatusStaged detail s o H Hk Ho Hs) as (s1 & -> & _ & Hm).
    split; [done|]. eexists. split; [by eapply moved_status|done].
Qed.

(** Core hears of an abort before the Edge acts on it.  Whatever faults
    strike, AbortOrder leaves every row as it was when it fails, and when it
    succeeds the order was live, its row is cancelled, and the cancel message
    is in the outbox - so a locally cancelled order never leaves a robot
    running that Core was not told to stop. *)
Theorem abort_tells_core_first (id : Z) (reason : string) (s : Edge) :
  keyed (etables s) ->
  let '(res, s') := AbortOrderWithReason id reason s in
  match res with
  | Err _ => rows_same s s'
  | Ok _ => exists o, e_orders (etables s) !! id = Some o /\
      IsTerminal (eo_status o) = false /\
      e_orders (etables s') !! id = Some (eset_status StatusCancelled o) /\
      e_outbox (etables s') = e_outbox (etables s) ++ [OrderCancelMsg (eo_uuid o) reason]
  end.
Proof.
  intros Hk. unfold AbortOrderWithReason, TransitionOrder, ebind, rows_same.
  destruct (esql (GetOrder id) s) as [[o|e] s1] eqn:E1; apply GetOrder_run in E1 as [Ht1 Ho];
    [|by rewrite Ht1].
  destruct (IsTerminal (eo_status o)) eqn:Hte; [by unfold efail; rewrite Ht1|].
  destruct (esql (EnqueueOutbox _) s1) as [[u|e] s2] eqn:E2; apply esql_exec in E2;
    [|by rewrite (proj1 E2), Ht1].
  assert (Hk2 : keyed (etables s2)) by (rewrite E2, Ht1; exact Hk).
  pose proof (Transition_run id StatusCancelled reason s2 Hk2) as H3.
  destruct (Transition id StatusCancelled reason s2) as [[u3|e3] s3].
  2: { rewrite (proj1 H3), E2, Ht1. done. }
  assert (Ho2 : e_orders (etables s2) !! id = Some o) by (rewrite E2, Ht1; exact Ho).
  destruct H3 as (o' & Ho' & Hcase). rewrite Ho2 in Ho'. injection Ho' as <-.
  exists o. split_and!; [done|done| |].
  - destruct Hcase as [(_ & Hm & _)|(_ & [Hs|Hc] & Ht3)]; [by eapply moved_status| |congruence].
    rewrite Hs in Hte. discriminate Hte.
  - destruct Hcase as [(_ & _ & -> & _)|(_ & _ & ->)]; by rewrite E2, Ht1.
Qed.

(** ** Boot reconciliation *)

Lemma healthy_try_update uuid f s :
  healthy s -> status_preserving f ->
  exists x s', etry (esql (update_by_uuid uuid f)) s = (Ok x, s') /\ healthy s' /\
    e_orders (etables s') =
      (fun o => if eo_uuid o =s uuid then f o else o) <$> e_orders (etables s).
Proof.
  intros H Hf. unfold etry, update_by_uuid. rewrite healthy_exec by done.
  eexists _, _. by split_and!.
Qed.

(** Rows agree on id and status. *)
Definition same_statuses (s s' : Edge) : Prop :=
  forall id o, e_orders (etables s) !! id = Some o ->
    exists o', e_orders (etables s') !! id = Some o' /\ eo_status o' = eo_status o.

Lemma update_same_statuses uuid f s s' :
  status_preserving f -> keyed (etables s) ->
  e_orders (etables s') = (fun o => if eo_uuid o =s uuid then f o else o) <$> e_orders (etables s) ->
  keyed (etables s') /\ same_statuses s s'.
Proof.
  intros Hf Hk He. set (g := fun o => if eo_uuid o =s uuid then f o else o).
  assert (Hg : forall o, eo_id (g o) = eo_id o /\ eo_status (g o) = eo_status o).
  { intros o. unfold g. by destruct (eo_uuid o =s uuid). }
  split.
  - intros id o. rewrite He, lookup_fmap, fmap_Some. intros (o0 & Ho & ->).
    change (eo_id (g o0) = id). rewrite (proj1 (Hg o0)). by apply Hk.
  - intros id o Ho. exists (g o). rewrite He, lookup_fmap, Ho. split; [done|]. apply Hg.
Qed.

(** The two best-effort writes of a snapshot: run or skipped, the connection
    stays healthy and statuses stay put. *)
Lemma healthy_optional (b : bool) uuid f s :
  healthy s -> keyed (etables s) -> status_preserving f ->
  exists x s', (if b then etry (esql (update_by_uuid uuid f)) else eret None) s = (Ok x, s') /\
    healthy s' /\ keyed (etables s') /\ same_statuses s s'.
Proof.
  intros H Hk Hf. destruct b.
  - destruct (healthy_try_update uuid f s H Hf) as (x & s' & E & Hh & He).
    eexists _, _. split; [exact E|]. split; [done|]. by eapply update_same_statuses.
  - eexists _, s. split; [reflexivity|]. split_and!; [done..|]. intros id o Ho. by exists o.
Qed.

(** The fault clock a snapshot writes or clears. *)
Lemma healthy_fault_clock (sn : Snapshot) (o : EOrder) s :
  healthy s -> keyed (etables s) ->
  exists x s1,
    (if sn_status sn =s StatusFaulted
     then etry (esql (SetOrderFaultClock (eo_uuid o) (sn_fault sn)))
     else match fc_since (eo_fault o) with
          | Some _ => etry (esql (SetOrderFaultClock (eo_uuid o) noFault))
          | None => eret None
          end) s = (Ok x, s1) /\ healthy s1 /\ keyed (etables s1) /\ same_statuses s s1.
Proof.
  intros H Hk. unfold SetOrderFaultClock. destruct (sn_status sn =s StatusFaulted).
  - by apply (healthy_optional true (eo_uuid o) (eset_fault (sn_fault sn))).
  - destruct (fc_since (eo_fault o)).
    + by apply (healthy_optional true (eo_uuid o) (eset_fault noFault)).
    + by apply (healthy_optional false (eo_uuid o) (eset_fault noFault)).
Qed.

(** Where the switch leaves the row, for every status of the vocabulary. *)
Definition adopted (snap cur : Status) : Status :=
  if (snap =s StatusPending) || (snap =s StatusSubmitted) then cur else snap.

Lemma healthy_switch (o o2 : EOrder) (snap : Status) (detail : string) s :
  healthy s -> keyed (etables s) -> e_orders (etables s) !! eo_id o = Some o2 ->
  eo_status o2 = eo_status o -> snap ∈ AllStatuses -> snap <> eo_status o ->
  exists s' o', snapshot_switch o snap detail s = (Ok (), s') /\
    e_orders (etables s') !! eo_id o = Some o' /\ eo_status o' = adopted snap (eo_status o).
Proof.
  intros H Hk Ho2 Hstat Hs Hdiff. unfold snapshot_switch, adopted.
  assert (Hforce : exists s3, ForceTransition (eo_id o) snap detail s = (Ok (), s3) /\
    moved (eo_id o) snap s s3).
  { destruct (healthy_Force (eo_id o) snap detail s o2 H Hk Ho2) as (s3 & E & _ & M);
      [congruence|eauto]. }
  destruct Hforce as (s3 & Ef & M).
  pose proof (vocab_check (fun st => Bool.eqb ((st =s StatusConfirmed) || contains snapshotForced st)
    (negb ((st =s StatusPending) || (st =s StatusSubmitted)))) eq_refl _ Hs) as Hv.
  cbv beta in Hv. apply Bool.eqb_prop in Hv.
  destruct (eqb_spec_s snap StatusConfirmed) as [Hc|Hc].
  - rewrite Hc in *. destruct (eqb_spec_s (eo_status o) StatusDelivered) as [Hd|Hd].
    + pose proof (healthy_Transition (eo_id o) StatusConfirmed detail s o2 H Hk Ho2) as HT.
      rewrite Hstat, Hd in HT. destruct HT as (s4 & -> & _ & M4).
      eexists _, _. split; [done|]. split; [by eapply moved_status|done].
    + rewrite Ef. eexists _, _. split; [done|]. split; [by eapply moved_status|done].
  - cbn [orb] in Hv. destruct (contains snapshotForced snap).
    + symmetry in Hv. apply negb_true_iff in Hv. rewrite Hv, Ef.
      eexists _, _. split; [done|]. split; [by eapply moved_status|done].
    + symmetry in Hv. apply negb_false_iff in Hv. rewrite Hv. by exists s, o2.
Qed.

(** Boot reconciliation adopts Core's status.  On a healthy connection, when
    Core's snapshot found the order, the Edge row is at Core's status afterwards
    whatever it was before - for every status of the vocabulary except
    [pending] and [submitted], which never reconcile - and the call succeeds. *)
Theorem snapshot_adopts_core (sn : Snapshot) (s : Edge) (o : EOrder) :
  healthy s -> keyed (etables s) -> by_uuid (sn_uuid sn) (etables s) = Some o ->
  sn_found sn = true -> sn_status sn ∈ AllStatuses ->
  let '(res, s') := ApplyCoreStatusSnapshot sn s in
  res = Ok () /\
  exists o', e_orders (etables s') !! eo_id o = Some o' /\
    eo_status o' = (if (sn_status sn =s StatusPending) || (sn_status sn =s StatusSubmitted)
                    then eo_status o else sn_status sn).
Proof.
  intros H Hk Hu Hf Hs. pose proof (by_uuid_row _ _ _ Hk Hu) as [Ho _].
  unfold ApplyCoreStatusSnapshot, ebind at 1, GetOrderByUUID.
  rewrite (healthy_lookup _ _ o H Hu), Hf.
  destruct (healthy_fault_clock sn o s H Hk) as (x & s1 & E1 & H1 & Hk1 & Hst1).
  unfold ebind at 1. rewrite E1. cbn [negb orb].
  destruct (Hst1 _ _ Ho) as (o1 & Ho1 & Es1).
  assert (Hne : (sn_status sn =s "") = false).
  { pose proof (vocab_check (fun st => negb (st =s "")) eq_refl _ Hs) as Hc.
    by apply negb_true_iff in Hc. }
  rewrite Hne. cbn [orb].
  destruct (eqb_spec_s (sn_status sn) (eo_status o)) as [Heq|Hdiff].
  { split; [done|]. exists o1. split; [done|]. rewrite Es1. by destruct (_ || _). }
  unfold db_SetOrderQueueReason.
  destruct (healthy_optional ((sn_queue_reason sn <>s "") || (eo_queue_reason o <>s ""))
    (eo_uuid o) (eset_queue (sn_queue_reason sn) (sn_queue_code sn)) s1 H1 Hk1 ltac:(by intros ?))
    as (x2 & s2 & E2 & H2 & Hk2 & Hst2).
  unfold ebind at 1. rewrite E2. destruct (Hst2 _ _ Ho1) as (o2 & Ho2 & Es2).
  destruct (healthy_switch o o2 (sn_status sn) "startup reconciliation with core" s2 H2 Hk2 Ho2
    ltac:(congruence) Hs Hdiff) as (s3 & o' & -> & Ho' & Est).
  split; [done|]. by exists o'.
Qed.

